(* ===== verification/_CoqProject ===== *)
-Q . S2P
Prelude.v
GoFloat.v
Decimal.v
DecimalInstance.v
Model.v
Amount.v
Balance.v
Distribution.v
Sha256.v
GoTime.v
Lock.v
Chain.v
Policy.v
PolicyStore.v
Access.v
Store.v
Lifecycle.v
Engine.v
Inflight.v
Coalesce.v
Queue.v
Split.v
Lineage.v
Actions.v
Effect.v
Batch.v
Journal.v
Refine.v
History.v
FrontDoor.v
Worker.v
HotPairs.v
BatchEquiv.v
DryRun.v
DryRunFacts.v
Filter.v
FilterFacts.v
Tokens.v
Reconcile.v
Grouping.v
Reconciler.v
ReconcilerFacts.v
Outbox.v
Recovery.v
