(* ===== verification/Prelude.v ===== *)
(** * LedgerForge: a verification development

    LedgerForge is a double-entry ledger in Go over PostgreSQL, Redis and an
    asynq queue.  A client submits transactions over HTTP; the core
    ([internal/core]) validates and prices them ([model]), admits them against
    the spending policy of the client's key ([internal/policy]), stores them as
    intents and queues them, or records them at once.  Recording takes Redis
    locks ([internal/lock]), reads two balances, computes new ones and stores
    them with the transaction row in one database transaction ([database]),
    where triggers guard the life of holds and the admissions.  Holds are
    committed and voided, transactions are refunded, rows are sealed in a hash
    chain, and a worker repeats the movements of tracked balances per provider
    of funds (lineage).  Queued transactions are executed by workers, alone or
    coalesced in batches ([internal/core], [cmd/ledgerforge]), routed by the
    contention of their pair of balances ([internal/hotpairs]) and recovered
    when they are stuck.  Around this the service previews transactions (dry
    runs), takes snapshots and answers for balances at past instants, lists
    records by filters ([internal/filter]) and reconciles the ledger with
    uploaded records ([internal/reconciliation]).

    ** Files, in order of dependency

    - [Prelude]: errors and results, integers, decimal texts, lists, sums over
      finite maps, the tactics and hints shared by all files.
    - [GoFloat], [GoTime], [Sha256]: what the code uses of Go's float64, time
      and crypto/sha256, executable.
    - [Decimal]: the interface of the decimal library (third-party) as a class
      of operations with laws; [DecimalInstance] implements it and proves the
      laws, so that no theorem rests on an assumption that cannot hold.
    - [Lock]: internal/lock/lock.go over a model of Redis; histories of
      commands as a step relation.
    - [Model], [Amount], [Balance], [Distribution]: the structs and the
      arithmetic of model/: amounts and precision, balance updates and
      overdraft, distribution of a total over legs.
    - [Chain]: model/chain.go and database/chain.go.
    - [Policy], [PolicyStore]: internal/policy and database/policy*.go.
    - [Access]: api/middleware/{scope,auth}.go, api/apikeys.go,
      database/api_key.go: scopes, keys, the authentication decision.
    - [Store]: the tables ([ledger_db]), the insert triggers of
      internal/core/sql, inserts, versioned balance updates and the reads of
      database/*.go.  [Lifecycle]: what the triggers guarantee over all
      histories of inserts.
    - [Engine]: the state and error monad [M] of the handlers, and the executor
      (transaction_execution.go, transaction_rejection.go, core/balance.go).
      [Inflight]: commits and voids of holds, with lineage shadows, per parent
      and in bulk (transaction_inflight.go, lineage_shadow.go).  [Queue]: the
      front door (transaction_queue.go, transaction_refunds.go,
      transaction_bulk.go, transaction_batch_processing.go, core/policy.go,
      the queue worker).  [Split]: the legs of a split.  [Lineage]: allocation
      of debits over providers, the outbox and its worker (lineage_*.go,
      database/lineage.go).
    - [Coalesce]: batches of queued transactions on shared balance objects
      (transaction_coalescing.go, database/transaction_coalescing.go).
    - [Actions]: theorems on the loops around commits and voids.
    - [Effect]: what a row does to the balances it names; [Batch]: the same for
      the rows and writes of a batch.
    - [Journal]: runs of the store as a step relation; [Refine], [FrontDoor],
      [Worker], [Outbox], [Recovery]: the handlers only perform such runs.
      [Worker] holds the queue worker (workers.go and
      processQueuedTransaction), [Recovery] the recovery of stuck transactions
      (queue_recovery.go, database/transaction_recovery.go).
    - [BatchEquiv]: a batch equals its transactions one after another.
    - [History]: snapshots and balances at an instant (database/balance.go and
      the SQL function it calls).
    - [HotPairs]: internal/hotpairs, with the names of the queues
      (core/queue.go).
    - [DryRun]: transaction_dryrun*.go; [DryRunFacts]: its theorems.
    - [Filter]: internal/filter and the statements of the five filtered
      listings; [FilterFacts]: its theorems.
    - [Tokens]: internal/tokenization and the tokenized fields of identities
      (core/identity.go, database/identity.go); AES-GCM is an interface.
    - [Reconcile]: rules, matching of one transaction, uploads, tables and
      caches of internal/reconciliation, internal/files and
      database/reconciliation.go; [Grouping]: the goroutines that match groups,
      as a step relation; [Reconciler]: strategies and whole runs;
      [ReconcilerFacts]: their theorems.

    ** State and operations

    The database is the record [ledger_db]; a statement or database transaction
    of the source is a function on it, a handler is a value of [M] that threads
    it and may fail, leaving the state as it is at that point.  Definitions keep
    the names of the source; PROJECT.json maps each to its lines.  Third-party
    code and the environment are parameters: the decimal library, bcrypt, the
    generator of ids, hooks, the outcome of taking a lock and of queueing, the
    clock.  Amounts are unbounded integers, as the source's big.Int; float64 is
    bit-exact; a nil pointer is [None].

    ** What the theorems show

    - The money: every balance equals the sum of the effects of the transaction
      rows that name it, and the balances sum to zero, in every run of the
      store, where postings may be computed from reads of any age
      ([Journal]); every handler, on every path and error, performs such a run
      ([Refine], [FrontDoor], [Outbox]).  So the two results hold of the program
      without relying on its locks.
    - The same for the worker with its batches ([Worker]) and for the recovery
      ([Recovery]); a batch is its sequence ([BatchEquiv]); a job delivered
      again, or recovered again, executes nothing ([Worker], [Recovery]); the
      journal is append-only.
    - The past: a balance at an instant is the sum of what was effective by
      then, from snapshots as from the source; snapshots in batches are one
      insert ([History]).
    - Previews write nothing and predict the posting ([DryRunFacts]).
    - Listings: the SQL text never depends on the values ([FilterFacts]).
    - Tokens: a tokenized field gives its value back ([Tokens]).
    - Reconciliation: in every interleaving a group is claimed once, one page of
      groups is settled in bounded time, a run reports what it recorded, stored
      rules are well formed ([Grouping], [ReconcilerFacts]).
    - Holds: never settled beyond their amount, refunded once and exactly
      ([Lifecycle]); retries do not act twice, paging ends and visits each leg
      once, bulk outcomes are in order ([Actions]).
    - Arithmetic: parsing is exact, amounts round-trip, splits conserve their
      total down to the legs, overdraft rules hold, commits and voids undo holds
      ([Amount], [Balance], [Distribution], [Split]).
    - Lineage: allocations stay within the funds; the outbox drains ([Lineage],
      [Outbox]).
    - Authority: policies only narrow along delegation, admissions obey every
      ancestor and are idempotent, approvals are independent and final, scopes
      never escalate, revocation is final ([Policy], [PolicyStore], [Access]).
    - History: sealing keeps the chain verifiable, an anchored prefix cannot be
      changed without a hash collision ([Chain]).
    - Concurrency: a lock has one holder in every interleaving, groups of locks
      are taken whole or not at all ([Lock]); the waiting transactions of a pair
      are in one lane while its state is kept ([HotPairs]).
    - Findings are theorems too: an ambiguous chain encoding
      ([Chain.v1_is_ambiguous]), a wildcard that mints authority ([Access]), a
      queue fallback that is never taken and a duplicate that is never
      recognised ([Actions]), a refund that can be refunded by repeating the
      request ([FrontDoor]), a proportional allocation that leaves a remainder
      ([Lineage]), a transfer to itself that only a batch applies ([Worker]),
      previews that approve what is refused ([DryRunFacts]), filters that are
      dropped or fail ([FilterFacts]), a matching that never returns
      ([Grouping]), reconciliations of the wrong records ([ReconcilerFacts]),
      dates that cross a snapshot ([History]), an atomic order executed in part
      ([Recovery]), lanes that mix when Redis fails or keys expire
      ([HotPairs]), tokens that cannot be read back ([Tokens]).

    ** Fuel and bounds

    Decimal digits of an integer: its binary logarithm.  Shortest float texts: 19
    digits, more than the 17 that float64 needs.  Key ancestry: 64, the limit
    in the source; ancestry of a policy binding: 16, the limit in its SQL.
    Families of a hold and pages of legs: the number of rows, and one more, each
    step consuming a row.  Commits of shadows: 1, as a shadow has no shadows.
    [QueueTransaction]: 1, as the refunds of a rollback are not split.
    [process_pages]: twice the rows and two.  [snapshot_batches]: one more than
    the balances, proved enough.  Chunks of a balance set: its length.  Theorems
    that need more than one step of fuel hold for every fuel, or state that the
    fuel is enough.

    ** Not modelled

    Logging, traces, metrics, webhooks, the search index, notifications,
    backups and post-commit hooks have no effect on the ledger.  The HTTP and
    MCP layers decode requests and encode answers around the operations modelled
    here.  Ledgers, accounts and integrity reports keep or read records without
    money.  The back-pressure of the queue acts on
    figures that Redis reports; the outcome of an enqueue is a parameter.  The
    reconcile_balance trigger acts only on a metadata flag; the foreign key of
    balances to ledgers, the decoding of execution controls from before their
    schema, the policy_rules mirror and the truncation of times to microseconds
    are left out.  Upper and lower case are ASCII.  The rewriting of a JSON body
    in the authentication middleware is kept as its outcome.  Workers run one
    job after another, in any order where it matters; the interleaving of whole
    handlers is covered by the runs of [Journal], whose reads may be stale, and
    that of the goroutines of a reconciliation by the steps of [Grouping] and
    [Reconciler].  PROJECT.json lists every component with its status. *)
From stdpp Require Import base option list strings gmap.
From Stdlib Require Import ZArith Lia Ascii.
Open Scope Z_scope.

(** ** Errors and results

    A Go [error] is kept as the text [Error()] returns and the sentinel
    errors and error types found along its [Unwrap] chain, named as in the
    source, so that both [errors.Is]/[errors.As] and matching on the message
    text are modelled. *)
Record go_error := GoError { err_msg : string; err_is : list string }.

#[export] Instance go_error_eq_dec : EqDecision go_error.
Proof. solve_decision. Defined.

(** [errors.New] and [fmt.Errorf] without [%w]. *)
Definition errors_New (msg : string) : go_error := GoError msg [].

(** A package-level sentinel error. *)
Definition sentinel (name msg : string) : go_error := GoError msg [name].

(** [fmt.Errorf("prefix%w", err)]. *)
Definition wrap (prefix : string) (e : go_error) : go_error :=
  GoError (prefix +:+ err_msg e) (err_is e).

(** [errors.Is] (and [errors.As] on a type name). *)
Definition errors_Is (e : go_error) (name : string) : bool :=
  bool_decide (name ∈ err_is e).

Inductive result (A : Type) : Type :=
| Ok (a : A)
| Err (e : go_error).
Arguments Ok {A} a.
Arguments Err {A} e.

Definition res_bind {A B} (r : result A) (f : A -> result B) : result B :=
  match r with Ok a => f a | Err e => Err e end.

Definition is_ok {A} (r : result A) : bool :=
  match r with Ok _ => true | Err _ => false end.

(** [if cond { return errors.New(msg) }]. *)
Definition guard_err (bad : bool) (e : go_error) : result unit :=
  if bad then Err e else Ok tt.

Declare Scope go_scope.
Delimit Scope go_scope with go.
Module GoNotations.
  Notation "'let*' x := r 'in' k" := (res_bind r (fun x => k))
    (at level 10, x pattern, r at level 100, k at level 200) : go_scope.
  Open Scope go_scope.
End GoNotations.
Export GoNotations.

Lemma res_bind_Ok {A B} (r : result A) (f : A -> result B) b :
  res_bind r f = Ok b <-> exists a, r = Ok a /\ f a = Ok b.
Proof. destruct r; naive_solver. Qed.

Lemma res_bind_Err {A B} (r : result A) (f : A -> result B) e :
  res_bind r f = Err e <-> r = Err e \/ exists a, r = Ok a /\ f a = Err e.
Proof. destruct r; naive_solver. Qed.

Lemma Ok_inj {A} (a b : A) : Ok a = Ok b -> a = b.
Proof. by injection 1. Qed.

(** Fold over a slice, stopping at the first error: a [for range] loop whose
    body may [return err]. *)
Fixpoint fold_res {A S} (f : S -> A -> result S) (l : list A) (s : S) : result S :=
  match l with
  | [] => Ok s
  | a :: l' => res_bind (f s a) (fold_res f l')
  end.

(** The results of a function on each element, or the first error. *)
Fixpoint map_res {A B} (f : A -> result B) (l : list A) : result (list B) :=
  match l with
  | [] => Ok []
  | a :: l' => res_bind (f a) (fun b => res_bind (map_res f l') (fun bs => Ok (b :: bs)))
  end.

Lemma fold_res_app {A S} (f : S -> A -> result S) l1 l2 s :
  fold_res f (l1 ++ l2) s = res_bind (fold_res f l1 s) (fold_res f l2).
Proof.
  revert s; induction l1 as [|a l1 IH]; intros s; [done|]; simpl.
  destruct (f s a); simpl; [apply IH|done].
Qed.

(** Invariant rule for error-stopping loops. *)
Lemma fold_res_inv {A S} (P : S -> Prop) (f : S -> A -> result S) l s s' :
  P s -> (forall a s1 s2, a ∈ l -> P s1 -> f s1 a = Ok s2 -> P s2) ->
  fold_res f l s = Ok s' -> P s'.
Proof.
  revert s; induction l as [|a l IH]; intros s Hs Hstep Hf; simpl in Hf.
  { by simplify_eq. }
  apply res_bind_Ok in Hf as (s1 & H1 & H2).
  eapply (IH s1); eauto using list_elem_of_here, list_elem_of_further.
Qed.

(** ** Automation *)

(** Case analysis on the error checks of a definition until the hypothesis
    [H], an equation on a [result], is solved or decomposed. *)
Ltac res_step H :=
  lazymatch type of H with
  | res_bind _ _ = Ok _ => apply res_bind_Ok in H; destruct H as (? & ? & H)
  | (if ?b then _ else _) = _ => destruct b eqn:?
  | match ?x with _ => _ end = _ => destruct x eqn:?
  | Ok _ = Err _ => discriminate H
  | Err _ = Ok _ => discriminate H
  end.
Ltac res_inv H := repeat (res_step H; try discriminate H); try (apply Ok_inj in H; subst).

(** Boolean comparisons of [Z] turned into propositions. *)
Ltac zbool :=
  repeat match goal with
  | H : (_ && _)%bool = true |- _ => apply andb_true_iff in H; destruct H
  | H : (_ || _)%bool = false |- _ => apply orb_false_iff in H; destruct H
  | H : negb _ = true |- _ => apply negb_true_iff in H
  | H : negb _ = false |- _ => apply negb_false_iff in H
  | H : (_ <? _) = true |- _ => apply Z.ltb_lt in H
  | H : (_ <? _) = false |- _ => apply Z.ltb_ge in H
  | H : (_ <=? _) = true |- _ => apply Z.leb_le in H
  | H : (_ <=? _) = false |- _ => apply Z.leb_gt in H
  | H : (_ =? _) = true |- _ => apply Z.eqb_eq in H
  | H : (_ =? _) = false |- _ => apply Z.eqb_neq in H
  | H : String.eqb _ _ = true |- _ => apply String.eqb_eq in H
  | H : String.eqb _ _ = false |- _ => apply String.eqb_neq in H
  | H : bool_decide _ = true |- _ => apply bool_decide_eq_true in H
  | H : bool_decide _ = false |- _ => apply bool_decide_eq_false in H
  end.

Create HintDb ledger.

(** ** Strings *)

Lemma string_length_app s1 s2 :
  String.length (s1 +:+ s2) = (String.length s1 + String.length s2)%nat.
Proof. induction s1 as [|c s1 IH]; [done|]. simpl. by rewrite IH. Qed.

Lemma string_app_nil_r s : (s +:+ "" = s)%string.
Proof.
  induction s as [|c s IH]; [done|].
  change (String c (s +:+ "") = String c s)%string. by rewrite IH.
Qed.

Lemma string_app_assoc s1 s2 s3 :
  (s1 +:+ (s2 +:+ s3) = (s1 +:+ s2) +:+ s3)%string.
Proof.
  induction s1 as [|c s1 IH]; [done|].
  change (String c (s1 +:+ (s2 +:+ s3)) = String c ((s1 +:+ s2) +:+ s3))%string.
  by rewrite IH.
Qed.

(** ** Decimal digits *)

Definition is_digit (c : ascii) : bool :=
  (48 <=? Z.of_N (N_of_ascii c)) && (Z.of_N (N_of_ascii c) <=? 57).
Definition digit_val (c : ascii) : Z := Z.of_N (N_of_ascii c) - 48.

(** The longest prefix of digits, and the rest. *)
Fixpoint span_digits (s : string) : string * string :=
  match s with
  | EmptyString => (EmptyString, EmptyString)
  | String c r =>
      if is_digit c then let '(ds, rest) := span_digits r in (String c ds, rest)
      else (EmptyString, s)
  end.

Fixpoint digits_val_acc (acc : Z) (s : string) : Z :=
  match s with
  | EmptyString => acc
  | String c r => digits_val_acc (10 * acc + digit_val c) r
  end.
Definition digits_val (s : string) : Z := digits_val_acc 0 s.

Fixpoint all_digits (s : string) : bool :=
  match s with
  | EmptyString => true
  | String c r => is_digit c && all_digits r
  end.

Definition digit_char (n : Z) : ascii := ascii_of_N (Z.to_N (48 + n mod 10)).

(** Decimal text of a non-negative integer ([big.Int.String], [%d]);
    [fuel] bounds the number of digits. *)
Fixpoint utoa_acc (fuel : nat) (n : Z) (acc : string) : string :=
  match fuel with
  | O => acc
  | S fuel' =>
      let acc' := String (digit_char n) acc in
      if n <? 10 then acc' else utoa_acc fuel' (n / 10) acc'
  end.
Definition utoa (n : Z) : string := utoa_acc (S (Z.to_nat (Z.log2 n))) n "".
Definition itoa (n : Z) : string :=
  if n <? 0 then ("-" +:+ utoa (- n))%string else utoa n.

Lemma digit_char_spec n :
  is_digit (digit_char n) = true /\ digit_val (digit_char n) = n mod 10.
Proof.
  unfold is_digit, digit_val, digit_char.
  pose proof (Z.mod_pos_bound n 10 ltac:(lia)).
  rewrite N_ascii_embedding by lia. rewrite Z2N.id by lia.
  rewrite andb_true_iff, !Z.leb_le. lia.
Qed.

Lemma digits_val_acc_shift a s :
  digits_val_acc a s = a * 10 ^ Z.of_nat (String.length s) + digits_val s.
Proof.
  unfold digits_val. revert a; induction s as [|c r IH]; intros a; [simpl; lia|].
  cbn [digits_val_acc String.length]. rewrite (IH (10 * a + _)), (IH (10 * 0 + _)).
  rewrite Nat2Z.inj_succ, Z.pow_succ_r by lia. ring.
Qed.

Lemma digits_val_cons c r :
  digits_val (String c r) =
  digit_val c * 10 ^ Z.of_nat (String.length r) + digits_val r.
Proof.
  unfold digits_val at 1. cbn [digits_val_acc].
  rewrite digits_val_acc_shift. lia.
Qed.

Lemma digits_val_app s1 s2 :
  digits_val (s1 +:+ s2) =
  digits_val s1 * 10 ^ Z.of_nat (String.length s2) + digits_val s2.
Proof.
  unfold digits_val at 1 2.
  assert (forall a, digits_val_acc a (s1 +:+ s2) =
                    digits_val_acc (digits_val_acc a s1) s2) as ->.
  { induction s1 as [|c r IH]; intros a; [done|]. simpl. apply IH. }
  apply digits_val_acc_shift.
Qed.

Lemma all_digits_app s1 s2 :
  all_digits (s1 +:+ s2) = all_digits s1 && all_digits s2.
Proof. induction s1 as [|c r IH]; [done|]. simpl. rewrite IH. apply andb_assoc. Qed.

Lemma digits_val_nonneg s : all_digits s = true -> 0 <= digits_val s.
Proof.
  induction s as [|c r IH]; [done|]. cbn [all_digits]. intros [Hc Hr]%andb_true_iff.
  rewrite digits_val_cons. unfold is_digit in Hc. apply andb_true_iff in Hc as [Hc _].
  apply Z.leb_le in Hc. unfold digit_val. specialize (IH Hr).
  pose proof (Z.pow_nonneg 10 (Z.of_nat (String.length r))). nia.
Qed.

Lemma digits_val_bound s : all_digits s = true ->
  digits_val s < 10 ^ Z.of_nat (String.length s).
Proof.
  induction s as [|c r IH]; [done|]. cbn [all_digits]. intros [Hc Hr]%andb_true_iff.
  rewrite digits_val_cons. unfold is_digit in Hc. apply andb_true_iff in Hc as [_ Hc].
  apply Z.leb_le in Hc. unfold digit_val. specialize (IH Hr). cbn [String.length].
  rewrite Nat2Z.inj_succ, Z.pow_succ_r by lia. nia.
Qed.

Lemma utoa_acc_spec fuel n acc :
  0 <= n -> (n < 2 ^ Z.of_nat fuel) -> (0 < fuel)%nat -> all_digits acc = true ->
  all_digits (utoa_acc fuel n acc) = true /\
  digits_val (utoa_acc fuel n acc) =
    n * 10 ^ Z.of_nat (String.length acc) + digits_val acc /\
  (String.length acc < String.length (utoa_acc fuel n acc))%nat.
Proof.
  revert n acc; induction fuel as [|fuel IH]; intros n acc Hn Hlt Hf Hacc; [lia|].
  cbn [utoa_acc]. destruct (digit_char_spec n) as [Hd Hv].
  assert (all_digits (String (digit_char n) acc) = true) as Hacc'.
  { cbn [all_digits]. by rewrite Hd. }
  destruct (n <? 10) eqn:Hn10.
  - apply Z.ltb_lt in Hn10. repeat split; [done| |simpl; lia].
    rewrite digits_val_cons, Hv, Z.mod_small by lia. done.
  - apply Z.ltb_ge in Hn10.
    rewrite Nat2Z.inj_succ, Z.pow_succ_r in Hlt by lia.
    assert (0 < fuel)%nat by (destruct fuel; simpl in Hlt; lia).
    destruct (IH (n / 10) (String (digit_char n) acc)) as (H1 & H2 & H3); auto.
    { apply Z.div_pos; lia. }
    { apply Z.div_lt_upper_bound; lia. }
    repeat split; [done| |cbn [String.length] in H3; lia].
    rewrite H2, digits_val_cons, Hv. cbn [String.length].
    rewrite Nat2Z.inj_succ, Z.pow_succ_r by lia.
    rewrite (Z.div_mod n 10) at 3 by lia. ring.
Qed.

Lemma utoa_acc_length fuel n acc k :
  0 <= n < 10 ^ Z.of_nat k -> (1 <= k)%nat ->
  (String.length (utoa_acc fuel n acc) <= k + String.length acc)%nat.
Proof.
  revert n acc k; induction fuel as [|fuel IH]; intros n acc k Hn Hk; [simpl; lia|].
  cbn [utoa_acc]. destruct (n <? 10) eqn:E; [simpl; lia|]. zbool.
  destruct k as [|[|k]]; [lia|simpl in Hn; lia|].
  etransitivity; [apply (IH _ _ (S k))|simpl; lia]; [|lia].
  rewrite (Nat2Z.inj_succ (S k)), Z.pow_succ_r in Hn by lia.
  split; [apply Z.div_pos; lia|apply Z.div_lt_upper_bound; lia].
Qed.

Lemma utoa_spec n : 0 <= n ->
  all_digits (utoa n) = true /\ digits_val (utoa n) = n /\
  (0 < String.length (utoa n))%nat.
Proof.
  intros Hn. unfold utoa.
  destruct (utoa_acc_spec (S (Z.to_nat (Z.log2 n))) n "") as (H1 & H2 & H3); auto with lia.
  { rewrite Nat2Z.inj_succ, Z2Nat.id by apply Z.log2_nonneg.
    destruct (decide (n = 0)) as [->|]; [done|]. apply Z.log2_spec. lia. }
  repeat split; [done| |done]. rewrite H2. simpl. unfold digits_val; simpl. lia.
Qed.

Lemma span_digits_app ds rest :
  all_digits ds = true ->
  match rest with String c _ => is_digit c = false | EmptyString => True end ->
  span_digits (ds +:+ rest) = (ds, rest).
Proof.
  intros Hds Hrest. induction ds as [|c r IH];
    cbn [String.append span_digits all_digits] in *.
  - destruct rest as [|c rest]; [done|].
    change (("" +:+ String c rest)%string) with (String c rest).
    cbn [span_digits]. by rewrite Hrest.
  - apply andb_true_iff in Hds as [Hc Hr].
    change ((String c r +:+ rest)%string) with (String c (r +:+ rest)%string).
    cbn [span_digits]. by rewrite Hc, IH.
Qed.

Lemma span_digits_all ds : all_digits ds = true -> span_digits ds = (ds, EmptyString).
Proof.
  induction ds as [|c r IH]; [done|]. cbn [all_digits span_digits].
  intros [-> Hr]%andb_true_iff. by rewrite IH.
Qed.

(** ** String order *)

Lemma string_compare_refl s : String.compare s s = Eq.
Proof.
  induction s as [|c s IH]; [done|]. simpl. unfold Ascii.compare.
  by rewrite N.compare_refl.
Qed.

Lemma string_lt_trans a b c :
  String.compare a b = Lt -> String.compare b c = Lt -> String.compare a c = Lt.
Proof.
  revert b c; induction a as [|x a IH]; intros [|y b] [|z c]; simpl; try done.
  unfold Ascii.compare.
  destruct (N.compare_spec (N_of_ascii x) (N_of_ascii y)) as [E1|E1|E1]; [| |done];
  (destruct (N.compare_spec (N_of_ascii y) (N_of_ascii z)) as [E2|E2|E2];
    [|intros _ _|done]).
  - rewrite E1, E2, N.compare_refl. apply IH.
  - rewrite E1. by apply N.compare_lt_iff in E2 as ->.
  - rewrite <- E2. intros _ _. by apply N.compare_lt_iff in E1 as ->.
  - assert (N_of_ascii x < N_of_ascii z)%N as ->%N.compare_lt_iff by lia. done.
Qed.

(** Go's [<] on strings (bytewise). *)
Definition string_ltb (a b : string) : bool := String.ltb a b.

Lemma string_ltb_lt a b : string_ltb a b = true <-> String.compare a b = Lt.
Proof. unfold string_ltb, String.ltb. destruct (String.compare a b); naive_solver. Qed.

Lemma string_ltb_irrefl a : string_ltb a a = false.
Proof. unfold string_ltb, String.ltb. by rewrite string_compare_refl. Qed.

Lemma string_ltb_trans a b c :
  string_ltb a b = true -> string_ltb b c = true -> string_ltb a c = true.
Proof. rewrite !string_ltb_lt. apply string_lt_trans. Qed.

Lemma string_ltb_total a b : a = b \/ string_ltb a b = true \/ string_ltb b a = true.
Proof.
  rewrite !string_ltb_lt, (String.compare_antisym b a).
  destruct (String.compare a b) eqn:E; simpl; auto.
  left. by apply String.compare_eq_iff.
Qed.

(** ** Keys *)

Lemma NoDup_fmap_fst_inj {K A} (l : list (K * A)) k a a' :
  NoDup (l.*1) -> (k, a) ∈ l -> (k, a') ∈ l -> a = a'.
Proof.
  induction l as [|[k1 a1] l IH]; intros Hnd H1 H2; [by apply not_elem_of_nil in H1|].
  apply NoDup_cons in Hnd as [Hn Hnd].
  apply elem_of_cons in H1 as [H1|H1], H2 as [H2|H2]; simplify_eq; auto;
    exfalso; apply Hn, list_elem_of_fmap; eexists (_, _); (split; [|eassumption]; done).
Qed.

(** ** Sums over finite maps *)

Definition zsum_list {A} (f : A -> Z) (l : list A) : Z := foldr (fun a acc => f a + acc) 0 l.

Lemma zsum_list_app {A} (f : A -> Z) l1 l2 :
  zsum_list f (l1 ++ l2) = zsum_list f l1 + zsum_list f l2.
Proof. induction l1 as [|a l1 IH]; [done|]. simpl. rewrite IH. lia. Qed.

#[export] Instance zsum_list_perm {A} (f : A -> Z) : Proper ((≡ₚ) ==> (=)) (zsum_list f).
Proof. intros l1 l2 H. induction H; simpl; lia. Qed.

Lemma zsum_list_nonneg {A} (f : A -> Z) l :
  (forall a, a ∈ l -> 0 <= f a) -> 0 <= zsum_list f l.
Proof.
  induction l as [|a l IH]; intros H; [done|]. simpl.
  pose proof (H a ltac:(left)). assert (0 <= zsum_list f l); [|lia].
  apply IH. intros b Hb. apply H. by right.
Qed.

(** Sum of the values of a map. *)
Definition zsum `{Countable K} (m : gmap K Z) : Z := zsum_list snd (map_to_list m).

Section zsum.
Context `{Countable K}.
Implicit Types m : gmap K Z.

Lemma zsum_empty : zsum (∅ : gmap K Z) = 0.
Proof. unfold zsum. by rewrite map_to_list_empty. Qed.

Lemma zsum_fmap {A} (f : A -> Z) (m : gmap K A) :
  zsum (f <$> m) = zsum_list (fun e => f e.2) (map_to_list m).
Proof.
  unfold zsum. rewrite map_to_list_fmap. generalize (map_to_list m).
  intros l. induction l as [|[k a] l IH]; [done|].
  change (f a + zsum_list snd (prod_map id f <$> l) = f a + zsum_list (fun e => f e.2) l).
  by rewrite IH.
Qed.

Lemma zsum_insert_None m i x : m !! i = None -> zsum (<[i:=x]> m) = x + zsum m.
Proof. intros Hi. unfold zsum. by rewrite map_to_list_insert by done. Qed.

Lemma zsum_insert_Some m i x y : m !! i = Some y -> zsum (<[i:=x]> m) = zsum m - y + x.
Proof.
  intros Hi. rewrite <- insert_delete_eq, zsum_insert_None by apply lookup_delete_eq.
  rewrite <- (insert_delete_id m i y Hi) at 2.
  rewrite zsum_insert_None by apply lookup_delete_eq. lia.
Qed.

Lemma zsum_union m1 m2 : m1 ##ₘ m2 -> zsum (m1 ∪ m2) = zsum m1 + zsum m2.
Proof.
  induction m1 as [|i x m1 Hi IH] using map_ind; intros Hd.
  - rewrite (left_id_L ∅ (∪)), zsum_empty. lia.
  - apply map_disjoint_insert_l in Hd as [Hi2 Hd].
    rewrite <- insert_union_l, !zsum_insert_None, IH; auto; [lia|].
    by apply lookup_union_None.
Qed.

Lemma zsum_elem_le m i x : (forall j y, m !! j = Some y -> 0 <= y) ->
  m !! i = Some x -> x <= zsum m.
Proof.
  intros Hnn Hi. rewrite <- (insert_delete_id m i x Hi).
  rewrite zsum_insert_None by apply lookup_delete_eq.
  assert (0 <= zsum (delete i m)); [|lia]. apply zsum_list_nonneg.
  intros [j y] Hj%elem_of_map_to_list%lookup_delete_Some. naive_solver.
Qed.
End zsum.
