(* ===== verification/GoFloat.v ===== *)
(** * Go's float64

    [float64] values are the [spec_float] values of the Standard Library's
    IEEE-754 specification (sign, mantissa, exponent).  Comparisons are on the
    denoted value, so they do not depend on a mantissa being normalised.  The
    file models the operations of the language and of [math] and [strconv]
    that the ledger uses: comparisons, [math.Trunc], the conversion to
    [int64], and [strconv.FormatFloat(f, 'f', -1, 64)], the shortest decimal
    text that reads back as the same float. *)
From stdpp Require Import base option list strings.
From Stdlib Require Import ZArith Lia QArith SpecFloat.
From S2P Require Import Prelude.
Close Scope Q_scope.
Open Scope Z_scope.

Abbreviation float64 := spec_float.

#[export] Instance float64_eq_dec : EqDecision float64.
Proof. solve_decision. Defined.

(** A finite float is [fmant * 2 ^ fexp]. *)
Definition fmant (f : float64) : Z :=
  match f with
  | S754_finite s m _ => if s then Z.neg m else Z.pos m
  | _ => 0
  end.
Definition fexp (f : float64) : Z :=
  match f with S754_finite _ _ e => e | _ => 0 end.

Definition IsNaN (f : float64) : bool :=
  match f with S754_nan => true | _ => false end.
Definition IsInf (f : float64) : bool :=
  match f with S754_infinity _ => true | _ => false end.
Definition is_finite (f : float64) : bool := negb (IsNaN f) && negb (IsInf f).

(** Order of two floats; [None] when one of them is a NaN. *)
Definition fcmp (f g : float64) : option comparison :=
  match f, g with
  | S754_nan, _ | _, S754_nan => None
  | S754_infinity s, S754_infinity t =>
      Some (match s, t with
            | true, false => Lt | false, true => Gt | _, _ => Eq end)
  | S754_infinity s, _ => Some (if s then Lt else Gt)
  | _, S754_infinity t => Some (if t then Gt else Lt)
  | _, _ =>
      let e := Z.min (fexp f) (fexp g) in
      Some (Z.compare (fmant f * 2 ^ (fexp f - e)) (fmant g * 2 ^ (fexp g - e)))
  end.

Lemma fcmp_finite f g : is_finite f = true -> is_finite g = true ->
  fcmp f g = Some (Z.compare (fmant f * 2 ^ (fexp f - Z.min (fexp f) (fexp g)))
                             (fmant g * 2 ^ (fexp g - Z.min (fexp f) (fexp g)))).
Proof. by destruct f, g. Qed.

Definition flt (f g : float64) : bool :=
  match fcmp f g with Some Lt => true | _ => false end.
Definition fle (f g : float64) : bool :=
  match fcmp f g with Some (Lt | Eq) => true | _ => false end.
Definition feq (f g : float64) : bool :=
  match fcmp f g with Some Eq => true | _ => false end.

(** The float with integer value [n] (exact for [|n| <= 2^53]). *)
Definition f_of_Z (n : Z) : float64 :=
  match n with
  | 0 => S754_zero false
  | Z.pos p => S754_finite false p 0
  | Z.neg p => S754_finite true p 0
  end.

Definition fzero : float64 := S754_zero false.

(** Integer part, rounding towards zero. *)
Definition ftruncZ (f : float64) : Z :=
  if 0 <=? fexp f then fmant f * 2 ^ fexp f
  else Z.quot (fmant f) (2 ^ (- fexp f)).

(** [math.Trunc]. *)
Definition Trunc (f : float64) : float64 :=
  match f with
  | S754_finite _ _ e => if 0 <=? e then f else f_of_Z (ftruncZ f)
  | _ => f
  end.

(** The rational value of a finite float. *)
Definition fQ (f : float64) : Q :=
  if 0 <=? fexp f then inject_Z (fmant f * 2 ^ fexp f)
  else (fmant f # Z.to_pos (2 ^ (- fexp f))).

(** ** [strconv.FormatFloat(f, 'f', -1, 64)]

    The smallest number [n] of significant digits is searched for which a
    decimal of [n] digits next to the value reads back as the same float,
    i.e. lies in its rounding interval; when the decimals on both sides do,
    the nearer is taken. *)
Definition min_exp : Z := -1074.

(** Decimal digits of the positive rational [num/den] to position [10^k],
    rounded down. *)
Definition digits_down (num den k : Z) : Z :=
  if 0 <=? k then num / (den * 10 ^ k) else (num * 10 ^ (- k)) / den.

(** [d * 10^k] compared with [a/b]. *)
Definition dec_cmp (d k a b : Z) : comparison :=
  if 0 <=? k then Z.compare (d * 10 ^ k * b) a
  else Z.compare (d * b) (a * 10 ^ (- k)).

Record rounding_interval := RI { ri_lo : Z; ri_hi : Z; ri_den : Z; ri_incl : bool }.

(** The reals that round (half to even) to [m * 2^e], over a common
    denominator: half a unit on each side, a quarter below a power of two. *)
Definition interval_of (m e : Z) : rounding_interval :=
  let lower := (m =? 2 ^ 52) && (min_exp <? e) in
  let lo := if lower then 4 * m - 1 else 4 * m - 2 in
  let hi := 4 * m + 2 in
  if 2 <=? e then RI (lo * 2 ^ (e - 2)) (hi * 2 ^ (e - 2)) 1 (Z.even m)
  else RI lo hi (2 ^ (2 - e)) (Z.even m).

Definition in_interval (ri : rounding_interval) (d k : Z) : bool :=
  let inside_lo := match dec_cmp d k (ri_lo ri) (ri_den ri) with
                   | Gt => true | Eq => ri_incl ri | Lt => false end in
  let inside_hi := match dec_cmp d k (ri_hi ri) (ri_den ri) with
                   | Lt => true | Eq => ri_incl ri | Gt => false end in
  inside_lo && inside_hi.

(** [Some (d, k)]: the shortest decimal [d * 10^k], trying [n] more digits. *)
Fixpoint shortest_from (fuel : nat) (ri : rounding_interval) (num den k : Z)
    : option (Z * Z) :=
  match fuel with
  | O => None
  | S fuel' =>
      let d := digits_down num den k in
      let okdown := in_interval ri d k in
      let okup := in_interval ri (d + 1) k in
      if okdown && okup then
        (* nearest of the two: compare 2d+1 with twice the value *)
        let near_down := match dec_cmp (2 * d + 1) k (2 * num) den with
                         | Gt => true | Eq => Z.even d | Lt => false end in
        Some (if near_down then d else d + 1, k)
      else if okdown then Some (d, k)
      else if okup then Some (d + 1, k)
      else shortest_from fuel' ri num den (k - 1)
  end.

(** Number of decimal digits of a positive integer. *)
Definition num_digits (n : Z) : Z := Z.of_nat (String.length (utoa n)).

(** The 53-bit mantissa and exponent of [m * 2^e] (fewer bits for a
    subnormal), whose last place determines the rounding interval. *)
Definition normal_shift (m e : Z) : Z :=
  Z.max 0 (Z.min (52 - Z.log2 m) (e - min_exp)).

Definition shortest_decimal (m e : Z) : option (Z * Z) :=
  let num := if 0 <=? e then m * 2 ^ e else m in
  let den := if 0 <=? e then 1 else 2 ^ (- e) in
  (* an upper bound on the position of the leading digit *)
  let k0 := if den <=? num then num_digits (num / den)
            else - (num_digits (den / num) - 1) + 1 in
  let s := normal_shift m e in
  shortest_from 19 (interval_of (m * 2 ^ s) (e - s)) num den k0.

Definition zeros (n : nat) : string := String.concat "" (replicate n "0"%string).

Definition format_decimal (d k : Z) : string :=
  if 0 <=? k then utoa (d * 10 ^ k)
  else
    let p := 10 ^ (- k) in
    let frac := utoa (d mod p) in
    (utoa (d / p) +:+ "." +:+
     zeros (Z.to_nat (- k) - String.length frac) +:+ frac)%string.

Definition FormatFloat (f : float64) : string :=
  match f with
  | S754_nan => "NaN"
  | S754_infinity false => "+Inf"
  | S754_infinity true => "-Inf"
  | S754_zero false => "0"
  | S754_zero true => "-0"
  | S754_finite s m e =>
      match shortest_decimal (Z.pos m) e with
      | Some (d, k) =>
          ((if s then "-" else "") +:+ format_decimal d k)%string
      | None => ""
      end
  end.

(** 0.29, 100, 2^60 and 5e-324, printed as Go prints them. *)
Example FormatFloat_029 :
  FormatFloat (S754_finite false 5224175567749775 (-54)) = "0.29"%string.
Proof. vm_compute. reflexivity. Qed.
Example FormatFloat_100 : FormatFloat (f_of_Z 100) = "100"%string.
Proof. vm_compute. reflexivity. Qed.
Example FormatFloat_2_60 :
  FormatFloat (S754_finite false 4503599627370496 8) = "1152921504606847000"%string.
Proof. vm_compute. reflexivity. Qed.
