(* ===== verification/Decimal.v ===== *)
(** * Decimal numbers

    The ledger computes with [github.com/shopspring/decimal], a third-party
    package.  Its operations are the fields of the class [DecimalOps], and the
    documented behaviour the ledger relies on is the class [DecimalLaws], stated
    through the rational number [val d] a decimal denotes.  Every component
    is developed against these classes.  [DecimalInstance] at the end is an
    arbitrary-precision coefficient/exponent implementation with all the laws
    proved; it shows that the laws can be met and evaluates the witnesses.

    The first part is the text syntax of decimals: the language of
    [monetaryDecimalPattern] and the rational it denotes. *)
From stdpp Require Import base option list strings.
From Stdlib Require Import ZArith Lia QArith Qround Qabs Qpower Lqa SpecFloat Ascii.
From S2P Require Import Prelude GoFloat.
Close Scope Q_scope.
Open Scope Z_scope.

(** ** Rounding of rationals to integers *)

(** Towards zero. *)
Definition Qtrunc (q : Q) : Z := Z.quot (Qnum q) (QDen q).

(** To the nearest integer, halves away from zero. *)
Definition Qround_away (q : Q) : Z :=
  Z.sgn (Qnum q) * ((2 * Z.abs (Qnum q) + QDen q) / (2 * QDen q)).

Lemma Qtrunc_spec_nonneg q : (0 <= q)%Q ->
  (inject_Z (Qtrunc q) <= q)%Q /\ (q < inject_Z (Qtrunc q + 1))%Q /\ 0 <= Qtrunc q.
Proof.
  destruct q as [n d]; unfold Qtrunc, Qle, Qlt, inject_Z; simpl; intros Hn.
  rewrite Z.quot_div_nonneg by lia.
  pose proof (Z.div_mod n (Z.pos d)); pose proof (Z.mod_pos_bound n (Z.pos d)).
  pose proof (Z.div_pos n (Z.pos d)). nia.
Qed.

Lemma Qtrunc_unique_nonneg q z : (0 <= q)%Q ->
  (inject_Z z <= q)%Q -> (q < inject_Z (z + 1))%Q -> Qtrunc q = z.
Proof.
  intros Hq H1 H2. destruct (Qtrunc_spec_nonneg q Hq) as (H3 & H4 & _).
  assert (inject_Z (Qtrunc q) < inject_Z (z + 1))%Q as Ha by lra.
  assert (inject_Z z < inject_Z (Qtrunc q + 1))%Q as Hb by lra.
  rewrite <- Zlt_Qlt in Ha, Hb. lia.
Qed.

Lemma Qtrunc_inject_Z z : Qtrunc (inject_Z z) = z.
Proof. unfold Qtrunc; simpl. apply Z.quot_1_r. Qed.

Lemma Qtrunc_opp q : Qtrunc (- q) = - Qtrunc q.
Proof. destruct q; unfold Qtrunc; simpl. by rewrite Z.quot_opp_l. Qed.

#[export] Instance Qtrunc_proper : Proper (Qeq ==> eq) Qtrunc.
Proof.
  intros x y Hxy. destruct (Qlt_le_dec x 0) as [Hx|Hx].
  - apply Z.opp_inj. rewrite <- !Qtrunc_opp.
    destruct (Qtrunc_spec_nonneg (- y)) as (? & ? & ?); [lra|].
    apply Qtrunc_unique_nonneg; lra.
  - destruct (Qtrunc_spec_nonneg y) as (? & ? & ?); [lra|].
    apply Qtrunc_unique_nonneg; lra.
Qed.

Lemma Qround_away_spec_nonneg q : (0 <= q)%Q ->
  (inject_Z (Qround_away q) <= q + (1#2))%Q /\
  (q + (1#2) < inject_Z (Qround_away q + 1))%Q /\ 0 <= Qround_away q.
Proof.
  destruct q as [n d]; unfold Qround_away, Qle, Qlt, inject_Z; simpl; intros Hn.
  rewrite Z.mul_1_r in *. rewrite Z.abs_eq by lia.
  pose proof (Z.div_mod (2 * n + Z.pos d) (2 * Z.pos d)).
  pose proof (Z.mod_pos_bound (2 * n + Z.pos d) (2 * Z.pos d)).
  pose proof (Z.div_pos (2 * n + Z.pos d) (2 * Z.pos d)).
  assert (Z.sgn n = 0 /\ n = 0 \/ Z.sgn n = 1) as [[Hs ->]|Hs] by lia; rewrite Hs.
  - simpl. lia.
  - rewrite !Z.mul_1_l. nia.
Qed.

Lemma Qround_away_unique_nonneg q z : (0 <= q)%Q ->
  (inject_Z z <= q + (1#2))%Q -> (q + (1#2) < inject_Z (z + 1))%Q ->
  Qround_away q = z.
Proof.
  intros Hq H1 H2. destruct (Qround_away_spec_nonneg q Hq) as (H3 & H4 & _).
  assert (inject_Z (Qround_away q) < inject_Z (z + 1))%Q as Ha by lra.
  assert (inject_Z z < inject_Z (Qround_away q + 1))%Q as Hb by lra.
  rewrite <- Zlt_Qlt in Ha, Hb. lia.
Qed.

Lemma Qround_away_opp q : Qround_away (- q) = - Qround_away q.
Proof.
  destruct q; unfold Qround_away; simpl.
  rewrite Z.sgn_opp, Z.abs_opp. lia.
Qed.

#[export] Instance Qround_away_proper : Proper (Qeq ==> eq) Qround_away.
Proof.
  intros x y Hxy. destruct (Qlt_le_dec x 0) as [Hx|Hx].
  - apply Z.opp_inj. rewrite <- !Qround_away_opp.
    destruct (Qround_away_spec_nonneg (- y)) as (? & ? & ?); [lra|].
    apply Qround_away_unique_nonneg; lra.
  - destruct (Qround_away_spec_nonneg y) as (? & ? & ?); [lra|].
    apply Qround_away_unique_nonneg; lra.
Qed.

(** [10 ^ k] for any integer [k]. *)
Definition pow10 (k : Z) : Q := Qpower 10 k.

Lemma pow10_pos k : (0 < pow10 k)%Q.
Proof. apply Qpower_0_lt. reflexivity. Qed.

Lemma pow10_plus j k : (pow10 (j + k) == pow10 j * pow10 k)%Q.
Proof. apply Qpower_plus. discriminate. Qed.

Lemma pow10_nonneg_inject k : 0 <= k -> (pow10 k == inject_Z (10 ^ k))%Q.
Proof. intros Hk. unfold pow10. rewrite Zpower_Qpower by done. reflexivity. Qed.

Lemma pow10_opp k : (pow10 (- k) * pow10 k == 1)%Q.
Proof. rewrite <- pow10_plus, Z.add_opp_diag_l. reflexivity. Qed.

(** ** Values of floats *)

Lemma pow2_inject k : 0 <= k -> (inject_Z (2 ^ k) == Qpower 2 k)%Q.
Proof. intros Hk. rewrite Zpower_Qpower by done. reflexivity. Qed.

Lemma fcmp_eq_fQ f g : is_finite f = true -> is_finite g = true ->
  feq f g = true -> (fQ f == fQ g)%Q.
Proof.
  assert (forall h, (fQ h == inject_Z (fmant h) * Qpower 2 (fexp h))%Q) as HfQ.
  { intros h. unfold fQ. destruct (0 <=? fexp h) eqn:E; zbool.
    - rewrite inject_Z_mult, pow2_inject by lia. reflexivity.
    - assert (2 ^ fexp h == / inject_Z (2 ^ (- fexp h)))%Q as ->.
      { rewrite pow2_inject by lia. rewrite <- Qpower_opp, Z.opp_involutive. reflexivity. }
      rewrite Qmake_Qdiv, Z2Pos.id by (apply Z.pow_pos_nonneg; lia). reflexivity. }
  intros Hf Hg Heq. rewrite !HfQ.
  assert ((fmant f * 2 ^ (fexp f - Z.min (fexp f) (fexp g)))
          = (fmant g * 2 ^ (fexp g - Z.min (fexp f) (fexp g)))) as H.
  { revert Heq. unfold feq. rewrite fcmp_finite by done.
    destruct (Z.compare _ _) eqn:E; [|done..]. by apply Z.compare_eq_iff in E. }
  set (e := Z.min _ _) in *.
  replace (fexp f) with (fexp f - e + e) by lia.
  replace (fexp g) with (fexp g - e + e) by lia.
  rewrite !Qpower_plus by discriminate. rewrite !Qmult_assoc.
  assert (0 <= fexp f - e /\ 0 <= fexp g - e) as [? ?] by lia.
  rewrite <- (pow2_inject (fexp f - e)), <- (pow2_inject (fexp g - e)) by lia.
  rewrite <- !inject_Z_mult, H. reflexivity.
Qed.

Lemma ftruncZ_int f n : is_finite f = true -> feq f (f_of_Z n) = true -> ftruncZ f = n.
Proof.
  intros Hf Heq. apply fcmp_eq_fQ in Heq; [|done|by destruct n].
  assert (fQ (f_of_Z n) == inject_Z n)%Q as Hn by (destruct n; unfold fQ; simpl; try reflexivity;
    rewrite Z.mul_1_r; reflexivity).
  rewrite Hn in Heq. assert (ftruncZ f = Qtrunc (fQ f)) as ->.
  { unfold ftruncZ, fQ, Qtrunc. destruct (0 <=? fexp f) eqn:E; simpl; [by rewrite Z.quot_1_r|].
    zbool. rewrite Z2Pos.id by (apply Z.pow_pos_nonneg; lia). done. }
  rewrite Heq. apply Qtrunc_inject_Z.
Qed.

(** ** Decimal text *)

Definition scan_sign (s : string) : bool * string :=
  match s with
  | String "+" r => (false, r)
  | String "-" r => (true, r)
  | _ => (false, s)
  end.

(** The optional exponent, up to the end of the text. *)
Definition scan_exponent (s : string) : option Z :=
  match s with
  | EmptyString => Some 0
  | String c r =>
      if (Ascii.eqb c "e" || Ascii.eqb c "E")%bool then
        let '(neg, r1) := scan_sign r in
        let '(ds, rest) := span_digits r1 in
        if String.eqb ds "" then None
        else if String.eqb rest "" then
          Some (if neg : bool then - digits_val ds else digits_val ds)
        else None
      else None
  end.

Record dec_text := DecText {
  dt_neg : bool; dt_int : string; dt_frac : string; dt_exp : Z }.

(** [monetaryDecimalPattern]: an optional sign; digits with an optional
    point and further digits, or a point and at least one digit; an optional
    exponent.  The groups that match are returned. *)
Definition scan_decimal (s : string) : option dec_text :=
  let '(neg, r) := scan_sign s in
  let '(ip, r1) := span_digits r in
  match r1 with
  | String "." r2 =>
      let '(fp, r3) := span_digits r2 in
      if String.eqb ip "" && String.eqb fp "" then None
      else ex ← scan_exponent r3; Some (DecText neg ip fp ex)
  | _ =>
      if String.eqb ip "" then None
      else ex ← scan_exponent r1; Some (DecText neg ip "" ex)
  end.

(** The rational a decimal text denotes. *)
Definition text_scale (t : dec_text) : Z :=
  dt_exp t - Z.of_nat (String.length (dt_frac t)).
Definition text_coef (t : dec_text) : Z :=
  let n := digits_val (dt_int t +:+ dt_frac t) in if dt_neg t then - n else n.
Definition text_value (t : dec_text) : Q :=
  (inject_Z (text_coef t) * pow10 (text_scale t))%Q.

Lemma scan_sign_digit s : all_digits s = true -> (0 < String.length s)%nat ->
  forall r, scan_sign (s +:+ r) = (false, s +:+ r)%string.
Proof.
  destruct s as [|c s]; simpl; [lia|]. intros [Hc _]%andb_true_iff _ r.
  destruct c as [[] [] [] [] [] [] [] []]; (done || discriminate Hc).
Qed.

Lemma scan_utoa n : 0 <= n ->
  scan_decimal (utoa n) = Some (DecText false (utoa n) "" 0).
Proof.
  intros Hn. destruct (utoa_spec n Hn) as (H1 & _ & H3).
  unfold scan_decimal.
  pose proof (scan_sign_digit _ H1 H3 "") as Hs. rewrite string_app_nil_r in Hs.
  rewrite Hs, span_digits_all by done.
  destruct (utoa n); [simpl in H3; lia|done].
Qed.

(** ** The interface to the decimal package *)

Class DecimalOps := {
  Decimal : Type;
  dec_Zero : Decimal;
  dec_NewFromString : string -> option Decimal;
  dec_NewFromFloat : float64 -> Decimal;
  dec_NewFromInt : Z -> Decimal;
  dec_NewFromBigInt : Z -> Z -> Decimal;
  dec_Add : Decimal -> Decimal -> Decimal;
  dec_Sub : Decimal -> Decimal -> Decimal;
  dec_Mul : Decimal -> Decimal -> Decimal;
  dec_Shift : Decimal -> Z -> Decimal;
  dec_Abs : Decimal -> Decimal;
  dec_DivRound : Decimal -> Decimal -> Z -> Decimal;
  dec_Round : Decimal -> Z -> Decimal;
  dec_BigInt : Decimal -> Z;
  dec_Cmp : Decimal -> Decimal -> comparison;
  dec_Sign : Decimal -> Z;
  dec_Exponent : Decimal -> Z;
  dec_String : Decimal -> string;
  dec_Float64 : Decimal -> float64;
}.

Class DecimalLaws `{!DecimalOps} := {
  val : Decimal -> Q;
  val_Zero : (val dec_Zero == 0)%Q;
  (** Text is read exactly, as coefficient and exponent. *)
  NewFromString_text s t d :
    scan_decimal s = Some t -> dec_NewFromString s = Some d ->
    (val d == text_value t)%Q /\ dec_Exponent d = text_scale t;
  (** Text without an exponent part and with a bounded fraction is accepted. *)
  NewFromString_plain s t :
    scan_decimal s = Some t -> dt_exp t = 0 ->
    (String.length (dt_frac t) <= 4096)%nat -> is_Some (dec_NewFromString s);
  (** Floats keep the digits that read back reliably: integers up to 2^53
      are exact, and the sign is kept. *)
  NewFromFloat_int f n :
    feq f (f_of_Z n) = true -> - 2 ^ 53 <= n <= 2 ^ 53 ->
    (val (dec_NewFromFloat f) == inject_Z n)%Q;
  NewFromFloat_nonneg f :
    is_finite f = true -> fle fzero f = true -> (0 <= val (dec_NewFromFloat f))%Q;
  val_NewFromInt n : (val (dec_NewFromInt n) == inject_Z n)%Q;
  val_NewFromBigInt n e : (val (dec_NewFromBigInt n e) == inject_Z n * pow10 e)%Q;
  val_Add a b : (val (dec_Add a b) == val a + val b)%Q;
  val_Sub a b : (val (dec_Sub a b) == val a - val b)%Q;
  val_Mul a b : (val (dec_Mul a b) == val a * val b)%Q;
  val_Shift a k : (val (dec_Shift a k) == val a * pow10 k)%Q;
  val_Abs a : (val (dec_Abs a) == Qabs (val a))%Q;
  (** Nearest multiple of [10^-p]. *)
  DivRound_nearest a b p :
    0 <= p -> ~ (val b == 0)%Q ->
    (Qabs (val (dec_DivRound a b p) - val a / val b) <= (1#2) * pow10 (- p))%Q /\
    exists z, (val (dec_DivRound a b p) == inject_Z z * pow10 (- p))%Q;
  DivRound_Exponent a b p : 0 <= p -> - p <= dec_Exponent (dec_DivRound a b p);
  val_Round0 a : (val (dec_Round a 0) == inject_Z (Qround_away (val a)))%Q;
  BigInt_trunc a : dec_BigInt a = Qtrunc (val a);
  Cmp_val a b : dec_Cmp a b = Qcompare (val a) (val b);
  Sign_val a : dec_Sign a = Z.sgn (Qnum (val a));
  (** Fixed-point text with at most [-Exponent] fraction digits. *)
  String_text a :
    exists t, scan_decimal (dec_String a) = Some t /\ dt_exp t = 0 /\
      (text_value t == val a)%Q /\
      Z.of_nat (String.length (dt_frac t)) <= Z.max 0 (- dec_Exponent a);
  Float64_nonneg a :
    (0 <= val a)%Q ->
    IsNaN (dec_Float64 a) = false /\ flt (dec_Float64 a) fzero = false;
}.

(** [d.IsZero()] is [d.Sign() == 0]. *)
Definition dec_IsZero `{!DecimalOps} (d : Decimal) : bool := dec_Sign d =? 0.

Section decimal_facts.
Context {Dops : DecimalOps} {Dlaws : DecimalLaws}.
Implicit Types a b d : Decimal.
Open Scope Q_scope.

Lemma Sign_pos d : (0 < dec_Sign d)%Z <-> 0 < val d.
Proof. rewrite Sign_val. destruct (val d) as [n p]; unfold Qlt; simpl. lia. Qed.
Lemma Sign_nonpos d : (dec_Sign d <= 0)%Z <-> val d <= 0.
Proof. rewrite Sign_val. destruct (val d) as [n p]; unfold Qle; simpl. lia. Qed.
Lemma Sign_neg d : (dec_Sign d < 0)%Z <-> val d < 0.
Proof. rewrite Sign_val. destruct (val d) as [n p]; unfold Qlt; simpl. lia. Qed.
Lemma Sign_nonneg d : (0 <= dec_Sign d)%Z <-> 0 <= val d.
Proof. rewrite Sign_val. destruct (val d) as [n p]; unfold Qle; simpl. lia. Qed.
Lemma IsZero_val d : dec_IsZero d = true <-> val d == 0.
Proof.
  unfold dec_IsZero. rewrite Z.eqb_eq, Sign_val.
  destruct (val d) as [n p]; unfold Qeq; simpl. lia.
Qed.

Lemma Cmp_gt a b : dec_Cmp a b = Gt <-> val b < val a.
Proof. rewrite Cmp_val. symmetry. apply Qgt_alt. Qed.
Lemma Cmp_lt a b : dec_Cmp a b = Lt <-> val a < val b.
Proof. rewrite Cmp_val. symmetry. apply Qlt_alt. Qed.
Lemma Cmp_eq a b : dec_Cmp a b = Eq <-> val a == val b.
Proof. rewrite Cmp_val. symmetry. apply Qeq_alt. Qed.

Lemma BigInt_int d z : val d == inject_Z z -> dec_BigInt d = z.
Proof. intros Hd. rewrite BigInt_trunc, Hd. apply Qtrunc_inject_Z. Qed.

Lemma Round_BigInt d : dec_BigInt (dec_Round d 0) = Qround_away (val d).
Proof. apply BigInt_int, val_Round0. Qed.

Lemma NewFromBigInt0 n : val (dec_NewFromBigInt n 0) == inject_Z n.
Proof. rewrite val_NewFromBigInt. unfold pow10. simpl. ring. Qed.

(** An integer printed by [big.Int.String] is read back exactly. *)
Lemma NewFromString_utoa n : (0 <= n)%Z ->
  exists d, dec_NewFromString (utoa n) = Some d /\ val d == inject_Z n.
Proof.
  intros Hn. pose proof (scan_utoa n Hn) as Hs.
  destruct (NewFromString_plain _ _ Hs) as [d Hd]; [done|simpl; lia|].
  exists d. split; [done|]. destruct (NewFromString_text _ _ _ Hs Hd) as [-> _].
  unfold text_value, text_coef, text_scale. cbn [dt_int dt_frac dt_neg dt_exp].
  rewrite string_app_nil_r. destruct (utoa_spec n Hn) as (_ & -> & _).
  unfold pow10; simpl. ring.
Qed.
End decimal_facts.
