(* ===== verification/DecimalInstance.v ===== *)
(** * An implementation of the decimal interface

    Arbitrary-precision decimals as coefficient and exponent, with every law
    of [DecimalLaws] proved.  No theorem about the ledger depends on this
    file's definitions; the witnesses evaluate with them. *)
From stdpp Require Import base option list strings.
From Stdlib Require Import ZArith Lia QArith Qround Qabs Qpower Lqa SpecFloat Ascii.
From S2P Require Import Prelude GoFloat Decimal.
Close Scope Q_scope.
Open Scope Z_scope.

Record dnum := DNum { coef : Z; dexp : Z }.

Definition dval (d : dnum) : Q := (inject_Z (coef d) * pow10 (dexp d))%Q.

(** The coefficient of [d] at exponent [e <= dexp d]. *)
Definition rescale (d : dnum) (e : Z) : Z := coef d * 10 ^ (dexp d - e).

Lemma rescale_val d e : e <= dexp d -> (inject_Z (rescale d e) * pow10 e == dval d)%Q.
Proof.
  intros He. unfold rescale, dval. rewrite inject_Z_mult.
  rewrite <- pow10_nonneg_inject, <- Qmult_assoc, <- pow10_plus by lia.
  replace (dexp d - e + e) with (dexp d) by lia. reflexivity.
Qed.

Definition daligned (f : Z -> Z -> Z) (a b : dnum) : dnum :=
  let e := Z.min (dexp a) (dexp b) in DNum (f (rescale a e) (rescale b e)) e.

Definition dparse (s : string) : option dnum :=
  t ← scan_decimal s; Some (DNum (text_coef t) (text_scale t)).

(** The integer a float equals, when it is one of magnitude at most [2^53]. *)
Definition small_int (f : float64) : option Z :=
  let n := ftruncZ f in
  if feq f (f_of_Z n) && (- 2 ^ 53 <=? n) && (n <=? 2 ^ 53) then Some n else None.

Definition dfloat (f : float64) : dnum :=
  match small_int f with
  | Some n => DNum n 0
  | None =>
      match f with
      | S754_finite s m e =>
          match shortest_decimal (Z.pos m) e with
          | Some (d, k) => DNum (if s then - Z.abs d else Z.abs d) k
          | None => DNum 0 0
          end
      | _ => DNum 0 0
      end
  end.

(** Remove trailing zeros of the fraction. *)
Fixpoint dstrip (fuel : nat) (d : dnum) : dnum :=
  match fuel with
  | O => d
  | S fuel' =>
      if (dexp d <? 0) && (coef d mod 10 =? 0)
      then dstrip fuel' (DNum (coef d / 10) (dexp d + 1)) else d
  end.

Fixpoint zeros_text (n : nat) : string :=
  match n with O => EmptyString | S n' => String "0" (zeros_text n') end.

Definition dtext_abs (c e : Z) : string :=
  if 0 <=? e then utoa (c * 10 ^ e)
  else
    let p := 10 ^ (- e) in
    let frac := utoa (c mod p) in
    (utoa (c / p) +:+ "." +:+
     (zeros_text (Z.to_nat (- e) - String.length frac) +:+ frac))%string.

Definition dtext (d0 : dnum) : string :=
  let d := dstrip (Z.to_nat (- dexp d0)) d0 in
  if coef d <? 0 then String "-" (dtext_abs (- coef d) (dexp d))
  else dtext_abs (coef d) (dexp d).

(** Nearest float, ties to even. *)
Definition dtofloat (d : dnum) : float64 :=
  let num := if 0 <=? dexp d then Z.abs (coef d) * 10 ^ dexp d else Z.abs (coef d) in
  let den := if 0 <=? dexp d then 1 else 10 ^ (- dexp d) in
  let sh := Z.max 0 (Z.log2 den - Z.log2 num + 60) in
  let q := (num * 2 ^ sh) / den in
  let sticky := if (num * 2 ^ sh) mod den =? 0 then 0 else 1 in
  match binary_normalize 53 1024 (2 * q + sticky) (- sh - 1) false with
  | S754_finite _ m e => S754_finite (coef d <? 0) m e
  | S754_infinity _ => S754_infinity (coef d <? 0)
  | _ => S754_zero false
  end.

#[local] Instance dnum_ops : DecimalOps := {
  Decimal := dnum;
  dec_Zero := DNum 0 0;
  dec_NewFromString := dparse;
  dec_NewFromFloat := dfloat;
  dec_NewFromInt n := DNum n 0;
  dec_NewFromBigInt n e := DNum n e;
  dec_Add := daligned Z.add;
  dec_Sub := daligned Z.sub;
  dec_Mul a b := DNum (coef a * coef b) (dexp a + dexp b);
  dec_Shift a k := DNum (coef a) (dexp a + k);
  dec_Abs a := DNum (Z.abs (coef a)) (dexp a);
  dec_DivRound a b p := DNum (Qround_away (dval a / dval b * pow10 p)) (- p);
  dec_Round a p := DNum (Qround_away (dval a * pow10 p)) (- p);
  dec_BigInt a := if 0 <=? dexp a then coef a * 10 ^ dexp a
                  else Z.quot (coef a) (10 ^ (- dexp a));
  dec_Cmp a b := let e := Z.min (dexp a) (dexp b) in
                 Z.compare (rescale a e) (rescale b e);
  dec_Sign a := Z.sgn (coef a);
  dec_Exponent a := dexp a;
  dec_String := dtext;
  dec_Float64 := dtofloat;
}.

Lemma dval_sgn d : Z.sgn (Qnum (dval d)) = Z.sgn (coef d).
Proof.
  unfold dval. simpl. rewrite Z.sgn_mul.
  pose proof (pow10_pos (dexp d)) as H. unfold Qlt in H; simpl in H. lia.
Qed.

Lemma daligned_val f (g : Q -> Q -> Q) a b :
  (forall x y, inject_Z (f x y) == g (inject_Z x) (inject_Z y))%Q ->
  (forall x y z, g x y * z == g (x * z) (y * z))%Q ->
  Proper (Qeq ==> Qeq ==> Qeq) g ->
  (dval (daligned f a b) == g (dval a) (dval b))%Q.
Proof.
  intros Hf Hg Hp. unfold daligned. set (e := Z.min _ _).
  rewrite <- (rescale_val a e), <- (rescale_val b e) by lia.
  unfold dval at 1; simpl. rewrite Hf, Hg. reflexivity.
Qed.

Lemma Qround_away_near q : (Qabs (inject_Z (Qround_away q) - q) <= 1#2)%Q.
Proof.
  assert (forall r, 0 <= r -> Qabs (inject_Z (Qround_away r) - r) <= 1#2)%Q as Hpos.
  { intros r Hr. destruct (Qround_away_spec_nonneg r Hr) as (H1 & H2 & _).
    rewrite inject_Z_plus in H2. apply Qabs_Qle_condition. change (inject_Z 1) with 1%Q in H2. lra. }
  destruct (Qlt_le_dec q 0) as [Hq|Hq]; [|by apply Hpos].
  specialize (Hpos (- q)%Q). rewrite Qround_away_opp, inject_Z_opp in Hpos.
  rewrite <- Qabs_opp.
  assert (- (inject_Z (Qround_away q) - q) ==
          - inject_Z (Qround_away q) - - q)%Q as -> by ring.
  apply Hpos. lra.
Qed.

Lemma dfloat_int f n :
  feq f (f_of_Z n) = true -> - 2 ^ 53 <= n <= 2 ^ 53 ->
  (dval (dfloat f) == inject_Z n)%Q.
Proof.
  intros Heq Hn. assert (is_finite f = true) as Hf by (destruct f as [|[]| |], n; try done).
  pose proof (ftruncZ_int f n Hf Heq) as Ht. unfold dfloat, small_int.
  rewrite Ht, Heq. destruct (- 2 ^ 53 <=? n) eqn:E1, (n <=? 2 ^ 53) eqn:E2; zbool; try lia.
  cbn -[inject_Z pow10]. unfold dval; simpl. unfold pow10; simpl. ring.
Qed.

Lemma dval_nonneg_iff d : (0 <= dval d)%Q <-> 0 <= coef d.
Proof.
  pose proof (dval_sgn d). unfold Qle. simpl. unfold dval in H. simpl in H.
  rewrite Z.mul_1_r. lia.
Qed.

Lemma dfloat_nonneg f :
  is_finite f = true -> fle fzero f = true -> (0 <= dval (dfloat f))%Q.
Proof.
  intros Hf Hle. apply dval_nonneg_iff.
  assert (0 <= fmant f) as Hm.
  { revert Hle. unfold fle. rewrite fcmp_finite by done. cbn [fmant fexp fzero].
    rewrite Z.mul_0_l. set (e := Z.min _ _).
    pose proof (Z.pow_pos_nonneg 2 (fexp f - e)). 
    destruct (Z.compare _ _) eqn:E; [|  |done]; intros _; 
      [apply Z.compare_eq_iff in E|change (0 < fmant f * 2 ^ (fexp f - e)) in E]; nia. }
  unfold dfloat. destruct (small_int f) as [n|] eqn:Hs.
  - unfold small_int in Hs. case_match; simplify_eq. simpl.
    unfold ftruncZ. pose proof (Z.pow_nonneg 2 (fexp f)).
    pose proof (Z.pow_nonneg 2 (- fexp f)). 
    case_match; [nia|]. zbool. apply Z.quot_pos; [done|]. apply Z.pow_pos_nonneg; lia.
  - destruct f as [| | |s m e]; try done. simpl in Hm. destruct s; [lia|].
    destruct (shortest_decimal _ _) as [[d k]|]; simpl; lia.
Qed.

Lemma zeros_text_spec n :
  all_digits (zeros_text n) = true /\ digits_val (zeros_text n) = 0 /\
  String.length (zeros_text n) = n.
Proof.
  induction n as [|n (H1 & H2 & H3)]; [done|]. cbn [zeros_text].
  rewrite digits_val_cons, H2. repeat split; [done..|simpl; lia].
Qed.

Lemma frac_text_spec n k : 0 <= n < 10 ^ Z.of_nat k -> (1 <= k)%nat ->
  let frac := (zeros_text (k - String.length (utoa n)) +:+ utoa n)%string in
  all_digits frac = true /\ digits_val frac = n /\ String.length frac = k.
Proof.
  intros Hn Hk. simpl. destruct (utoa_spec n) as (H1 & H2 & H3); [lia|].
  destruct (zeros_text_spec (k - String.length (utoa n))) as (Z1 & Z2 & Z3).
  assert (String.length (utoa n) <= k)%nat.
  { pose proof (utoa_acc_length (S (Z.to_nat (Z.log2 n))) n "" k). unfold utoa.
    simpl String.length in *. lia. }
  rewrite all_digits_app, Z1, H1, digits_val_app, Z2, H2, string_length_app, Z3.
  repeat split; lia.
Qed.

Lemma dtext_abs_scan c e : 0 <= c ->
  scan_sign (dtext_abs c e) = (false, dtext_abs c e) /\
  exists ip fp, (let '(ds, r1) := span_digits (dtext_abs c e) in
   ds = ip /\ String.eqb ip "" = false /\
   ((r1 = "" /\ fp = "") \/ r1 = String "." fp /\ span_digits fp = (fp, ""))%string) /\
   Z.of_nat (String.length fp) = Z.max 0 (- e) /\
   digits_val (ip +:+ fp) = c * 10 ^ Z.max 0 e.
Proof.
  intros Hc. unfold dtext_abs. destruct (0 <=? e) eqn:E; zbool.
  - pose proof (Z.pow_nonneg 10 e). destruct (utoa_spec (c * 10 ^ e)) as (H1 & H2 & H3); [nia|].
    split; [rewrite <- (string_app_nil_r (utoa _)); by apply scan_sign_digit|]. exists (utoa (c * 10 ^ e)), ""%string.
    rewrite span_digits_all by done. rewrite string_app_nil_r, H2, (Z.max_l 0 (- e)), (Z.max_r 0 e) by lia.
    repeat split; [|by left].
    destruct (utoa _); [simpl in H3; lia|done].
  - set (p := 10 ^ (- e)). assert (0 < p) by (apply Z.pow_pos_nonneg; lia).
    destruct (utoa_spec (c / p)) as (H1 & H2 & H3); [apply Z.div_pos; lia|].
    destruct (frac_text_spec (c mod p) (Z.to_nat (- e))) as (F1 & F2 & F3); [|lia|].
    { rewrite Z2Nat.id by lia. apply Z.mod_pos_bound; lia. }
    set (fp := (zeros_text _ +:+ _)%string) in *.
    split; [by apply scan_sign_digit|].
    exists (utoa (c / p)), fp. rewrite span_digits_app by done.
    rewrite digits_val_app, F2, F3, H2, Z2Nat.id, (Z.max_r 0 (- e)), (Z.max_l 0 e) by lia.
    fold p. rewrite Z.mul_1_r, (Z.mul_comm (c / p)), <- Z.div_mod by lia.
    repeat split; [destruct (utoa _); [simpl in H3; lia|done]|]. right. split; [done|]. by apply span_digits_all.
Qed.

Lemma dstrip_spec fuel d :
  (dval (dstrip fuel d) == dval d)%Q /\
  Z.max 0 (- dexp (dstrip fuel d)) <= Z.max 0 (- dexp d).
Proof.
  revert d; induction fuel as [|fuel IH]; intros d; [by split; [|simpl; lia]|].
  cbn [dstrip]. destruct (_ && _) eqn:E; [|by split; [|lia]]. zbool.
  destruct (IH (DNum (coef d / 10) (dexp d + 1))) as [IH1 IH2]. simpl in IH2.
  split; [|lia]. rewrite IH1. unfold dval; simpl.
  rewrite pow10_plus. rewrite (Z.div_mod (coef d) 10) at 2 by lia.
  rewrite H0, Z.add_0_r, inject_Z_mult. change (pow10 1) with (inject_Z 10). ring.
Qed.

Lemma dtext_spec a :
  exists t, scan_decimal (dtext a) = Some t /\ dt_exp t = 0 /\
    (text_value t == dval a)%Q /\
    Z.of_nat (String.length (dt_frac t)) <= Z.max 0 (- dexp a).
Proof.
  unfold dtext. cbv zeta. destruct (dstrip_spec (Z.to_nat (- dexp a)) a) as [Hv He].
  set (d := dstrip _ _) in *. clearbody d.
  destruct (dtext_abs_scan (Z.abs (coef d)) (dexp d)) as (Hs & ip & fp & Hsp & Hl & Hval); [lia|].
  set (s := dtext_abs (Z.abs (coef d)) (dexp d)) in *.
  remember (coef d <? 0) as neg eqn:Hneg.
  assert (scan_sign (if neg then String "-" (dtext_abs (- coef d) (dexp d))
                     else dtext_abs (coef d) (dexp d)) = (neg, s)) as Hsign.
  { unfold s in *. destruct neg; symmetry in Hneg; zbool.
    - by rewrite Z.abs_neq by lia.
    - by rewrite Z.abs_eq in * by lia. }
  exists (DecText neg ip fp 0). unfold scan_decimal. rewrite Hsign.
  destruct (span_digits s) as [ds r1]. destruct Hsp as (-> & Hip & Hr).
  split; [|split; [done|split; [|simpl; lia]]].
  - rewrite Hip. destruct Hr as [[-> ->]|[-> Hfp]]; [done|]. by rewrite Hfp.
  - rewrite <- Hv. unfold text_value, text_coef, text_scale, dval. simpl.
    rewrite Hval, Hl.
    assert (forall c, inject_Z (c * 10 ^ Z.max 0 (dexp d)) * pow10 (0 - Z.max 0 (- dexp d))
              == inject_Z c * pow10 (dexp d))%Q as Hc.
    { intros c. rewrite inject_Z_mult, <- pow10_nonneg_inject by lia.
      rewrite <- Qmult_assoc, <- pow10_plus. f_equiv. f_equiv. lia. }
    destruct neg; symmetry in Hneg; zbool.
    + rewrite <- Z.mul_opp_l, Hc, Z.abs_neq, Z.opp_involutive by lia. reflexivity.
    + rewrite Hc, Z.abs_eq by lia. reflexivity.
Qed.

Lemma dtofloat_nonneg a : (0 <= dval a)%Q ->
  IsNaN (dtofloat a) = false /\ flt (dtofloat a) fzero = false.
Proof.
  intros Ha%dval_nonneg_iff. unfold dtofloat.
  destruct (coef a <? 0) eqn:E; zbool; [lia|].
  destruct (binary_normalize _ _ _ _ _) as [[]|[]| |s m e]; try done.
  split; [done|]. unfold flt. rewrite fcmp_finite by done. cbn [fmant fexp fzero].
  rewrite Z.mul_0_l. destruct (Z.compare_spec (Z.pos m * 2 ^ (e - Z.min e 0)) 0) as [|H|]; try done.
  pose proof (Z.pow_nonneg 2 (e - Z.min e 0)). nia.
Qed.

Lemma dbigint_trunc a :
  (if 0 <=? dexp a then coef a * 10 ^ dexp a else Z.quot (coef a) (10 ^ (- dexp a)))
  = Qtrunc (dval a).
Proof.
  unfold dval. destruct (0 <=? dexp a) eqn:E; zbool.
  - rewrite pow10_nonneg_inject, <- inject_Z_mult by lia. by rewrite Qtrunc_inject_Z.
  - assert (0 < 10 ^ (- dexp a)) by (apply Z.pow_pos_nonneg; lia).
    assert (inject_Z (coef a) * pow10 (dexp a) == (coef a # Z.to_pos (10 ^ (- dexp a))))%Q as ->.
    { rewrite Qmake_Qdiv, Z2Pos.id, <- pow10_nonneg_inject by lia.
      unfold Qdiv. f_equiv. unfold pow10. by rewrite <- Qpower_opp, Z.opp_involutive. }
    unfold Qtrunc; simpl. by rewrite Z2Pos.id.
Qed.

Lemma dcmp_val a b :
  (let e := Z.min (dexp a) (dexp b) in Z.compare (rescale a e) (rescale b e))
  = Qcompare (dval a) (dval b).
Proof.
  simpl. set (e := Z.min _ _).
  rewrite <- (rescale_val a e), <- (rescale_val b e) by lia.
  generalize (rescale a e), (rescale b e). intros x y.
  pose proof (pow10_pos e) as Hp. symmetry.
  destruct (Z.compare_spec x y) as [->|H|H]; [by apply Qeq_alt| |];
    rewrite Zlt_Qlt in H; [apply Qlt_alt|apply Qgt_alt]; by apply Qmult_lt_compat_r.
Qed.

Lemma ddivround_nearest a b p :
  0 <= p -> ~ (dval b == 0)%Q ->
  (Qabs (inject_Z (Qround_away (dval a / dval b * pow10 p)) * pow10 (- p) - dval a / dval b)
     <= (1#2) * pow10 (- p))%Q.
Proof.
  intros Hp Hb. set (q := (dval a / dval b)%Q).
  pose proof (Qround_away_near (q * pow10 p)) as Hn.
  pose proof (pow10_pos (- p)) as Hpos.
  assert (inject_Z (Qround_away (q * pow10 p)) * pow10 (- p) - q ==
    (inject_Z (Qround_away (q * pow10 p)) - q * pow10 p) * pow10 (- p))%Q as ->.
  { transitivity (inject_Z (Qround_away (q * pow10 p)) * pow10 (- p)
       - q * (pow10 (- p) * pow10 p))%Q; [rewrite pow10_opp|]; ring. }
  rewrite Qabs_Qmult, (Qabs_pos (pow10 (- p))) by lra.
  by apply Qmult_le_compat_r; [|lra].
Qed.

#[local] Instance dnum_laws : DecimalLaws.
Proof.
  refine {| val := dval : Decimal -> Q |}; cbn [Decimal dec_Zero dec_NewFromString dec_NewFromFloat
    dec_NewFromInt dec_NewFromBigInt dec_Add dec_Sub dec_Mul dec_Shift dec_Abs
    dec_DivRound dec_Round dec_BigInt dec_Cmp dec_Sign dec_Exponent dec_String
    dec_Float64 dnum_ops].
  - reflexivity.
  - unfold dparse. intros s t d -> H. simpl in H. by simplify_eq.
  - unfold dparse. intros s t -> _ _. simpl. eauto.
  - apply dfloat_int.
  - apply dfloat_nonneg.
  - intros n. unfold dval; simpl. unfold pow10; simpl. ring.
  - reflexivity.
  - intros a b. apply daligned_val; [|intros; ring|apply _].
    intros x y. rewrite inject_Z_plus. reflexivity.
  - intros a b. apply daligned_val; [|intros; ring|apply _].
    intros x y. unfold Z.sub. rewrite inject_Z_plus, inject_Z_opp. reflexivity.
  - intros a b. unfold dval; simpl. rewrite inject_Z_mult, pow10_plus. ring.
  - intros a k. unfold dval; simpl. rewrite pow10_plus. ring.
  - intros a. unfold dval; cbn [coef dexp]. rewrite Qabs_Qmult.
    rewrite (Qabs_pos (pow10 _)) by (pose proof (pow10_pos (dexp a)); lra).
    reflexivity.
  - intros a b p Hp Hb. split; [by apply ddivround_nearest|].
    eexists. reflexivity.
  - intros a b p Hp. simpl. lia.
  - intros a. assert (dval a * pow10 0 == dval a)%Q as -> by (unfold pow10; simpl; ring).
    unfold dval at 1; cbn [coef dexp]. change (pow10 (- 0)) with 1%Q. apply Qmult_1_r.
  - apply dbigint_trunc.
  - apply dcmp_val.
  - intros a. by rewrite dval_sgn.
  - apply dtext_spec.
  - apply dtofloat_nonneg.
Defined.
