(* ===== verification/Model.v ===== *)
(** * Data model

    The structs of [model/]: balances, distributions, transactions, monitors,
    execution controls.  A [*big.Int] is an [option Z] ([None] is nil), a
    [time.Time] the nanoseconds since the zero time (0001-01-01 UTC), a
    [map[string]interface{}] an optional finite map to JSON values ([None] is
    the nil map).  Field names are the source's with a prefix per struct.
    The [json] struct tags, used at the HTTP boundary only, are not kept. *)
From stdpp Require Import base option list strings gmap.
From Stdlib Require Import ZArith Lia.
From S2P Require Import Prelude GoFloat.
Open Scope Z_scope.

(** Decoded JSON ([interface{}] values of metadata maps). *)
Inductive json :=
| JNull
| JBool (b : bool)
| JNum (f : float64)
| JStr (s : string)
| JArr (l : list json)
| JObj (l : list (string * json)).

Abbreviation metadata := (option (gmap string json)).

(** Reading a map, which Go allows on the nil map. *)
Definition md_get (m : metadata) (k : string) : option json := m ≫= (.!! k).
(** [m[k] = v] after the source's own [if m == nil { m = make(...) }]. *)
Definition md_set (m : metadata) (k : string) (v : json) : metadata :=
  Some (<[k := v]> (default ∅ m)).

Record Distribution := {
  d_Identifier : string;
  d_Distribution : string;
  d_PreciseDistribution : string;
  d_TransactionID : string }.

Record Balance := {
  b_CurrencyMultiplier : float64;
  b_ID : Z;
  b_Balance : option Z;
  b_Version : Z;
  b_InflightBalance : option Z;
  b_CreditBalance : option Z;
  b_InflightCreditBalance : option Z;
  b_DebitBalance : option Z;
  b_InflightDebitBalance : option Z;
  b_QueuedDebitBalance : option Z;
  b_QueuedCreditBalance : option Z;
  b_LedgerID : string;
  b_IdentityID : string;
  b_BalanceID : string;
  b_Indicator : string;
  b_Currency : string;
  b_CreatedAt : Z;
  b_InflightExpiresAt : Z;
  b_MetaData : metadata;
  b_TrackFundLineage : bool;
  b_AllocationStrategy : string }.

Record Transaction := {
  t_ParentKind : string;
  t_QueuedParent : string;
  t_QueueLane : string;
  t_ShadowFor : string;
  t_ReservedMetadata : metadata;
  t_Rate : float64;
  t_ID : Z;
  t_PreciseAmount : option Z;
  t_Amount : float64;
  t_AmountString : string;
  t_Precision : float64;
  t_OverdraftLimit : float64;
  t_TransactionID : string;
  t_ParentTransaction : string;
  t_Source : string;
  t_Destination : string;
  t_Reference : string;
  t_Currency : string;
  t_Description : string;
  t_Status : string;
  t_QueueAction : string;
  t_Hash : string;
  t_AllowOverdraft : bool;
  t_Inflight : bool;
  t_SkipBalanceUpdate : bool;
  t_SkipQueue : bool;
  t_Atomic : bool;
  t_GroupIds : list string;
  t_Sources : list Distribution;
  t_Destinations : list Distribution;
  t_CreatedAt : Z;
  t_EffectiveDate : option Z;
  t_ScheduledFor : Z;
  t_InflightExpiryDate : Z;
  t_InflightCommitDate : Z;
  t_MetaData : metadata }.

Record AlertCondition := {
  ac_Value : float64;
  ac_Precision : float64;
  ac_PreciseValue : Z;
  ac_Field : string;
  ac_Operator : string }.

Record BalanceMonitor := {
  bm_MonitorID : string;
  bm_BalanceID : string;
  bm_Description : string;
  bm_CallBackURL : string;
  bm_CreatedAt : Z;
  bm_Condition : AlertCondition }.

(** The zero value of the struct ([&Balance{}]). *)
Definition zero_balance : Balance := {|
  b_CurrencyMultiplier := fzero; b_ID := 0; b_Balance := None; b_Version := 0;
  b_InflightBalance := None; b_CreditBalance := None;
  b_InflightCreditBalance := None; b_DebitBalance := None;
  b_InflightDebitBalance := None; b_QueuedDebitBalance := None;
  b_QueuedCreditBalance := None; b_LedgerID := ""; b_IdentityID := "";
  b_BalanceID := ""; b_Indicator := ""; b_Currency := ""; b_CreatedAt := 0;
  b_InflightExpiresAt := 0; b_MetaData := None; b_TrackFundLineage := false;
  b_AllocationStrategy := "" |}.

(** The zero value of the struct ([&Transaction{}]). *)
Definition zero_transaction : Transaction := {|
  t_ParentKind := ""; t_QueuedParent := ""; t_QueueLane := ""; t_ShadowFor := "";
  t_ReservedMetadata := None; t_Rate := fzero; t_ID := 0; t_PreciseAmount := None;
  t_Amount := fzero; t_AmountString := ""; t_Precision := fzero;
  t_OverdraftLimit := fzero; t_TransactionID := ""; t_ParentTransaction := "";
  t_Source := ""; t_Destination := ""; t_Reference := ""; t_Currency := "";
  t_Description := ""; t_Status := ""; t_QueueAction := ""; t_Hash := "";
  t_AllowOverdraft := false; t_Inflight := false; t_SkipBalanceUpdate := false;
  t_SkipQueue := false; t_Atomic := false; t_GroupIds := []; t_Sources := [];
  t_Destinations := []; t_CreatedAt := 0; t_EffectiveDate := None;
  t_ScheduledFor := 0; t_InflightExpiryDate := 0; t_InflightCommitDate := 0;
  t_MetaData := None |}.

(** [GetEffectiveDate]. *)
Definition GetEffectiveDate (t : Transaction) : Z :=
  match t_EffectiveDate t with Some d => d | None => t_CreatedAt t end.
