(* ===== verification/Amount.v ===== *)
(** * Amounts

    [model/amount.go] and the precision part of [model/model.go]: validation
    of monetary fields, exact parsing of decimal amounts into integer minor
    units, and the conversion between [PreciseAmount] and the decimal
    [Amount]/[AmountString].  A function that assigns to the transaction
    returns the assigned transaction beside its result. *)
From stdpp Require Import base option list strings gmap.
From Stdlib Require Import ZArith Lia QArith Qabs Qround Lqa SpecFloat.
From S2P Require Import Prelude GoFloat Decimal DecimalInstance Model.
Close Scope Q_scope.
Open Scope Z_scope.

(** [ValidatePrecision]. *)
Definition ValidatePrecision (precision : float64) : result unit :=
  if IsNaN precision || IsInf precision || flt precision fzero
     || negb (feq (Trunc precision) precision)
  then Err (errors_New "precision must be a finite positive integer (or zero for the default)")
  else Ok tt.

Section Amounts.
Context {Dops : DecimalOps}.

(** [parseMonetaryDecimal]. *)
Definition parseMonetaryDecimal (text : string) : result Decimal :=
  if (4096 <? Z.of_nat (String.length text)) then
    Err (errors_New "decimal input exceeds 4096 characters")
  else match scan_decimal text with
  | None => Err (errors_New "invalid decimal format")
  | Some _ =>
      match dec_NewFromString text with
      | None => Err (errors_New "can't convert to decimal")
      | Some value =>
          if (dec_Exponent value <? -4096) || (4096 <? dec_Exponent value) then
            Err (errors_New "decimal exponent exceeds supported range")
          else Ok value
      end
  end.

(** [ParseAmount]. *)
Definition ParseAmount (amount : string) (precision : float64) : result Z :=
  let* _ := ValidatePrecision precision in
  let precision := if feq precision fzero then f_of_Z 1 else precision in
  match parseMonetaryDecimal amount with
  | Err _ => Err (errors_New "invalid decimal amount")
  | Ok value =>
      if dec_Sign value <=? 0 then
        Err (errors_New "transaction amount must be positive")
      else
        let minor := dec_BigInt (dec_Round (dec_Mul value (dec_NewFromFloat precision)) 0) in
        if minor <=? 0 then
          Err (errors_New "transaction amount rounds to zero minor units")
        else Ok minor
  end.

(** [validateMonetaryFields]. *)
Definition validateMonetaryFields (t : Transaction) : result unit :=
  if flt (t_Amount t) fzero then
    Err (errors_New "transaction amount must be positive")
  else if IsNaN (t_Amount t) || IsInf (t_Amount t) then
    Err (errors_New "transaction amount must be finite and positive")
  else
    let* _ := (if String.eqb (t_AmountString t) "" then Ok tt
               else match parseMonetaryDecimal (t_AmountString t) with
                    | Ok value =>
                        if dec_Sign value <? 0 then
                          Err (errors_New "transaction decimal amount must be finite and non-negative")
                        else Ok tt
                    | Err _ =>
                        Err (errors_New "transaction decimal amount must be finite and non-negative")
                    end) in
    let* _ := ValidatePrecision (t_Precision t) in
    if IsNaN (t_Rate t) || IsInf (t_Rate t) || flt (t_Rate t) fzero then
      Err (errors_New "rate must be finite and positive (or zero for the default)")
    else if IsNaN (t_OverdraftLimit t) || IsInf (t_OverdraftLimit t)
            || flt (t_OverdraftLimit t) fzero then
      Err (errors_New "overdraft limit must be finite and non-negative")
    else Ok tt.

(** [decimalAmount]. *)
Definition decimalAmount (t : Transaction) : string :=
  if String.eqb (t_AmountString t) "" then FormatFloat (t_Amount t)
  else t_AmountString t.

(** [validate], exported as [ValidateAmount]. *)
Definition validate (t : Transaction) : result unit :=
  let* _ := validateMonetaryFields t in
  match t_PreciseAmount t with
  | Some p =>
      if p <=? 0 then Err (errors_New "transaction precise amount must be positive")
      else Ok tt
  | None =>
      let* _ := ParseAmount (decimalAmount t) (t_Precision t) in Ok tt
  end.
Definition ValidateAmount (t : Transaction) : result unit := validate t.

(** The inner loop of [convertPreciseToDecimal]: divide by [factor] while it
    divides; the quotient and the number of divisions.  A positive number is
    divided at most [log2] times. *)
Fixpoint strip_factor (fuel : nat) (factor denominator count : Z) : Z * Z :=
  match fuel with
  | O => (denominator, count)
  | S fuel' =>
      if denominator mod factor =? 0
      then strip_factor fuel' factor (Z.quot denominator factor) (count + 1)
      else (denominator, count)
  end.

(** Number of decimal places of the division by the scale [p]. *)
Definition decimal_places (p : Z) : Z :=
  let fuel := S (Z.to_nat (Z.log2 p)) in
  let '(d2, c2) := strip_factor fuel 2 p 0 in
  let '(d5, c5) := strip_factor fuel 5 d2 0 in
  if d5 =? 1 then Z.max (Z.max 0 c2) c5
  else Z.of_nat (String.length (itoa p)) + 16.

(** [convertPreciseToDecimal]. *)
Definition convertPreciseToDecimal (t : Transaction) : Transaction :=
  let preciseAmountDec :=
    match t_PreciseAmount t with
    | Some p => default dec_Zero (dec_NewFromString (itoa p))
    | None => dec_Zero
    end in
  let precisionDec := dec_NewFromFloat (t_Precision t) in
  let places := decimal_places (dec_BigInt precisionDec) in
  let resultDec := dec_DivRound preciseAmountDec precisionDec places in
  {| t with t_AmountString := dec_String resultDec;
            t_Amount := dec_Float64 resultDec |}.

(** [convertDecimalToPrecise]. *)
Definition convertDecimalToPrecise (t : Transaction) : Z :=
  match ParseAmount (decimalAmount t) (t_Precision t) with
  | Ok amount => amount
  | Err _ => 0
  end.

(** [applyPrecisionLogic]; the result is the transaction's [PreciseAmount]. *)
Definition applyPrecisionLogic (t : Transaction) : Z * Transaction :=
  let t := if feq (t_Precision t) fzero then {| t with t_Precision := f_of_Z 1 |} else t in
  match t_PreciseAmount t with
  | Some p =>
      if 0 <? p then (p, convertPreciseToDecimal t)
      else let p' := convertDecimalToPrecise t in
           (p', convertPreciseToDecimal {| t with t_PreciseAmount := Some p' |})
  | None =>
      let p' := convertDecimalToPrecise t in
      (p', convertPreciseToDecimal {| t with t_PreciseAmount := Some p' |})
  end.

(** [ApplyPrecision]. *)
Definition ApplyPrecision (t : Transaction) : Z * Transaction :=
  match validateMonetaryFields t with
  | Err _ => (0, t)
  | Ok _ =>
      let t := if feq (t_Precision t) fzero then {| t with t_Precision := f_of_Z 1 |} else t in
      applyPrecisionLogic t
  end.

(** [ApplyPrecisionChecked]. *)
Definition ApplyPrecisionChecked (t : Transaction) : result (Z * Transaction) :=
  let* _ := validate t in Ok (ApplyPrecision t).

(** [ApplyPrecisionWithDBLookupChecked]: [lookup] is the query of the stored
    precision of a transaction or of its first child. *)
Definition ApplyPrecisionWithDBLookupChecked
    (lookup : string -> result float64) (t : Transaction) : result (Z * Transaction) :=
  if String.eqb (t_TransactionID t) "" then
    Err (errors_New "database and transaction ID are required for precision lookup")
  else match lookup (t_TransactionID t) with
  | Err e => Err (wrap "fetch transaction precision: " e)
  | Ok precision =>
      let* _ := ValidatePrecision precision in
      if feq precision fzero then
        Err (errors_New "stored transaction precision must be positive")
      else ApplyPrecisionChecked {| t with t_Precision := precision |}
  end.

End Amounts.

(** ** Properties *)

Section AmountFacts.
Context {Dops : DecimalOps} {Dlaws : DecimalLaws}.

Lemma parseMonetaryDecimal_Ok s d :
  parseMonetaryDecimal s = Ok d <->
  (String.length s <= 4096)%nat /\
  (exists t, scan_decimal s = Some t /\ dec_NewFromString s = Some d /\
     -4096 <= text_scale t <= 4096 /\ (val d == text_value t)%Q).
Proof.
  unfold parseMonetaryDecimal. split.
  - intros H. res_inv H. zbool.
    destruct (NewFromString_text _ _ _ Heqo Heqo0) as [? He].
    subst. split; [lia|]. exists d0. rewrite He in *. repeat split; (done || lia).
  - intros (Hl & t & Hs & Hd & He & _).
    destruct (4096 <? _) eqn:E; zbool; [lia|].
    rewrite Hs, Hd. destruct (NewFromString_text _ _ _ Hs Hd) as [_ ->].
    destruct (_ || _) eqn:E2; [|done].
    apply orb_true_iff in E2 as [E2|E2]; zbool; lia.
Qed.

(** A positive integral scale that a float represents exactly. *)
Definition int_scale (precision : float64) (k : Z) : Prop :=
  feq precision (f_of_Z k) = true /\ 0 < k <= 2 ^ 53.

Lemma feq_finite f n : feq f (f_of_Z n) = true -> is_finite f = true.
Proof. by destruct f as [|[]| |], n. Qed.

Lemma int_scale_value p k : int_scale p k ->
  ValidatePrecision p = Ok tt /\ feq p fzero = false /\
  (val (dec_NewFromFloat p) == inject_Z k)%Q.
Proof.
  intros [He Hk]. pose proof (feq_finite _ _ He) as Hf.
  pose proof (ftruncZ_int _ _ Hf He) as Ht.
  assert (0 < fmant p) as Hm.
  { revert He. unfold feq. rewrite fcmp_finite by (done || by destruct k).
    destruct k as [|k|]; try lia. cbn [fmant fexp f_of_Z].
    destruct (Z.compare _ _) eqn:E; [|done..]. intros _. apply Z.compare_eq_iff in E.
    pose proof (Z.pow_pos_nonneg 2 (0 - Z.min (fexp p) 0)).
    pose proof (Z.pow_nonneg 2 (fexp p - Z.min (fexp p) 0)). nia. }
  assert (forall g, is_finite g = true -> fmant g = 0 ->
    flt p g = false /\ feq p g = false) as Hzero.
  { intros g Hg Hg0. unfold flt, feq. rewrite fcmp_finite, Hg0 by done.
    pose proof (Z.pow_pos_nonneg 2 (fexp p - Z.min (fexp p) (fexp g))).
    destruct (Z.compare_spec (fmant p * 2 ^ (fexp p - Z.min (fexp p) (fexp g)))
      (0 * 2 ^ (fexp g - Z.min (fexp p) (fexp g)))); split; (done || nia). }
  destruct (Hzero fzero) as [Hl Hz]; [done..|].
  split; [|split; [done|apply NewFromFloat_int; [done|lia]]].
  unfold ValidatePrecision. rewrite Hl.
  assert (IsNaN p = false /\ IsInf p = false) as [-> ->] by (by destruct p).
  destruct p as [| | |s m e]; try done. cbn [Trunc].
  destruct (0 <=? e) eqn:E; cbn [orb].
  - assert (feq (S754_finite s m e) (S754_finite s m e) = true) as ->; [|done].
    unfold feq. rewrite fcmp_finite by done. by rewrite Z.compare_refl.
  - rewrite Ht. revert He. unfold feq. rewrite !fcmp_finite by (done || by destruct k).
    rewrite Z.min_comm. destruct (Z.compare _ _) eqn:Ec; [|done..]. intros _.
    apply Z.compare_eq_iff in Ec. rewrite Ec. by rewrite Z.compare_refl.
Qed.

Lemma ParseAmount_iff (s : string) (p : float64) (k n : Z) :
  int_scale p k ->
  ParseAmount s p = Ok n <->
  (String.length s <= 4096)%nat /\
  exists t, scan_decimal s = Some t /\ is_Some (dec_NewFromString s) /\
    -4096 <= text_scale t <= 4096 /\ (0 < text_value t)%Q /\
    n = Qround_away (text_value t * inject_Z k) /\ 0 < n.
Proof.
  intros Hk. destruct (int_scale_value _ _ Hk) as (Hv & Hz & Hval).
  assert (forall d, dec_BigInt (dec_Round (dec_Mul d (dec_NewFromFloat p)) 0) =
                    Qround_away (val d * inject_Z k)) as Hr.
  { intros d. rewrite Round_BigInt. by rewrite val_Mul, Hval. }
  unfold ParseAmount. rewrite Hv, Hz. cbn [res_bind]. split.
  - intros H. res_inv H. zbool. rewrite Hr in *.
    apply parseMonetaryDecimal_Ok in Heqr as (Hl & t & Hs & Hd & He & Hva).
    split; [done|]. exists t. rewrite Hva in *.
    repeat split; try done; try lia. 
    rewrite <- Hva. apply Sign_pos. lia.
  - intros (Hl & t & Hs & [d Hd] & He & Hpos & -> & Hn).
    destruct (NewFromString_text _ _ _ Hs Hd) as [Hva _].
    assert (parseMonetaryDecimal s = Ok d) as ->.
    { apply parseMonetaryDecimal_Ok. eauto 10. }
    assert (Qround_away (val d * inject_Z k) = Qround_away (text_value t * inject_Z k))
      as Hq by (by rewrite Hva).
    rewrite Hr, Hq. destruct (dec_Sign d <=? 0) eqn:E; zbool.
    { apply Sign_nonpos in E. rewrite Hva in E. lra. }
    destruct (_ <=? 0) eqn:E2; zbool; [lia|done].
Qed.

(** C22: exact parsing of decimal amounts.  At a positive integral precision
    [k], [ParseAmount] succeeds exactly on texts of the monetary syntax of at
    most 4096 characters and exponent in range whose value [v] is positive and
    rounds to a positive number of minor units; the result is [v * k] rounded
    to the nearest integer, halves away from zero. *)
Theorem ParseAmount_exact (s : string) (p : float64) (k n : Z) :
  int_scale p k ->
  ParseAmount s p = Ok n <->
  (String.length s <= 4096)%nat /\
  exists t, scan_decimal s = Some t /\ is_Some (dec_NewFromString s) /\
    -4096 <= text_scale t <= 4096 /\ (0 < text_value t)%Q /\
    n = Qround_away (text_value t * inject_Z k) /\ 0 < n.
Proof. apply ParseAmount_iff. Qed.
(** *** Round trip of the decimal text *)

Lemma strip_factor_spec fuel f d c :
  2 <= f -> 0 < d < 2 ^ Z.of_nat fuel ->
  let '(d', c') := strip_factor fuel f d c in
  c <= c' /\ d = d' * f ^ (c' - c) /\ 0 < d' <= d /\ c' - c <= Z.log2 d.
Proof.
  intros Hf. revert d c; induction fuel as [|fuel IH]; intros d c Hd.
  { simpl in Hd. lia. }
  cbn [strip_factor]. destruct (d mod f =? 0) eqn:E; zbool.
  2: { rewrite Z.sub_diag. simpl. pose proof (Z.log2_nonneg d). lia. }
  rewrite Z.quot_div_nonneg by lia.
  assert (d = f * (d / f)) as Hdf by (rewrite (Z.div_mod d f) at 1 by lia; lia).
  assert (0 < d / f) as Hq by nia.
  assert (2 * (d / f) <= d) as Hq2 by nia.
  assert (Z.log2 (d / f) + 1 <= Z.log2 d) as Hlog.
  { rewrite <- (Z.log2_double (d / f)) at 1 by done. 
    by apply Z.log2_le_mono. }
  specialize (IH (d / f) (c + 1)). rewrite Nat2Z.inj_succ, Z.pow_succ_r in Hd by lia.
  destruct (strip_factor fuel f (d / f) (c + 1)) as [d' c'].
  destruct IH as (H1 & H2 & H3 & H4); [lia|].
  repeat split; try lia.
  replace (c' - c) with (Z.succ (c' - (c + 1))) by lia.
  rewrite Z.pow_succ_r by lia. nia.
Qed.

(** Either the scale divides a power of ten, or enough places are kept. *)
Lemma decimal_places_spec p : 0 < p ->
  0 <= decimal_places p /\
  ((exists m, 10 ^ decimal_places p = p * m) \/ 2 * p < 10 ^ decimal_places p) /\
  decimal_places p <= Z.max (Z.log2 p) (Z.of_nat (String.length (itoa p)) + 16).
Proof.
  intros Hp. unfold decimal_places. set (fuel := S _).
  assert (0 < p < 2 ^ Z.of_nat fuel) as Hfuel.
  { unfold fuel. rewrite Nat2Z.inj_succ, Z2Nat.id by apply Z.log2_nonneg.
    split; [done|]. apply Z.log2_spec; lia. }
  pose proof (strip_factor_spec fuel 2 p 0 ltac:(lia) Hfuel) as H2.
  destruct (strip_factor fuel 2 p 0) as [d2 c2]. destruct H2 as (Hc2 & Hd2 & Hb2 & Hl2).
  pose proof (strip_factor_spec fuel 5 d2 0 ltac:(lia) ltac:(lia)) as H5.
  destruct (strip_factor fuel 5 d2 0) as [d5 c5]. destruct H5 as (Hc5 & Hd5 & Hb5 & Hl5).
  rewrite !Z.sub_0_r in *. pose proof (Z.log2_nonneg p).
  pose proof (Z.log2_le_mono d2 p ltac:(lia)).
  destruct (d5 =? 1) eqn:E; zbool.
  - split; [lia|split; [|lia]]. left. set (k := Z.max _ _).
    exists (2 ^ (k - c2) * 5 ^ (k - c5)).
    rewrite Hd2, Hd5, E, Z.mul_1_l. replace 10 with (2 * 5) at 1 by lia.
    rewrite Z.pow_mul_l. replace k with (c2 + (k - c2)) at 1 by lia.
    replace k with (c5 + (k - c5)) at 2 by lia. rewrite !Z.pow_add_r by lia. ring.
  - split; [lia|split; [|lia]]. right. unfold itoa.
    destruct (p <? 0) eqn:E2; zbool; [lia|].
    destruct (utoa_spec p) as (_ & Hv & _); [lia|].
    assert (p < 10 ^ Z.of_nat (String.length (utoa p))) as Hlt.
    { rewrite <- Hv at 1. apply digits_val_bound, utoa_spec. lia. }
    rewrite Z.pow_add_r by lia. change (10 ^ 16) with 10000000000000000. nia.
Qed.

Lemma Qpos_of_mul x c : (0 < c -> 0 < x * c -> 0 < x)%Q.
Proof. intros Hc Hx. apply (Qmult_lt_r 0 x c Hc). lra. Qed.

Lemma multiple_within_half e x y : (0 < e)%Q ->
  (- ((1#2) * e) <= inject_Z x * e - inject_Z y * e <= (1#2) * e)%Q -> x = y.
Proof.
  intros He Hxy. assert (forall a b, (inject_Z a * e < (inject_Z b + 1) * e)%Q -> a <= b) as Hle.
  { intros a b Hab%Qmult_lt_r; [|done]. change 1%Q with (inject_Z 1) in Hab.
    rewrite <- inject_Z_plus, <- Zlt_Qlt in Hab. lia. }
  apply Z.le_antisymm; apply Hle; lra.
Qed.

(** The division by an integral scale, at the number of places the code
    chooses, determines the integer it started from. *)
Lemma DivRound_determines (a b : Decimal) n k :
  0 < k -> 0 < n -> (val a == inject_Z n)%Q -> (val b == inject_Z k)%Q ->
  let q := dec_DivRound a b (decimal_places k) in
  (0 < val q)%Q /\ Qround_away (val q * inject_Z k) = n.
Proof.
  intros Hk Hn Ha Hb. destruct (decimal_places_spec k Hk) as (Hp & Hm & _).
  set (p := decimal_places k) in *. cbv zeta. set (q := dec_DivRound a b p).
  assert (0 < inject_Z k)%Q as HkQ by (by rewrite (Zlt_Qlt 0) in Hk).
  assert (1 <= inject_Z n)%Q as HnQ by (change 1%Q with (inject_Z 1); rewrite <- Zle_Qle; lia).
  destruct (DivRound_nearest a b p) as (Hnear & z & Hz); [done|rewrite Hb; lra|].
  fold q in Hnear, Hz. rewrite Ha, Hb in Hnear.
  pose proof (pow10_pos (- p)) as Hpos. pose proof (pow10_opp p) as Hinv.
  rewrite (pow10_nonneg_inject p) in Hinv by done.
  assert (inject_Z n / inject_Z k * inject_Z k == inject_Z n)%Q as Hdiv by (field; lra).
  apply Qabs_Qle_condition in Hnear.
  set (r := (inject_Z n / inject_Z k)%Q) in *. set (e := pow10 (- p)) in *.
  assert (0 < r)%Q as Hr by (apply Qpos_of_mul with (inject_Z k); lra).
  assert (val q * inject_Z k == inject_Z n \/
    Qabs (val q * inject_Z k - inject_Z n) < 1#2 /\ 0 < val q)%Q as [Hex|[Hc Hq]].
  - destruct Hm as [[m Hm]|Hm].
    + left. rewrite Hm, inject_Z_mult in Hinv.
      assert (r == inject_Z (n * m) * e)%Q as Hrm.
      { apply (Qmult_inj_r _ _ (inject_Z k)); [lra|]. rewrite Hdiv, inject_Z_mult.
        transitivity (inject_Z n * (e * (inject_Z k * inject_Z m)))%Q; [rewrite Hinv|]; ring. }
      assert (z = n * m) as -> by (apply (multiple_within_half e); lra).
      rewrite Hz, <- Hrm. done.
    + right. rewrite Zlt_Qlt, inject_Z_mult in Hm. change (inject_Z 2) with 2%Q in Hm.
      assert (2 * inject_Z k * e < 1)%Q as Hke.
      { rewrite <- Hinv. rewrite (Qmult_comm e). by apply Qmult_lt_r. }
      split.
      * rewrite <- Hdiv. assert (val q * inject_Z k - r * inject_Z k ==
          (val q - r) * inject_Z k)%Q as -> by ring.
        apply Qabs_Qlt_condition. nra.
      * apply Qpos_of_mul with (inject_Z k); nra.
  - split.
    + apply Qpos_of_mul with (inject_Z k); lra.
    + apply Qround_away_unique_nonneg; rewrite ?inject_Z_plus; change (inject_Z 1) with 1%Q; lra.
  - split; [done|]. apply Qabs_Qlt_condition in Hc.
    apply Qround_away_unique_nonneg; rewrite ?inject_Z_plus; change (inject_Z 1) with 1%Q; nra.
Qed.

Lemma places_small k : 0 < k <= 2 ^ 53 ->
  Z.max (Z.log2 k) (Z.of_nat (String.length (itoa k)) + 16) <= 4096.
Proof.
  intros Hk. pose proof (Z.log2_le_mono k (2 ^ 53) ltac:(lia)) as Hl.
  change (Z.log2 (2 ^ 53)) with 53 in Hl. unfold itoa.
  destruct (k <? 0) eqn:E; zbool; [lia|].
  pose proof (utoa_acc_length (S (Z.to_nat (Z.log2 k))) k "" 16) as H16.
  assert (2 ^ 53 < 10 ^ Z.of_nat 16) by reflexivity. unfold utoa.
  specialize (H16 ltac:(lia) ltac:(lia)). change (String.length "") with 0%nat in H16. lia.
Qed.

(** C21: the decimal text of a transaction determines its ledger amount.  After
    [convertPreciseToDecimal] with a positive [PreciseAmount] [n] and a
    positive integral precision, parsing the stored [AmountString] at that
    precision gives [n] back, for terminating and repeating expansions alike. *)
Theorem AmountString_roundtrip (t : Transaction) (n k : Z) :
  t_PreciseAmount t = Some n -> 0 < n -> int_scale (t_Precision t) k ->
  (String.length (t_AmountString (convertPreciseToDecimal t)) <= 4096)%nat ->
  ParseAmount (t_AmountString (convertPreciseToDecimal t)) (t_Precision t) = Ok n.
Proof.
  intros Ht Hn Hk Hl. apply (ParseAmount_iff _ _ k _ Hk). split; [done|].
  destruct (int_scale_value _ _ Hk) as (_ & _ & Hval). destruct Hk as [_ Hk].
  clear Hl. unfold convertPreciseToDecimal. cbn [t_AmountString].
  rewrite Ht, (BigInt_int _ k) by done. unfold itoa.
  destruct (n <? 0) eqn:E; zbool; [lia|].
  destruct (NewFromString_utoa n) as (d & -> & Hd); [lia|]. cbn [default].
  set (b := dec_NewFromFloat _) in *.
  destruct (DivRound_determines d b n k) as [Hpos Hround]; [lia..|done|done|].
  destruct (decimal_places_spec k) as (Hp & _ & Hple); [lia|].
  pose proof (DivRound_Exponent d b (decimal_places k) Hp) as Hexp.
  set (q := dec_DivRound _ _ _) in *.
  destruct (String_text q) as (t' & Hs & He & Hv & Hf).
  assert (decimal_places k <= 4096) as Hsmall.
  { etransitivity; [exact Hple|]. apply places_small. lia. }
  exists t'. split; [done|]. split; [|split; [|split; [|split; [|done]]]].
  - apply (NewFromString_plain _ _ Hs He). lia.
  - unfold text_scale. lia.
  - by rewrite Hv.
  - by rewrite Hv.
Qed.

(** *** Normalisation of a transaction's amount *)

Lemma ParseAmount_pos s p n : ParseAmount s p = Ok n -> 0 < n.
Proof. unfold ParseAmount. intros H. res_inv H. zbool. lia. Qed.

(** Precision zero stands for one. *)
Lemma ParseAmount_default s p : feq p fzero = true ->
  ParseAmount s p = ParseAmount s (f_of_Z 1).
Proof.
  intros Hp. unfold ParseAmount. rewrite Hp.
  assert (ValidatePrecision p = Ok tt) as ->; [|reflexivity].
  destruct p as [|[]| |s' m e]; try done.
  revert Hp. unfold feq. rewrite fcmp_finite by done.
  cbn [fmant fexp fzero]. rewrite Z.mul_0_l.
  destruct (Z.compare _ _) eqn:E; [|done..]. intros _. apply Z.compare_eq_iff in E.
  pose proof (Z.pow_pos_nonneg 2 (e - Z.min e 0)). destruct s'; nia.
Qed.

Definition effective_precision (t : Transaction) : float64 :=
  if feq (t_Precision t) fzero then f_of_Z 1 else t_Precision t.

(** [ApplyPrecision] on monetary fields that validate: the precision is
    defaulted, the amount is the positive [PreciseAmount] or the parsed text,
    and only the amount fields change. *)
Lemma ApplyPrecision_valid t :
  validateMonetaryFields t = Ok tt ->
  let n := match t_PreciseAmount t with
           | Some p => if 0 <? p then p
                       else convertDecimalToPrecise {| t with t_Precision := effective_precision t |}
           | None => convertDecimalToPrecise {| t with t_Precision := effective_precision t |}
           end in
  ApplyPrecision t =
    (n, convertPreciseToDecimal
          {| t with t_Precision := effective_precision t; t_PreciseAmount := Some n |}).
Proof.
  intros Hv. unfold ApplyPrecision, effective_precision. rewrite Hv.
  destruct (feq (t_Precision t) fzero) eqn:E; unfold applyPrecisionLogic;
    cbn [t_Precision t_PreciseAmount]; [change (feq (f_of_Z 1) fzero) with false|rewrite E];
    cbn [t_Precision t_PreciseAmount];
    (destruct (t_PreciseAmount t) as [p|] eqn:EP; [destruct (0 <? p)|];
     unfold convertPreciseToDecimal; cbn; rewrite ?EP; reflexivity).
Qed.

(** The fields [ApplyPrecision] may change. *)
Definition same_but_amount (t t' : Transaction) : Prop :=
  t' = {| t with t_PreciseAmount := t_PreciseAmount t'; t_Amount := t_Amount t';
            t_AmountString := t_AmountString t'; t_Precision := t_Precision t' |}.

Lemma validate_Ok t : validate t = Ok tt <->
  validateMonetaryFields t = Ok tt /\
  match t_PreciseAmount t with
  | Some p => 0 < p
  | None => is_ok (ParseAmount (decimalAmount t) (t_Precision t)) = true
  end.
Proof.
  unfold validate. destruct (validateMonetaryFields t) as [[]|e]; simpl; [|naive_solver].
  destruct (t_PreciseAmount t) as [p|].
  - destruct (p <=? 0) eqn:E; zbool; intuition (done || lia).
  - destruct (ParseAmount _ _); simpl; naive_solver.
Qed.

Lemma ApplyPrecisionChecked_spec t n t' :
  ApplyPrecisionChecked t = Ok (n, t') ->
  0 < n /\ t_PreciseAmount t' = Some n /\
  (forall p, t_PreciseAmount t = Some p -> n = p) /\
  (t_PreciseAmount t = None ->
     ParseAmount (decimalAmount t) (t_Precision t) = Ok n) /\
  same_but_amount t t' /\ t_Precision t' = effective_precision t.
Proof.
  unfold ApplyPrecisionChecked. intros H. apply res_bind_Ok in H as ([] & Hval & H).
  apply validate_Ok in Hval as [Hm Hp]. apply Ok_inj in H.
  rewrite (ApplyPrecision_valid _ Hm) in H. apply pair_equal_spec in H as [Hn <-].
  assert (t_PreciseAmount t = None -> ParseAmount (decimalAmount t) (t_Precision t) = Ok n) as HP.
  { intros HN. rewrite HN in *.
    change (match ParseAmount (decimalAmount t) (effective_precision t) with
            | Ok amount => amount | Err _ => 0 end = n) in Hn.
    assert (ParseAmount (decimalAmount t) (effective_precision t) =
            ParseAmount (decimalAmount t) (t_Precision t)) as Hd.
    { unfold effective_precision. destruct (feq _ _) eqn:E; [|done].
      by rewrite (ParseAmount_default _ _ E). }
    rewrite Hd in Hn. destruct (ParseAmount _ _); [by subst|done]. }
  assert (forall p, t_PreciseAmount t = Some p -> n = p) as HS.
  { intros p Hp'. rewrite Hp' in *. destruct (0 <? p) eqn:E; zbool; [done|lia]. }
  rewrite Hn. split; [|by repeat split].
  destruct (t_PreciseAmount t) as [p|]; [rewrite (HS p); done|].
  by eapply ParseAmount_pos, HP.
Qed.

(** Normalising a normalised transaction again changes nothing. *)
Lemma ApplyPrecision_idempotent t n t' :
  ApplyPrecisionChecked t = Ok (n, t') -> validateMonetaryFields t' = Ok tt ->
  ApplyPrecision t' = (n, t').
Proof.
  intros HA Hv. pose proof (ApplyPrecisionChecked_spec _ _ _ HA) as (Hn & Hp & _ & _ & _ & Hprec).
  rewrite (ApplyPrecision_valid _ Hv), Hp.
  destruct (0 <? n) eqn:E; zbool; [|lia].
  assert (effective_precision t' = t_Precision t') as Heff.
  { unfold effective_precision. rewrite Hprec. unfold effective_precision.
    destruct (feq (t_Precision t) fzero) eqn:E2; [done|by rewrite E2]. }
  rewrite Heff. f_equal.
  unfold ApplyPrecisionChecked in HA. apply res_bind_Ok in HA as ([] & Hval & HA).
  apply validate_Ok in Hval as [Hm _]. apply Ok_inj in HA.
  rewrite (ApplyPrecision_valid _ Hm) in HA. apply pair_equal_spec in HA as [_ <-].
  cbn in Hp. injection Hp as ->. reflexivity.
Qed.

End AmountFacts.

(** ** Witnesses *)

Module AmountWitness.
#[local] Existing Instance dnum_ops.
#[local] Existing Instance dnum_laws.

(** 10.505 at two decimals is 1051 minor units. *)
Lemma ParseAmount_exact_witness : ParseAmount "10.505" (f_of_Z 100) = Ok 1051.
Proof.
  apply (ParseAmount_exact "10.505" (f_of_Z 100) 100 1051).
  - split; [reflexivity|lia].
  - split; [simpl; lia|]. exists (DecText false "10" "505" 0).
    split; [reflexivity|]. split; [eexists; reflexivity|].
    split; [vm_compute; split; discriminate|].
    split; [vm_compute; reflexivity|]. split; [vm_compute; reflexivity|lia].
Defined.

(** A third of a unit at precision three: a repeating expansion. *)
Definition thirds : Transaction :=
  {| zero_transaction with t_PreciseAmount := Some 1; t_Precision := f_of_Z 3 |}.

Lemma AmountString_roundtrip_witness :
  ParseAmount (t_AmountString (convertPreciseToDecimal thirds)) (f_of_Z 3) = Ok 1.
Proof.
  apply (AmountString_roundtrip thirds 1 3).
  - reflexivity.
  - lia.
  - split; [reflexivity|lia].
  - vm_compute. lia.
Defined.
End AmountWitness.
