(* ===== verification/Balance.v ===== *)
(** * Balances

    The balance arithmetic of [model/model.go]: debits and credits, the
    inflight (held) side of a balance, the overdraft check, commits and
    rollbacks of holds, and [UpdateBalances], which posts a transaction to its
    two balances.  The methods mutate their receiver; each is a function that
    returns the mutated balance (and transaction) beside the error, also when
    there is an error. *)
From stdpp Require Import base option list strings gmap.
From Stdlib Require Import ZArith Lia QArith Lqa.
From S2P Require Import Prelude GoFloat Decimal DecimalInstance Model Amount.
Close Scope Q_scope.
Open Scope Z_scope.

(** [compare]. *)
Definition compare (value : Z) (condition : string) (compareTo : Z) : bool :=
  let cmp := Z.compare value compareTo in
  if String.eqb condition ">" then match cmp with Gt => true | _ => false end
  else if String.eqb condition "<" then match cmp with Lt => true | _ => false end
  else if String.eqb condition ">=" then match cmp with Lt => false | _ => true end
  else if String.eqb condition "<=" then match cmp with Gt => false | _ => true end
  else if String.eqb condition "!=" then match cmp with Eq => false | _ => true end
  else if String.eqb condition "==" then match cmp with Eq => true | _ => false end
  else false.

(** [InitializeBalanceFields]: nil fields become zero. *)
Definition InitializeBalanceFields (b : Balance) : Balance :=
  {| b with
     b_InflightDebitBalance := Some (default 0 (b_InflightDebitBalance b));
     b_InflightCreditBalance := Some (default 0 (b_InflightCreditBalance b));
     b_InflightBalance := Some (default 0 (b_InflightBalance b));
     b_DebitBalance := Some (default 0 (b_DebitBalance b));
     b_CreditBalance := Some (default 0 (b_CreditBalance b));
     b_Balance := Some (default 0 (b_Balance b)) |}.

(** The value of a field, zero when it is unset. *)
Definition BAL (b : Balance) : Z := default 0 (b_Balance b).
Definition CR (b : Balance) : Z := default 0 (b_CreditBalance b).
Definition DR (b : Balance) : Z := default 0 (b_DebitBalance b).
Definition IBAL (b : Balance) : Z := default 0 (b_InflightBalance b).
Definition ICR (b : Balance) : Z := default 0 (b_InflightCreditBalance b).
Definition IDR (b : Balance) : Z := default 0 (b_InflightDebitBalance b).

(** [addCredit]. *)
Definition addCredit (b : Balance) (amount : Z) (inflight : bool) : Balance :=
  let b := InitializeBalanceFields b in
  if inflight then {| b with b_InflightCreditBalance := Some (ICR b + amount) |}
  else {| b with b_CreditBalance := Some (CR b + amount) |}.

(** [addDebit]. *)
Definition addDebit (b : Balance) (amount : Z) (inflight : bool) : Balance :=
  let b := InitializeBalanceFields b in
  if inflight then {| b with b_InflightDebitBalance := Some (IDR b + amount) |}
  else {| b with b_DebitBalance := Some (DR b + amount) |}.

(** [computeBalance]. *)
Definition computeBalance (b : Balance) (inflight : bool) : Balance :=
  let b := InitializeBalanceFields b in
  if inflight then {| b with b_InflightBalance := Some (ICR b - IDR b) |}
  else {| b with b_Balance := Some (CR b - DR b) |}.

(** [checkSufficientInflightDebit]. *)
Definition checkSufficientInflightDebit (b : Balance) (amount : option Z) : result unit :=
  match amount with
  | Some a =>
      if a <=? 0 then Err (errors_New "inflight amount must be positive")
      else if IDR b <? a then
        Err (errors_New ("insufficient inflight debit balance: have " +:+ itoa (IDR b)
                         +:+ ", need " +:+ itoa a))
      else Ok tt
  | None => Err (errors_New "inflight amount must be positive")
  end.

(** [checkSufficientInflightCredit]. *)
Definition checkSufficientInflightCredit (b : Balance) (amount : option Z) : result unit :=
  match amount with
  | Some a =>
      if a <=? 0 then Err (errors_New "inflight amount must be positive")
      else if ICR b <? a then
        Err (errors_New ("insufficient inflight credit balance: have " +:+ itoa (ICR b)
                         +:+ ", need " +:+ itoa a))
      else Ok tt
  | None => Err (errors_New "inflight amount must be positive")
  end.

(** [RollbackInflightCredit]. *)
Definition RollbackInflightCredit (b : Balance) (amount : option Z) : Balance * result unit :=
  let b := InitializeBalanceFields b in
  match checkSufficientInflightCredit b amount with
  | Err e => (b, Err e)
  | Ok _ =>
      let b := {| b with b_InflightCreditBalance := Some (ICR b - default 0 amount) |} in
      (computeBalance b true, Ok tt)
  end.

(** [RollbackInflightDebit]. *)
Definition RollbackInflightDebit (b : Balance) (amount : option Z) : Balance * result unit :=
  let b := InitializeBalanceFields b in
  match checkSufficientInflightDebit b amount with
  | Err e => (b, Err e)
  | Ok _ =>
      let b := {| b with b_InflightDebitBalance := Some (IDR b - default 0 amount) |} in
      (computeBalance b true, Ok tt)
  end.

(** [CheckCondition] of a balance monitor. *)
Definition CheckCondition (bm : BalanceMonitor) (b : Balance) : bool :=
  let c := bm_Condition bm in
  let cmp v := compare v (ac_Operator c) (ac_PreciseValue c) in
  if String.eqb (ac_Field c) "debit_balance" then cmp (DR b)
  else if String.eqb (ac_Field c) "credit_balance" then cmp (CR b)
  else if String.eqb (ac_Field c) "balance" then cmp (BAL b)
  else if String.eqb (ac_Field c) "inflight_debit_balance" then cmp (IDR b)
  else if String.eqb (ac_Field c) "inflight_credit_balance" then cmp (ICR b)
  else if String.eqb (ac_Field c) "inflight_balance" then cmp (IBAL b)
  else false.

Section Balances.
Context {Dops : DecimalOps}.

(** The overdraft limit in minor units, as [canProcessTransaction] computes it. *)
Definition overdraft_limit_precise (t : Transaction) : Z :=
  dec_BigInt (dec_Round (dec_Mul (dec_NewFromFloat (t_OverdraftLimit t))
                                 (dec_NewFromFloat (t_Precision t))) 0).

(** Funds a new debit may use: settled minus held minus queued debits. *)
Definition available_balance (b : Balance) : Z :=
  let available := BAL b - IDR b in
  match b_QueuedDebitBalance b with
  | Some q => available - q
  | None => available
  end.

(** [canProcessTransaction]. *)
Definition canProcessTransaction (t : Transaction) (source : Balance) : Balance * result unit :=
  if t_AllowOverdraft t && feq (t_OverdraftLimit t) fzero then (source, Ok tt)
  else
    let source := InitializeBalanceFields source in
    let amount := default 0 (t_PreciseAmount t) in
    let available := available_balance source in
    if amount <=? available then (source, Ok tt)
    else if flt fzero (t_OverdraftLimit t) then
      if - overdraft_limit_precise t <=? available - amount then (source, Ok tt)
      else (source, Err (errors_New "transaction exceeds overdraft limit"))
    else (source, Err (errors_New "insufficient funds in source balance")).

(** [CommitInflightDebit]. *)
Definition CommitInflightDebit (b : Balance) (t : Transaction)
    : Balance * Transaction * result unit :=
  let b := InitializeBalanceFields b in
  let '(amount, t) := ApplyPrecision t in
  match checkSufficientInflightDebit b (Some amount) with
  | Err e => (b, t, Err e)
  | Ok _ =>
      let b := {| b with b_InflightDebitBalance := Some (IDR b - amount) |} in
      let b := {| b with b_DebitBalance := Some (DR b + amount) |} in
      (computeBalance (computeBalance b true) false, t, Ok tt)
  end.

(** [CommitInflightCredit]. *)
Definition CommitInflightCredit (b : Balance) (t : Transaction)
    : Balance * Transaction * result unit :=
  let b := InitializeBalanceFields b in
  let '(amount, t) := ApplyPrecision t in
  match checkSufficientInflightCredit b (Some amount) with
  | Err e => (b, t, Err e)
  | Ok _ =>
      let b := {| b with b_InflightCreditBalance := Some (ICR b - amount) |} in
      let b := {| b with b_CreditBalance := Some (CR b + amount) |} in
      (computeBalance (computeBalance b true) false, t, Ok tt)
  end.

(** [UpdateBalances] on two distinct balance objects. *)
Definition UpdateBalances (t : Transaction) (source destination : Balance)
    : Transaction * Balance * Balance * result unit :=
  match ApplyPrecisionChecked t with
  | Err e => (t, source, destination, Err e)
  | Ok (amount, t) =>
      let t := {| t with t_PreciseAmount := Some amount |} in
      let '(source, ok) := canProcessTransaction t source in
      match ok with
      | Err e => (t, source, destination, Err e)
      | Ok _ =>
          let source := InitializeBalanceFields source in
          let destination := InitializeBalanceFields destination in
          let source := addDebit source amount (t_Inflight t) in
          let source := computeBalance source (t_Inflight t) in
          let destination := addCredit destination amount (t_Inflight t) in
          let destination := computeBalance destination (t_Inflight t) in
          (t, source, destination, Ok tt)
      end
  end.
End Balances.

(** ** The double-entry account a balance implements

    Four totals; everything else of a balance is derived from them. *)
Record account := Account { a_cr : Z; a_dr : Z; a_icr : Z; a_idr : Z }.

Definition view (b : Balance) : account := Account (CR b) (DR b) (ICR b) (IDR b).

(** The balance columns agree with the totals. *)
Definition coherent (b : Balance) : Prop :=
  BAL b = CR b - DR b /\ IBAL b = ICR b - IDR b.

(** No total is negative. *)
Definition nonneg (b : Balance) : Prop :=
  0 <= CR b /\ 0 <= DR b /\ 0 <= ICR b /\ 0 <= IDR b.

(** Only the monetary fields differ. *)
Definition same_but_money (b b' : Balance) : Prop :=
  b' = {| b with b_Balance := b_Balance b'; b_InflightBalance := b_InflightBalance b';
            b_CreditBalance := b_CreditBalance b';
            b_InflightCreditBalance := b_InflightCreditBalance b';
            b_DebitBalance := b_DebitBalance b';
            b_InflightDebitBalance := b_InflightDebitBalance b' |}.

(** The abstract operations. *)
Definition debit (n : Z) (inflight : bool) (a : account) : account :=
  if inflight then Account (a_cr a) (a_dr a) (a_icr a) (a_idr a + n)
  else Account (a_cr a) (a_dr a + n) (a_icr a) (a_idr a).
Definition credit (n : Z) (inflight : bool) (a : account) : account :=
  if inflight then Account (a_cr a) (a_dr a) (a_icr a + n) (a_idr a)
  else Account (a_cr a + n) (a_dr a) (a_icr a) (a_idr a).
Definition settle_debit (n : Z) (a : account) : account :=
  Account (a_cr a) (a_dr a + n) (a_icr a) (a_idr a - n).
Definition settle_credit (n : Z) (a : account) : account :=
  Account (a_cr a + n) (a_dr a) (a_icr a - n) (a_idr a).
Definition release_debit (n : Z) (a : account) : account :=
  Account (a_cr a) (a_dr a) (a_icr a) (a_idr a - n).
Definition release_credit (n : Z) (a : account) : account :=
  Account (a_cr a) (a_dr a) (a_icr a - n) (a_idr a).

(** The step from [b] to [b'] implements [f] on accounts and keeps the
    balance columns coherent and the rest of the row unchanged. *)
Definition implements (f : account -> account) (b b' : Balance) : Prop :=
  view b' = f (view b) /\ same_but_money b b' /\ (coherent b -> coherent b').

(** Evaluate the operations on a balance, innermost first. *)
Ltac eval_balance :=
  cbv beta iota zeta delta [implements coherent nonneg view same_but_money
    BAL CR DR IBAL ICR IDR addDebit addCredit computeBalance InitializeBalanceFields
    debit credit settle_debit settle_credit release_debit release_credit
    default from_option id a_cr a_dr a_icr a_idr
    b_CurrencyMultiplier b_ID b_Balance b_Version b_InflightBalance b_CreditBalance
    b_InflightCreditBalance b_DebitBalance b_InflightDebitBalance b_QueuedDebitBalance
    b_QueuedCreditBalance b_LedgerID b_IdentityID b_BalanceID b_Indicator b_Currency
    b_CreatedAt b_InflightExpiresAt b_MetaData b_TrackFundLineage b_AllocationStrategy] in *.
Ltac balance_step b :=
  destruct b; eval_balance;
  split; [reflexivity|split; [reflexivity|intros [? ?]; split; lia]].

Lemma Initialize_implements b : implements (fun a => a) b (InitializeBalanceFields b).
Proof. balance_step b. Qed.

Lemma implements_refl b : implements (fun a => a) b b.
Proof. split; [done|split; [by destruct b|done]]. Qed.

Lemma debit_implements b n inflight :
  implements (debit n inflight) b (computeBalance (addDebit b n inflight) inflight).
Proof. destruct inflight; balance_step b. Qed.

Lemma credit_implements b n inflight :
  implements (credit n inflight) b (computeBalance (addCredit b n inflight) inflight).
Proof. destruct inflight; balance_step b. Qed.

Lemma implements_trans f g b1 b2 b3 :
  implements f b1 b2 -> implements g b2 b3 -> implements (fun a => g (f a)) b1 b3.
Proof.
  intros (V1 & S1 & C1) (V2 & S2 & C2). split; [by rewrite V2, V1|].
  split; [|tauto]. unfold same_but_money in *. rewrite S2, S1. done.
Qed.

Lemma RollbackInflightDebit_spec b amount :
  let '(b', r) := RollbackInflightDebit b amount in
  match r with
  | Ok _ => exists n, amount = Some n /\ 0 < n <= IDR b /\ implements (release_debit n) b b'
  | Err _ => b' = InitializeBalanceFields b /\ forall n, amount = Some n -> n <= 0 \/ IDR b < n
  end.
Proof.
  unfold RollbackInflightDebit, checkSufficientInflightDebit.
  destruct amount as [n|]; [|by split; [|naive_solver]].
  change (IDR (InitializeBalanceFields b)) with (IDR b).
  destruct (n <=? 0) eqn:E1; [split; [done|]; intros ? [= <-]; zbool; lia|].
  destruct (IDR b <? n) eqn:E2; [split; [done|]; intros ? [= <-]; zbool; lia|].
  zbool. exists n. split; [done|split; [lia|]]. balance_step b.
Qed.

Lemma RollbackInflightCredit_spec b amount :
  let '(b', r) := RollbackInflightCredit b amount in
  match r with
  | Ok _ => exists n, amount = Some n /\ 0 < n <= ICR b /\ implements (release_credit n) b b'
  | Err _ => b' = InitializeBalanceFields b /\ forall n, amount = Some n -> n <= 0 \/ ICR b < n
  end.
Proof.
  unfold RollbackInflightCredit, checkSufficientInflightCredit.
  destruct amount as [n|]; [|by split; [|naive_solver]].
  change (ICR (InitializeBalanceFields b)) with (ICR b).
  destruct (n <=? 0) eqn:E1; [split; [done|]; intros ? [= <-]; zbool; lia|].
  destruct (ICR b <? n) eqn:E2; [split; [done|]; intros ? [= <-]; zbool; lia|].
  zbool. exists n. split; [done|split; [lia|]]. balance_step b.
Qed.

Section BalanceFacts.
Context {Dops : DecimalOps} {Dlaws : DecimalLaws}.

Lemma CommitInflightDebit_spec b t :
  let n := fst (ApplyPrecision t) in
  let '(b', t', r) := CommitInflightDebit b t in
  t' = snd (ApplyPrecision t) /\
  (is_ok r = true <-> 0 < n <= IDR b) /\
  (is_ok r = true -> implements (settle_debit n) b b') /\
  (is_ok r = false -> b' = InitializeBalanceFields b).
Proof.
  cbv zeta. unfold CommitInflightDebit, checkSufficientInflightDebit.
  destruct (ApplyPrecision t) as [n t']. cbn [fst snd].
  change (IDR (InitializeBalanceFields b)) with (IDR b).
  destruct (n <=? 0) eqn:E1; [|destruct (IDR b <? n) eqn:E2]; zbool; cbn [is_ok];
    (split; [done|split; [intuition (done || lia)|split; [|done]]]); intros; done.
Qed.

Lemma CommitInflightCredit_spec b t :
  let n := fst (ApplyPrecision t) in
  let '(b', t', r) := CommitInflightCredit b t in
  t' = snd (ApplyPrecision t) /\
  (is_ok r = true <-> 0 < n <= ICR b) /\
  (is_ok r = true -> implements (settle_credit n) b b') /\
  (is_ok r = false -> b' = InitializeBalanceFields b).
Proof.
  cbv zeta. unfold CommitInflightCredit, checkSufficientInflightCredit.
  destruct (ApplyPrecision t) as [n t']. cbn [fst snd].
  change (ICR (InitializeBalanceFields b)) with (ICR b).
  destruct (n <=? 0) eqn:E1; [|destruct (ICR b <? n) eqn:E2]; zbool; cbn [is_ok];
    (split; [done|split; [intuition (done || lia)|split; [|done]]]); intros; done.
Qed.

(** Committing a hold.  On each side the commit succeeds exactly when the
    amount [n] that [ApplyPrecision] gives is positive and covered by the hold;
    the amount then moves from the inflight to the settled total of that side
    and the row stays coherent; otherwise the totals are unchanged. *)
Theorem CommitInflight_correct (b : Balance) (t : Transaction) :
  let n := fst (ApplyPrecision t) in
  (let '(b', t', r) := CommitInflightDebit b t in
   t' = snd (ApplyPrecision t) /\
   (is_ok r = true <-> 0 < n <= IDR b) /\
   (is_ok r = true -> implements (settle_debit n) b b') /\
   (is_ok r = false -> b' = InitializeBalanceFields b)) /\
  (let '(b', t', r) := CommitInflightCredit b t in
   t' = snd (ApplyPrecision t) /\
   (is_ok r = true <-> 0 < n <= ICR b) /\
   (is_ok r = true -> implements (settle_credit n) b b') /\
   (is_ok r = false -> b' = InitializeBalanceFields b)).
Proof. split; [apply CommitInflightDebit_spec|apply CommitInflightCredit_spec]. Qed.

(** The condition under which a debit of [n] is admitted. *)
Definition funds_admitted (t : Transaction) (b : Balance) (n : Z) : Prop :=
  (t_AllowOverdraft t = true /\ feq (t_OverdraftLimit t) fzero = true) \/
  n <= available_balance b \/
  (flt fzero (t_OverdraftLimit t) = true /\
   - overdraft_limit_precise t <= available_balance b - n).

Lemma canProcessTransaction_spec t b n :
  t_PreciseAmount t = Some n ->
  let '(b', r) := canProcessTransaction t b in
  (b' = b \/ b' = InitializeBalanceFields b) /\
  (is_ok r = true <-> funds_admitted t b n).
Proof.
  intros Hn. unfold canProcessTransaction, funds_admitted. rewrite Hn. simpl default.
  change (available_balance (InitializeBalanceFields b)) with (available_balance b).
  destruct (t_AllowOverdraft t), (feq (t_OverdraftLimit t) fzero); cbn [andb];
    repeat (case_match; simplify_eq); zbool; cbn [is_ok]; intuition (congruence || lia).
Qed.

Lemma UpdateBalances_spec (t : Transaction) (s d : Balance) :
  let '(t', s', d', r) := UpdateBalances t s d in
  match r with
  | Ok _ => exists n,
      0 < n /\ t_PreciseAmount t' = Some n /\ same_but_amount t t' /\
      (forall p, t_PreciseAmount t = Some p -> n = p) /\
      funds_admitted t' s n /\
      implements (debit n (t_Inflight t)) s s' /\
      implements (credit n (t_Inflight t)) d d'
  | Err _ =>
      implements (fun a => a) s s' /\ d' = d /\
      (is_ok (validate t) = false /\ t' = t \/
       exists n, ApplyPrecisionChecked t = Ok (n, t') /\ ~ funds_admitted t' s n)
  end.
Proof.
  unfold UpdateBalances. destruct (ApplyPrecisionChecked t) as [[n t1]|e] eqn:HA.
  2: { split; [apply implements_refl|split; [done|]]. left. split; [|done].
       unfold ApplyPrecisionChecked in HA. by destruct (validate t). }
  destruct (ApplyPrecisionChecked_spec _ _ _ HA) as (Hn & Hp & HS & _ & Hsame & _).
  assert ({| t1 with t_PreciseAmount := Some n |} = t1) as Ht1.
  { destruct t1; cbn in *; by subst. }
  rewrite Ht1. pose proof (canProcessTransaction_spec t1 s n Hp) as Hc.
  destruct (canProcessTransaction t1 s) as [s1 [[]|e]]; cbn [is_ok] in Hc; destruct Hc as [Hs1 Hf].
  - assert (t_Inflight t1 = t_Inflight t) as -> by (by rewrite Hsame).
    exists n. repeat (split; [tauto|]). split.
    + assert (implements (fun a => a) s (InitializeBalanceFields s1)) as H1.
      { destruct Hs1 as [-> | ->]; [apply Initialize_implements|].
        apply (implements_trans (fun a => a) (fun a => a) _ (InitializeBalanceFields s));
          apply Initialize_implements. }
      eapply (implements_trans (fun a => a)); [exact H1|apply debit_implements].
    + eapply (implements_trans (fun a => a)); [apply Initialize_implements|apply credit_implements].
  - split; [|split; [done|]].
    + destruct Hs1 as [-> | ->]; [apply implements_refl|apply Initialize_implements].
    + right. exists n. split; [done|]. intros ?%Hf. done.
Qed.


(** C20: the life of a hold.  After an inflight transaction of amount [n] is
    posted, committing it on both balances succeeds and leaves exactly the
    totals of a direct posting, while rolling it back on both balances
    succeeds and leaves exactly the totals before the hold. *)
Theorem hold_commit_or_void (t t1 : Transaction) (s d s1 d1 : Balance) :
  UpdateBalances t s d = (t1, s1, d1, Ok tt) -> t_Inflight t = true ->
  nonneg s -> nonneg d -> validateMonetaryFields t1 = Ok tt ->
  exists n s2 d2 s3 d3,
    t_PreciseAmount t1 = Some n /\ 0 < n /\
    CommitInflightDebit s1 t1 = (s2, t1, Ok tt) /\
    CommitInflightCredit d1 t1 = (d2, t1, Ok tt) /\
    view s2 = debit n false (view s) /\ view d2 = credit n false (view d) /\
    RollbackInflightDebit s1 (t_PreciseAmount t1) = (s3, Ok tt) /\
    RollbackInflightCredit d1 (t_PreciseAmount t1) = (d3, Ok tt) /\
    view s3 = view s /\ view d3 = view d.
Proof.
  intros HU Hi (_ & _ & _ & Hs) (_ & _ & Hd & _) Hv.
  pose proof (UpdateBalances_spec t s d) as H. rewrite HU in H.
  destruct H as (n & Hn & Hp & _ & _ & _ & (Vs & _) & (Vd & _)). rewrite Hi in Vs, Vd.
  assert (ApplyPrecision t1 = (n, t1)) as HA.
  { unfold UpdateBalances in HU. destruct (ApplyPrecisionChecked t) as [[m t2]|] eqn:HC; [|by simplify_eq].
    pose proof (ApplyPrecisionChecked_spec _ _ _ HC) as (_ & Hp2 & _).
    assert ({| t2 with t_PreciseAmount := Some m |} = t2) as Ht2 by (destruct t2; cbn in *; by subst).
    rewrite Ht2 in HU. destruct (canProcessTransaction t2 s) as [? []]; simplify_eq.
    by eapply ApplyPrecision_idempotent. }
  apply (f_equal a_idr) in Vs as Hidr; apply (f_equal a_icr) in Vd as Hicr; cbn in Hidr, Hicr.
  pose proof (CommitInflightDebit_spec s1 t1) as HD; pose proof (CommitInflightCredit_spec d1 t1) as HC.
  pose proof (RollbackInflightDebit_spec s1 (Some n)) as HRD;
    pose proof (RollbackInflightCredit_spec d1 (Some n)) as HRC.
  rewrite HA in HD, HC. cbn [fst snd] in HD, HC. rewrite Hp.
  destruct (CommitInflightDebit s1 t1) as [[s2 ?] [[]|]]; destruct HD as (-> & HD1 & HD2 & _);
    cbn [is_ok] in *; [|by exfalso; cut (false = true); [done|apply HD1; lia]].
  destruct (CommitInflightCredit d1 t1) as [[d2 ?] [[]|]]; destruct HC as (-> & HC1 & HC2 & _);
    cbn [is_ok] in *; [|by exfalso; cut (false = true); [done|apply HC1; lia]].
  destruct (RollbackInflightDebit s1 _) as [s3 [[]|]]; [|destruct HRD as [_ HRD]; specialize (HRD n eq_refl); lia].
  destruct (RollbackInflightCredit d1 _) as [d3 [[]|]]; [|destruct HRC as [_ HRC]; specialize (HRC n eq_refl); lia].
  destruct HRD as (? & [= <-] & _ & (VRD & _)), HRC as (? & [= <-] & _ & (VRC & _)).
  destruct (HD2 eq_refl) as (VD & _), (HC2 eq_refl) as (VC & _).
  exists n, s2, d2, s3, d3. repeat (split; [done|]).
  rewrite VD, VC, VRD, VRC, Vs, Vd. unfold settle_debit, settle_credit, release_debit, release_credit, debit, credit, view.
  cbn. repeat split; f_equal; lia.
Qed.

(** C19: no overdraft beyond what the transaction allows.  After a successful
    posting from a coherent source, the funds available for further debits
    have shrunk by exactly the amount; they are still non-negative unless the
    transaction allows unlimited overdraft or carries a positive overdraft
    limit, and in the latter case are not below minus that limit. *)
Theorem UpdateBalances_no_overdraft (t t1 : Transaction) (s d s1 d1 : Balance) :
  UpdateBalances t s d = (t1, s1, d1, Ok tt) -> coherent s ->
  exists n, t_PreciseAmount t1 = Some n /\
    available_balance s1 = available_balance s - n /\
    (0 <= available_balance s1 \/
     t_AllowOverdraft t = true /\ feq (t_OverdraftLimit t) fzero = true \/
     flt fzero (t_OverdraftLimit t) = true /\
     - overdraft_limit_precise t1 <= available_balance s1).
Proof.
  intros HU Hc. pose proof (UpdateBalances_spec t s d) as H. rewrite HU in H.
  destruct H as (n & Hn & Hp & Hsame & _ & Hf & (Vs & Hm & Hcoh) & _).
  exists n. split; [done|]. specialize (Hcoh Hc).
  assert (available_balance s1 = available_balance s - n) as Ha.
  { unfold available_balance. rewrite Hm. cbn [b_QueuedDebitBalance].
    rewrite <- Hm. destruct Hc as [HB _], Hcoh as [HB1 _]. rewrite HB, HB1.
    destruct (t_Inflight t); injection Vs as ? ? ? ?; destruct (b_QueuedDebitBalance s); lia. }
  split; [done|]. rewrite Ha. unfold funds_admitted in Hf.
  assert (t_AllowOverdraft t1 = t_AllowOverdraft t) as HA by (by rewrite Hsame).
  assert (t_OverdraftLimit t1 = t_OverdraftLimit t) as HO by (by rewrite Hsame).
  rewrite HA, HO in Hf. intuition lia.
Qed.
End BalanceFacts.

(** ** Witnesses *)

Module BalanceWitness.
#[local] Existing Instance dnum_ops.
#[local] Existing Instance dnum_laws.

Definition rich : Balance :=
  {| zero_balance with b_BalanceID := "bln_a"; b_Balance := Some 1000; b_CreditBalance := Some 1000 |}.
Definition empty : Balance := {| zero_balance with b_BalanceID := "bln_b" |}.
Definition hold : Transaction :=
  {| zero_transaction with t_Reference := "r"; t_AmountString := "2.50";
     t_Precision := f_of_Z 100; t_Inflight := true |}.
Definition held := UpdateBalances hold rich empty.

Lemma hold_commit_or_void_witness :
  exists n s2 d2 s3 d3,
    t_PreciseAmount held.1.1.1 = Some n /\ 0 < n /\
    CommitInflightDebit held.1.1.2 held.1.1.1 = (s2, held.1.1.1, Ok tt) /\
    CommitInflightCredit held.1.2 held.1.1.1 = (d2, held.1.1.1, Ok tt) /\
    view s2 = debit n false (view rich) /\ view d2 = credit n false (view empty) /\
    RollbackInflightDebit held.1.1.2 (t_PreciseAmount held.1.1.1) = (s3, Ok tt) /\
    RollbackInflightCredit held.1.2 (t_PreciseAmount held.1.1.1) = (d3, Ok tt) /\
    view s3 = view rich /\ view d3 = view empty.
Proof.
  apply (hold_commit_or_void hold held.1.1.1 rich empty held.1.1.2 held.1.2).
  - vm_compute. reflexivity.
  - reflexivity.
  - vm_compute. repeat split; discriminate.
  - vm_compute. repeat split; discriminate.
  - vm_compute. reflexivity.
Defined.

Lemma UpdateBalances_no_overdraft_witness :
  exists n, t_PreciseAmount held.1.1.1 = Some n /\
    available_balance held.1.1.2 = available_balance rich - n /\
    (0 <= available_balance held.1.1.2 \/
     t_AllowOverdraft hold = true /\ feq (t_OverdraftLimit hold) fzero = true \/
     flt fzero (t_OverdraftLimit hold) = true /\
     - overdraft_limit_precise held.1.1.1 <= available_balance held.1.1.2).
Proof.
  apply (UpdateBalances_no_overdraft hold held.1.1.1 rich empty held.1.1.2 held.1.2).
  - vm_compute. reflexivity.
  - split; reflexivity.
Defined.
End BalanceWitness.
