(* ===== verification/Distribution.v ===== *)
(** * Splitting an amount over several legs

    [CalculateDistributionsPrecise] of [model/transaction.go]: a total is
    divided over identifiers by fixed amounts, percentages and one "left" leg;
    fractions of a minor unit are truncated and the remainder goes to the
    largest allocation.  Go maps are finite maps, and a [range] over a map is a
    fold over its entries in the order of [map_to_list]; the lemmas below show
    that no result depends on that order. *)
From stdpp Require Import base option list strings gmap sorting.
From Stdlib Require Import ZArith Lia QArith Qabs Lqa Permutation Ascii.
From S2P Require Import Prelude GoFloat Decimal DecimalInstance Model Amount.
Close Scope Q_scope.
Open Scope Z_scope.

(** [strings.HasSuffix(s, "%")] and [s[:len(s)-1]]. *)
Fixpoint strip_percent (s : string) : option string :=
  match s with
  | EmptyString => None
  | String c EmptyString => if Ascii.eqb c "%"%char then Some EmptyString else None
  | String c r => r' ← strip_percent r; Some (String c r')
  end.

(** [new(big.Int).SetString(s, 10)]: an optional sign and at least one digit. *)
Definition SetString10 (s : string) : option Z :=
  let '(neg, r) := scan_sign s in
  if all_digits r && negb (String.eqb r "")
  then Some (if neg : bool then - digits_val r else digits_val r) else None.

Definition isLeftDistribution (d : Distribution) : bool :=
  String.eqb (d_Distribution d) "left" || String.eqb (d_PreciseDistribution d) "left".

Definition isPercentageDistribution (d : Distribution) : bool :=
  match strip_percent (d_Distribution d) with Some _ => true | None => false end.

(** The loop both searches for the largest entry run over a map's entries:
    keep the first entry, then whichever is larger, the smaller key on a tie. *)
Definition find_largest_step {A} (gt eq : A -> A -> bool)
    (entry : string * A) (acc : string * A) : string * A :=
  let '(id, amount) := entry in
  let '(largestKey, largestAmount) := acc in
  if String.eqb largestKey "" || gt amount largestAmount
     || (eq amount largestAmount && string_ltb id largestKey)
  then (id, amount) else acc.
Definition find_largest {A} (gt eq : A -> A -> bool) (zero : A)
    (entries : list (string * A)) : string * A :=
  foldr (find_largest_step gt eq) (EmptyString, zero) entries.

Section Distributions.
Context {Dops : DecimalOps}.

Record distributionState := {
  totalAmountDec : Decimal;
  amountLeftDec : Decimal;
  precisionDec : Decimal;
  totalPercentage : Decimal;
  fixedTotalDec : Decimal;
  fixedAmounts : gmap string Decimal;
  percentAmounts : gmap string Decimal;
  dresult : gmap string Z }.

(** [parseFixedAmount]. *)
Definition parseFixedAmount (dist : Distribution) (precisionDec : Decimal) : result Decimal :=
  if negb (String.eqb (d_PreciseDistribution dist) "") then
    if 4096 <? Z.of_nat (String.length (d_PreciseDistribution dist)) then
      Err (errors_New "precise_distribution exceeds 4096 characters")
    else match SetString10 (d_PreciseDistribution dist) with
    | None => Err (errors_New "invalid precise_distribution format: must be an integer value in minor units")
    | Some amount =>
        if amount <? 0 then Err (errors_New "distribution amount cannot be negative")
        else Ok (dec_NewFromBigInt amount 0)
    end
  else if negb (String.eqb (d_Distribution dist) "") then
    match parseMonetaryDecimal (d_Distribution dist) with
    | Err _ => Err (errors_New "invalid fixed amount format")
    | Ok amount =>
        if dec_Sign amount <? 0 then Err (errors_New "distribution amount cannot be negative")
        else Ok (dec_Mul amount precisionDec)
    end
  else Err (errors_New "distribution amount is required").

(** [processFixedDistributions], one iteration and the loop. *)
Definition processFixed_step (st : distributionState) (dist : Distribution)
    : result distributionState :=
  if isLeftDistribution dist || isPercentageDistribution dist then Ok st
  else
    let* fixedAmountDec := parseFixedAmount dist (precisionDec st) in
    match dec_Cmp fixedAmountDec (amountLeftDec st) with
    | Gt => Err (errors_New "fixed amount exceeds remaining transaction amount")
    | _ => Ok {| st with
        fixedAmounts := <[d_Identifier dist := fixedAmountDec]> (fixedAmounts st);
        fixedTotalDec := dec_Add (fixedTotalDec st) fixedAmountDec;
        amountLeftDec := dec_Sub (amountLeftDec st) fixedAmountDec |}
    end.
Definition processFixedDistributions (distributions : list Distribution)
    (st : distributionState) : result distributionState :=
  fold_res processFixed_step distributions st.

(** [processPercentageDistributions]. *)
Definition processPercentage_step (st : distributionState) (dist : Distribution)
    : result distributionState :=
  if isLeftDistribution dist then Ok st
  else match strip_percent (d_Distribution dist) with
  | None => Ok st
  | Some percentageStr =>
      match parseMonetaryDecimal percentageStr with
      | Err _ => Err (errors_New "invalid percentage format")
      | Ok percentageDec =>
          if dec_Sign percentageDec <? 0 then
            Err (errors_New "distribution percentage cannot be negative")
          else
            let rawAmountDec := dec_Shift (dec_Mul (totalAmountDec st) percentageDec) (-2) in
            let tiny := (0 <? dec_Sign rawAmountDec) &&
                        match dec_Cmp rawAmountDec (dec_NewFromInt 1) with Lt => true | _ => false end in
            Ok {| st with
              totalPercentage := dec_Add (totalPercentage st) percentageDec;
              percentAmounts := <[d_Identifier dist := if tiny then dec_Zero else rawAmountDec]>
                                  (percentAmounts st) |}
      end
  end.
Definition processPercentageDistributions (distributions : list Distribution)
    (st : distributionState) : result distributionState :=
  fold_res processPercentage_step distributions st.

(** [validateDistributions]. *)
Definition validateDistributions (st : distributionState) : result unit :=
  let over_hundred := match dec_Cmp (totalPercentage st) (dec_NewFromInt 100) with
                      | Gt => true | _ => false end in
  let over_total :=
    match dec_Cmp (dec_Add (fixedTotalDec st)
                     (dec_Shift (dec_Mul (totalAmountDec st) (totalPercentage st)) (-2)))
                  (totalAmountDec st) with Gt => true | _ => false end in
  if over_hundred || over_total
  then Err (errors_New "total distributions exceed 100% or total amount") else Ok tt.

(** [findLargestDecimal]: the key of the largest amount, the smallest such
    key on a tie. *)
Definition findLargestDecimal (amounts : gmap string Decimal) : string * Decimal :=
  find_largest (fun a b => match dec_Cmp a b with Gt => true | _ => false end)
               (fun a b => match dec_Cmp a b with Eq => true | _ => false end)
               dec_Zero (map_to_list amounts).

(** [adjustPercentageAmounts]. *)
Definition adjustPercentageAmounts (st : distributionState) : distributionState :=
  if (size (percentAmounts st) =? 0)%nat then st
  else
    let targetTotal := dec_Shift (dec_Mul (totalAmountDec st) (totalPercentage st)) (-2) in
    let currentTotal := foldr (fun '(_, amount) acc => dec_Add acc amount) dec_Zero
                              (map_to_list (percentAmounts st)) in
    let diff := dec_Sub targetTotal currentTotal in
    match dec_Cmp (dec_Abs diff) (dec_NewFromInt 0) with
    | Gt =>
        let '(largestKey, largestAmount) := findLargestDecimal (percentAmounts st) in
        if negb (String.eqb largestKey "") && (0 <? dec_Sign largestAmount) then
          {| st with percentAmounts :=
               <[largestKey := dec_Add (default dec_Zero (percentAmounts st !! largestKey)) diff]>
                 (percentAmounts st) |}
        else st
    | _ => st
    end.

(** [combineDistributions]. *)
Definition combineDistributions (st : distributionState) : distributionState :=
  {| st with
     dresult := (dec_BigInt <$> percentAmounts st) ∪ ((dec_BigInt <$> fixedAmounts st) ∪ dresult st);
     amountLeftDec := foldr (fun '(_, amountDec) acc => dec_Sub acc amountDec)
                        (amountLeftDec st) (map_to_list (percentAmounts st)) |}.

(** [processLeftDistribution]: the first "left" leg takes what is left. *)
Fixpoint processLeftDistribution (distributions : list Distribution)
    (st : distributionState) : result distributionState :=
  match distributions with
  | [] => Ok st
  | dist :: rest =>
      if negb (isLeftDistribution dist) then processLeftDistribution rest st
      else match dresult st !! d_Identifier dist with
      | Some _ => Err (errors_New "multiple identifiers with 'left' distribution")
      | None => Ok {| st with dresult :=
                     <[d_Identifier dist := dec_BigInt (amountLeftDec st)]> (dresult st) |}
      end
  end.

(** The search of [balanceDistributions] for the largest allocation. *)
Definition findLargest (amounts : gmap string Z) : string * Z :=
  find_largest (fun a b => b <? a) (fun a b => a =? b) 0 (map_to_list amounts).

(** [balanceDistributions]. *)
Definition balanceDistributions (st : distributionState) : distributionState :=
  let sumDec := foldr (fun '(_, amount) acc => dec_Add acc (dec_NewFromBigInt amount 0))
                      dec_Zero (map_to_list (dresult st)) in
  match dec_Cmp sumDec (totalAmountDec st) with
  | Eq => st
  | _ =>
      let '(largestKey, _) := findLargest (dresult st) in
      if negb (String.eqb largestKey "") then
        let diff := dec_Sub (totalAmountDec st) sumDec in
        {| st with dresult :=
             <[largestKey := default 0 (dresult st !! largestKey) + dec_BigInt diff]> (dresult st) |}
      else st
  end.

(** [handleZeroAmount]. *)
Definition handleZeroAmount (distributions : list Distribution) : gmap string Z :=
  foldl (fun result dist => <[d_Identifier dist := 0]> result) ∅ distributions.

(** The checks at the head of [CalculateDistributionsPrecise]; the number of
    "left" legs. *)
Definition checkDistributions_step (acc : gset string * Z) (dist : Distribution)
    : result (gset string * Z) :=
  let '(seen, leftCount) := acc in
  if String.eqb (d_Identifier dist) "" || bool_decide (d_Identifier dist ∈ seen) then
    Err (errors_New "distribution identifiers must be non-empty and unique")
  else if negb (String.eqb (d_Distribution dist) "")
          && negb (String.eqb (d_PreciseDistribution dist) "") then
    Err (errors_New "provide either distribution or precise_distribution, not both")
  else Ok ({[d_Identifier dist]} ∪ seen,
           if isLeftDistribution dist then leftCount + 1 else leftCount).

(** The state [CalculateDistributionsPrecise] starts from. *)
Definition initial_state (total precision : Z) : distributionState :=
  let totalDec := dec_NewFromBigInt total 0 in
  {| totalAmountDec := totalDec; amountLeftDec := totalDec;
     precisionDec := dec_NewFromInt precision; totalPercentage := dec_Zero;
     fixedTotalDec := dec_Zero; fixedAmounts := ∅; percentAmounts := ∅; dresult := ∅ |}.

(** [CalculateDistributionsPrecise]. *)
Definition CalculateDistributionsPrecise (totalPreciseAmount : option Z)
    (distributions : list Distribution) (precision : Z) : result (gmap string Z) :=
  match totalPreciseAmount with
  | None => Err (errors_New "total amount must be non-negative")
  | Some total =>
    if total <? 0 then Err (errors_New "total amount must be non-negative")
    else if precision <=? 0 then Err (errors_New "precision must be positive")
    else if (length distributions =? 0)%nat then Err (errors_New "distributions are required")
    else
    let* counted := fold_res checkDistributions_step distributions (∅, 0) in
    let leftCount := counted.2 in
    if 1 <? leftCount then Err (errors_New "multiple identifiers with 'left' distribution")
    else
    let st := initial_state total precision in
    let* st := processFixedDistributions distributions st in
    let* st := processPercentageDistributions distributions st in
    let* _ := validateDistributions st in
    if total =? 0 then Ok (handleZeroAmount distributions)
    else
    let st := adjustPercentageAmounts st in
    let st := combineDistributions st in
    if dec_IsZero (fixedTotalDec st) && dec_IsZero (totalPercentage st) && (leftCount =? 0) then
      Err (errors_New "distributions must allocate a positive amount")
    else
    let* st := processLeftDistribution distributions st in
    Ok (dresult (balanceDistributions st))
  end.
End Distributions.

(** ** The largest entry does not depend on the iteration order *)

Section Largest.
Context {A : Type} (gt eq : A -> A -> bool) (zero : A) (v : A -> Q).
Hypothesis gt_spec : forall a b, gt a b = true <-> (v b < v a)%Q.
Hypothesis eq_spec : forall a b, eq a b = true <-> (v a == v b)%Q.
Implicit Types (l : list (string * A)) (e : string * A).

(** [e] beats [e']: a larger amount, or the same amount and no larger key. *)
Definition beats e e' : Prop :=
  (v e'.2 < v e.2)%Q \/
  ((v e'.2 == v e.2)%Q /\ (e'.1 = e.1 \/ string_ltb e.1 e'.1 = true)).

Lemma beats_refl e : beats e e.
Proof. right. split; [reflexivity|by left]. Qed.

Lemma beats_trans e1 e2 e3 : beats e1 e2 -> beats e2 e3 -> beats e1 e3.
Proof.
  unfold beats. intros [H1|[H1 K1]] [H2|[H2 K2]]; [left; lra..|].
  right. split; [lra|]. destruct K1 as [K1|K1], K2 as [K2|K2].
  - left. congruence.
  - right. by rewrite <- K1.
  - right. by rewrite K2.
  - right. by eapply string_ltb_trans.
Qed.

Lemma find_largest_step_spec e acc :
  acc.1 <> ""%string ->
  let r := find_largest_step gt eq e acc in
  (r = e \/ r = acc) /\ beats r e /\ beats r acc.
Proof.
  destruct e as [id a], acc as [k b]. simpl. intros Hk.
  destruct (String.eqb k "") eqn:E0; [zbool; done|]. cbn [orb].
  destruct (gt a b) eqn:E1; cbn [orb].
  { apply gt_spec in E1. split; [by left|]. split; [apply beats_refl|by left]. }
  destruct (eq a b && string_ltb id k) eqn:E2.
  { apply andb_true_iff in E2 as [E2 E3]. apply eq_spec in E2.
    split; [by left|]. split; [apply beats_refl|]. right. simpl. split; [lra|by right]. }
  split; [by right|]. split; [|apply beats_refl].
  assert (~ (v b < v a)%Q) as Hng by (intros H%gt_spec; congruence).
  destruct (eq a b) eqn:E3.
  - apply eq_spec in E3. right. simpl in *. split; [done|].
    destruct (string_ltb_total id k) as [|[H|H]]; [by left|congruence|by right].
  - left. simpl. assert (~ (v a == v b)%Q) by (intros H%eq_spec; congruence). lra.
Qed.

Lemma find_largest_spec l :
  (forall e, e ∈ l -> e.1 <> ""%string) -> l <> [] ->
  find_largest gt eq zero l ∈ l /\
  forall e, e ∈ l -> beats (find_largest gt eq zero l) e.
Proof.
  induction l as [|e l IH]; intros Hne Hl; [done|]. simpl.
  destruct (decide (l = [])) as [->|Hl'].
  - simpl. destruct e as [id a]. simpl. split; [left|].
    intros e' He'. apply list_elem_of_singleton in He' as ->. apply beats_refl.
  - destruct IH as [IH1 IH2]; [intros e' He'; apply Hne; by right|done|].
    destruct (find_largest_step_spec e (find_largest gt eq zero l)) as (Hr & He & Hacc).
    { apply Hne. by right. }
    set (r := find_largest_step _ _ _ _) in *. split.
    + destruct Hr as [-> | ->]; [left|by right].
    + intros e' [->|He']%elem_of_cons; [done|]. eapply beats_trans; [done|by apply IH2].
Qed.

Lemma find_largest_perm l l' :
  (forall e, e ∈ l -> e.1 <> ""%string) -> NoDup (l.*1) -> l ≡ₚ l' ->
  find_largest gt eq zero l = find_largest gt eq zero l'.
Proof.
  intros Hne Hnd Hp. destruct (decide (l = [])) as [->|Hl].
  { by apply Permutation_nil in Hp as ->. }
  assert (l' <> []) as Hl' by (intros ->; by apply Permutation_nil_r in Hp).
  destruct (find_largest_spec l Hne Hl) as [H1 H2].
  destruct (find_largest_spec l') as [H1' H2']; [|done|].
  { intros e He. apply Hne. by rewrite Hp. }
  assert (forall e, e ∈ l <-> e ∈ l') as Hin by (intros e; by rewrite Hp).
  apply Hin in H1'. specialize (H2 _ H1'). specialize (H2' _ (proj1 (Hin _) H1)).
  assert ((find_largest gt eq zero l).1 = (find_largest gt eq zero l').1) as Hk.
  { destruct H2 as [H2|[H2 K2]], H2' as [H2'|[H2' K2']]; [lra..|].
    destruct K2 as [->|K2]; [done|]. destruct K2' as [->|K2']; [done|].
    pose proof (string_ltb_trans _ _ _ K2 K2') as K. by rewrite string_ltb_irrefl in K. }
  revert Hk H1 H1'. generalize (find_largest gt eq zero l), (find_largest gt eq zero l').
  intros [k a] [k' a'] Hk H1 H1'. simpl in Hk. subst k'. f_equal.
  eapply NoDup_fmap_fst_inj; eauto.
Qed.
End Largest.

(** ** Sums of decimals *)

Section DistributionFacts.
Context {Dops : DecimalOps} {Dlaws : DecimalLaws}.
Implicit Types (m : gmap string Decimal) (st : distributionState).

Definition qsum (l : list (string * Decimal)) : Q :=
  foldr (fun e acc => val e.2 + acc)%Q 0%Q l.
Definition msum m : Q := qsum (map_to_list m).

Lemma qsum_perm l l' : l ≡ₚ l' -> (qsum l == qsum l')%Q.
Proof.
  induction 1; simpl; [reflexivity|by rewrite IHPermutation|lra|].
  by rewrite IHPermutation1.
Qed.

Lemma msum_insert_None m i x : m !! i = None -> (msum (<[i:=x]> m) == val x + msum m)%Q.
Proof. intros Hi. unfold msum. rewrite qsum_perm by (by apply map_to_list_insert). reflexivity. Qed.

Lemma msum_insert_Some m i x y :
  m !! i = Some y -> (msum (<[i:=x]> m) == msum m - val y + val x)%Q.
Proof.
  intros Hi. rewrite <- insert_delete_eq, msum_insert_None by apply lookup_delete_eq.
  rewrite <- (insert_delete_id m i y Hi) at 2.
  rewrite msum_insert_None by apply lookup_delete_eq. lra.
Qed.

Definition all_nonneg m : Prop := forall i x, m !! i = Some x -> (0 <= val x)%Q.

Lemma all_nonneg_insert m i x : all_nonneg m -> (0 <= val x)%Q -> all_nonneg (<[i:=x]> m).
Proof. intros Hm Hx j y [[<- <-]|[_ ?]]%lookup_insert_Some; eauto. Qed.

Lemma qsum_nonneg l : (forall e, e ∈ l -> (0 <= val e.2)%Q) -> (0 <= qsum l)%Q.
Proof.
  induction l as [|e l IH]; intros Hl; simpl; [lra|].
  assert (0 <= val e.2)%Q by (apply Hl; left). assert (0 <= qsum l)%Q; [|lra].
  apply IH. intros e' He'. apply Hl. by right.
Qed.

Lemma msum_nonneg m : all_nonneg m -> (0 <= msum m)%Q.
Proof. intros Hm. apply qsum_nonneg. intros [i x] Hi%elem_of_map_to_list. eauto. Qed.

(** Truncated amounts do not add up to more than the amounts. *)
Lemma zsum_BigInt_le m : all_nonneg m -> (inject_Z (zsum (dec_BigInt <$> m)) <= msum m)%Q.
Proof.
  intros Hm. rewrite zsum_fmap. unfold msum.
  assert (forall e, e ∈ map_to_list m -> (0 <= val e.2)%Q) as Hl.
  { intros [i x] Hi%elem_of_map_to_list. eauto. }
  revert Hl. generalize (map_to_list m). intros l; induction l as [|e l IH]; intros Hl.
  { apply Qle_refl. }
  cbn [zsum_list foldr qsum]. rewrite inject_Z_plus, BigInt_trunc.
  destruct (Qtrunc_spec_nonneg (val e.2)) as (Ht & _ & _); [apply Hl; left|].
  specialize (IH ltac:(intros e' He; apply Hl; by right)). unfold zsum_list, qsum in IH. lra.
Qed.

Lemma BigInt_nonneg (d : Decimal) : (0 <= val d)%Q -> 0 <= dec_BigInt d.
Proof. intros Hd. rewrite BigInt_trunc. by apply Qtrunc_spec_nonneg. Qed.

(** The three loops that add up a map's entries. *)
Lemma foldr_Add l : (val (foldr (fun '(_, a) acc => dec_Add acc a) dec_Zero l) == qsum l)%Q.
Proof.
  induction l as [|[i x] l IH]; simpl; [apply val_Zero|]. rewrite val_Add, IH. lra.
Qed.
Lemma foldr_Sub l (z : Decimal) :
  (val (foldr (fun '(_, a) acc => dec_Sub acc a) z l) == val z - qsum l)%Q.
Proof.
  induction l as [|[i x] l IH]; simpl; [lra|]. rewrite val_Sub, IH. lra.
Qed.
Lemma foldr_Add_BigInt (r : gmap string Z) :
  (val (foldr (fun '(_, a) acc => dec_Add acc (dec_NewFromBigInt a 0)) dec_Zero (map_to_list r))
   == inject_Z (zsum r))%Q.
Proof.
  unfold zsum, zsum_list. induction (map_to_list r) as [|[i x] l IH]; cbn; [apply val_Zero|].
  rewrite val_Add, IH, NewFromBigInt0, inject_Z_plus. lra.
Qed.

(** ** The legs *)

Definition isFixed (d : Distribution) : bool :=
  negb (isLeftDistribution d) && negb (isPercentageDistribution d).
Definition isPercent (d : Distribution) : bool :=
  negb (isLeftDistribution d) && isPercentageDistribution d.
Definition ids_of (p : Distribution -> bool) (l : list Distribution) : gset string :=
  list_to_set (d_Identifier <$> filter (fun d => p d = true) l).

Lemma ids_of_cons p d l :
  ids_of p (d :: l) = (if p d then {[d_Identifier d]} else ∅) ∪ ids_of p l.
Proof.
  unfold ids_of. rewrite filter_cons. destruct (p d) eqn:E.
  - rewrite decide_True by done. done.
  - rewrite decide_False by done. set_solver.
Qed.

Lemma elem_of_ids_of p l i :
  i ∈ ids_of p l <-> exists d, d ∈ l /\ p d = true /\ d_Identifier d = i.
Proof.
  unfold ids_of. rewrite elem_of_list_to_set, list_elem_of_fmap.
  setoid_rewrite list_elem_of_filter. naive_solver.
Qed.

(** The identifiers of a checked list are non-empty and distinct. *)
Definition checked (l : list Distribution) : Prop :=
  NoDup (d_Identifier <$> l) /\ forall d, d ∈ l -> d_Identifier d <> ""%string.

Lemma checkDistributions_spec l seen n acc :
  fold_res checkDistributions_step l (seen, n) = Ok acc ->
  checked l /\ (forall d, d ∈ l -> d_Identifier d ∉ seen) /\
  acc.2 = n + Z.of_nat (length (filter (fun d => isLeftDistribution d = true) l)).
Proof.
  revert seen n; induction l as [|d l IH]; intros seen n H; simpl in H.
  { res_inv H. simpl. repeat split; [constructor|set_solver..|lia]. }
  apply res_bind_Ok in H as ([seen' n'] & H1 & H2). unfold checkDistributions_step in H1.
  res_inv H1. apply pair_equal_spec in H1 as [<- <-].
  apply orb_false_iff in Heqb as [He Hs]. zbool.
  destruct (IH _ _ H2) as ([Hnd Hne] & Hseen & Hc).
  split; [split|split].
  - simpl. apply NoDup_cons. split; [|done]. intros (d' & Hd' & Hin)%list_elem_of_fmap.
    apply (Hseen d' Hin). set_solver.
  - intros d' [->|Hd']%elem_of_cons; auto.
  - intros d' [->|Hd']%elem_of_cons; [done|]. specialize (Hseen d' Hd'). set_solver.
  - rewrite Hc, filter_cons. destruct (isLeftDistribution d).
    + rewrite decide_True by done. simpl. lia.
    + rewrite decide_False by done. lia.
Qed.

(** ** The fixed and percentage passes *)

Lemma pow10_m2 : (pow10 (-2) == 1 # 100)%Q.
Proof. reflexivity. Qed.

(** Facts about the state between the passes; [T] is the total. *)
Record fixed_inv (T : Z) st : Prop := {
  fi_total : (val (fixedTotalDec st) == msum (fixedAmounts st))%Q;
  fi_left : (val (amountLeftDec st) == inject_Z T - msum (fixedAmounts st))%Q;
  fi_left_nonneg : (0 <= val (amountLeftDec st))%Q;
  fi_nonneg : all_nonneg (fixedAmounts st) }.

Lemma parseFixedAmount_nonneg dist p d :
  (0 <= val p)%Q -> parseFixedAmount dist p = Ok d -> (0 <= val d)%Q.
Proof.
  intros Hp H. unfold parseFixedAmount in H. res_inv H; zbool.
  - rewrite NewFromBigInt0. by rewrite (Zle_Qle 0) in Heqb1.
  - apply Sign_nonneg in Heqb1. rewrite val_Mul. by apply Qmult_le_0_compat.
Qed.

Lemma processFixed_spec T l st st' :
  NoDup (d_Identifier <$> l) -> (forall d, d ∈ l -> fixedAmounts st !! d_Identifier d = None) ->
  (0 <= val (precisionDec st))%Q -> fixed_inv T st ->
  processFixedDistributions l st = Ok st' ->
  fixed_inv T st' /\ dom (fixedAmounts st') = dom (fixedAmounts st) ∪ ids_of isFixed l /\
  totalAmountDec st' = totalAmountDec st /\ totalPercentage st' = totalPercentage st /\
  percentAmounts st' = percentAmounts st /\ dresult st' = dresult st.
Proof.
  unfold processFixedDistributions. revert st; induction l as [|d l IH]; intros st Hnd Hfr Hp Hi H.
  { cbn in H. res_inv H. split; [done|]. repeat split. unfold ids_of; simpl. set_solver. }
  cbn [fold_res] in H. apply res_bind_Ok in H as (st1 & H1 & H2).
  rewrite fmap_cons in Hnd. apply NoDup_cons in Hnd as [Hn Hnd]. rewrite ids_of_cons. unfold isFixed at 1.
  unfold processFixed_step in H1.
  destruct (isLeftDistribution d || isPercentageDistribution d) eqn:E.
  { apply Ok_inj in H1 as <-. replace (negb _ && negb _) with false.
    2: { by rewrite <- negb_orb, E. }
    rewrite (left_id_L ∅ (∪)). apply IH; auto. intros d' Hd'. apply Hfr. by right. }
  apply res_bind_Ok in H1 as (x & Hx & H1).
  pose proof (parseFixedAmount_nonneg _ _ _ Hp Hx) as Hx0.
  assert (val x <= val (amountLeftDec st))%Q as Hle.
  { destruct (dec_Cmp x (amountLeftDec st)) eqn:EC; [apply Cmp_eq in EC|apply Cmp_lt in EC|done]; lra. }
  assert (fixedAmounts st !! d_Identifier d = None) as Hnone by (apply Hfr; left).
  assert (st1 = {| st with
        fixedAmounts := <[d_Identifier d := x]> (fixedAmounts st);
        fixedTotalDec := dec_Add (fixedTotalDec st) x;
        amountLeftDec := dec_Sub (amountLeftDec st) x |}) as ->.
  { destruct (dec_Cmp _ _); by simplify_eq. }
  rewrite <- negb_orb, E. cbn [negb].
  apply IH in H2 as (Hi' & Hd' & Hrest); cbn; auto.
  - split; [done|]. split; [|done]. rewrite Hd'. cbn. rewrite dom_insert_L. set_solver.
  - intros d' Hin. apply lookup_insert_None. split; [apply Hfr; by right|].
    intros Heq. apply Hn, list_elem_of_fmap. eauto.
  - destruct Hi as [i1 i2 i3 i4]. pose proof (msum_insert_None _ _ x Hnone) as Hs.
    split; cbn; [rewrite val_Add, i1, Hs; lra|rewrite val_Sub, i2, Hs; lra
                |rewrite val_Sub; lra|by apply all_nonneg_insert].
Qed.

(** Facts after the percentage pass. *)
Record percent_inv st : Prop := {
  pi_pct : (0 <= val (totalPercentage st))%Q;
  pi_sum : (msum (percentAmounts st) <=
            val (totalAmountDec st) * val (totalPercentage st) * (1#100))%Q;
  pi_nonneg : all_nonneg (percentAmounts st) }.

Lemma processPercentage_spec l st st' :
  NoDup (d_Identifier <$> l) -> (forall d, d ∈ l -> percentAmounts st !! d_Identifier d = None) ->
  (0 <= val (totalAmountDec st))%Q -> percent_inv st ->
  processPercentageDistributions l st = Ok st' ->
  percent_inv st' /\ dom (percentAmounts st') = dom (percentAmounts st) ∪ ids_of isPercent l /\
  totalAmountDec st' = totalAmountDec st /\ amountLeftDec st' = amountLeftDec st /\
  fixedAmounts st' = fixedAmounts st /\ fixedTotalDec st' = fixedTotalDec st /\
  dresult st' = dresult st.
Proof.
  unfold processPercentageDistributions.
  revert st; induction l as [|d l IH]; intros st Hnd Hfr HT Hi H.
  { cbn in H. res_inv H. split; [done|]. repeat split. unfold ids_of; simpl. set_solver. }
  cbn [fold_res] in H. apply res_bind_Ok in H as (st1 & H1 & H2).
  rewrite fmap_cons in Hnd. apply NoDup_cons in Hnd as [Hn Hnd]. rewrite ids_of_cons. unfold isPercent at 1.
  assert (forall d', d' ∈ l -> percentAmounts st !! d_Identifier d' = None) as Hfr'
    by (intros d' Hd'; apply Hfr; by right).
  unfold processPercentage_step in H1. unfold isPercentageDistribution at 1.
  destruct (isLeftDistribution d); cbn [negb andb].
  { apply Ok_inj in H1 as <-. rewrite (left_id_L ∅ (∪)). by apply IH. }
  destruct (strip_percent (d_Distribution d)) as [ps|].
  2: { apply Ok_inj in H1 as <-. rewrite (left_id_L ∅ (∪)). by apply IH. }
  destruct (parseMonetaryDecimal ps) as [pct|]; [|done].
  destruct (dec_Sign pct <? 0) eqn:Es; [done|]. zbool. apply Sign_nonneg in Es.
  apply Ok_inj in H1 as <-. set (raw := dec_Shift _ _) in *.
  assert (val raw == val (totalAmountDec st) * val pct * (1#100))%Q as Hraw.
  { unfold raw. rewrite val_Shift, val_Mul, pow10_m2. reflexivity. }
  assert (0 <= val raw)%Q as Hraw0.
  { rewrite Hraw. apply Qmult_le_0_compat; [|lra]. by apply Qmult_le_0_compat. }
  match type of H2 with context [if ?b then dec_Zero else raw] =>
    set (x := if b then dec_Zero else raw) in * end.
  assert (0 <= val x <= val raw)%Q as Hx.
  { unfold x. destruct (_ && _); [rewrite val_Zero|]; lra. }
  clearbody x.
  assert (percentAmounts st !! d_Identifier d = None) as Hnone by (apply Hfr; left).
  apply IH in H2 as (Hi' & Hd' & Hrest); cbn; auto.
  - split; [done|]. split; [|done]. rewrite Hd'. cbn. rewrite dom_insert_L. set_solver.
  - intros d' Hin. apply lookup_insert_None. split; [by apply Hfr'|].
    intros Heq. apply Hn, list_elem_of_fmap. eauto.
  - destruct Hi as [i1 i2 i3]. pose proof (msum_insert_None _ _ x Hnone) as Hs.
    split; cbn; [rewrite val_Add; lra| |apply all_nonneg_insert; [done|lra]].
    rewrite Hs, val_Add. rewrite Qmult_plus_distr_r, Qmult_plus_distr_l. lra.
Qed.

(** ** Adjusting, combining and balancing *)

Lemma findLargestDecimal_in m :
  (forall i, i ∈ dom m -> i <> ""%string) -> m <> ∅ ->
  m !! (findLargestDecimal m).1 = Some (findLargestDecimal m).2.
Proof.
  intros Hne Hm.
  destruct (find_largest_spec
    (fun a b => match dec_Cmp a b with Gt => true | _ => false end)
    (fun a b => match dec_Cmp a b with Eq => true | _ => false end) dec_Zero val) with (l := map_to_list m)
    as [Hin _].
  - intros x y. rewrite <- Cmp_gt. destruct (dec_Cmp x y); naive_solver.
  - intros x y. rewrite <- Cmp_eq. destruct (dec_Cmp x y); naive_solver.
  - intros [i x] Hi%elem_of_map_to_list. apply Hne. by apply elem_of_dom_2 in Hi.
  - intros Hnil. by apply map_to_list_empty_iff in Hnil.
  - unfold findLargestDecimal. apply elem_of_map_to_list. by rewrite <- surjective_pairing.
Qed.

Lemma adjust_spec st :
  percent_inv st -> (forall i, i ∈ dom (percentAmounts st) -> i <> ""%string) ->
  percent_inv (adjustPercentageAmounts st) /\
  dom (percentAmounts (adjustPercentageAmounts st)) = dom (percentAmounts st) /\
  adjustPercentageAmounts st =
    {| st with percentAmounts := percentAmounts (adjustPercentageAmounts st) |}.
Proof.
  intros Hi Hne. assert (st = {| st with percentAmounts := percentAmounts st |}) as Heta
    by (by destruct st).
  unfold adjustPercentageAmounts.
  destruct (size (percentAmounts st) =? 0)%nat eqn:Esz; [done|].
  set (target := dec_Shift _ _). set (current := foldr _ _ _). set (diff := dec_Sub _ _).
  assert (val diff == val (totalAmountDec st) * val (totalPercentage st) * (1#100)
            - msum (percentAmounts st))%Q as Hdiff.
  { unfold diff, target, current. rewrite val_Sub, val_Shift, val_Mul, pow10_m2, foldr_Add. reflexivity. }
  destruct (dec_Cmp (dec_Abs diff) _); [done..|].
  pose proof (findLargestDecimal_in (percentAmounts st) Hne) as Hin.
  destruct (findLargestDecimal (percentAmounts st)) as [k a].
  destruct (negb _ && _); [|done]. cbn [fst snd] in Hin.
  rewrite Hin; [|intros He; rewrite He, map_size_empty in Esz; done].
  cbn -[Qmult]. split; [|split; [|done]].
  - destruct Hi as [i1 i2 i3]. split; cbn; [done| |].
    + rewrite msum_insert_Some by (apply Hin; intros He; rewrite He, map_size_empty in Esz; done).
      rewrite val_Add. lra.
    + apply all_nonneg_insert; [done|]. rewrite val_Add.
      assert (0 <= val a)%Q; [|lra]. eapply i3, Hin.
      intros He; rewrite He, map_size_empty in Esz; done.
  - rewrite dom_insert_L. assert (k ∈ dom (percentAmounts st)); [|set_solver].
    eapply elem_of_dom_2, Hin. intros He; rewrite He, map_size_empty in Esz; done.
Qed.

(** The partial result: non-negative allocations that sum to at most [T]. *)
Record alloc_inv (T : Z) (r : gmap string Z) : Prop := {
  al_sum : zsum r <= T;
  al_nonneg : forall i x, r !! i = Some x -> 0 <= x }.

Lemma combine_spec T st :
  fixed_inv T st -> percent_inv st -> (val (totalAmountDec st) == inject_Z T)%Q ->
  (val (fixedTotalDec st) + val (totalAmountDec st) * val (totalPercentage st) * (1#100)
     <= val (totalAmountDec st))%Q ->
  dresult st = ∅ -> dom (fixedAmounts st) ## dom (percentAmounts st) ->
  let st' := combineDistributions st in
  alloc_inv T (dresult st') /\
  dom (dresult st') = dom (fixedAmounts st) ∪ dom (percentAmounts st) /\
  (inject_Z (zsum (dresult st')) + val (amountLeftDec st') <= inject_Z T)%Q /\
  (0 <= val (amountLeftDec st'))%Q.
Proof.
  intros Hf Hp HT Hv Hres Hdisj. cbn. rewrite Hres, (right_id_L ∅ (∪)), foldr_Sub.
  destruct Hf as [f1 f2 f3 f4], Hp as [p1 p2 p3].
  assert (dec_BigInt <$> percentAmounts st ##ₘ dec_BigInt <$> fixedAmounts st) as Hd.
  { apply map_disjoint_dom_2. rewrite !dom_fmap_L. set_solver. }
  rewrite zsum_union by done.
  pose proof (zsum_BigInt_le _ f4) as Hzf. pose proof (zsum_BigInt_le _ p3) as Hzp.
  rewrite inject_Z_plus. fold (msum (percentAmounts st)).
  rewrite f1, HT in Hv. rewrite HT in p2. rewrite f2.
  split; [split|split; [|split; lra]].
  - rewrite zsum_union by done. rewrite Zle_Qle, inject_Z_plus. lra.
  - intros i x [Hx|[_ Hx]]%lookup_union_Some_raw;
      apply lookup_fmap_Some in Hx as (y & <- & Hy); apply BigInt_nonneg; eauto.
  - rewrite dom_union_L, !dom_fmap_L. set_solver.
Qed.

Lemma alloc_insert T r i x :
  alloc_inv T r -> r !! i = None -> 0 <= x -> x + zsum r <= T -> alloc_inv T (<[i:=x]> r).
Proof.
  intros [Hs Hn] Hi Hx HT. split; [by rewrite zsum_insert_None|].
  intros j y [[<- <-]|[_ Hj]]%lookup_insert_Some; eauto.
Qed.

(** The first "left" leg, if any, takes the truncated rest. *)
Lemma processLeft_spec l st :
  (length (filter (fun d => isLeftDistribution d = true) l) <= 1)%nat ->
  (forall i, i ∈ ids_of isLeftDistribution l -> dresult st !! i = None) ->
  exists st', processLeftDistribution l st = Ok st' /\
    totalAmountDec st' = totalAmountDec st /\
    (ids_of isLeftDistribution l = ∅ /\ dresult st' = dresult st \/
     exists i, ids_of isLeftDistribution l = {[i]} /\ dresult st !! i = None /\
       dresult st' = <[i := dec_BigInt (amountLeftDec st)]> (dresult st)).
Proof.
  induction l as [|d l IH]; intros Hlen Hfr; cbn [processLeftDistribution].
  { exists st. split; [done|]. split; [done|]. by left. }
  rewrite filter_cons in Hlen. rewrite ids_of_cons in *.
  destruct (isLeftDistribution d) eqn:E; cbn [negb].
  - rewrite decide_True in Hlen by done. rewrite Hfr by set_solver.
    eexists. split; [done|]. split; [done|]. right. exists (d_Identifier d).
    split; [|split; [apply Hfr; set_solver|done]].
    assert (ids_of isLeftDistribution l = ∅) as ->; [|set_solver].
    unfold ids_of. simpl in Hlen. destruct (filter _ l); [done|simpl in Hlen; lia].
  - rewrite decide_False in Hlen by done. rewrite (left_id_L ∅ (∪)) in *. by apply IH.
Qed.

Lemma findLargest_in (r : gmap string Z) :
  (forall i, i ∈ dom r -> i <> ""%string) -> r <> ∅ ->
  r !! (findLargest r).1 = Some (findLargest r).2.
Proof.
  intros Hne Hr.
  destruct (find_largest_spec (fun a b => b <? a) (fun a b => a =? b) 0 inject_Z)
    with (l := map_to_list r) as [Hin _].
  - intros x y. by rewrite Z.ltb_lt, Zlt_Qlt.
  - intros x y. rewrite Z.eqb_eq. symmetry. apply inject_Z_injective.
  - intros [i x] Hi%elem_of_map_to_list. apply Hne. by apply elem_of_dom_2 in Hi.
  - intros Hnil. by apply map_to_list_empty_iff in Hnil.
  - unfold findLargest. apply elem_of_map_to_list. by rewrite <- surjective_pairing.
Qed.

Lemma balance_spec T st :
  alloc_inv T (dresult st) -> (val (totalAmountDec st) == inject_Z T)%Q ->
  dresult st <> ∅ -> (forall i, i ∈ dom (dresult st) -> i <> ""%string) ->
  let r := dresult (balanceDistributions st) in
  zsum r = T /\ (forall i x, r !! i = Some x -> 0 <= x) /\ dom r = dom (dresult st) /\
  (forall i x, dresult st !! i = Some x -> exists y, r !! i = Some y /\ x <= y).
Proof.
  intros [Hs Hn] HT Hne Hk. unfold balanceDistributions.
  set (sum := foldr _ _ _).
  assert (val sum == inject_Z (zsum (dresult st)))%Q as Hsum by apply foldr_Add_BigInt.
  destruct (dec_Cmp sum (totalAmountDec st)) eqn:EC.
  { apply Cmp_eq in EC. rewrite Hsum, HT in EC. apply (proj1 (inject_Z_injective _ _)) in EC. cbv zeta.
    do 3 (split; [done|]). intros i x Hi. exists x. split; [done|lia]. }
  all: pose proof (findLargest_in _ Hk Hne) as Hin; pose proof (Hk (findLargest (dresult st)).1) as Hk';
    destruct (findLargest (dresult st)) as [k a]; cbn [fst snd] in Hin, Hk';
    apply elem_of_dom_2 in Hin as Hd; specialize (Hk' Hd);
    destruct (String.eqb k "") eqn:Ek; [zbool; done|]; cbn [negb dresult]; rewrite Hin;
    (rewrite (BigInt_int _ (T - zsum (dresult st)))
      by (rewrite val_Sub, Hsum, HT; unfold Z.sub; rewrite inject_Z_plus, inject_Z_opp; lra));
    simpl default; rewrite (zsum_insert_Some _ _ _ _ Hin), dom_insert_L;
    specialize (Hn k a Hin) as Ha;
    (split; [lia|split; [|split; [set_solver|]]]).
  all: try (intros i x [[<- <-]|[_ Hi]]%lookup_insert_Some; [lia|eauto]).
  all: intros i x Hi; destruct (decide (i = k)) as [->|Hik];
    [rewrite lookup_insert_eq; simplify_eq; eexists; split; [done|lia]
    |rewrite lookup_insert_ne by done; eauto with lia].
Qed.

Lemma ids_of_disjoint p q l :
  NoDup (d_Identifier <$> l) -> (forall d, p d = true -> q d = true -> False) ->
  ids_of p l ## ids_of q l.
Proof.
  intros Hnd Hpq i (d & Hd & Hp & Hi)%elem_of_ids_of (d' & Hd' & Hq & Hi')%elem_of_ids_of.
  assert (d = d') as ->; [|eauto].
  apply list_elem_of_lookup in Hd as [n Hn], Hd' as [n' Hn'].
  assert (n = n') as <-; [|by simplify_eq].
  apply (NoDup_lookup _ n n' i Hnd); rewrite list_lookup_fmap; [rewrite Hn|rewrite Hn']; simpl; congruence.
Qed.

Lemma handleZero_spec l :
  zsum (handleZeroAmount l) = 0 /\
  (forall i x, handleZeroAmount l !! i = Some x -> x = 0) /\
  dom (handleZeroAmount l) = ids_of (fun _ => true) l.
Proof.
  unfold handleZeroAmount.
  assert (forall r : gmap string Z, (forall i x, r !! i = Some x -> x = 0) ->
    let r' := foldl (fun result dist => <[d_Identifier dist := 0]> result) r l in
    (forall i x, r' !! i = Some x -> x = 0) /\ dom r' = dom r ∪ ids_of (fun _ => true) l) as Hgen.
  { induction l as [|d l IH]; intros r Hr; simpl.
    { split; [done|]. unfold ids_of; simpl. set_solver. }
    destruct (IH (<[d_Identifier d := 0]> r)) as [IH1 IH2].
    { intros i x [[_ <-]|[_ Hi]]%lookup_insert_Some; eauto. }
    split; [done|]. rewrite IH2, dom_insert_L, ids_of_cons. set_solver. }
  destruct (Hgen ∅) as [H1 H2]; [by intros ? ?; rewrite lookup_empty|].
  split; [|split; [done|rewrite H2; set_solver]].
  apply Z.le_antisymm; [|apply zsum_list_nonneg; intros [i x] Hi%elem_of_map_to_list; rewrite (H1 _ _ Hi); done].
  unfold zsum. assert (forall e, e ∈ map_to_list (foldl (fun result dist => <[d_Identifier dist := 0]> result)
    (∅ : gmap string Z) l) -> e.2 = 0) as Hz.
  { intros [i x] Hi%elem_of_map_to_list. eauto. }
  revert Hz. generalize (map_to_list (foldl (fun result dist => <[d_Identifier dist := 0]> result)
    (∅ : gmap string Z) l)).
  intros es. induction es as [|e es IH]; intros Hz; [done|]. simpl.
  rewrite (Hz e) by left. apply IH. intros e' He'. apply Hz. by right.
Qed.

Lemma validate_spec st : validateDistributions st = Ok tt ->
  (val (fixedTotalDec st) + val (totalAmountDec st) * val (totalPercentage st) * (1#100)
     <= val (totalAmountDec st))%Q.
Proof.
  unfold validateDistributions.
  set (x := dec_Add _ _). assert (val x == val (fixedTotalDec st) +
    val (totalAmountDec st) * val (totalPercentage st) * (1#100))%Q as <-.
  { unfold x. rewrite val_Add, val_Shift, val_Mul, pow10_m2. reflexivity. }
  destruct (dec_Cmp x (totalAmountDec st)) eqn:E; intros H.
  - apply Cmp_eq in E. lra.
  - apply Cmp_lt in E. lra.
  - by rewrite orb_true_r in H.
Qed.

(** Both passes from the initial state. *)
Lemma passes_spec T l p st1 st2 :
  0 <= T -> 0 < p -> NoDup (d_Identifier <$> l) ->
  processFixedDistributions l (initial_state T p) = Ok st1 ->
  processPercentageDistributions l st1 = Ok st2 ->
  fixed_inv T st2 /\ percent_inv st2 /\ (val (totalAmountDec st2) == inject_Z T)%Q /\
  dom (fixedAmounts st2) = ids_of isFixed l /\ dom (percentAmounts st2) = ids_of isPercent l /\
  dresult st2 = ∅ /\ fixedAmounts st2 = fixedAmounts st1.
Proof.
  intros HT Hp Hnd H1 H2.
  assert (0 <= inject_Z T)%Q as HTQ by (by rewrite (Zle_Qle 0) in HT).
  assert (0 <= inject_Z p)%Q as HpQ by (apply Z.lt_le_incl in Hp; by rewrite (Zle_Qle 0) in Hp).
  assert (fixed_inv T (initial_state T p)) as Hi.
  { unfold initial_state. split; cbn; rewrite ?val_Zero, ?NewFromBigInt0; unfold msum;
      rewrite ?map_to_list_empty; cbn; try lra. by intros ? ?; rewrite lookup_empty. }
  apply (processFixed_spec T) in H1 as (Hf1 & Hd1 & Ht1 & Hp1 & Hpa1 & Hr1);
    [|done|intros; apply lookup_empty|cbn; by rewrite val_NewFromInt|done].
  assert (val (totalAmountDec st1) == inject_Z T)%Q as Hval by (rewrite Ht1; apply NewFromBigInt0).
  assert (percent_inv st1) as Hpi.
  { split; rewrite ?Hp1, ?Hpa1; cbn; rewrite ?val_Zero; [lra| |by intros ? ?; rewrite lookup_empty].
    unfold msum. rewrite map_to_list_empty, Hval. cbn. lra. }
  apply processPercentage_spec in H2 as (Hp2 & Hd2 & Ht2 & Hl2 & Hf2 & Hft2 & Hr2);
    [|done|intros; rewrite Hpa1; apply lookup_empty|by rewrite Hval|done].
  split; [destruct Hf1 as [f1 f2 f3 f4]; split; by rewrite ?Hft2, ?Hf2, ?Hl2|].
  split; [done|]. split; [by rewrite Ht2|].
  rewrite Hf2, Hd1, Hd2, Hpa1, Hr2, Hr1. cbn. rewrite dom_empty_L. split; [set_solver|].
  split; [set_solver|done].
Qed.

(** Every fixed leg is recorded with its parsed amount. *)
Lemma processFixed_lookup l st st' :
  NoDup (d_Identifier <$> l) -> processFixedDistributions l st = Ok st' ->
  (forall i, i ∉ ids_of isFixed l -> fixedAmounts st' !! i = fixedAmounts st !! i) /\
  (forall d, d ∈ l -> isFixed d = true -> exists a,
     parseFixedAmount d (precisionDec st) = Ok a /\ fixedAmounts st' !! d_Identifier d = Some a).
Proof.
  unfold processFixedDistributions. revert st; induction l as [|d l IH]; intros st Hnd H.
  { cbn in H. res_inv H. split; [done|]. intros d Hd. by apply not_elem_of_nil in Hd. }
  cbn [fold_res] in H. apply res_bind_Ok in H as (st1 & H1 & H2).
  rewrite fmap_cons in Hnd. apply NoDup_cons in Hnd as [Hn Hnd].
  destruct (IH _ Hnd H2) as [IH1 IH2]. rewrite ids_of_cons.
  unfold processFixed_step in H1. destruct (_ || _) eqn:E.
  { apply Ok_inj in H1 as <-. assert (isFixed d = false) as Hfx.
    { unfold isFixed. by rewrite <- negb_orb, E. }
    rewrite Hfx, (left_id_L ∅ (∪)). split; [done|].
    intros d' [->|Hd']%elem_of_cons Hf; [congruence|eauto]. }
  assert (isFixed d = true) as Hfx by (unfold isFixed; by rewrite <- negb_orb, E).
  apply res_bind_Ok in H1 as (x & Hx & H1).
  assert (precisionDec st1 = precisionDec st /\
    fixedAmounts st1 = <[d_Identifier d := x]> (fixedAmounts st)) as [Hpr Hfa]
    by (destruct (dec_Cmp _ _); by simplify_eq).
  assert (d_Identifier d ∉ ids_of isFixed l) as Hd.
  { intros (d' & Hd' & _ & Heq)%elem_of_ids_of. apply Hn, list_elem_of_fmap. eauto. }
  rewrite Hfx. split.
  - intros i Hi. rewrite IH1, Hfa by set_solver. apply lookup_insert_ne. set_solver.
  - intros d' [->|Hd']%elem_of_cons Hf.
    + exists x. split; [done|]. by rewrite (IH1 _ Hd), Hfa, lookup_insert_eq.
    + destruct (IH2 d' Hd' Hf) as (a & Ha & Hl). exists a. by rewrite <- Hpr.
Qed.

Lemma ids_of_split l :
  ids_of (fun _ => true) l = ids_of isFixed l ∪ ids_of isPercent l ∪ ids_of isLeftDistribution l.
Proof.
  apply set_eq. intros i. rewrite !elem_of_union, !elem_of_ids_of.
  unfold isFixed, isPercent. split; [|naive_solver].
  intros (d & Hd & _ & Hi). destruct (isLeftDistribution d) eqn:EL; [by right; eauto|].
  destruct (isPercentageDistribution d) eqn:EP; [left; right|left; left];
    (exists d; rewrite EL, EP; done).
Qed.

Lemma ids_of_all l : ids_of (fun _ => true) l = list_to_set (d_Identifier <$> l).
Proof.
  apply set_eq. intros i. rewrite elem_of_ids_of, elem_of_list_to_set, list_elem_of_fmap.
  naive_solver.
Qed.

(** The state of a successful run before the final balancing step. *)
Lemma Calculate_steps T l p r :
  CalculateDistributionsPrecise (Some T) l p = Ok r -> T <> 0 ->
  exists st, alloc_inv T (dresult st) /\ (val (totalAmountDec st) == inject_Z T)%Q /\
    dom (dresult st) = ids_of (fun _ => true) l /\ checked l /\ l <> [] /\
    r = dresult (balanceDistributions st) /\
    (forall d, d ∈ l -> isFixed d = true -> exists a,
       parseFixedAmount d (dec_NewFromInt p) = Ok a /\
       dresult st !! d_Identifier d = Some (dec_BigInt a)).
Proof.
  unfold CalculateDistributionsPrecise. intros H HT0.
  destruct (T <? 0) eqn:HT; [done|]. destruct (p <=? 0) eqn:Hp; [done|].
  destruct (length l =? 0)%nat eqn:Hl; [done|]. zbool. apply Nat.eqb_neq in Hl.
  apply res_bind_Ok in H as (counted & Hc & H).
  destruct (1 <? counted.2) eqn:Hcnt; [done|]. zbool.
  apply res_bind_Ok in H as (st1 & H1 & H). apply res_bind_Ok in H as (st2 & H2 & H).
  apply res_bind_Ok in H as ([] & H3 & H). destruct (T =? 0) eqn:HT0'; [zbool; done|].
  destruct (dec_IsZero _ && _ && _) eqn:Hz; [done|].
  apply res_bind_Ok in H as (st4 & H4 & H). apply Ok_inj in H as <-.
  apply checkDistributions_spec in Hc as (Hck & _ & Hcount). pose proof Hck as [Hnd Hne].
  destruct (passes_spec T l p st1 st2) as (Hf & Hpi & HTv & Hdf & Hdp & Hr & Hfx); [done..|].
  destruct (processFixed_lookup _ _ _ Hnd H1) as [_ Hlk].
  apply validate_spec in H3.
  destruct (adjust_spec st2 Hpi) as (Hpi' & Hdom' & Hst).
  { intros i. rewrite Hdp. intros (d & Hd & _ & <-)%elem_of_ids_of. auto. }
  set (st3 := adjustPercentageAmounts st2) in *.
  assert (fixed_inv T st3) as Hf3.
  { destruct Hf as [f1 f2 f3 f4]. rewrite Hst. split; cbn; done. }
  destruct (combine_spec T st3) as (Ha & Hdr & Hle & Hleft); try done.
  1-3: by rewrite Hst.
  { rewrite Hdom', Hdp, Hst. cbn. rewrite Hdf. apply ids_of_disjoint; [done|].
    unfold isFixed, isPercent. intros d. destruct (isPercentageDistribution d);
      rewrite ?andb_false_r; done. }
  assert (dom (dresult (combineDistributions st3)) = ids_of isFixed l ∪ ids_of isPercent l) as Hdr'.
  { rewrite Hdr, Hdom', Hdp, Hst. cbn. by rewrite Hdf. }
  destruct (processLeft_spec l (combineDistributions st3)) as (st4' & H4' & Ht4 & Hres).
  { lia. }
  { intros i Hi. apply not_elem_of_dom. rewrite Hdr'. intros [Hi2|Hi2]%elem_of_union;
      eapply (ids_of_disjoint isLeftDistribution _ l Hnd); try eassumption;
      unfold isFixed, isPercent; intros d ->; done. }
  rewrite H4 in H4'. apply Ok_inj in H4' as <-. exists st4.
  split; [|split; [|split; [|split; [done|split; [|split; [done|]]]]]].
  - destruct Hres as [[_ ->]|(i & _ & Hi & ->)]; [done|].
    apply alloc_insert; [done|done|by apply BigInt_nonneg|].
    rewrite Zle_Qle, inject_Z_plus, BigInt_trunc.
    destruct (Qtrunc_spec_nonneg _ Hleft) as (Htr & _). lra.
  - rewrite Ht4. cbn. by rewrite Hst.
  - rewrite ids_of_split, <- Hdr'. destruct Hres as [[-> ->]|(i & -> & _ & ->)]; [set_solver|].
    rewrite dom_insert_L. set_solver.
  - by intros ->.
  - intros d Hd Hfd. destruct (Hlk d Hd Hfd) as (a & Hpa & Hla). exists a. split; [done|].
    assert (dresult (combineDistributions st3) !! d_Identifier d = Some (dec_BigInt a)) as Hc.
    { cbn. assert (percentAmounts st3 !! d_Identifier d = None) as Hnp.
      { apply not_elem_of_dom. rewrite Hdom', Hdp. intros Hin.
        eapply (ids_of_disjoint isFixed isPercent l Hnd); [|apply elem_of_ids_of; eauto|exact Hin].
        unfold isFixed, isPercent. intros d'. destruct (isPercentageDistribution d');
          rewrite ?andb_false_r; done. }
      rewrite lookup_union_r by (by rewrite lookup_fmap, Hnp).
      rewrite Hst. cbn. rewrite Hr, (right_id_L ∅ (∪)), lookup_fmap, Hfx, Hla. done. }
    destruct Hres as [[_ ->]|(i & _ & Hi & ->)]; [done|].
    rewrite lookup_insert_ne; [done|]. intros ->. congruence.
Qed.

(** The allocations of a split. *)
Lemma allocations_conserve (T p : Z) (l : list Distribution) (r : gmap string Z) :
  CalculateDistributionsPrecise (Some T) l p = Ok r ->
  zsum r = T /\ (forall i x, r !! i = Some x -> 0 <= x) /\
  dom r = list_to_set (d_Identifier <$> l) /\ NoDup (d_Identifier <$> l).
Proof.
  intros H. rewrite <- (ids_of_all l). destruct (decide (T = 0)) as [->|HT].
  - unfold CalculateDistributionsPrecise in H.
    destruct (0 <? 0); [done|]. destruct (p <=? 0); [done|]. destruct (length l =? 0)%nat; [done|].
    apply res_bind_Ok in H as (counted & Hc & H). destruct (1 <? counted.2); [done|].
    apply res_bind_Ok in H as (st1 & _ & H). apply res_bind_Ok in H as (st2 & _ & H).
    apply res_bind_Ok in H as (? & _ & H). apply Ok_inj in H as <-.
    destruct (handleZero_spec l) as (H1 & H2 & H3).
    split; [done|]. split; [intros i z Hi; rewrite (H2 _ _ Hi); done|]. split; [done|].
    by apply checkDistributions_spec in Hc as ([? ?] & _).
  - apply Calculate_steps in H as (st & Ha & Hv & Hd & [Hnd Hne] & Hl & -> & _); [|done].
    destruct (balance_spec T st Ha Hv) as (H1 & H2 & H3 & _).
    + intros He. rewrite He, dom_empty_L in Hd. destruct l as [|d l]; [done|].
      rewrite ids_of_cons in Hd. set_solver.
    + intros i. rewrite Hd. intros (d & Hin & _ & <-)%elem_of_ids_of. auto.
    + split; [done|]. split; [done|]. split; [by rewrite H3|done].
Qed.

(** C14: a split conserves its total.  Whenever [CalculateDistributionsPrecise]
    succeeds, every leg of the request, and no other identifier, has an
    allocation, every allocation is non-negative, and the allocations add up
    to exactly the total, whatever mix of fixed, percentage and "left" legs
    and whatever fractions of minor units they produce. *)
Theorem distribution_conserves_total (T p : Z) (l : list Distribution) (r : gmap string Z) :
  CalculateDistributionsPrecise (Some T) l p = Ok r ->
  zsum r = T /\ (forall i x, r !! i = Some x -> 0 <= x) /\
  dom r = list_to_set (d_Identifier <$> l) /\ NoDup (d_Identifier <$> l).
Proof. apply allocations_conserve. Qed.

(** Fixed legs are paid.  In a successful split of a non-zero total every
    fixed leg receives at least its parsed amount, truncated to minor units. *)
Theorem fixed_leg_is_paid (T p : Z) (l : list Distribution) (r : gmap string Z) (d : Distribution) :
  CalculateDistributionsPrecise (Some T) l p = Ok r -> T <> 0 -> d ∈ l -> isFixed d = true ->
  exists a x, parseFixedAmount d (dec_NewFromInt p) = Ok a /\
    r !! d_Identifier d = Some x /\ Qtrunc (val a) <= x.
Proof.
  intros H HT Hd Hf.
  apply Calculate_steps in H as (st & Ha & Hv & Hdom & [Hnd Hne] & Hl & -> & Hfx); [|done].
  destruct (Hfx d Hd Hf) as (a & Hpa & Hla).
  destruct (balance_spec T st Ha Hv) as (_ & _ & _ & Hge).
  - intros He. by rewrite He, lookup_empty in Hla.
  - intros i. rewrite Hdom. intros (d' & Hin & _ & <-)%elem_of_ids_of. auto.
  - destruct (Hge _ _ Hla) as (x & Hx & Hle). exists a, x. rewrite <- BigInt_trunc. done.
Qed.

(** Map iteration order cannot change a split.  The search for the leg that
    takes the rounding remainder gives the same leg on every enumeration of
    the allocations, for both the decimal and the integer search. *)
Theorem largest_leg_order_independent (m : gmap string Decimal) (r : gmap string Z) lm lr :
  (forall i, i ∈ dom m -> i <> ""%string) -> (forall i, i ∈ dom r -> i <> ""%string) ->
  lm ≡ₚ map_to_list m -> lr ≡ₚ map_to_list r ->
  find_largest (fun a b => match dec_Cmp a b with Gt => true | _ => false end)
               (fun a b => match dec_Cmp a b with Eq => true | _ => false end)
               dec_Zero lm = findLargestDecimal m /\
  find_largest (fun a b => b <? a) (fun a b => a =? b) 0 lr = findLargest r.
Proof.
  intros Hm Hr Hlm Hlr. split; symmetry.
  - apply (find_largest_perm _ _ dec_Zero val).
    + intros x y. rewrite <- Cmp_gt. destruct (dec_Cmp x y); naive_solver.
    + intros x y. rewrite <- Cmp_eq. destruct (dec_Cmp x y); naive_solver.
    + intros [i x] Hi%elem_of_map_to_list. apply Hm. by apply elem_of_dom_2 in Hi.
    + apply NoDup_fst_map_to_list.
    + by symmetry.
  - apply (find_largest_perm _ _ 0 inject_Z).
    + intros x y. by rewrite Z.ltb_lt, Zlt_Qlt.
    + intros x y. rewrite Z.eqb_eq. symmetry. apply inject_Z_injective.
    + intros [i x] Hi%elem_of_map_to_list. apply Hr. by apply elem_of_dom_2 in Hi.
    + apply NoDup_fst_map_to_list.
    + by symmetry.
Qed.
End DistributionFacts.

(** ** Witnesses *)

Module DistributionWitness.
#[local] Existing Instance dnum_ops.
#[local] Existing Instance dnum_laws.

Definition leg (i s : string) : Distribution :=
  {| d_Identifier := i; d_Distribution := s; d_PreciseDistribution := ""; d_TransactionID := "" |}.
Definition legs : list Distribution := [leg "a" "33.33%"; leg "b" "1.005"; leg "c" "left"; leg "d" "0.001%"].
Definition split : gmap string Z :=
  match CalculateDistributionsPrecise (Some 1000) legs 100 with Ok r => r | Err _ => ∅ end.

Lemma distribution_conserves_total_witness :
  zsum split = 1000 /\ (forall i x, split !! i = Some x -> 0 <= x) /\
  dom split = list_to_set (d_Identifier <$> legs) /\ NoDup (d_Identifier <$> legs).
Proof.
  apply (distribution_conserves_total 1000 100 legs split). vm_compute. reflexivity.
Defined.

Lemma fixed_leg_is_paid_witness :
  exists a x, parseFixedAmount (leg "b" "1.005") (dec_NewFromInt 100) = Ok a /\
    split !! "b"%string = Some x /\ Qtrunc (val a) <= x.
Proof.
  apply (fixed_leg_is_paid 1000 100 legs split (leg "b" "1.005")).
  - vm_compute. reflexivity.
  - lia.
  - right; left.
  - reflexivity.
Defined.

Lemma largest_leg_order_independent_witness :
  find_largest (fun a b => match dec_Cmp a b with Gt => true | _ => false end)
               (fun a b => match dec_Cmp a b with Eq => true | _ => false end)
               dec_Zero [] = findLargestDecimal ∅ /\
  find_largest (fun a b => b <? a) (fun a b => a =? b) 0
    [("b"%string, 7); ("a"%string, 7)] = findLargest {["a"%string := 7; "b"%string := 7]}.
Proof.
  apply (largest_leg_order_independent ∅ {["a"%string := 7; "b"%string := 7]}).
  - intros i. rewrite dom_empty_L. intros Hi. by apply not_elem_of_empty in Hi.
  - intros i Hi. assert (i = "a" \/ i = "b")%string as [-> | ->] by set_solver; discriminate.
  - rewrite map_to_list_empty. reflexivity.
  - vm_compute. apply Permutation_swap || reflexivity.
Defined.
End DistributionWitness.
