(* ===== verification/Sha256.v ===== *)
(** * SHA-256 and hexadecimal text

    [crypto/sha256.Sum256] and [encoding/hex.EncodeToString] of Go's standard
    library, executable on byte strings.  The hash chain and the transaction
    hash are computed with them; no theorem assumes anything about collisions. *)
From stdpp Require Import base list strings.
From Stdlib Require Import ZArith Lia Ascii.
From S2P Require Import Prelude.
Open Scope Z_scope.

(** ** 32-bit words *)

Definition mask32 : Z := 4294967295.
Definition add32 (a b : Z) : Z := Z.land (a + b) mask32.
Definition rotr (n x : Z) : Z :=
  Z.lor (Z.shiftr x n) (Z.land (Z.shiftl x (32 - n)) mask32).
Definition not32 (x : Z) : Z := Z.lxor x mask32.

Definition Ch (x y z : Z) : Z := Z.lxor (Z.land x y) (Z.land (not32 x) z).
Definition Maj (x y z : Z) : Z := Z.lxor (Z.lxor (Z.land x y) (Z.land x z)) (Z.land y z).
Definition BSig0 (x : Z) : Z := Z.lxor (Z.lxor (rotr 2 x) (rotr 13 x)) (rotr 22 x).
Definition BSig1 (x : Z) : Z := Z.lxor (Z.lxor (rotr 6 x) (rotr 11 x)) (rotr 25 x).
Definition SSig0 (x : Z) : Z := Z.lxor (Z.lxor (rotr 7 x) (rotr 18 x)) (Z.shiftr x 3).
Definition SSig1 (x : Z) : Z := Z.lxor (Z.lxor (rotr 17 x) (rotr 19 x)) (Z.shiftr x 10).

(** Fractional parts of the cube roots of the first 64 primes. *)
Definition K256 : list Z := [
   1116352408; 1899447441; 3049323471; 3921009573; 961987163; 1508970993;
   2453635748; 2870763221; 3624381080; 310598401; 607225278; 1426881987;
   1925078388; 2162078206; 2614888103; 3248222580; 3835390401; 4022224774;
   264347078; 604807628; 770255983; 1249150122; 1555081692; 1996064986;
   2554220882; 2821834349; 2952996808; 3210313671; 3336571891; 3584528711;
   113926993; 338241895; 666307205; 773529912; 1294757372; 1396182291;
   1695183700; 1986661051; 2177026350; 2456956037; 2730485921; 2820302411;
   3259730800; 3345764771; 3516065817; 3600352804; 4094571909; 275423344;
   430227734; 506948616; 659060556; 883997877; 958139571; 1322822218;
   1537002063; 1747873779; 1955562222; 2024104815; 2227730452; 2361852424;
   2428436474; 2756734187; 3204031479; 3329325298].

(** Fractional parts of the square roots of the first 8 primes. *)
Definition H256 : list Z := [
   1779033703; 3144134277; 1013904242; 2773480762; 1359893119; 2600822924;
   528734635; 1541459225].

(** ** Bytes *)

Definition byte_of (c : ascii) : Z := Z.of_N (N_of_ascii c).
Definition char_of (b : Z) : ascii := ascii_of_N (Z.to_N (b mod 256)).
Fixpoint bytes_of (s : string) : list Z :=
  match s with EmptyString => [] | String c r => byte_of c :: bytes_of r end.

(** [n] as [k] big-endian bytes. *)
Fixpoint be_bytes (k : nat) (n : Z) : string :=
  match k with
  | O => EmptyString
  | S k' => String (char_of (n / 256 ^ Z.of_nat k')) (be_bytes k' n)
  end.

(** ** Hashing *)

(** The message followed by 0x80, zeros and its bit length. *)
Definition pad (msg : list Z) : list Z :=
  let n := Z.of_nat (length msg) in
  let zeros := (55 - n) mod 64 in
  msg ++ 128 :: replicate (Z.to_nat zeros) 0 ++ bytes_of (be_bytes 8 (8 * n)).

Fixpoint words (bs : list Z) : list Z :=
  match bs with
  | a :: b :: c :: d :: r => (a * 16777216 + b * 65536 + c * 256 + d) :: words r
  | _ => []
  end.

(** The message schedule, most recent word first. *)
Fixpoint schedule (n : nat) (rev_w : list Z) : list Z :=
  match n with
  | O => rev_w
  | S n' =>
      let w t := nth t rev_w 0 in
      schedule n' (add32 (add32 (SSig1 (w 1%nat)) (w 6%nat))
                         (add32 (SSig0 (w 14%nat)) (w 15%nat)) :: rev_w)
  end.

Definition round (st : list Z) (kw : Z * Z) : list Z :=
  match st with
  | [a; b; c; d; e; f; g; h] =>
      let t1 := add32 (add32 (add32 h (BSig1 e)) (Ch e f g)) (add32 kw.1 kw.2) in
      let t2 := add32 (BSig0 a) (Maj a b c) in
      [add32 t1 t2; a; b; c; add32 d t1; e; f; g]
  | _ => st
  end.

Definition compress (st : list Z) (block : list Z) : list Z :=
  let w := rev (schedule 48 (rev block)) in
  zip_with add32 st (foldl round st (zip K256 w)).

Fixpoint blocks (n : nat) (ws : list Z) : list (list Z) :=
  match n with
  | O => []
  | S n' => take 16 ws :: blocks n' (drop 16 ws)
  end.

Definition sha256_words (msg : string) : list Z :=
  let ws := words (pad (bytes_of msg)) in
  foldl compress H256 (blocks (length ws / 16) ws).

(** The 32 digest bytes. *)
Definition Sum256 (msg : string) : string :=
  String.concat "" (be_bytes 4 <$> sha256_words msg).

(** ** Hexadecimal text *)

Definition hex_digit (n : Z) : ascii :=
  if n <? 10 then ascii_of_N (Z.to_N (48 + n)) else ascii_of_N (Z.to_N (87 + n)).
Fixpoint EncodeToString (s : string) : string :=
  match s with
  | EmptyString => EmptyString
  | String c r =>
      String (hex_digit (byte_of c / 16)) (String (hex_digit (byte_of c mod 16)) (EncodeToString r))
  end.

(** [hex.EncodeToString(sha256.Sum256(data)[:])]. *)
Definition sha_hex (data : string) : string := EncodeToString (Sum256 data).

(** The FIPS 180-4 test vectors of one and two blocks. *)
Example sha256_abc : sha_hex "abc" =
  "ba7816bf8f01cfea414140de5dae2223b00361a396177a9cb410ff61f20015ad"%string.
Proof. vm_compute. reflexivity. Qed.
Example sha256_two_blocks :
  sha_hex "abcdbcdecdefdefgefghfghighijhijkijkljklmklmnlmnomnopnopq" =
  "248d6a61d20638b8e5c026930c3e6039a33ce45964ff2167f6ecedd419db06c1"%string.
Proof. vm_compute. reflexivity. Qed.

(** ** Length-delimited fields

    Each field is written as its byte count, a big-endian unsigned 64-bit
    integer, followed by its bytes. *)
Definition encode_field (field : string) : string :=
  (be_bytes 8 (Z.of_nat (String.length field) mod 2 ^ 64) +:+ field)%string.
Definition encode_fields (fields : list string) : string :=
  foldr (fun f acc => (encode_field f +:+ acc)%string) EmptyString fields.

Definition short (s : string) : Prop := Z.of_nat (String.length s) < 2 ^ 64.

Fixpoint be_val (s : string) : Z :=
  match s with
  | EmptyString => 0
  | String c r => byte_of c * 256 ^ Z.of_nat (String.length r) + be_val r
  end.

Lemma be_bytes_length k n : String.length (be_bytes k n) = k.
Proof. induction k as [|k IH]; [done|]. simpl. by rewrite IH. Qed.

Lemma byte_char b : byte_of (char_of b) = b mod 256.
Proof.
  unfold byte_of, char_of. pose proof (Z.mod_pos_bound b 256 ltac:(lia)).
  rewrite N_ascii_embedding by lia. lia.
Qed.

Lemma be_val_bytes k n : be_val (be_bytes k n) = n mod 256 ^ Z.of_nat k.
Proof.
  induction k as [|k IH]; [simpl; by rewrite Z.mod_1_r|].
  cbn [be_bytes be_val]. rewrite IH, be_bytes_length, byte_char.
  rewrite Nat2Z.inj_succ, Z.pow_succ_r by lia.
  rewrite (Z.mul_comm 256), Z.rem_mul_r; [ring|..];
    pose proof (Z.pow_pos_nonneg 256 (Z.of_nat k)); lia.
Qed.

Lemma be8_inj a b : 0 <= a < 2 ^ 64 -> 0 <= b < 2 ^ 64 -> be_bytes 8 a = be_bytes 8 b -> a = b.
Proof.
  intros Ha Hb H. apply (f_equal be_val) in H. rewrite !be_val_bytes in H.
  change (256 ^ Z.of_nat 8) with (2 ^ 64) in H. by rewrite !Z.mod_small in H.
Qed.

Lemma string_app_inj_length s1 s2 t1 t2 :
  String.length s1 = String.length s2 -> (s1 +:+ t1 = s2 +:+ t2)%string -> s1 = s2 /\ t1 = t2.
Proof.
  revert s2; induction s1 as [|c s1 IH]; intros [|c' s2] Hl H; try done.
  change (String c (s1 +:+ t1) = String c' (s2 +:+ t2))%string in H.
  injection H as -> H. injection Hl as Hl. by destruct (IH s2 Hl H) as [-> ->].
Qed.

Lemma encode_field_inj f g r s : short f -> short g ->
  (encode_field f +:+ r = encode_field g +:+ s)%string -> f = g /\ r = s.
Proof.
  unfold encode_field, short. intros Hf Hg H. rewrite <- !string_app_assoc in H.
  apply string_app_inj_length in H as [Hl H]; [|by rewrite !be_bytes_length].
  rewrite !Z.mod_small in Hl by lia. apply be8_inj in Hl; [|lia..].
  apply string_app_inj_length in H as [-> ->]; [done|lia].
Qed.

Lemma encode_field_length f : String.length (encode_field f) = (8 + String.length f)%nat.
Proof. unfold encode_field. by rewrite string_length_app, be_bytes_length. Qed.

(** The encoding is injective on fields shorter than [2^64] bytes. *)
Lemma encode_fields_inj l1 l2 :
  Forall short l1 -> Forall short l2 -> encode_fields l1 = encode_fields l2 -> l1 = l2.
Proof.
  intros H1; revert l2; induction H1 as [|f l1 Hf _ IH]; intros [|g l2] H2 H; try done.
  apply Forall_cons in H2 as [Hg H2]. cbn in H.
  apply encode_field_inj in H as [-> H]; [|done..]. f_equal. by apply IH.
Qed.
