(* ===== verification/GoTime.v ===== *)
(** * Instants

    A [time.Time] is the number of nanoseconds since Go's zero time,
    0001-01-01T00:00:00 UTC, so the zero time is [0].  The text form used by
    the hash chain, [t.UTC().Format(time.RFC3339Nano)], is computed from the
    proleptic Gregorian calendar. *)
From stdpp Require Import base list strings.
From Stdlib Require Import ZArith Lia.
From S2P Require Import Prelude.
Open Scope Z_scope.

Definition second : Z := 1000000000.
Definition day : Z := 86400 * second.

Definition IsZero (t : Z) : bool := t =? 0.

(** [t.UTC().Truncate(24 * time.Hour)]. *)
Definition truncate_day (t : Z) : Z := t - t mod day.

(** Year, month and day of the [d]-th day after 0001-01-01. *)
Definition civil (d : Z) : Z * Z * Z :=
  let z := d + 306 in
  let era := z / 146097 in
  let doe := z mod 146097 in
  let yoe := (doe - doe / 1460 + doe / 36524 - doe / 146096) / 365 in
  let doy := doe - (365 * yoe + yoe / 4 - yoe / 100) in
  let mp := (5 * doy + 2) / 153 in
  let dd := doy - (153 * mp + 2) / 5 + 1 in
  let mm := if mp <? 10 then mp + 3 else mp - 9 in
  (yoe + era * 400 + (if mm <=? 2 then 1 else 0), mm, dd).

(** Decimal text padded with zeros to [k] digits. *)
Definition pad_digits (k : nat) (n : Z) : string :=
  let s := utoa n in
  (String.concat "" (replicate (k - String.length s) "0"%string) +:+ s)%string.

(** The fraction with trailing zeros removed: the digits of [n / 10^k]. *)
Fixpoint fraction (k : nat) (n : Z) : string :=
  match k with
  | O => EmptyString
  | S k' => if n mod 10 =? 0 then fraction k' (n / 10) else pad_digits k n
  end.

(** [t.UTC().Format(time.RFC3339Nano)]. *)
Definition FormatRFC3339Nano (t : Z) : string :=
  let '(y, m, d) := civil (t / day) in
  let s := (t mod day) / second in
  let ns := t mod second in
  let frac := fraction 9 ns in
  (pad_digits 4 y +:+ "-" +:+ pad_digits 2 m +:+ "-" +:+ pad_digits 2 d +:+ "T" +:+
   pad_digits 2 (s / 3600) +:+ ":" +:+ pad_digits 2 (s / 60 mod 60) +:+ ":" +:+
   pad_digits 2 (s mod 60) +:+
   (if String.eqb frac "" then "" else "." +:+ frac) +:+ "Z")%string.

Example format_zero_time : FormatRFC3339Nano 0 = "0001-01-01T00:00:00Z"%string.
Proof. vm_compute. reflexivity. Qed.
(** The Unix epoch is 719162 days after the zero time. *)
Example format_unix :
  FormatRFC3339Nano (719162 * day + 1709210096 * second + 120000000)
  = "2024-02-29T12:34:56.12Z"%string.
Proof. vm_compute. reflexivity. Qed.
