(* ===== verification/Lock.v ===== *)
(** * Distributed locks

    [internal/lock/lock.go]: locks in Redis with a time to live, released and
    extended only by the value that took them, and groups of locks taken in
    order with rollback.  Redis runs one command, or one script, at a time; its
    clock is the only one that matters for expiry.  A history interleaves the
    commands of any number of clients and the passing of time; what a client
    believes to hold is recorded beside the store. *)
From stdpp Require Import base option list strings gmap sorting.
From Stdlib Require Import ZArith Lia.
From S2P Require Import Prelude.
Close Scope Q_scope.
Open Scope Z_scope.

(** ** Redis *)

(** A key has a value and, unless set without one, a time to live; times are
    milliseconds. *)
Abbreviation redis := (gmap string (string * option Z)).
Definition alive (now : Z) (until : option Z) : bool :=
  match until with None => true | Some u => now <? u end.
Definition redis_get (r : redis) (now : Z) (key : string) : option string :=
  match r !! key with
  | Some (v, until) => if alive now until then Some v else None
  | None => None
  end.
Definition expiry (now timeout : Z) : option Z := if timeout =? 0 then None else Some (now + timeout).

(** [SET key value NX PX timeout]. *)
Definition SetNX (r : redis) (now : Z) (key value : string) (timeout : Z) : redis * bool :=
  match redis_get r now key with
  | Some _ => (r, false)
  | None => (<[key := (value, expiry now timeout)]> r, true)
  end.

(** ** Lockers *)

Record Locker := { lk_key : string; lk_value : string }.

Definition ErrLockHeld : string := "redlock.ErrLockHeld".
Definition ErrLockWaitTimeout : string := "redlock.ErrLockWaitTimeout".

(** [Locker.Lock]. *)
Definition Locker_Lock (r : redis) (now : Z) (l : Locker) (timeout : Z) : redis * result unit :=
  let '(r', success) := SetNX r now (lk_key l) (lk_value l) timeout in
  (r', if success then Ok tt
       else Err (GoError ("lock for key " +:+ lk_key l +:+ " is already held") [ErrLockHeld])).

(** [Locker.Unlock]: compare and delete. *)
Definition Locker_Unlock (r : redis) (now : Z) (l : Locker) : redis * result unit :=
  match redis_get r now (lk_key l) with
  | Some v =>
      if String.eqb v (lk_value l) then (delete (lk_key l) r, Ok tt)
      else (r, Err (errors_New ("unlock failed, either lock expired or you're not the lock holder for key " +:+ lk_key l)))
  | None => (r, Err (errors_New ("unlock failed, either lock expired or you're not the lock holder for key " +:+ lk_key l)))
  end.

(** [Locker.ExtendLock]: compare and [PEXPIRE], which deletes the key when the
    time is not positive. *)
Definition ExtendLock (r : redis) (now : Z) (l : Locker) (extension : Z) : redis * result unit :=
  let refused := Err (errors_New ("lock extension failed for key " +:+ lk_key l
                                  +:+ ", either lock expired or you're not the holder")) in
  match redis_get r now (lk_key l) with
  | Some v =>
      if String.eqb v (lk_value l)
      then (if extension <=? 0 then delete (lk_key l) r else <[lk_key l := (v, Some (now + extension))]> r, Ok tt)
      else (r, refused)
  | None => (r, refused)
  end.

(** ** Groups of locks *)

(** [NewMultiLocker]: the keys without blanks and duplicates, in order. *)
Fixpoint unique_keys (seen keys : list string) : list string :=
  match keys with
  | [] => []
  | key :: rest =>
      if String.eqb key "" || bool_decide (key ∈ seen) then unique_keys seen rest
      else key :: unique_keys (key :: seen) rest
  end.
Definition NewMultiLocker (keys : list string) (value : string) : list Locker :=
  (fun key => {| lk_key := key; lk_value := value |}) <$> merge_sort String.le (unique_keys [] keys).

(** [MultiLocker.Unlock] and [rollback]: in reverse order, on to the end; the
    last error is reported. *)
Fixpoint unlock_all (r : redis) (now : Z) (lockers : list Locker) (lastErr : result unit) : redis * result unit :=
  match lockers with
  | [] => (r, lastErr)
  | l :: rest =>
      let '(r', res) := Locker_Unlock r now l in
      unlock_all r' now rest (match res with Ok _ => lastErr | Err e => Err e end)
  end.
Definition MultiLocker_Unlock (r : redis) (now : Z) (lockers : list Locker) : redis * result unit :=
  unlock_all r now (reverse lockers) (Ok tt).

(** [MultiLocker.Lock]; [acquired] are the locks taken so far. *)
Fixpoint lock_from (r : redis) (now : Z) (timeout : Z) (acquired lockers : list Locker) : redis * result unit :=
  match lockers with
  | [] => (r, Ok tt)
  | l :: rest =>
      match Locker_Lock r now l timeout with
      | (r', Ok _) => lock_from r' now timeout (acquired ++ [l]) rest
      | (r', Err e) =>
          (fst (unlock_all r' now (reverse acquired) (Ok tt)),
           Err (wrap ("failed to acquire lock for key " +:+ lk_key l +:+ ": ") e))
      end
  end.
Definition MultiLocker_Lock (r : redis) (now : Z) (lockers : list Locker) (timeout : Z) : redis * result unit :=
  lock_from r now timeout [] lockers.

(** [MultiLocker.WaitLock] with a context that is not cancelled: each attempt
    happens at its own time, after what others did meanwhile. *)
Fixpoint WaitLock (deadline timeout : Z) (lockers : list Locker) (attempts : list (Z * (redis -> redis))) (r : redis)
    : redis * result unit :=
  match attempts with
  | [] => (r, Err (GoError "failed to acquire all locks within the wait timeout" [ErrLockWaitTimeout]))
  | (now, others) :: rest =>
      let r := others r in
      if deadline <=? now then (r, Err (GoError "failed to acquire all locks within the wait timeout" [ErrLockWaitTimeout]))
      else match MultiLocker_Lock r now lockers timeout with
           | (r', Ok _) => (r', Ok tt)
           | (r', Err e) => if errors_Is e ErrLockHeld then WaitLock deadline timeout lockers rest r' else (r', Err e)
           end
  end.

(** ** Histories *)

(** What a client believes to hold, and until when. *)
Record belief := { be_locker : Locker; be_until : option Z }.
#[export] Instance Locker_eq_dec : EqDecision Locker.
Proof. solve_decision. Defined.

Record world := { w_redis : redis; w_now : Z; w_beliefs : list belief }.
Definition others (l : Locker) (bs : list belief) : list belief := filter (fun b => be_locker b <> l) bs.

Inductive lock_step (w : world) : world -> Prop :=
| step_tick now' : w_now w <= now' -> lock_step w {| w with w_now := now' |}
| step_lock l timeout r' : 0 <= timeout ->
    Locker_Lock (w_redis w) (w_now w) l timeout = (r', Ok tt) ->
    lock_step w {| w_redis := r'; w_now := w_now w;
      w_beliefs := {| be_locker := l; be_until := expiry (w_now w) timeout |} :: others l (w_beliefs w) |}
(** The command ran, but its reply did not arrive, or was a refusal. *)
| step_lock_unanswered l timeout : 0 <= timeout ->
    lock_step w {| w with w_redis := fst (Locker_Lock (w_redis w) (w_now w) l timeout) |}
| step_unlock l :
    lock_step w {| w_redis := fst (Locker_Unlock (w_redis w) (w_now w) l); w_now := w_now w;
      w_beliefs := others l (w_beliefs w) |}
| step_extend l extension r' :
    ExtendLock (w_redis w) (w_now w) l extension = (r', Ok tt) ->
    lock_step w {| w_redis := r'; w_now := w_now w;
      w_beliefs := {| be_locker := l; be_until := Some (w_now w + extension) |} :: others l (w_beliefs w) |}.

Inductive lock_reachable : world -> Prop :=
| lock_start now : lock_reachable {| w_redis := ∅; w_now := now; w_beliefs := [] |}
| lock_next w w' : lock_reachable w -> lock_step w w' -> lock_reachable w'.

(** ** The invariant *)

(** The store knows every belief that has not expired, and there is one belief
    for each locker. *)
Definition backed (w : world) : Prop :=
  NoDup (be_locker <$> w_beliefs w) /\
  forall b, b ∈ w_beliefs w -> alive (w_now w) (be_until b) = true ->
    w_redis w !! lk_key (be_locker b) = Some (lk_value (be_locker b), be_until b).

Lemma others_spec l bs b : b ∈ others l bs <-> b ∈ bs /\ be_locker b <> l.
Proof. unfold others. rewrite list_elem_of_filter. tauto. Qed.
Lemma others_NoDup l bs : NoDup (be_locker <$> bs) -> NoDup (be_locker <$> others l bs) /\ l ∉ be_locker <$> others l bs.
Proof.
  intros H. split.
  - eapply sublist_NoDup; [exact H|]. unfold others. clear H. induction bs as [|b bs IH]; [done|].
    rewrite filter_cons. case_decide; cbn; by constructor.
  - rewrite list_elem_of_fmap. intros (b & -> & [_ Hb]%others_spec). done.
Qed.

Lemma alive_later now now' until : now <= now' -> alive now' until = true -> alive now until = true.
Proof. destruct until; cbn; [|done]. rewrite !Z.ltb_lt. lia. Qed.

(** A live belief is what a read of its key sees. *)
Lemma backed_get w b : backed w -> b ∈ w_beliefs w -> alive (w_now w) (be_until b) = true ->
  redis_get (w_redis w) (w_now w) (lk_key (be_locker b)) = Some (lk_value (be_locker b)).
Proof. intros [_ H] Hb Ha. unfold redis_get. by rewrite (H b Hb Ha), Ha. Qed.

Lemma Lock_inv r now l timeout r' res : Locker_Lock r now l timeout = (r', res) ->
  (res = Ok tt /\ redis_get r now (lk_key l) = None /\ r' = <[lk_key l := (lk_value l, expiry now timeout)]> r) \/
  (res = Err (GoError ("lock for key " +:+ lk_key l +:+ " is already held") [ErrLockHeld]) /\ r' = r /\ is_Some (redis_get r now (lk_key l))).
Proof.
  unfold Locker_Lock, SetNX. destruct (redis_get r now (lk_key l)) eqn:E; intros [= <- <-]; [right|left]; done.
Qed.

Lemma Unlock_inv r now l : let r' := fst (Locker_Unlock r now l) in
  r' = r /\ redis_get r now (lk_key l) <> Some (lk_value l) \/
  r' = delete (lk_key l) r /\ redis_get r now (lk_key l) = Some (lk_value l).
Proof.
  cbv zeta. unfold Locker_Unlock. destruct (redis_get r now (lk_key l)) as [v|]; [|by left].
  destruct (String.eqb v (lk_value l)) eqn:E; zbool; [right; by subst|left; cbn; split; [done|congruence]].
Qed.

(** The lockers with a live belief on the key of [l], when the key holds the
    value of [l], are [l]. *)
Lemma backed_holder w b l : backed w -> b ∈ w_beliefs w -> alive (w_now w) (be_until b) = true ->
  lk_key (be_locker b) = lk_key l -> redis_get (w_redis w) (w_now w) (lk_key l) = Some (lk_value l) -> be_locker b = l.
Proof.
  intros H Hb Ha E Hg. pose proof (backed_get w b H Hb Ha) as G. rewrite E, Hg in G. injection G as G.
  destruct (be_locker b), l; cbn in *; congruence.
Qed.

Lemma backed_step w w' : backed w -> lock_step w w' -> backed w'.
Proof.
  intros Hw [now' Hn|l timeout r' Ht HL|l timeout Ht|l|l extension r' HE]; destruct Hw as [Hnd H] eqn:Ew; clear Ew.
  - split; [done|]. intros b Hb Ha. cbn in *. apply H; [done|]. by eapply alive_later.
  - apply Lock_inv in HL as [(_ & Hg & ->)|[? _]]; [|done]. destruct (others_NoDup l _ Hnd) as [N1 N2].
    split; [by constructor|]. cbn. intros b [->|[Hb Hne]%others_spec]%elem_of_cons Ha; cbn; [by rewrite lookup_insert_eq|].
    rewrite lookup_insert_ne; [by apply H|]. intros E. pose proof (backed_get w b (conj Hnd H) Hb Ha) as G. congruence.
  - destruct (Locker_Lock (w_redis w) (w_now w) l timeout) as [r' res] eqn:HL. cbn.
    apply Lock_inv in HL as [(_ & Hg & ->)|(_ & -> & _)]; [|by destruct w]. split; [done|]. cbn. intros b Hb Ha.
    rewrite lookup_insert_ne; [by apply H|]. intros E. pose proof (backed_get w b (conj Hnd H) Hb Ha) as G. congruence.
  - destruct (others_NoDup l _ Hnd) as [N1 N2]. split; [done|]. cbn. intros b [Hb Hne]%others_spec Ha.
    destruct (Unlock_inv (w_redis w) (w_now w) l) as [[-> _]|[-> Hg]]; [by apply H|].
    rewrite lookup_delete_ne; [by apply H|]. intros E. apply Hne. by eapply (backed_holder w b l).
  - destruct (others_NoDup l _ Hnd) as [N1 N2]. unfold ExtendLock in HE. cbv zeta in HE.
    destruct (redis_get (w_redis w) (w_now w) (lk_key l)) as [v|] eqn:Hg; [|done].
    destruct (String.eqb v (lk_value l)) eqn:Ev; [|done]. zbool. subst v.
    split; [by constructor|]. cbn. intros b [->|[Hb Hne]%others_spec]%elem_of_cons Ha; cbn in *.
    + injection HE as <-. rewrite Z.ltb_lt in Ha. destruct (Z.leb_spec extension 0); [lia|]. by rewrite lookup_insert_eq.
    + assert (lk_key l <> lk_key (be_locker b)) as Hk by (intros E; apply Hne; by eapply (backed_holder w b l)).
      injection HE as <-. destruct (extension <=? 0); [rewrite lookup_delete_ne|rewrite lookup_insert_ne]; auto.
Qed.

(** C31: a lock has one holder.  In every history of lock, unlock and extend
    commands of any clients, interleaved in any order with each other and with
    the passing of time, replies lost or not: two clients that both believe to
    hold a key, and whose time has not run out, are the same locker with the
    same belief; and the key in Redis carries its value, so that only it can
    release or extend it. *)
Theorem locks_are_exclusive (w : world) (b1 b2 : belief) :
  lock_reachable w -> b1 ∈ w_beliefs w -> b2 ∈ w_beliefs w ->
  lk_key (be_locker b1) = lk_key (be_locker b2) ->
  alive (w_now w) (be_until b1) = true -> alive (w_now w) (be_until b2) = true ->
  b1 = b2 /\ redis_get (w_redis w) (w_now w) (lk_key (be_locker b1)) = Some (lk_value (be_locker b1)).
Proof.
  intros Hr H1 H2 Ek A1 A2.
  assert (backed w) as Hb.
  { clear -Hr. induction Hr; [split; [constructor|by intros b Hb%not_elem_of_nil]|by eapply backed_step]. }
  split; [|by apply backed_get]. pose proof (proj2 Hb b1 H1 A1) as E1. pose proof (proj2 Hb b2 H2 A2) as E2.
  rewrite Ek, E2 in E1. injection E1 as Ev Eu.
  destruct b1 as [[k1 v1] u1], b2 as [[k2 v2] u2]. cbn in *. congruence.
Qed.

(** ** Groups are taken whole *)

Section Group.
Variables (r0 : redis) (now timeout : Z) (value : string).
Hypothesis timeout_ok : 0 <= timeout.

Lemma expiry_alive : alive now (expiry now timeout) = true.
Proof. unfold expiry. destruct (Z.eqb_spec timeout 0); cbn; [done|]. apply Z.ltb_lt. lia. Qed.

(** [r] is [r0] with the locks [acq] taken. *)
Definition taken (acq : list Locker) (r : redis) : Prop :=
  forall k, if decide (k ∈ lk_key <$> acq) then redis_get r0 now k = None /\ r !! k = Some (value, expiry now timeout)
            else r !! k = r0 !! k.

Lemma taken_get acq r k : taken acq r -> k ∉ lk_key <$> acq -> redis_get r now k = redis_get r0 now k.
Proof. intros H Hk. specialize (H k). rewrite decide_False in H by done. unfold redis_get. by rewrite H. Qed.

(** Releasing some of the locks taken leaves the others. *)
Lemma unlock_taken ls : forall r err, Forall (fun l => lk_value l = value) ls -> NoDup (lk_key <$> ls) ->
  (forall k, k ∈ lk_key <$> ls -> r !! k = Some (value, expiry now timeout)) ->
  let r' := fst (unlock_all r now ls err) in
  (forall k, k ∈ lk_key <$> ls -> r' !! k = None) /\ (forall k, k ∉ lk_key <$> ls -> r' !! k = r !! k).
Proof.
  induction ls as [|l ls IH]; intros r err Hv Hnd Hr; [by split; [intros k Hk'%not_elem_of_nil|]|].
  inversion_clear Hv as [|? ? Hv1 Hv2]. rewrite fmap_cons in Hnd. inversion_clear Hnd as [|? ? Hx Hnd'].
  assert (redis_get r now (lk_key l) = Some (lk_value l)) as Hg.
  { unfold redis_get. rewrite (Hr (lk_key l)) by (rewrite fmap_cons; by left). by rewrite expiry_alive, Hv1. }
  cbn [unlock_all]. unfold Locker_Unlock. rewrite Hg, String.eqb_refl.
  destruct (IH (delete (lk_key l) r) err Hv2 Hnd') as [H1 H2].
  { intros k Hin. rewrite lookup_delete_ne by (intros <-; done). apply Hr. rewrite fmap_cons. by right. }
  split; intros k; rewrite fmap_cons.
  - intros [->|Hin]%elem_of_cons; [rewrite H2 by done; apply lookup_delete_eq|by apply H1].
  - intros [Hne Hin]%not_elem_of_cons. rewrite H2 by done. by rewrite lookup_delete_ne by done.
Qed.

Lemma taken_more acq l r : taken acq r -> redis_get r0 now (lk_key l) = None ->
  taken (acq ++ [l]) (<[lk_key l:=(value, expiry now timeout)]> r).
Proof.
  intros Ht Hg k. specialize (Ht k). rewrite fmap_app. destruct (decide (k = lk_key l)) as [->|Hne].
  - rewrite decide_True by (apply elem_of_app; right; by left). by rewrite lookup_insert_eq.
  - rewrite lookup_insert_ne by done. destruct (decide (k ∈ lk_key <$> acq)) as [Hin|Hin].
    + by rewrite decide_True by (apply elem_of_app; by left).
    + rewrite decide_False; [done|]. rewrite elem_of_app. intros [H|H]; [done|].
      apply list_elem_of_singleton in H. done.
Qed.

Lemma lock_from_spec ls : forall acq r, Forall (fun l => lk_value l = value) (acq ++ ls) ->
  NoDup (lk_key <$> (acq ++ ls)) -> taken acq r ->
  match lock_from r now timeout acq ls with
  | (r', Ok _) => taken (acq ++ ls) r'
  | (r', Err e) => errors_Is e ErrLockHeld = true /\ (exists l, l ∈ ls /\ is_Some (redis_get r0 now (lk_key l))) /\
                   forall k, redis_get r' now k = redis_get r0 now k
  end.
Proof.
  induction ls as [|l ls IH]; intros acq r Hv Hnd Ht; cbn [lock_from]; [by rewrite app_nil_r|].
  assert (lk_key l ∉ lk_key <$> acq) as Hl.
  { rewrite fmap_app, fmap_cons in Hnd. apply NoDup_app in Hnd as (_ & H & _). intros Hin. apply (H _ Hin). by left. }
  destruct (Locker_Lock r now l timeout) as [r' res] eqn:HL. apply Lock_inv in HL as [(-> & Hg & ->)|(-> & -> & Hg)].
  - assert (lk_value l = value) as Hvl by (rewrite Forall_app, Forall_cons in Hv; tauto). rewrite Hvl.
    rewrite (taken_get acq) in Hg by done.
    specialize (IH (acq ++ [l]) (<[lk_key l:=(value, expiry now timeout)]> r)). rewrite <- app_assoc in IH.
    specialize (IH Hv Hnd (taken_more acq l r Ht Hg)).
    destruct (lock_from _ now timeout (acq ++ [l]) ls) as [r' [u|e]]; [done|].
    destruct IH as (H1 & (l' & Hl' & Hg') & H3). split_and!; [done| |done]. exists l'. split; [by right|done].
  - split; [done|]. split.
    + exists l. split; [by left|]. by rewrite (taken_get acq) in Hg.
    + intros k. rewrite Forall_app in Hv. rewrite fmap_app in Hnd. apply NoDup_app in Hnd as (Hnd & _).
      destruct (unlock_taken (reverse acq) r (Ok tt)) as [H1 H2].
      * apply Forall_reverse, Hv.
      * by rewrite (reverse_Permutation acq).
      * intros k'. rewrite fmap_reverse, elem_of_reverse. intros Hin. specialize (Ht k'). rewrite decide_True in Ht by done. apply Ht.
      * specialize (Ht k). rewrite fmap_reverse in H1, H2. destruct (decide (k ∈ lk_key <$> acq)) as [Hin|Hin].
        -- unfold redis_get at 1. rewrite H1 by (by apply elem_of_reverse). by destruct Ht as [-> _].
        -- unfold redis_get. rewrite H2 by (by rewrite elem_of_reverse). by rewrite Ht.
Qed.
End Group.

Lemma unique_keys_spec keys : forall seen, NoDup (unique_keys seen keys) /\
  forall k, k ∈ unique_keys seen keys <-> k ∈ keys /\ k <> ""%string /\ k ∉ seen.
Proof.
  induction keys as [|key keys IH]; intros seen; cbn [unique_keys].
  { split; [constructor|]. intros k. split; [by intros ?%not_elem_of_nil|by intros [?%not_elem_of_nil _]]. }
  destruct (String.eqb key "" || bool_decide (key ∈ seen)) eqn:E.
  - destruct (IH seen) as [H1 H2]. split; [done|]. intros k. rewrite H2, elem_of_cons.
    apply orb_true_iff in E as [E|E]; [apply String.eqb_eq in E|apply bool_decide_eq_true in E]; naive_solver.
  - apply orb_false_iff in E as [E1 E2]. apply String.eqb_neq in E1. apply bool_decide_eq_false in E2.
    destruct (IH (key :: seen)) as [H1 H2]. split.
    + constructor; [|done]. rewrite H2, elem_of_cons. naive_solver.
    + intros k. rewrite !elem_of_cons, H2, elem_of_cons. destruct (decide (k = key)); naive_solver.
Qed.

(** A group of locks is taken whole or not at all.  The locks are those of
    the keys given, without blanks, each once, in lexicographic order.  When
    the group is acquired, every key was free and now carries the group's
    value; otherwise some key was held, the error says so, and what anyone
    reads of any key is as before. *)
Theorem MultiLocker_all_or_nothing (r : redis) (now timeout : Z) (keys : list string) (value : string) :
  0 <= timeout ->
  let lockers := NewMultiLocker keys value in
  let names := lk_key <$> lockers in
  (NoDup names /\ Sorted String.le names /\ forall k, k ∈ names <-> k ∈ keys /\ k <> ""%string) /\
  match MultiLocker_Lock r now lockers timeout with
  | (r', Ok _) =>
      forall k, if decide (k ∈ names) then redis_get r now k = None /\ redis_get r' now k = Some value
                else redis_get r' now k = redis_get r now k
  | (r', Err e) =>
      errors_Is e ErrLockHeld = true /\ (exists k, k ∈ names /\ is_Some (redis_get r now k)) /\
      forall k, redis_get r' now k = redis_get r now k
  end.
Proof.
  intros Ht lockers names. destruct (unique_keys_spec keys []) as [Hnd Hin].
  assert (names = merge_sort String.le (unique_keys [] keys)) as En.
  { unfold names, lockers, NewMultiLocker. rewrite <- list_fmap_compose. cbn. apply list_fmap_id. }
  assert (names ≡ₚ unique_keys [] keys) as Hp by (rewrite En; apply merge_sort_Permutation).
  assert (NoDup names) as Hnames by (by rewrite Hp).
  split; [split; [done|split; [rewrite En; apply (Sorted_merge_sort String.le)|]]|].
  { intros k. rewrite Hp, Hin. split; [naive_solver|]. intros [? ?]. split_and!; [done|done|apply not_elem_of_nil]. }
  assert (Forall (fun l => lk_value l = value) lockers) as Hv.
  { unfold lockers, NewMultiLocker. apply Forall_fmap, Forall_true. done. }
  pose proof (lock_from_spec r now timeout value Ht lockers [] r Hv Hnames) as H. unfold MultiLocker_Lock.
  destruct (lock_from r now timeout [] lockers) as [r' [u|e]].
  - cbn [app] in H. intros k. specialize (H ltac:(intros k'; by rewrite decide_False by apply not_elem_of_nil) k).
    destruct (decide (k ∈ lk_key <$> lockers)) as [Hk|Hk].
    + destruct H as [H1 H2]. rewrite decide_True by done. split; [done|]. unfold redis_get. by rewrite H2, expiry_alive.
    + rewrite decide_False by done. unfold redis_get. by rewrite H.
  - destruct H as (H1 & (l & Hl & Hg) & H3); [intros k'; by rewrite decide_False by apply not_elem_of_nil|].
    split_and!; [done| |done]. exists (lk_key l). split; [by apply list_elem_of_fmap_2|done].
Qed.

(** ** Two transfers *)
Module LockWitness.
Definition first_lock : Locker := {| lk_key := "bln_a"; lk_value := "loc_1" |}.
Definition second_lock : Locker := {| lk_key := "bln_a"; lk_value := "loc_2" |}.

(** The first lock runs out at 100 without being released; the second client
    then takes the key. *)
Definition final : world :=
  {| w_redis := {["bln_a"%string := ("loc_2"%string, Some 250)]}; w_now := 150;
     w_beliefs := [ {| be_locker := second_lock; be_until := Some 250 |}; {| be_locker := first_lock; be_until := Some 100 |} ] |}.
Lemma takeover_reachable : lock_reachable final.
Proof.
  pose proof (lock_start 0) as H0.
  eapply lock_next in H0; [|apply (step_lock _ first_lock 100); [lia|vm_compute; reflexivity]].
  eapply lock_next in H0; [|apply (step_lock_unanswered _ second_lock 100); lia].
  eapply lock_next in H0; [|apply (step_tick _ 150); cbn; lia].
  eapply lock_next in H0; [|apply (step_lock _ second_lock 100); [lia|vm_compute; reflexivity]]. exact H0.
Qed.

Lemma locks_are_exclusive_witness :
  alive 150 (Some 100) = false /\ redis_get (w_redis final) 150 "bln_a" = Some "loc_2"%string.
Proof.
  split; [reflexivity|].
  assert ({| be_locker := second_lock; be_until := Some 250 |} ∈ w_beliefs final) as Hb by left.
  exact (proj2 (locks_are_exclusive final _ _ takeover_reachable Hb Hb eq_refl eq_refl eq_refl)).
Defined.

(** The second of two keys is held, so the first is given back. *)
Definition busy : redis := {["bln_b"%string := ("loc_9"%string, Some 500)]}.
Lemma MultiLocker_all_or_nothing_witness :
  lk_key <$> NewMultiLocker ["bln_b"; "bln_a"; "bln_b"] "loc_1" = ["bln_a"; "bln_b"]%string /\
  is_ok (snd (MultiLocker_Lock busy 10 (NewMultiLocker ["bln_b"; "bln_a"]%string "loc_1") 100)) = false /\
  redis_get (fst (MultiLocker_Lock busy 10 (NewMultiLocker ["bln_b"; "bln_a"]%string "loc_1") 100)) 10 "bln_a" = None.
Proof.
  split; [vm_compute; reflexivity|]. split; [vm_compute; reflexivity|].
  assert (0 <= 100) as Ht by lia.
  destruct (MultiLocker_all_or_nothing busy 10 100 ["bln_b"; "bln_a"]%string "loc_1" Ht) as [_ H]. cbv zeta in H.
  assert (exists r' e, MultiLocker_Lock busy 10 (NewMultiLocker ["bln_b"; "bln_a"]%string "loc_1") 100 = (r', Err e))
    as (r' & e & E) by (eexists _, _; vm_compute; reflexivity).
  rewrite E in H |- *. destruct H as (_ & _ & H). cbn [fst]. rewrite H. vm_compute. reflexivity.
Defined.
End LockWitness.
