(* ===== verification/Chain.v ===== *)
(** * The transaction hash chain

    [model/chain.go] and [database/chain.go]: the canonical encodings of a
    sealed transaction, the chainer [ChainPendingTransactions], which links
    unchained rows onto the head in one database transaction, and the
    verifier [VerifyChainSnapshotWithAnchors].  [chain_db] holds the columns of
    [transactions], [chain_state] and [chain_checkpoints] these functions
    read and write, the transactions in the order of their [id]. *)
From stdpp Require Import base option list strings gmap sorting.
From Stdlib Require Import ZArith Lia.
From S2P Require Import Prelude GoTime Sha256.
Open Scope Z_scope.

(** ** Rows and encodings *)

Record ChainRow := {
  cr_HistoricalRate : string;
  cr_OverdraftLimit : string;
  cr_QueueAction : string;
  cr_ExecutionControls : string;
  cr_ScheduledFor : option Z;
  cr_ID : string;
  cr_Precision : string;
  cr_Rate : string;
  cr_ParentTransaction : string;
  cr_EffectiveDate : option Z;
  cr_TransactionID : string;
  cr_Source : string;
  cr_Destination : string;
  cr_Amount : string;
  cr_PreciseAmount : string;
  cr_Currency : string;
  cr_Status : string;
  cr_Reference : string;
  cr_CreatedAt : Z }.

Definition ChainGenesisHash : string :=
  "0000000000000000000000000000000000000000000000000000000000000000".

(** The fields [ComputeChainHash] joins with a bar (version 1). *)
Definition fields_v1 (prevHash : string) (r : ChainRow) : list string :=
  [prevHash; cr_TransactionID r; cr_Source r; cr_Destination r; cr_Amount r;
   cr_PreciseAmount r; cr_Currency r; cr_Status r; cr_Reference r;
   FormatRFC3339Nano (cr_CreatedAt r)].

Definition ComputeChainHash (prevHash : string) (r : ChainRow) : string :=
  sha_hex (String.concat "|" (fields_v1 prevHash r)).

Definition option_time (t : option Z) : string :=
  match t with Some t => FormatRFC3339Nano t | None => "" end.

(** The fields of [CanonicalChainV2], in order. *)
Definition fields_v2 (prevHash : string) (r : ChainRow) : list string :=
  ["ledgerforge.transaction-chain"; "2"; prevHash;
   cr_ID r; cr_TransactionID r; cr_Source r; cr_Destination r; cr_Amount r;
   cr_PreciseAmount r; cr_Precision r; cr_Rate r; cr_Currency r; cr_Status r;
   cr_Reference r; cr_ParentTransaction r; option_time (cr_EffectiveDate r);
   FormatRFC3339Nano (cr_CreatedAt r)]%string.
Definition CanonicalChainV2 (prevHash : string) (r : ChainRow) : string :=
  encode_fields (fields_v2 prevHash r).

(** The fields of [CanonicalChainV3]. *)
Definition fields_v3 (prevHash : string) (r : ChainRow) : list string :=
  ["ledgerforge.transaction-chain"; "3"; CanonicalChainV2 prevHash r;
   cr_OverdraftLimit r; cr_QueueAction r; cr_ExecutionControls r;
   option_time (cr_ScheduledFor r); cr_HistoricalRate r]%string.
Definition CanonicalChainV3 (prevHash : string) (r : ChainRow) : string :=
  encode_fields (fields_v3 prevHash r).

(** The bytes that are hashed at a canonical version. *)
Definition canonical (version : Z) (prevHash : string) (r : ChainRow) : result string :=
  if version =? 1 then Ok (String.concat "|" (fields_v1 prevHash r))
  else if version =? 2 then Ok (CanonicalChainV2 prevHash r)
  else if version =? 3 then Ok (CanonicalChainV3 prevHash r)
  else Err (errors_New ("unsupported chain canonical version " +:+ itoa version)).

Definition ComputeChainHashVersion (version : Z) (prevHash : string) (r : ChainRow)
    : result string :=
  let* bytes := canonical version prevHash r in Ok (sha_hex bytes).

(** ** The stored chain *)

(** A row of [transactions] with its chain columns. *)
Record chained_row := {
  tx_row : ChainRow;
  tx_seq : option Z;
  tx_prev : string;
  tx_hash : string;
  tx_version : Z }.

Record ChainCheckpoint := {
  cp_Sequence : Z; cp_Count : Z; cp_HeadHash : string }.

Record chain_db := {
  cd_rows : list chained_row;
  cd_last_seq : Z;
  cd_head : string;
  cd_genesis : string;
  cd_checkpoints : list ChainCheckpoint }.

(** One link of a batch. *)
Record link := { l_id : string; l_seq : Z; l_prev : string; l_hash : string }.

(** The loop that links rows onto the head; version 3 is supported, so
    [ComputeChainHashVersion] returns its hash. *)
Fixpoint link_rows (lastSeq : Z) (head : string) (rows : list ChainRow)
    : list link * Z * string :=
  match rows with
  | [] => ([], lastSeq, head)
  | r :: rest =>
      let h := sha_hex (CanonicalChainV3 head r) in
      let '(links, seq', head') := link_rows (lastSeq + 1) h rest in
      ({| l_id := cr_ID r; l_seq := lastSeq + 1; l_prev := head; l_hash := h |} :: links,
       seq', head')
  end.

(** [WHERE chain_seq IS NULL AND created_at < cutoff ORDER BY id LIMIT n]. *)
Definition unchained (cutoff : Z) (rows : list chained_row) : list chained_row :=
  filter (fun x => tx_seq x = None /\ cr_CreatedAt (tx_row x) < cutoff) rows.

(** [UPDATE ... SET chain_* WHERE id = l_id AND chain_seq IS NULL]. *)
Definition write_link (l : link) (x : chained_row) : chained_row :=
  match tx_seq x with
  | Some _ => x
  | None =>
      if String.eqb (cr_ID (tx_row x)) (l_id l)
      then {| tx_row := tx_row x; tx_seq := Some (l_seq l); tx_prev := l_prev l;
              tx_hash := l_hash l; tx_version := 3 |}
      else x
  end.

(** The checkpoint written with a link, if any. *)
Definition link_checkpoint (lastSeq : Z) (l : link) : list ChainCheckpoint :=
  if (l_seq l mod 1000 =? 0) || (l_seq l =? lastSeq)
  then [{| cp_Sequence := l_seq l; cp_Count := l_seq l; cp_HeadHash := l_hash l |}]
  else [].

(** [ChainPendingTransactions]: the state after the commit and the number of
    rows sealed. *)
Definition ChainPendingTransactions (cutoff batchSize : Z) (db : chain_db)
    : result (chain_db * Z) :=
  if batchSize <=? 0 then Err (errors_New "chain batch size must be positive")
  else
    let selected := tx_row <$> take (Z.to_nat batchSize) (unchained cutoff (cd_rows db)) in
    let '(batch, lastSeq, head) := link_rows (cd_last_seq db) (cd_head db) selected in
    if (length batch =? 0)%nat then Ok (db, 0)
    else
      Ok ({| cd_rows := foldl (fun rows l => write_link l <$> rows) (cd_rows db) batch;
             cd_last_seq := lastSeq; cd_head := head; cd_genesis := cd_genesis db;
             cd_checkpoints := cd_checkpoints db ++ mjoin (link_checkpoint lastSeq <$> batch) |},
          Z.of_nat (length batch)).

(** ** Verification *)

Record ChainIssue := { ci_Sequence : Z; ci_TransactionID : string; ci_Reason : string }.

Record ChainVerifyResult := {
  vr_Verified : bool;
  vr_LastSeq : Z;
  vr_HeadHash : string;
  vr_BrokenSeq : Z;
  vr_BrokenTxnID : string;
  vr_Reason : string;
  vr_Pending : Z;
  vr_Tampering : list ChainIssue }.

Definition issue (seq : Z) (id reason : string) : ChainIssue :=
  {| ci_Sequence := seq; ci_TransactionID := id; ci_Reason := reason |}.

(** The external anchors against the stored checkpoints. *)
Definition check_anchor (roots : gmap Z string) (a : ChainCheckpoint) : list ChainIssue :=
  if (cp_Sequence a <=? 0) || negb (cp_Count a =? cp_Sequence a)
  then [issue (cp_Sequence a) "" "invalid external checkpoint count or sequence"]
  else if bool_decide (roots !! cp_Sequence a = Some (cp_HeadHash a)) then []
  else [issue (cp_Sequence a) "" "external checkpoint root does not match stored checkpoint"].

(** State of the replay: entries seen, running head, last sequence, roots not
    yet met, issues. *)
Record replay := {
  rp_count : Z; rp_head : string; rp_last : Z; rp_roots : gmap Z string;
  rp_issues : list ChainIssue }.

(** One entry [ct] read in chain order (its [chain_seq] is [seq]). *)
Definition replay_step (st : replay) (e : Z * chained_row) : replay :=
  let '(seq, ct) := e in
  let id := cr_TransactionID (tx_row ct) in
  let count := rp_count st + 1 in
  let i1 := if seq =? count then []
            else [issue seq id ("non-contiguous chain_seq: expected " +:+ itoa count
                                +:+ ", got " +:+ itoa seq)] in
  let i2 := if String.eqb (tx_prev ct) (rp_head st) then []
            else [issue seq id "chain_prev_hash does not match running head"] in
  let i3 := match ComputeChainHashVersion (tx_version ct) (tx_prev ct) (tx_row ct) with
            | Err e => [issue seq id (err_msg e)]
            | Ok hash => if String.eqb hash (tx_hash ct) then []
                         else [issue seq id "live financial data does not match stored chain_hash"]
            end in
  let i4 := match rp_roots st !! seq with
            | Some root => if String.eqb root (tx_hash ct) then []
                           else [issue seq id "checkpoint root does not match chain"]
            | None => []
            end in
  {| rp_count := count; rp_head := tx_hash ct; rp_last := seq;
     rp_roots := delete seq (rp_roots st);
     rp_issues := rp_issues st ++ i1 ++ i2 ++ i3 ++ i4 |}.

(** [WHERE chain_seq IS NOT NULL ORDER BY chain_seq]. *)
Definition seq_le (a b : Z * chained_row) : Prop := a.1 <= b.1.
#[export] Instance seq_le_dec : RelDecision seq_le.
Proof. intros a b. apply Z_le_dec. Defined.
Definition chained (rows : list chained_row) : list (Z * chained_row) :=
  merge_sort seq_le (omap (fun x => s ← tx_seq x; Some (s, x)) rows).

Definition check_checkpoint (missing : gmap Z string) (cp : ChainCheckpoint) : list ChainIssue :=
  (match missing !! cp_Sequence cp with
   | Some _ => [issue (cp_Sequence cp) "" "checkpoint refers to a missing chain entry"]
   | None => []
   end) ++
  (if cp_Count cp =? cp_Sequence cp then []
   else [issue (cp_Sequence cp) "" "checkpoint count does not match sequence"]).

Definition roots_of (cps : list ChainCheckpoint) : gmap Z string :=
  foldl (fun m cp => <[cp_Sequence cp := cp_HeadHash cp]> m) ∅ cps.

Definition replay_init (db : chain_db) : replay :=
  {| rp_count := 0; rp_head := cd_genesis db; rp_last := 0;
     rp_roots := roots_of (cd_checkpoints db); rp_issues := [] |}.

(** [VerifyChainSnapshotWithAnchors]; [journal] is the answer of the query
    that compares the INSERT journal with the live rows. *)
Definition VerifyChainSnapshotWithAnchors (journal : list (string * string))
    (anchors : list ChainCheckpoint) (db : chain_db) : ChainVerifyResult :=
  let st := foldl replay_step (replay_init db) (chained (cd_rows db)) in
  let issues :=
    mjoin (check_anchor (roots_of (cd_checkpoints db)) <$> anchors) ++
    (if String.eqb (cd_genesis db) ChainGenesisHash then []
     else [issue 0 "" "unexpected genesis hash"]) ++
    rp_issues st ++
    (if (rp_count st =? cd_last_seq db) && (rp_last st =? cd_last_seq db)
        && String.eqb (rp_head st) (cd_head db) then []
     else [issue (cd_last_seq db) "" "replayed length or head does not match chain_state"]) ++
    mjoin (check_checkpoint (rp_roots st) <$> cd_checkpoints db) ++
    ((fun j => issue 0 j.1 j.2) <$> journal) in
  {| vr_Verified := (length issues =? 0)%nat; vr_LastSeq := rp_last st;
     vr_HeadHash := rp_head st;
     vr_BrokenSeq := match issues with i :: _ => ci_Sequence i | [] => 0 end;
     vr_BrokenTxnID := match issues with i :: _ => ci_TransactionID i | [] => "" end;
     vr_Reason := match issues with i :: _ => ci_Reason i | [] => "" end;
     vr_Pending := Z.of_nat (length (filter (fun x => tx_seq x = None) (cd_rows db)));
     vr_Tampering := issues |}.

(** ** What a verified chain is *)

Definition entry_hash (e : Z * chained_row) : result string :=
  ComputeChainHashVersion (tx_version e.2) (tx_prev e.2) (tx_row e.2).

(** Entries numbered from [count + 1], each linked to the one before. *)
Fixpoint linked (count : Z) (head : string) (es : list (Z * chained_row)) : Prop :=
  match es with
  | [] => True
  | e :: r => e.1 = count + 1 /\ tx_prev e.2 = head /\ entry_hash e = Ok (tx_hash e.2) /\
              linked (count + 1) (tx_hash e.2) r
  end.

(** The hash of the last entry. *)
Definition last_hash (head : string) (es : list (Z * chained_row)) : string :=
  match last es with Some e => tx_hash e.2 | None => head end.

Definition roots_match (roots : gmap Z string) (es : list (Z * chained_row)) : Prop :=
  forall e root, e ∈ es -> roots !! e.1 = Some root -> root = tx_hash e.2.

Lemma last_hash_cons head e es : last_hash head (e :: es) = last_hash (tx_hash e.2) es.
Proof.
  unfold last_hash. destruct es as [|e' es]; [done|]. rewrite last_cons_cons.
  destruct (last (e' :: es)) eqn:E; [done|]. by apply last_None in E.
Qed.

Lemma linked_app count head es1 es2 :
  linked count head (es1 ++ es2) <->
  linked count head es1 /\ linked (count + Z.of_nat (length es1)) (last_hash head es1) es2.
Proof.
  revert count head; induction es1 as [|e es1 IH]; intros count head.
  - simpl. rewrite Z.add_0_r. tauto.
  - cbn [app linked length]. rewrite IH, last_hash_cons, Nat2Z.inj_succ.
    replace (count + 1 + Z.of_nat (length es1)) with (count + Z.succ (Z.of_nat (length es1))) by lia.
    tauto.
Qed.

Lemma linked_seqs count head es i e :
  linked count head es -> es !! i = Some e -> e.1 = count + 1 + Z.of_nat i.
Proof.
  revert count head i; induction es as [|e' es IH]; intros count head i H Hi; [done|].
  destruct H as (H1 & _ & _ & H). destruct i as [|i]; simpl in Hi; simplify_eq; [lia|].
  rewrite (IH _ _ _ H Hi). lia.
Qed.

Lemma linked_elem_bounds count head es e :
  linked count head es -> e ∈ es -> count < e.1 <= count + Z.of_nat (length es).
Proof.
  intros H [i Hi]%list_elem_of_lookup. pose proof (lookup_lt_Some _ _ _ Hi).
  rewrite (linked_seqs _ _ _ _ _ H Hi). lia.
Qed.

Lemma linked_sorted count head es : linked count head es -> StronglySorted seq_le es.
Proof.
  revert count head; induction es as [|e es IH]; intros count head H; [constructor|].
  destruct H as (H1 & _ & _ & H). constructor; [eauto|].
  apply Forall_forall. intros e' He'. unfold seq_le.
  pose proof (linked_elem_bounds _ _ _ _ H He'). lia.
Qed.

Lemma linked_seq_inj count head es e1 e2 :
  linked count head es -> e1 ∈ es -> e2 ∈ es -> e1.1 = e2.1 -> e1 = e2.
Proof.
  intros H [i Hi]%list_elem_of_lookup [j Hj]%list_elem_of_lookup Heq.
  rewrite (linked_seqs _ _ _ _ _ H Hi), (linked_seqs _ _ _ _ _ H Hj) in Heq.
  assert (i = j) as -> by lia. congruence.
Qed.

Lemma replay_state es st :
  let st' := foldl replay_step st es in
  rp_count st' = rp_count st + Z.of_nat (length es) /\
  rp_head st' = last_hash (rp_head st) es /\
  rp_last st' = match last es with Some e => e.1 | None => rp_last st end /\
  (forall s, rp_roots st' !! s = if bool_decide (s ∈ es.*1) then None else rp_roots st !! s).
Proof.
  revert st; induction es as [|[s ct] es IH]; intros st; cbn [foldl].
  { split; [simpl; lia|]. done. }
  destruct (IH (replay_step st (s, ct))) as (H1 & H2 & H3 & H4). cbv zeta.
  split; [rewrite H1; cbn [replay_step rp_count length]; lia|].
  split; [rewrite H2, last_hash_cons; done|].
  split; [rewrite H3; destruct es; [done|]; rewrite last_cons_cons; by destruct (last _) eqn:E; [|apply last_None in E]|].
  intros k. rewrite H4. cbn [replay_step rp_roots fmap list_fmap fst].
  destruct (decide (k = s)) as [->|Hk].
  - rewrite lookup_delete_eq, (bool_decide_true (s ∈ s :: _)) by left. by case_bool_decide.
  - rewrite lookup_delete_ne by done. 
    rewrite (bool_decide_ext (k ∈ s :: es.*1) (k ∈ es.*1)); [done|].
    rewrite elem_of_cons. naive_solver.
Qed.

Lemma replay_issues_mono es st :
  rp_issues (foldl replay_step st es) = [] -> rp_issues st = [].
Proof.
  revert st; induction es as [|[s ct] es IH]; intros st H; [done|]. cbn [foldl] in H.
  apply IH in H. cbn [replay_step rp_issues] in H. by apply app_nil in H as [? _].
Qed.

(** The replay reports no issue exactly on linked entries that match the
    checkpoints. *)
Lemma replay_clean es st :
  rp_issues (foldl replay_step st es) = [] <->
  rp_issues st = [] /\ linked (rp_count st) (rp_head st) es /\ roots_match (rp_roots st) es.
Proof.
  revert st; induction es as [|[s ct] es IH]; intros st; cbn [foldl].
  { unfold roots_match. split; [intros ->; repeat split; intros e ? He; by apply not_elem_of_nil in He|tauto]. }
  rewrite IH. cbn [replay_step rp_issues rp_count rp_head rp_roots linked fst snd]. unfold entry_hash. cbn [fst snd].
  rewrite !app_nil.
  assert (forall (c : bool) (x : ChainIssue), (if c then [] else [x]) = [] <-> c = true) as Hif
    by (intros [] x; naive_solver).
  rewrite !Hif, Z.eqb_eq, String.eqb_eq.
  assert (match ComputeChainHashVersion (tx_version ct) (tx_prev ct) (tx_row ct) with
      | Ok hash => if String.eqb hash (tx_hash ct) then []
          else [issue s (cr_TransactionID (tx_row ct)) "live financial data does not match stored chain_hash"]
      | Err e => [issue s (cr_TransactionID (tx_row ct)) (err_msg e)] end = [] <->
    ComputeChainHashVersion (tx_version ct) (tx_prev ct) (tx_row ct) = Ok (tx_hash ct)) as ->.
  { destruct (ComputeChainHashVersion _ _ _) as [h|e]; [rewrite Hif, String.eqb_eq|]; naive_solver. }
  assert (match rp_roots st !! s with
      | Some root => if String.eqb root (tx_hash ct) then []
          else [issue s (cr_TransactionID (tx_row ct)) "checkpoint root does not match chain"]
      | None => [] end = [] <-> (forall root, rp_roots st !! s = Some root -> root = tx_hash ct)) as ->.
  { destruct (rp_roots st !! s); [rewrite Hif, String.eqb_eq|]; naive_solver. }
  assert (linked (rp_count st + 1) (tx_hash ct) es ->
    (roots_match (rp_roots st) ((s, ct) :: es) <->
     (s = rp_count st + 1 -> True) /\ (forall root, rp_roots st !! s = Some root -> root = tx_hash ct) /\
     (forall e root, e ∈ es -> rp_roots st !! e.1 = Some root -> root = tx_hash e.2))) as Hroots.
  { intros _. unfold roots_match. split.
    - intros H. split; [done|]. split; [intros root; apply (H (s, ct)); left|]. intros e root He. apply H. by right.
    - intros (_ & Ha & Hb) e root [->|He]%elem_of_cons; eauto. }
  assert (s = rp_count st + 1 -> linked (rp_count st + 1) (tx_hash ct) es ->
    (roots_match (delete s (rp_roots st)) es <->
     (forall e root, e ∈ es -> rp_roots st !! e.1 = Some root -> root = tx_hash e.2))) as Hdel.
  { intros Hs Hl. unfold roots_match. split; intros H e root He; specialize (H e root He);
      pose proof (linked_elem_bounds _ _ _ _ Hl He); rewrite lookup_delete_ne in *; auto; lia. }
  intuition (subst; tauto).
Qed.

(** ** The verifier accepts exactly the well-formed chains *)

Definition entries (db : chain_db) : list (Z * chained_row) := chained (cd_rows db).

Record chain_ok (db : chain_db) : Prop := {
  ck_genesis : cd_genesis db = ChainGenesisHash;
  ck_linked : linked 0 (cd_genesis db) (entries db);
  ck_roots : roots_match (roots_of (cd_checkpoints db)) (entries db);
  ck_len : cd_last_seq db = Z.of_nat (length (entries db));
  ck_head : cd_head db = last_hash (cd_genesis db) (entries db);
  ck_cps : forall cp, cp ∈ cd_checkpoints db ->
    1 <= cp_Sequence cp <= cd_last_seq db /\ cp_Count cp = cp_Sequence cp }.

Definition anchor_ok (db : chain_db) (a : ChainCheckpoint) : Prop :=
  0 < cp_Sequence a /\ cp_Count a = cp_Sequence a /\
  roots_of (cd_checkpoints db) !! cp_Sequence a = Some (cp_HeadHash a).

Lemma mjoin_fmap_nil {A B} (f : A -> list B) l :
  mjoin (f <$> l) = [] <-> forall a, a ∈ l -> f a = [].
Proof.
  induction l as [|a l IH].
  - split; [intros _ a Ha; by apply not_elem_of_nil in Ha|done].
  - cbn. rewrite app_nil. unfold mjoin, fmap in IH. rewrite IH.
    setoid_rewrite elem_of_cons. naive_solver.
Qed.

Lemma roots_of_app cps1 cps2 s :
  roots_of (cps1 ++ cps2) !! s =
  match roots_of cps2 !! s with Some h => Some h | None => roots_of cps1 !! s end.
Proof.
  unfold roots_of. rewrite foldl_app. generalize (foldl (fun m cp => <[cp_Sequence cp:=cp_HeadHash cp]> m) (∅ : gmap Z string) cps1).
  intros m. revert s. induction cps2 as [|cp cps2 IH] using rev_ind; intros s.
  - cbn. by rewrite lookup_empty.
  - rewrite !foldl_app. cbn. destruct (decide (cp_Sequence cp = s)) as [->|Hne].
    + by rewrite !lookup_insert_eq.
    + rewrite !lookup_insert_ne by done. apply IH.
Qed.

Lemma roots_of_Some cps s h : roots_of cps !! s = Some h ->
  exists cp, cp ∈ cps /\ cp_Sequence cp = s /\ cp_HeadHash cp = h.
Proof.
  induction cps as [|cp cps IH] using rev_ind; unfold roots_of; rewrite ?foldl_app; cbn.
  - by rewrite lookup_empty.
  - intros [[<- <-]|[Hne H]]%lookup_insert_Some.
    + exists cp. split; [|done]. apply elem_of_app. right. left.
    + destruct (IH H) as (cp' & Hin & Hcp). exists cp'. split; [|done]. apply elem_of_app. by left.
Qed.

Lemma roots_of_elem cps cp : cp ∈ cps -> is_Some (roots_of cps !! cp_Sequence cp).
Proof.
  induction cps as [|cp' cps IH] using rev_ind; [by intros ?%not_elem_of_nil|].
  intros [Hin| ->%list_elem_of_singleton]%elem_of_app; unfold roots_of; rewrite foldl_app; cbn.
  - destruct (decide (cp_Sequence cp' = cp_Sequence cp)) as [->|Hne];
      [rewrite lookup_insert_eq; eauto|rewrite lookup_insert_ne by done; by apply IH].
  - rewrite lookup_insert_eq. eauto.
Qed.

Lemma linked_seq_elem count head es s :
  linked count head es ->
  s ∈ es.*1 <-> count < s <= count + Z.of_nat (length es).
Proof.
  intros H. rewrite list_elem_of_fmap. split.
  - intros (e & -> & He). by eapply linked_elem_bounds.
  - intros Hs. destruct (es !! Z.to_nat (s - count - 1)) as [e|] eqn:E.
    + exists e. split; [|by eapply list_elem_of_lookup_2].
      rewrite (linked_seqs _ _ _ _ _ H E). lia.
    + apply lookup_ge_None in E. lia.
Qed.

Lemma verify_iff journal anchors db :
  vr_Verified (VerifyChainSnapshotWithAnchors journal anchors db) = true <->
  chain_ok db /\ journal = [] /\ forall a, a ∈ anchors -> anchor_ok db a.
Proof.
  unfold VerifyChainSnapshotWithAnchors. cbn [vr_Verified].
  set (st := foldl replay_step (replay_init db) _).
  destruct (replay_state (chained (cd_rows db)) (replay_init db)) as (R1 & R2 & R3 & R4).
  pose proof (replay_clean (chained (cd_rows db)) (replay_init db)) as Rc.
  fold st in R1, R2, R3, R4, Rc. cbn [replay_init rp_count rp_head rp_last rp_roots rp_issues] in R1, R2, R3, R4, Rc.
  fold (entries db) in R1, R2, R3, R4, Rc.
  rewrite Nat.eqb_eq, length_zero_iff_nil, !app_nil, !mjoin_fmap_nil, Rc.
  assert (forall (c : bool) (x : ChainIssue), (if c then [] else [x]) = [] <-> c = true) as Hif
    by (intros [] x; naive_solver).
  rewrite !Hif, !andb_true_iff, !Z.eqb_eq, !String.eqb_eq.
  assert (((fun j => issue 0 j.1 j.2) <$> journal) = [] <-> journal = []) as Hj.
  { split; [apply fmap_nil_inv|by intros ->]. }
  rewrite Hj. clear Hj.
  assert ((forall a, a ∈ anchors -> check_anchor (roots_of (cd_checkpoints db)) a = []) <->
          (forall a, a ∈ anchors -> anchor_ok db a)) as ->.
  { assert (forall a, check_anchor (roots_of (cd_checkpoints db)) a = [] <-> anchor_ok db a) as Hc.
    { intros a. unfold check_anchor, anchor_ok.
      destruct (_ || _) eqn:E; [apply orb_true_iff in E as [E|E]; zbool; (split; [done|lia])|].
      zbool. rewrite Hif, bool_decide_eq_true. intuition. }
    by setoid_rewrite Hc. }
  split.
  - intros (Ha & Hg & (_ & Hl & Hr) & [[Hc _] Hh] & Hcp & Hj). split; [|done].
    split; try done; rewrite ?R1, ?R2 in *; try congruence; try lia.
    intros cp Hin. specialize (Hcp cp Hin). unfold check_checkpoint in Hcp.
    apply app_nil in Hcp as [Hm Hcount]. rewrite Hif, Z.eqb_eq in Hcount. split; [|done].
    rewrite R4 in Hm. destruct (roots_of_elem _ _ Hin) as [h Hh']. rewrite Hh' in Hm.
    case_bool_decide as Hin2; [|done]. apply (linked_seq_elem _ _ _ _ Hl) in Hin2. lia.
  - intros ([Hg Hl Hr Hlen Hh Hcps] & Hj & Ha). split; [done|]. split; [done|].
    split; [done|]. split; [|split; [|done]].
    + rewrite R1, R2, R3. repeat split; [lia| |done]. unfold last_hash in *.
      destruct (last (entries db)) as [e|] eqn:E.
      * rewrite last_lookup in E. rewrite (linked_seqs _ _ _ _ _ Hl E).
        apply lookup_lt_Some in E. lia.
      * apply last_None in E. rewrite E in Hlen. done.
    + intros cp Hin. destruct (Hcps cp Hin) as [Hb Hcount]. unfold check_checkpoint.
      rewrite R4, bool_decide_true, Hcount, Z.eqb_refl; [done|].
      apply (linked_seq_elem _ _ _ _ Hl). lia.
Qed.

(** ** Sealing *)

(** The entries a batch of rows becomes. *)
Fixpoint sealed (lastSeq : Z) (head : string) (rows : list ChainRow) : list (Z * chained_row) :=
  match rows with
  | [] => []
  | r :: rest =>
      let h := sha_hex (CanonicalChainV3 head r) in
      (lastSeq + 1, {| tx_row := r; tx_seq := Some (lastSeq + 1); tx_prev := head;
                       tx_hash := h; tx_version := 3 |}) :: sealed (lastSeq + 1) h rest
  end.

Definition entry_link (e : Z * chained_row) : link :=
  {| l_id := cr_ID (tx_row e.2); l_seq := e.1; l_prev := tx_prev e.2; l_hash := tx_hash e.2 |}.

Lemma link_rows_sealed n h rows :
  link_rows n h rows =
  (entry_link <$> sealed n h rows, n + Z.of_nat (length rows), last_hash h (sealed n h rows)).
Proof.
  revert n h; induction rows as [|r rows IH]; intros n h; cbn [link_rows sealed].
  { simpl. by rewrite Z.add_0_r. }
  rewrite IH, last_hash_cons. cbn [fmap list_fmap length snd tx_hash]. f_equal. f_equal. lia.
Qed.

Lemma sealed_linked n h rows : linked n h (sealed n h rows).
Proof. revert n h; induction rows as [|r rows IH]; intros n h; [done|]. by repeat split. Qed.

Lemma sealed_form n h rows e : e ∈ sealed n h rows ->
  tx_seq e.2 = Some e.1 /\ tx_version e.2 = 3 /\ tx_row e.2 ∈ rows.
Proof.
  revert n h; induction rows as [|r rows IH]; intros n h; cbn [sealed]; [by intros ?%not_elem_of_nil|].
  intros [->|He]%elem_of_cons; [by repeat split; left|].
  destruct (IH _ _ He) as (H1 & H2 & H3). repeat split; [done..|by right].
Qed.

Lemma sealed_rows n h rows : tx_row ∘ snd <$> sealed n h rows = rows.
Proof.
  revert n h; induction rows as [|r rows IH]; intros n h; [done|]. cbn. f_equal. apply IH.
Qed.

Definition row_id (x : chained_row) : string := cr_ID (tx_row x).
Definition entry_of (x : chained_row) : option (Z * chained_row) := s ← tx_seq x; Some (s, x).

Lemma write_link_id l (rows : list chained_row) : row_id <$> (write_link l <$> rows) = row_id <$> rows.
Proof.
  rewrite <- list_fmap_compose. apply list_fmap_ext. intros _ x _. unfold compose, write_link, row_id.
  destruct (tx_seq x); [done|]. by destruct (String.eqb _ _).
Qed.

Lemma write_link_other l (rows : list chained_row) : (forall x, x ∈ rows -> row_id x <> l_id l) -> write_link l <$> rows = rows.
Proof.
  intros H. rewrite <- (list_fmap_id rows) at 2. apply list_fmap_ext. intros i x Hx.
  unfold write_link. destruct (tx_seq x); [done|]. destruct (String.eqb _ _) eqn:E; [|done].
  zbool. exfalso. apply (H x); [by eapply list_elem_of_lookup_2|done].
Qed.

(** Writing one link turns exactly its row into an entry. *)
Lemma write_link_entries e (rows : list chained_row) x :
  NoDup (row_id <$> rows) -> x ∈ rows -> tx_seq x = None -> tx_row x = tx_row e.2 ->
  tx_seq e.2 = Some e.1 -> tx_version e.2 = 3 ->
  omap entry_of (write_link (entry_link e) <$> rows) ≡ₚ e :: omap entry_of rows.
Proof.
  intros Hnd Hx Hs Hr He Hv. apply list_elem_of_split in Hx as (r1 & r2 & ->).
  rewrite fmap_app, fmap_cons in Hnd. rewrite fmap_app, fmap_cons.
  apply NoDup_app in Hnd as (_ & H1 & H2). apply NoDup_cons in H2 as [H2 _].
  assert (row_id x = l_id (entry_link e)) as Hid by (unfold row_id, entry_link; cbn; by rewrite Hr).
  rewrite (write_link_other _ r1), (write_link_other _ r2).
  - assert (write_link (entry_link e) x = e.2) as ->.
    { unfold write_link. rewrite Hs. unfold row_id in Hid. rewrite Hid, String.eqb_refl.
      destruct e as [s ct], ct; cbn in *. by subst. }
    assert (entry_of e.2 = Some e) as Hentry by (unfold entry_of; rewrite He; by destruct e).
    assert (entry_of x = None) as Hnone by (unfold entry_of; by rewrite Hs).
    rewrite !omap_app. cbn [omap list_omap]. rewrite Hentry, Hnone. by rewrite Permutation_middle.
  - intros y Hy Heq. apply H2. rewrite Hid, <- Heq. by apply list_elem_of_fmap_2.
  - intros y Hy Heq. apply (H1 (row_id y)); [by apply list_elem_of_fmap_2|].
    rewrite Heq, <- Hid. left.
Qed.

Definition write_links (links : list link) (rows : list chained_row) : list chained_row :=
  foldl (fun rows l => write_link l <$> rows) rows links.

Lemma write_link_keeps l (rows : list chained_row) x :
  x ∈ rows -> row_id x <> l_id l -> x ∈ write_link l <$> rows.
Proof.
  intros Hx Hid. apply list_elem_of_fmap. exists x. split; [|done].
  unfold write_link. destruct (tx_seq x); [done|]. destruct (String.eqb _ _) eqn:E; [by zbool|done].
Qed.

Lemma write_links_entries es rows :
  NoDup (row_id <$> rows) -> NoDup (row_id ∘ snd <$> es) ->
  (forall e, e ∈ es -> tx_seq e.2 = Some e.1 /\ tx_version e.2 = 3 /\
     exists x, x ∈ rows /\ tx_seq x = None /\ tx_row x = tx_row e.2) ->
  omap entry_of (write_links (entry_link <$> es) rows) ≡ₚ es ++ omap entry_of rows /\
  row_id <$> write_links (entry_link <$> es) rows = row_id <$> rows.
Proof.
  revert rows; induction es as [|e es IH]; intros rows Hnd Hes H; [done|].
  rewrite fmap_cons in Hes. apply NoDup_cons in Hes as [Hn Hes].
  destruct (H e) as (He1 & He2 & x & Hx & Hs & Hr); [left|].
  pose proof (write_link_entries e rows x Hnd Hx Hs Hr He1 He2) as Hp.
  change (write_links (entry_link <$> e :: es) rows)
    with (write_links (entry_link <$> es) (write_link (entry_link e) <$> rows)).
  destruct (IH (write_link (entry_link e) <$> rows)) as [IH1 IH2].
  - by rewrite write_link_id.
  - done.
  - intros e' He'. destruct (H e') as (H1 & H2 & y & Hy & Hys & Hyr); [by right|].
    split; [done|split; [done|]]. exists y. split; [|done]. apply write_link_keeps; [done|].
    intros Heq. apply Hn. apply list_elem_of_fmap. exists e'. split; [|done].
    unfold compose, row_id in *. rewrite <- Hyr. rewrite Heq. done.
  - rewrite IH1, Hp, IH2, write_link_id. split; [|done]. by rewrite <- Permutation_middle.
Qed.

(** Entries in chain order are determined by the set of entries. *)
Lemma chained_unique rows es count head :
  linked count head es -> omap entry_of rows ≡ₚ es -> chained rows = es.
Proof.
  intros Hl Hp. unfold chained. fold entry_of.
  apply (StronglySorted_unique_strong seq_le).
  - intros e1 e2 He1 He2 H1 H2. rewrite merge_sort_Permutation, Hp in He1.
    eapply linked_seq_inj; eauto. unfold seq_le in *. lia.
  - apply StronglySorted_merge_sort.
    + intros a b c. unfold seq_le. lia.
    + intros a b. unfold seq_le. lia.
  - by eapply linked_sorted.
  - by rewrite merge_sort_Permutation.
Qed.

Lemma selected_rows cutoff n (rows : list chained_row) :
  NoDup (row_id <$> rows) ->
  NoDup (cr_ID <$> (tx_row <$> take n (unchained cutoff rows))) /\
  forall r, r ∈ tx_row <$> take n (unchained cutoff rows) ->
    exists x, x ∈ rows /\ tx_seq x = None /\ tx_row x = r.
Proof.
  intros Hnd. split.
  - rewrite <- list_fmap_compose. eapply sublist_NoDup; [exact Hnd|].
    apply fmap_sublist. etrans; [apply sublist_take|]. apply sublist_filter.
  - intros r (x & -> & Hx)%list_elem_of_fmap. apply elem_of_take in Hx as (i & Hi & _).
    apply list_elem_of_lookup_2 in Hi. apply list_elem_of_filter in Hi as [[? _] ?]. eauto.
Qed.

Lemma link_checkpoints_spec lastSeq es cp :
  cp ∈ mjoin (link_checkpoint lastSeq <$> (entry_link <$> es)) ->
  exists e, e ∈ es /\ cp_Sequence cp = e.1 /\ cp_Count cp = e.1 /\ cp_HeadHash cp = tx_hash e.2.
Proof.
  intros (k & Hcp & Hk)%list_elem_of_join. apply list_elem_of_fmap in Hk as (l & -> & Hl).
  apply list_elem_of_fmap in Hl as (e & -> & He). unfold link_checkpoint in Hcp.
  destruct (_ || _); [|by apply not_elem_of_nil in Hcp].
  apply list_elem_of_singleton in Hcp as ->. exists e. done.
Qed.

(** Sealing a well-formed chain extends it with the sealed batch. *)
Lemma seal_ok cutoff batchSize db db' n :
  NoDup (row_id <$> cd_rows db) -> chain_ok db ->
  ChainPendingTransactions cutoff batchSize db = Ok (db', n) ->
  let batch := tx_row <$> take (Z.to_nat batchSize) (unchained cutoff (cd_rows db)) in
  chain_ok db' /\ n = Z.of_nat (length batch) /\
  entries db' = entries db ++ sealed (cd_last_seq db) (cd_head db) batch /\
  row_id <$> cd_rows db' = row_id <$> cd_rows db.
Proof.
  intros Hnd Hok H. unfold ChainPendingTransactions in H. cbv zeta.
  destruct (batchSize <=? 0); [done|].
  set (batch := tx_row <$> _) in *. rewrite link_rows_sealed in H.
  set (es := sealed (cd_last_seq db) (cd_head db) batch) in *.
  assert (length es = length batch) as Hlen.
  { unfold es. by rewrite <- (length_fmap (tx_row ∘ snd)), sealed_rows. }
  rewrite length_fmap, Hlen in H. destruct (length batch =? 0)%nat eqn:E0.
  { apply Nat.eqb_eq in E0. apply Ok_inj, pair_equal_spec in H as [<- <-].
    rewrite E0. split; [done|]. split; [done|]. split; [|done].
    rewrite E0 in Hlen. apply nil_length_inv in Hlen. rewrite Hlen. by rewrite app_nil_r. }
  apply Ok_inj, pair_equal_spec in H as [<- <-]. destruct Hok as [Hg Hl Hr Hn Hh Hc].
  destruct (selected_rows cutoff (Z.to_nat batchSize) (cd_rows db) Hnd) as [Hnd2 Hsel].
  fold batch in Hnd2, Hsel.
  destruct (write_links_entries es (cd_rows db)) as [Hw Hids].
  { done. }
  { rewrite <- (sealed_rows (cd_last_seq db) (cd_head db) batch), <- list_fmap_compose in Hnd2. exact Hnd2. }
  { intros e He. destruct (sealed_form _ _ _ _ He) as (H1 & H2 & H3). eauto. }
  assert (linked 0 (cd_genesis db) (entries db ++ es)) as Hlk.
  { apply linked_app. split; [done|]. rewrite Z.add_0_l, <- Hn, <- Hh. apply sealed_linked. }
  assert (chained (write_links (entry_link <$> es) (cd_rows db)) = entries db ++ es) as Hch.
  { eapply chained_unique; [exact Hlk|]. rewrite Hw. unfold entries, chained.
    rewrite merge_sort_Permutation. apply Permutation_app_comm. }
  split; [|split; [done|split; [exact Hch|exact Hids]]].
  match goal with |- chain_ok ?d => assert (entries d = entries db ++ es) as Hent by exact Hch end.
  constructor; rewrite ?Hent; cbn [cd_genesis cd_last_seq cd_head cd_checkpoints]; try done.
  - intros e root He. rewrite roots_of_app.
    destruct (roots_of (mjoin _) !! e.1) as [h|] eqn:Eh.
    + intros [= ->]. apply roots_of_Some in Eh as (cp & Hcp & Hs & <-).
      apply link_checkpoints_spec in Hcp as (e' & He' & Hs' & _ & ->).
      f_equal. f_equal. eapply linked_seq_inj; [exact Hlk|apply elem_of_app; by right|exact He|congruence].
    + intros Hroot. apply elem_of_app in He as [He|He]; [by apply Hr|]. exfalso.
      apply roots_of_Some in Hroot as (cp & Hcp & Hs & _). apply Hc in Hcp as [Hb _].
      pose proof (linked_elem_bounds _ _ _ _ (sealed_linked _ _ _) He). lia.
  - rewrite length_app. lia.
  - unfold last_hash. rewrite last_app. fold es. unfold last_hash. destruct (last es) as [e|] eqn:El; [done|].
    rewrite Hh. done.
  - intros cp [Hcp|Hcp]%elem_of_app; [destruct (Hc cp Hcp); lia|].
    apply link_checkpoints_spec in Hcp as (e & He & -> & -> & _).
    pose proof (linked_elem_bounds _ _ _ _ (sealed_linked _ _ _) He) as Hb. fold es in Hb. lia.
Qed.

Lemma pending_length (rows : list chained_row) :
  (length (filter (fun x => tx_seq x = None) rows) + length (omap entry_of rows) = length rows)%nat.
Proof.
  induction rows as [|x rows IH]; [done|]. rewrite filter_cons.
  change (omap entry_of (x :: rows)) with
    (match entry_of x with Some e => e :: omap entry_of rows | None => omap entry_of rows end).
  unfold entry_of at 1. destruct (tx_seq x) eqn:E; cbn [mbind option_bind].
  - rewrite decide_False by congruence. cbn [length]. lia.
  - rewrite decide_True by congruence. cbn [length]. lia.
Qed.

Lemma entries_length db : length (entries db) = length (omap entry_of (cd_rows db)).
Proof. unfold entries, chained. by rewrite merge_sort_Permutation. Qed.

(** C23: sealing keeps the chain verifiable.  If row ids are distinct and the
    verifier accepts the chain (with any retained anchors and a clean journal),
    then after [ChainPendingTransactions] it still accepts the chain with the
    same anchors, and exactly the reported number of pending rows has been
    sealed, appended after the entries that were there. *)
Theorem sealing_preserves_verification
    (cutoff batchSize n : Z) (anchors : list ChainCheckpoint) (db db' : chain_db) :
  NoDup (row_id <$> cd_rows db) ->
  vr_Verified (VerifyChainSnapshotWithAnchors [] anchors db) = true ->
  ChainPendingTransactions cutoff batchSize db = Ok (db', n) ->
  vr_Verified (VerifyChainSnapshotWithAnchors [] anchors db') = true /\
  vr_Pending (VerifyChainSnapshotWithAnchors [] anchors db') =
    vr_Pending (VerifyChainSnapshotWithAnchors [] anchors db) - n /\
  (exists new, entries db' = entries db ++ new /\ Z.of_nat (length new) = n).
Proof.
  intros Hnd Hv H. apply verify_iff in Hv as (Hok & _ & Ha).
  destruct (seal_ok _ _ _ _ _ Hnd Hok H) as (Hok' & Hn & He & Hids).
  set (new := sealed _ _ _) in *. set (batch := tx_row <$> _) in *.
  assert (length new = length batch) as Hlen.
  { unfold new. by rewrite <- (length_fmap (tx_row ∘ snd)), sealed_rows. }
  split; [apply verify_iff; split; [done|split; [done|]]|split; [|exists new; split; [done|lia]]].
  - intros a Hain. destruct (Ha a Hain) as (H1 & H2 & H3). repeat split; [done..|].
    unfold ChainPendingTransactions in H. destruct (batchSize <=? 0); [done|].
    rewrite link_rows_sealed in H. destruct (length (entry_link <$> _) =? 0)%nat.
    { by apply Ok_inj, pair_equal_spec in H as [<- _]. }
    apply Ok_inj, pair_equal_spec in H as [<- _]. cbn [cd_checkpoints]. rewrite roots_of_app.
    destruct (roots_of (mjoin _) !! _) as [h|] eqn:Eh; [|done]. exfalso.
    apply roots_of_Some in Eh as (cp & Hcp & Hs & _).
    apply link_checkpoints_spec in Hcp as (e & He' & Hs' & _).
    pose proof (linked_elem_bounds _ _ _ _ (sealed_linked _ _ _) He').
    apply roots_of_Some in H3 as (cp' & Hcp' & Hs3 & _). apply (ck_cps _ Hok) in Hcp'. lia.
  - cbn [VerifyChainSnapshotWithAnchors vr_Pending].
    pose proof (pending_length (cd_rows db)) as P1. pose proof (pending_length (cd_rows db')) as P2.
    rewrite <- entries_length in P1, P2. rewrite He, length_app in P2.
    apply (f_equal length) in Hids. rewrite !length_fmap in Hids. lia.
Qed.

(** ** Tamper evidence *)

(** What an entry commits to, field by field. *)
Definition committed_fields (version : Z) (prev : string) (r : ChainRow) : list string :=
  fields_v2 prev r ++
  (if version =? 3 then [cr_OverdraftLimit r; cr_QueueAction r; cr_ExecutionControls r;
                         option_time (cr_ScheduledFor r); cr_HistoricalRate r] else []).

Definition same_entry (e1 e2 : Z * chained_row) : Prop :=
  e1.1 = e2.1 /\ tx_version e1.2 = tx_version e2.2 /\ tx_hash e1.2 = tx_hash e2.2 /\
  committed_fields (tx_version e1.2) (tx_prev e1.2) (tx_row e1.2) =
  committed_fields (tx_version e2.2) (tx_prev e2.2) (tx_row e2.2).

(** Length-delimited entries whose fields are shorter than [2^64] bytes. *)
Definition delimited (e : Z * chained_row) : Prop :=
  (tx_version e.2 = 2 \/ tx_version e.2 = 3) /\
  Forall short (fields_v2 (tx_prev e.2) (tx_row e.2)) /\
  Forall short (fields_v3 (tx_prev e.2) (tx_row e.2)).

#[export] Instance short_dec s : Decision (short s).
Proof. apply Z_lt_dec. Defined.
#[export] Instance delimited_dec e : Decision (delimited e).
Proof. unfold delimited. apply _. Defined.

Definition entry_bytes (e : Z * chained_row) : result string :=
  canonical (tx_version e.2) (tx_prev e.2) (tx_row e.2).

(** Two entries at the same position with different bytes and the same hash. *)
Definition collision (es1 es2 : list (Z * chained_row)) : Prop :=
  exists i e1 e2 b1 b2, es1 !! i = Some e1 /\ es2 !! i = Some e2 /\
    entry_bytes e1 = Ok b1 /\ entry_bytes e2 = Ok b2 /\ b1 <> b2 /\ sha_hex b1 = sha_hex b2.

Lemma canonical_inj e1 e2 b :
  delimited e1 -> delimited e2 -> entry_bytes e1 = Ok b -> entry_bytes e2 = Ok b ->
  tx_version e1.2 = tx_version e2.2 /\ tx_prev e1.2 = tx_prev e2.2 /\
  committed_fields (tx_version e1.2) (tx_prev e1.2) (tx_row e1.2) =
  committed_fields (tx_version e2.2) (tx_prev e2.2) (tx_row e2.2).
Proof.
  unfold entry_bytes. destruct e1 as [s1 [r1 q1 p1 h1 v1]], e2 as [s2 [r2 q2 p2 h2 v2]]; cbn [snd tx_row tx_prev tx_version].
  intros ([V1|V1] & F1 & G1) ([V2|V2] & F2 & G2) B1 B2; cbn [snd tx_row tx_prev tx_version] in *; subst v1 v2;
    apply Ok_inj in B1, B2; subst b; unfold CanonicalChainV2, CanonicalChainV3 in B2;
    (apply encode_fields_inj in B2; [|done..]).
  - split; [done|]. unfold committed_fields. rewrite B2. split; [|done].
    unfold fields_v2 in B2. congruence.
  - unfold fields_v2, fields_v3 in B2. discriminate B2.
  - unfold fields_v2, fields_v3 in B2. discriminate B2.
  - pose proof (f_equal (fun l => nth 2 l ""%string) B2) as Hc.
    pose proof (f_equal (drop 3) B2) as Hrest. cbn [fields_v3 nth drop] in Hc, Hrest.
    apply encode_fields_inj in Hc; [|done..]. split; [done|]. unfold committed_fields.
    cbn [Z.eqb Pos.eqb]. rewrite Hc, Hrest. split; [|done]. unfold fields_v2 in Hc. congruence.
Qed.

Lemma entry_hash_bytes e h : entry_hash e = Ok h -> exists b, entry_bytes e = Ok b /\ sha_hex b = h.
Proof.
  unfold entry_hash, ComputeChainHashVersion, entry_bytes. intros (b & Hb & [= <-])%res_bind_Ok. eauto.
Qed.

Lemma last_hash_snoc h es e : last_hash h (es ++ [e]) = tx_hash e.2.
Proof. unfold last_hash. by rewrite last_snoc. Qed.

(** Two linked lists of the same length and last hash agree or collide. *)
Lemma linked_agree g es1 es2 :
  linked 0 g es1 -> linked 0 g es2 -> length es1 = length es2 ->
  last_hash g es1 = last_hash g es2 ->
  Forall delimited es1 -> Forall delimited es2 ->
  Forall2 same_entry es1 es2 \/ collision es1 es2.
Proof.
  revert es2; induction es1 as [|e1 es1 IH] using rev_ind; intros es2 L1 L2 Hlen Hlast D1 D2.
  { destruct es2; [|done]. left. constructor. }
  destruct es2 as [|e2 es2 _] using rev_ind; [rewrite length_app in Hlen; simpl in Hlen; lia|].
  rewrite !length_app in Hlen. simpl in Hlen. rewrite !last_hash_snoc in Hlast.
  apply linked_app in L1 as (L1 & S1 & P1 & E1 & _). apply linked_app in L2 as (L2 & S2 & P2 & E2 & _).
  apply Forall_app in D1 as [D1 [De1 _]%Forall_cons], D2 as [D2 [De2 _]%Forall_cons].
  apply entry_hash_bytes in E1 as (b1 & B1 & H1), E2 as (b2 & B2 & H2).
  destruct (decide (b1 = b2)) as [<-|Hb].
  - destruct (canonical_inj e1 e2 b1 De1 De2 B1 B2) as (Hv & Hp & Hc).
    destruct (IH es2) as [Hagree|Hcol]; try done; [lia|congruence|left|right].
    + apply Forall2_app; [done|]. constructor; [|constructor].
      split; [rewrite S1, S2; lia|done].
    + destruct Hcol as (i & x1 & x2 & c1 & c2 & Hx1 & Hx2 & Hrest). exists i, x1, x2, c1, c2.
      by rewrite !lookup_app_l by (by eapply lookup_lt_Some).
  - right. exists (length es1), e1, e2, b1, b2.
    rewrite list_lookup_middle by done.
    assert (length es1 = length es2) as Hl by lia. rewrite list_lookup_middle by done.
    repeat split; try done. congruence.
Qed.

(** A verified anchor is the hash at its sequence. *)
Lemma anchored_prefix db a :
  chain_ok db -> anchor_ok db a ->
  let k := Z.to_nat (cp_Sequence a) in
  linked 0 ChainGenesisHash (take k (entries db)) /\ length (take k (entries db)) = k /\
  last_hash ChainGenesisHash (take k (entries db)) = cp_HeadHash a.
Proof.
  intros [Hg Hl Hr Hn Hh Hc] (Hpos & _ & Ha). cbv zeta. set (k := Z.to_nat _).
  apply roots_of_Some in Ha as Hcp. destruct Hcp as (cp & Hcp & Hs & _).
  destruct (Hc cp Hcp) as [Hb _]. rewrite Hs in Hb.
  assert (k <= length (entries db))%nat as Hk by lia.
  rewrite <- Hg. split; [|split].
  - rewrite <- (take_drop k (entries db)) in Hl. by apply linked_app in Hl as [? _].
  - rewrite length_take. lia.
  - destruct (entries db !! (k - 1)%nat) as [e|] eqn:E; [|apply lookup_ge_None in E; lia].
    assert (last_hash (cd_genesis db) (take k (entries db)) = tx_hash e.2) as ->.
    { replace k with (S (k - 1)) by lia. rewrite (take_S_r _ _ e) by done. apply last_hash_snoc. }
    symmetry. apply Hr; [by eapply list_elem_of_lookup_2|].
    rewrite (linked_seqs _ _ _ _ _ Hl E). replace (0 + 1 + Z.of_nat (k - 1)) with (cp_Sequence a) by lia.
    done.
Qed.

(** An external checkpoint pins the history.  If two databases both verify
    against the same exported checkpoint at sequence [k], and their entries
    use the length-delimited encodings, then their first [k] entries agree on
    sequence, version, hash, previous hash and every committed financial
    field, unless some entry exhibits a SHA-256 collision. *)
Theorem anchored_history_is_fixed (j1 j2 : list (string * string))
    (anchors1 anchors2 : list ChainCheckpoint) (a : ChainCheckpoint) (db1 db2 : chain_db) :
  vr_Verified (VerifyChainSnapshotWithAnchors j1 anchors1 db1) = true ->
  vr_Verified (VerifyChainSnapshotWithAnchors j2 anchors2 db2) = true ->
  a ∈ anchors1 -> a ∈ anchors2 ->
  Forall delimited (entries db1) -> Forall delimited (entries db2) ->
  let k := Z.to_nat (cp_Sequence a) in
  Forall2 same_entry (take k (entries db1)) (take k (entries db2)) \/
  collision (take k (entries db1)) (take k (entries db2)).
Proof.
  intros (Hok1 & _ & Ha1)%verify_iff (Hok2 & _ & Ha2)%verify_iff Hin1 Hin2 D1 D2 k.
  destruct (anchored_prefix db1 a Hok1 (Ha1 _ Hin1)) as (L1 & N1 & H1).
  destruct (anchored_prefix db2 a Hok2 (Ha2 _ Hin2)) as (L2 & N2 & H2).
  apply (linked_agree ChainGenesisHash); auto using Forall_take; unfold k; congruence.
Qed.

(** An equal head pins the whole chain.  Two verified chains with the same
    length and head in [chain_state] and length-delimited entries agree on
    every entry, unless some entry exhibits a SHA-256 collision. *)
Theorem equal_heads_equal_chains (j1 j2 : list (string * string))
    (anchors1 anchors2 : list ChainCheckpoint) (db1 db2 : chain_db) :
  vr_Verified (VerifyChainSnapshotWithAnchors j1 anchors1 db1) = true ->
  vr_Verified (VerifyChainSnapshotWithAnchors j2 anchors2 db2) = true ->
  cd_last_seq db1 = cd_last_seq db2 -> cd_head db1 = cd_head db2 ->
  Forall delimited (entries db1) -> Forall delimited (entries db2) ->
  Forall2 same_entry (entries db1) (entries db2) \/ collision (entries db1) (entries db2).
Proof.
  intros (Hok1 & _ & _)%verify_iff (Hok2 & _ & _)%verify_iff Hs Hh D1 D2.
  destruct Hok1 as [G1 L1 _ N1 E1 _], Hok2 as [G2 L2 _ N2 E2 _].
  apply (linked_agree ChainGenesisHash); rewrite ?G1, ?G2 in *; try done; [lia|congruence].
Qed.

(** The version 1 encoding does not separate its fields, which the
    length-delimited versions do: two rows with different source and
    destination have the same version 1 hash whatever the previous hash, but
    different version 3 encodings. *)
Theorem v1_is_ambiguous (r : ChainRow) (prev : string) :
  let r1 := {| r with cr_Source := "a|b"; cr_Destination := "c" |}%string in
  let r2 := {| r with cr_Source := "a"; cr_Destination := "b|c" |}%string in
  ComputeChainHash prev r1 = ComputeChainHash prev r2 /\
  (Forall short (fields_v2 prev r1) -> Forall short (fields_v2 prev r2) ->
   CanonicalChainV2 prev r1 <> CanonicalChainV2 prev r2).
Proof.
  split.
  - unfold ComputeChainHash. f_equal.
  - intros H1 H2 H. apply encode_fields_inj in H; [|done..].
    apply (f_equal (fun l => nth 5 l ""%string)) in H. cbn in H. discriminate H.
Qed.

(** ** Witnesses *)

Module ChainWitness.

Definition row (id txn : string) : ChainRow := {|
  cr_HistoricalRate := ""; cr_OverdraftLimit := "0"; cr_QueueAction := "";
  cr_ExecutionControls := "{}"; cr_ScheduledFor := None; cr_ID := id; cr_Precision := "100";
  cr_Rate := "1"; cr_ParentTransaction := ""; cr_EffectiveDate := None; cr_TransactionID := txn;
  cr_Source := "bln_a"; cr_Destination := "bln_b"; cr_Amount := "1"; cr_PreciseAmount := "100";
  cr_Currency := "USD"; cr_Status := "APPLIED"; cr_Reference := txn; cr_CreatedAt := 5 |}.
Definition pending (r : ChainRow) : chained_row :=
  {| tx_row := r; tx_seq := None; tx_prev := ""; tx_hash := ""; tx_version := 1 |}.
Definition fresh : chain_db := {|
  cd_rows := [pending (row "1" "txn_1"); pending (row "2" "txn_2")]; cd_last_seq := 0;
  cd_head := ChainGenesisHash; cd_genesis := ChainGenesisHash; cd_checkpoints := [] |}.
Definition after_seal : chain_db :=
  match ChainPendingTransactions 10 1 fresh with Ok (db, _) => db | Err _ => fresh end.

Lemma sealing_preserves_verification_witness :
  vr_Verified (VerifyChainSnapshotWithAnchors [] [] after_seal) = true /\
  vr_Pending (VerifyChainSnapshotWithAnchors [] [] after_seal) =
    vr_Pending (VerifyChainSnapshotWithAnchors [] [] fresh) - 1 /\
  (exists new, entries after_seal = entries fresh ++ new /\ Z.of_nat (length new) = 1).
Proof.
  apply (sealing_preserves_verification 10 1 1 [] fresh after_seal).
  - apply NoDup_cons. split; [|apply NoDup_singleton].
    intros H. apply list_elem_of_singleton in H. discriminate H.
  - vm_compute. reflexivity.
  - reflexivity.
Defined.

Definition anchor : ChainCheckpoint :=
  {| cp_Sequence := 1; cp_Count := 1; cp_HeadHash := cd_head after_seal |}.

Lemma after_seal_delimited : Forall delimited (entries after_seal).
Proof. apply (bool_decide_eq_true_1 _). vm_compute. reflexivity. Qed.

Lemma anchored_history_is_fixed_witness :
  Forall2 same_entry (take 1 (entries after_seal)) (take 1 (entries after_seal)) \/
  collision (take 1 (entries after_seal)) (take 1 (entries after_seal)).
Proof.
  apply (anchored_history_is_fixed [] [] [anchor] [anchor] anchor after_seal after_seal).
  - vm_compute. reflexivity.
  - vm_compute. reflexivity.
  - left.
  - left.
  - apply after_seal_delimited.
  - apply after_seal_delimited.
Defined.

Lemma equal_heads_equal_chains_witness :
  Forall2 same_entry (entries after_seal) (entries after_seal) \/
  collision (entries after_seal) (entries after_seal).
Proof.
  apply (equal_heads_equal_chains [] [] [] [anchor] after_seal after_seal).
  - vm_compute. reflexivity.
  - vm_compute. reflexivity.
  - reflexivity.
  - reflexivity.
  - apply after_seal_delimited.
  - apply after_seal_delimited.
Defined.
End ChainWitness.
