(* ===== verification/Policy.v ===== *)
(** * Spending policies of API keys

    [internal/policy]: validation of a policy document, the intersection of
    the policies of a delegation chain, the narrowing check for a delegated
    key's own policy, and the capabilities of a principal.  Amounts are
    canonical decimal texts of non-negative integers, as in the source. *)
From stdpp Require Import base option list strings gmap.
From Stdlib Require Import ZArith Lia Ascii SpecFloat.
From S2P Require Import Prelude GoFloat Decimal Model Distribution.
Open Scope Z_scope.

Record SpendingRule := {
  r_Currency : string;
  r_Precision : float64;
  r_MaxTransaction : string;
  r_DailyLimit : string;
  r_ApprovalAbove : string }.

Record KeyPolicy := {
  p_DenyAll : bool;
  p_InheritedFrom : list string;
  p_APIKeyID : string;
  p_Version : Z;
  p_Rules : list SpendingRule;
  p_LedgerIDs : list string;
  p_BalanceIDs : list string }.

Record PolicyLeg := {
  pl_TransactionID : string;
  pl_Reference : string;
  pl_Source : string;
  pl_Destination : string;
  pl_SourceLedger : string;
  pl_DestinationLedger : string;
  pl_Currency : string;
  pl_Precision : float64;
  pl_Amount : string }.

Record PolicyAdmission := {
  pa_ID : string;
  pa_APIKeyID : string;
  pa_Identity : string;
  pa_Version : Z;
  pa_Day : Z;
  pa_Decision : string;
  pa_DecidedBy : string;
  pa_Legs : list PolicyLeg }.

Definition ErrDenied : go_error :=
  sentinel "policy.ErrDenied" "spending policy denied transaction".
Definition ErrApprovalRequired : go_error :=
  sentinel "policy.ErrApprovalRequired" "transaction requires an independent approval decision".
Definition ErrIdentityConflict : go_error :=
  sentinel "policy.ErrIdentityConflict"
    "policy idempotency identity already has different transaction details".

(** [fmt.Errorf("%w: detail", e)]. *)
Definition detail (e : go_error) (text : string) : go_error :=
  GoError (err_msg e +:+ ": " +:+ text) (err_is e).

(** ** Validation *)

(** [Integer]. *)
Definition Integer (s : string) : result Z :=
  match SetString10 s with
  | Some n =>
      if (n <? 0) || negb (String.eqb (itoa n) s)
      then Err (errors_New "policy amounts must be canonical nonnegative integers")
      else Ok n
  | None => Err (errors_New "policy amounts must be canonical nonnegative integers")
  end.

(** The integer of a stored limit.  Stored limits have passed [Validate], so
    the source ignores the error of [Integer] here. *)
Definition int_of (s : string) : Z := match Integer s with Ok n => n | Err _ => 0 end.

(** A finite float rounded half to even, for the [%.0f] verb. *)
Definition fround_even (f : float64) : Z :=
  if 0 <=? fexp f then fmant f * 2 ^ fexp f
  else
    let d := 2 ^ (- fexp f) in
    let q := fmant f / d in
    let r := fmant f mod d in
    if 2 * r <? d then q
    else if d <? 2 * r then q + 1
    else if Z.even q then q else q + 1.
Definition Sprintf_0f (f : float64) : string :=
  match f with
  | S754_nan => "NaN"
  | S754_infinity s => if s then "-Inf" else "+Inf"
  | S754_zero s => if s then "-0" else "0"
  | S754_finite s _ _ =>
      if (fround_even f =? 0) && s then "-0" else itoa (fround_even f)
  end.

(** [RuleKey]. *)
Definition RuleKey (currency : string) (precision : float64) : string :=
  (currency +:+ "/" +:+ Sprintf_0f precision)%string.
Definition rule_key (r : SpendingRule) : string := RuleKey (r_Currency r) (r_Precision r).

(** [strings.ToUpper] on ASCII text. *)
Definition upper_ascii (c : ascii) : ascii :=
  let n := N_of_ascii c in
  if ((97 <=? n) && (n <=? 122))%N then ascii_of_N (n - 32) else c.
Fixpoint ToUpper (s : string) : string :=
  match s with EmptyString => EmptyString | String c r => String (upper_ascii c) (ToUpper r) end.

(** The checks of [Validate] on one rule; [seen] are the keys before it. *)
Definition Validate_step (seen : list string) (r : SpendingRule) : result (list string) :=
  if String.eqb (r_Currency r) "" || negb (String.eqb (r_Currency r) (ToUpper (r_Currency r)))
     || IsNaN (r_Precision r) || IsInf (r_Precision r) || flt (r_Precision r) (f_of_Z 1)
     || negb (feq (Trunc (r_Precision r)) (r_Precision r))
  then Err (errors_New "policy requires currency and integer precision")
  else
    let k := rule_key r in
    if bool_decide (k ∈ seen) then Err (errors_New "duplicate policy currency rule")
    else
      let* _ := fold_res (fun _ s => if String.eqb s "" then Ok tt else let* _ := Integer s in Ok tt)
                  [r_MaxTransaction r; r_DailyLimit r; r_ApprovalAbove r] tt in
      Ok (k :: seen).
Definition Validate (p : KeyPolicy) : result unit :=
  if (length (p_Rules p) =? 0)%nat
  then Err (errors_New "policy requires at least one currency rule")
  else let* _ := fold_res Validate_step (p_Rules p) [] in Ok tt.

(** [Allowed]: the empty allowlist is unrestricted. *)
Definition Allowed (l : list string) (id : string) : bool :=
  match l with [] => true | _ => existsb (String.eqb id) l end.

(** ** Intersection *)

Definition minimum (a b : string) : string :=
  if String.eqb a "" then b
  else if String.eqb b "" then a
  else if int_of a <=? int_of b then a else b.

Definition intersectIDs (a b : list string) : list string * bool :=
  match a, b with
  | [], _ => (b, false)
  | _, [] => (a, false)
  | _, _ => let out := filter (fun id => Allowed b id = true) a in
            (out, (length out =? 0)%nat)
  end.

(** The rules of [as_] and [bs] with a common key, with the smaller limits.
    The source reuses the loop variable [a] for the merged rule, so a second
    match in [bs] would be merged with it again. *)
Fixpoint merge_rule (a : SpendingRule) (bs : list SpendingRule) : list SpendingRule :=
  match bs with
  | [] => []
  | b :: rest =>
      if String.eqb (rule_key a) (rule_key b) then
        let a := {| a with
          r_MaxTransaction := minimum (r_MaxTransaction a) (r_MaxTransaction b);
          r_DailyLimit := minimum (r_DailyLimit a) (r_DailyLimit b);
          r_ApprovalAbove := minimum (r_ApprovalAbove a) (r_ApprovalAbove b) |} in
        a :: merge_rule a rest
      else merge_rule a rest
  end.
Definition merge_rules (as_ bs : list SpendingRule) : list SpendingRule :=
  mjoin ((fun a => merge_rule a bs) <$> as_).

(** The part of the loop body every policy runs: version, provenance, denial. *)
Definition absorb (key : string) (result p : KeyPolicy) : KeyPolicy :=
  {| result with
     p_Version := p_Version result + p_Version p;
     p_InheritedFrom := if String.eqb (p_APIKeyID p) key then p_InheritedFrom result
                        else p_InheritedFrom result ++ [p_APIKeyID p];
     p_DenyAll := p_DenyAll result || p_DenyAll p |}.

(** The rest of the loop body, for every policy but the first. *)
Definition narrow (result p : KeyPolicy) : KeyPolicy :=
  let '(ledgers, empty1) := intersectIDs (p_LedgerIDs result) (p_LedgerIDs p) in
  let '(balances, empty2) := intersectIDs (p_BalanceIDs result) (p_BalanceIDs p) in
  {| result with
     p_Rules := merge_rules (p_Rules result) (p_Rules p);
     p_LedgerIDs := ledgers; p_BalanceIDs := balances;
     p_DenyAll := p_DenyAll result || empty1 || empty2 |}.

(** [Intersect]. *)
Definition Intersect (key : string) (policies : list KeyPolicy) : option KeyPolicy :=
  match policies with
  | [] => None
  | p0 :: rest =>
      let start := {| p0 with p_APIKeyID := key; p_Version := 0; p_InheritedFrom := [] |} in
      let result := foldl (fun res p => narrow (absorb key res p) p) (absorb key start p0) rest in
      Some (if (length (p_Rules result) =? 0)%nat
            then {| result with p_DenyAll := true |} else result)
  end.

(** ** Narrowing *)

Definition check_ids (ids : list string * list string) : result unit :=
  let '(child, parent) := ids in
  if (length parent =? 0)%nat then Ok tt
  else if (length child =? 0)%nat
  then Err (detail ErrDenied "child allowlist must narrow its ancestors")
  else fold_res (fun _ id => if Allowed parent id then Ok tt
                             else Err (detail ErrDenied "child allowlist exceeds its ancestors")) child tt.

Definition check_limits (l : string * string) : result unit :=
  let '(child, parent) := l in
  if String.eqb parent "" then Ok tt
  else if String.eqb child "" || negb (String.eqb (minimum child parent) child)
  then Err (detail ErrDenied "child limit exceeds its ancestors") else Ok tt.

Definition check_rule (parent : KeyPolicy) (c : SpendingRule) : result unit :=
  match List.find (fun p => String.eqb (rule_key c) (rule_key p)) (p_Rules parent) with
  | None => Err (detail ErrDenied "child currency exceeds its ancestors")
  | Some ancestor =>
      fold_res (fun _ l => check_limits l)
        [(r_MaxTransaction c, r_MaxTransaction ancestor); (r_DailyLimit c, r_DailyLimit ancestor);
         (r_ApprovalAbove c, r_ApprovalAbove ancestor)] tt
  end.

(** [ValidateNarrowing]. *)
Definition ValidateNarrowing (child : KeyPolicy) (parent : option KeyPolicy) : result unit :=
  match parent with
  | None => Ok tt
  | Some parent =>
      if p_DenyAll child then Ok tt
      else if p_DenyAll parent then Err (detail ErrDenied "ancestor denies all spending")
      else
        let* _ := fold_res (fun _ ids => check_ids ids)
                    [(p_LedgerIDs child, p_LedgerIDs parent); (p_BalanceIDs child, p_BalanceIDs parent)] tt in
        fold_res (fun _ c => check_rule parent c) (p_Rules child) tt
  end.

(** ** Principals *)

Record Principal := { pr_APIKeyID : string; pr_Master : bool; pr_Scopes : list string }.
Definition has (p : Principal) (scope : string) : bool := existsb (fun s => String.eqb s scope) (pr_Scopes p).
Definition CanManagePolicies (p : Principal) : bool := pr_Master p || has p "policies:write".
Definition CanApprove (p : Principal) : bool := pr_Master p || has p "approvals:write".

(** [Apply]: bind a transaction to its admission. *)
Definition Apply (a : option PolicyAdmission) (t : Transaction) : Transaction :=
  match a with
  | None => t
  | Some a =>
      let md := md_set (md_set (t_MetaData t) "policy_admission_id" (JStr (pa_ID a)))
                       "policy_approval" (JStr (pa_Decision a)) in
      if String.eqb (pa_Decision a) "not_required" then {| t with t_MetaData := md |}
      else {| t with t_MetaData := md_set md "inflight" (JBool true);
                     t_Inflight := true; t_InflightCommitDate := 0 |}
  end.

(** ** What it means for one policy to be within another *)

(** A limit text as a number; [None] is no limit. *)
Definition limit_of (s : string) : option Z := if String.eqb s "" then None else Some (int_of s).

(** [a] is at least as tight as [b]. *)
Definition lim_le (a b : option Z) : Prop :=
  match b with None => True | Some y => match a with Some x => x <= y | None => False end end.

#[export] Instance lim_le_preorder : PreOrder lim_le.
Proof.
  split; [intros [x|]; simpl; [lia|done]|].
  intros [x|] [y|] [z|]; simpl; (lia || done).
Qed.

Definition rule_within (r r' : SpendingRule) : Prop :=
  rule_key r = rule_key r' /\
  lim_le (limit_of (r_MaxTransaction r)) (limit_of (r_MaxTransaction r')) /\
  lim_le (limit_of (r_DailyLimit r)) (limit_of (r_DailyLimit r')) /\
  lim_le (limit_of (r_ApprovalAbove r)) (limit_of (r_ApprovalAbove r')).

#[export] Instance rule_within_preorder : PreOrder rule_within.
Proof.
  split.
  - intros r. by repeat split.
  - intros r1 r2 r3 (K1 & A1 & B1 & C1) (K2 & A2 & B2 & C2).
    split; [congruence|]. split; [by etrans|]. split; by etrans.
Qed.

(** Everything [q] permits, [p] permits. *)
Definition policy_within (q p : KeyPolicy) : Prop :=
  p_DenyAll q = false ->
  p_DenyAll p = false /\
  (forall id, Allowed (p_LedgerIDs q) id = true -> Allowed (p_LedgerIDs p) id = true) /\
  (forall id, Allowed (p_BalanceIDs q) id = true -> Allowed (p_BalanceIDs p) id = true) /\
  (forall r, r ∈ p_Rules q -> exists r', r' ∈ p_Rules p /\ rule_within r r').

Lemma policy_within_trans q1 q2 q3 :
  policy_within q1 q2 -> policy_within q2 q3 -> policy_within q1 q3.
Proof.
  intros H1 H2 Hd. destruct (H1 Hd) as (D1 & L1 & B1 & R1). destruct (H2 D1) as (D2 & L2 & B2 & R2).
  split; [done|]. split; [auto|]. split; [auto|]. intros r Hr.
  destruct (R1 r Hr) as (r2 & Hr2 & W1). destruct (R2 r2 Hr2) as (r3 & Hr3 & W2).
  exists r3. split; [done|by etrans].
Qed.

Lemma Allowed_iff l id : Allowed l id = true <-> l = [] \/ id ∈ l.
Proof.
  unfold Allowed. destruct l as [|x l]; [naive_solver|]. rewrite existsb_exists. split.
  - intros (y & Hy & ->%String.eqb_eq). right. by apply list_elem_of_In.
  - intros [|H]; [done|]. exists id. split; [by apply list_elem_of_In|apply String.eqb_refl].
Qed.

Lemma minimum_le a b :
  lim_le (limit_of (minimum a b)) (limit_of a) /\ lim_le (limit_of (minimum a b)) (limit_of b).
Proof.
  unfold minimum. destruct (String.eqb a "") eqn:Ea.
  { split; [|reflexivity]. unfold limit_of at 2. by rewrite Ea. }
  destruct (String.eqb b "") eqn:Eb.
  { split; [reflexivity|]. unfold limit_of at 2. by rewrite Eb. }
  destruct (int_of a <=? int_of b) eqn:E; zbool; (split; [try reflexivity|try reflexivity]);
    unfold limit_of; destruct (String.eqb a "") eqn:Ea', (String.eqb b "") eqn:Eb'; zbool; simpl; (done || lia).
Qed.

Lemma minimum_cases a b : minimum a b = a \/ minimum a b = b.
Proof. unfold minimum. repeat case_match; auto. Qed.

Lemma merge_rule_sound a bs r : r ∈ merge_rule a bs ->
  rule_within r a /\ exists b, b ∈ bs /\ rule_within r b.
Proof.
  revert a; induction bs as [|b bs IH]; intros a; cbn [merge_rule]; [by intros ?%not_elem_of_nil|].
  destruct (String.eqb (rule_key a) (rule_key b)) eqn:E.
  - set (a' := {| r_Currency := _ |}). apply String.eqb_eq in E.
    assert (rule_within a' a) as Wa by (split; [done|repeat split; apply minimum_le]).
    assert (rule_within a' b) as Wb by (split; [exact E|repeat split; apply minimum_le]).
    intros [->|Hr]%elem_of_cons.
    + split; [done|]. exists b. split; [left|done].
    + destruct (IH a' Hr) as [H1 _]. split; [by etrans|]. exists b. split; [left|by etrans].
  - intros Hr. destruct (IH a Hr) as [H1 (b' & Hb' & H2)]. split; [done|]. exists b'. split; [by right|done].
Qed.

Lemma merge_rule_complete a bs b : b ∈ bs -> rule_key a = rule_key b ->
  exists r, r ∈ merge_rule a bs /\ rule_key r = rule_key a.
Proof.
  revert a; induction bs as [|b' bs IH]; intros a Hb Hk; [by apply not_elem_of_nil in Hb|].
  cbn [merge_rule]. destruct (String.eqb (rule_key a) (rule_key b')) eqn:E.
  - eexists. split; [left|done].
  - apply elem_of_cons in Hb as [->|Hb]; [by rewrite Hk, String.eqb_refl in E|eauto].
Qed.

Lemma merge_rules_elem as_ bs r :
  r ∈ merge_rules as_ bs <-> exists a, a ∈ as_ /\ r ∈ merge_rule a bs.
Proof.
  unfold merge_rules. rewrite list_elem_of_join. setoid_rewrite list_elem_of_fmap. naive_solver.
Qed.

Lemma intersectIDs_spec a b out empty :
  intersectIDs a b = (out, empty) -> empty = false ->
  forall id, Allowed out id = true <-> Allowed a id = true /\ Allowed b id = true.
Proof.
  intros H He id. destruct a as [|x a], b as [|y b]; cbn [intersectIDs] in H;
    try (apply pair_equal_spec in H as [<- <-]; simpl; tauto).
  set (a' := x :: a) in *. set (b' := y :: b) in *.
  apply pair_equal_spec in H as [<- <-]. apply Nat.eqb_neq in He.
  rewrite (Allowed_iff (filter _ _)), (Allowed_iff a'), list_elem_of_filter.
  split; [intros [Hn|[H1 H2]]; [by rewrite Hn in He|auto]|].
  intros [[Hn|H1] H2]; [done|auto].
Qed.

(** The accumulator of [Intersect] after the policies [ps]. *)
Definition acc_ok (res : KeyPolicy) (ps : list KeyPolicy) : Prop :=
  (forall p r, p ∈ ps -> r ∈ p_Rules res -> exists r', r' ∈ p_Rules p /\ rule_within r r') /\
  (forall p, p ∈ ps -> p_DenyAll p = true -> p_DenyAll res = true) /\
  (p_DenyAll res = false -> forall id,
     (Allowed (p_LedgerIDs res) id = true <-> forall p, p ∈ ps -> Allowed (p_LedgerIDs p) id = true) /\
     (Allowed (p_BalanceIDs res) id = true <-> forall p, p ∈ ps -> Allowed (p_BalanceIDs p) id = true)) /\
  (forall k, (forall p, p ∈ ps -> exists r, r ∈ p_Rules p /\ rule_key r = k) ->
     exists r, r ∈ p_Rules res /\ rule_key r = k).

Lemma acc_start key p0 :
  acc_ok (absorb key {| p0 with p_APIKeyID := key; p_Version := 0; p_InheritedFrom := [] |} p0) [p0].
Proof.
  unfold acc_ok. cbn. setoid_rewrite list_elem_of_singleton.
  split; [intros p r -> Hr; exists r; split; [done|reflexivity]|].
  split; [intros p -> ->; done|]. split; [naive_solver|].
  intros k H. apply (H p0). done.
Qed.

Lemma acc_step key res ps p : acc_ok res ps -> acc_ok (narrow (absorb key res p) p) (ps ++ [p]).
Proof.
  intros (HR & HD & HA & HK). unfold narrow. cbn [absorb p_LedgerIDs p_BalanceIDs p_Rules p_DenyAll].
  destruct (intersectIDs (p_LedgerIDs res) (p_LedgerIDs p)) as [ls e1] eqn:E1.
  destruct (intersectIDs (p_BalanceIDs res) (p_BalanceIDs p)) as [bs e2] eqn:E2.
  unfold acc_ok. cbn [p_LedgerIDs p_BalanceIDs p_Rules p_DenyAll].
  split; [|split; [|split]].
  - intros q r Hq (a & Ha & Hr)%merge_rules_elem. apply merge_rule_sound in Hr as [W1 (b & Hb & W2)].
    apply elem_of_app in Hq as [Hq| ->%list_elem_of_singleton]; [|eauto].
    destruct (HR q a Hq Ha) as (r' & Hr' & W). exists r'. split; [done|].
    by transitivity a.
  - intros q [Hq| ->%list_elem_of_singleton]%elem_of_app Hd.
    + by rewrite (HD q Hq Hd).
    + rewrite Hd. by rewrite orb_true_r.
  - intros Hd. apply orb_false_iff in Hd as [Hd He2]. apply orb_false_iff in Hd as [Hd He1].
    apply orb_false_iff in Hd as [Hd _]. intros id. destruct (HA Hd id) as [HL HB].
    pose proof (intersectIDs_spec _ _ _ _ E1 He1 id) as S1.
    pose proof (intersectIDs_spec _ _ _ _ E2 He2 id) as S2.
    setoid_rewrite elem_of_app. setoid_rewrite list_elem_of_singleton.
    rewrite S1, S2, HL, HB. split; (split; [intros [? ?] ? [?| ->]; auto|auto]).
  - intros k Hk. destruct (HK k) as (a & Ha & Hka).
    { intros q Hq. apply Hk. apply elem_of_app. by left. }
    destruct (Hk p) as (b & Hb & Hkb); [apply elem_of_app; right; left|].
    destruct (merge_rule_complete a (p_Rules p) b) as (r & Hr & Hkr); [done|congruence|].
    exists r. split; [apply merge_rules_elem; eauto|congruence].
Qed.

Lemma Intersect_acc key ps q : Intersect key ps = Some q ->
  exists res, acc_ok res ps /\ p_Rules q = p_Rules res /\ p_LedgerIDs q = p_LedgerIDs res /\
    p_BalanceIDs q = p_BalanceIDs res /\ (p_DenyAll q = false -> p_DenyAll res = false).
Proof.
  destruct ps as [|p0 ps]; [done|]. cbn [Intersect].
  set (start := absorb key _ p0).
  assert (forall l done_ res, acc_ok res done_ ->
    acc_ok (foldl (fun res p => narrow (absorb key res p) p) res l) (done_ ++ l)) as Hfold.
  { induction l as [|p l IH]; intros done_ res Hres; [by rewrite app_nil_r|].
    cbn [foldl]. rewrite (cons_middle p done_ l), (assoc_L (++)). by apply IH, acc_step. }
  specialize (Hfold ps [p0] start (acc_start key p0)). cbn [app] in Hfold.
  set (res := foldl _ _ _) in *. intros [= <-]. exists res. split; [done|].
  by destruct (length (p_Rules res) =? 0)%nat.
Qed.

Lemma Intersect_within (key : string) (ps : list KeyPolicy) (q p : KeyPolicy) :
  Intersect key ps = Some q -> p ∈ ps -> policy_within q p.
Proof.
  intros H Hp Hd. apply Intersect_acc in H as (res & (HR & HD & HA & HK) & Er & El & Eb & Ed).
  specialize (Ed Hd). rewrite Er, El, Eb. split.
  { destruct (p_DenyAll p) eqn:E; [|done]. by rewrite (HD p Hp E) in Ed. }
  split; [|split]; [intros id Hid; by apply (HA Ed id)..|eauto].
Qed.

(** The effective policy of a key narrows every policy of its delegation
    chain: whatever the intersection permits (ledgers, balances, currencies and
    amounts up to a limit) is permitted by each ancestor, and a denial by any
    ancestor denies. *)
Theorem Intersect_narrows (key : string) (ps : list KeyPolicy) (q p : KeyPolicy) :
  Intersect key ps = Some q -> p ∈ ps -> policy_within q p.
Proof. apply Intersect_within. Qed.

(** The intersection takes no more away than it must.  When the effective
    policy does not deny all, a ledger or balance is allowed by it exactly when
    every policy of the chain allows it, and a currency that every policy of
    the chain has a rule for has a rule in it. *)
Theorem Intersect_greatest (key : string) (ps : list KeyPolicy) (q : KeyPolicy) :
  Intersect key ps = Some q -> p_DenyAll q = false ->
  (forall id, Allowed (p_LedgerIDs q) id = true <->
     forall p, p ∈ ps -> Allowed (p_LedgerIDs p) id = true) /\
  (forall id, Allowed (p_BalanceIDs q) id = true <->
     forall p, p ∈ ps -> Allowed (p_BalanceIDs p) id = true) /\
  (forall k, (forall p, p ∈ ps -> exists r, r ∈ p_Rules p /\ rule_key r = k) ->
     exists r, r ∈ p_Rules q /\ rule_key r = k).
Proof.
  intros H Hd. apply Intersect_acc in H as (res & (_ & _ & HA & HK) & Er & El & Eb & Ed).
  specialize (Ed Hd). rewrite Er, El, Eb.
  split; [intros id; apply (HA Ed id)|]. split; [intros id; apply (HA Ed id)|done].
Qed.

Lemma check_limits_sound c p : check_limits (c, p) = Ok tt -> lim_le (limit_of c) (limit_of p).
Proof.
  unfold check_limits. destruct (String.eqb p "") eqn:Ep.
  { intros _. unfold limit_of at 2. by rewrite Ep. }
  destruct (_ || _) eqn:E; [done|]. intros _. apply orb_false_iff in E as [_ E]. zbool.
  pose proof (minimum_le c p) as [_ Hm]. by rewrite E in Hm.
Qed.

Lemma fold_res_unit {A} (f : A -> result unit) l :
  fold_res (fun _ a => f a) l tt = Ok tt -> forall a, a ∈ l -> f a = Ok tt.
Proof.
  induction l as [|b l IH]; intros H a Ha; [by apply not_elem_of_nil in Ha|].
  cbn in H. apply res_bind_Ok in H as ([] & H1 & H2).
  apply elem_of_cons in Ha as [->|Ha]; auto.
Qed.

Lemma check_ids_sound c p : check_ids (c, p) = Ok tt ->
  forall id, Allowed c id = true -> Allowed p id = true.
Proof.
  cbn [check_ids]. destruct (length p =? 0)%nat eqn:Ep.
  { apply Nat.eqb_eq, nil_length_inv in Ep. by subst. }
  destruct (length c =? 0)%nat eqn:Ec; [done|]. intros H id Hid.
  apply Allowed_iff in Hid as [->|Hid]; [done|].
  pose proof (fold_res_unit (fun id => if Allowed p id then Ok tt else _) c H id Hid) as Ha.
  cbn in Ha. by destruct (Allowed p id).
Qed.

Lemma ValidateNarrowing_within child parent :
  ValidateNarrowing child (Some parent) = Ok tt -> policy_within child parent.
Proof.
  cbn [ValidateNarrowing]. intros H Hd. rewrite Hd in H.
  destruct (p_DenyAll parent) eqn:Ep; [done|]. apply res_bind_Ok in H as ([] & H1 & H2).
  pose proof (fold_res_unit _ _ H1) as Hids. pose proof (fold_res_unit _ _ H2) as Hrules.
  split; [done|]. split; [|split].
  - apply check_ids_sound, Hids. left.
  - apply check_ids_sound, Hids. right. left.
  - intros r Hr. specialize (Hrules r Hr). unfold check_rule in Hrules.
    destruct (List.find _ _) as [r'|] eqn:Ef; [|done]. apply List.find_some in Ef as [Hin Hk].
    apply String.eqb_eq in Hk. exists r'. split; [by apply list_elem_of_In|].
    pose proof (fold_res_unit _ _ Hrules) as Hl.
    split; [done|]. split; [|split]; apply check_limits_sound, Hl; [left|right; left|right; right; left].
Qed.

Lemma ValidateNarrowing_ancestors (key : string) (child : KeyPolicy) (ancestors : list KeyPolicy) (p : KeyPolicy) :
  ValidateNarrowing child (Intersect key ancestors) = Ok tt -> p ∈ ancestors -> policy_within child p.
Proof.
  intros H Hp. destruct (Intersect key ancestors) as [q|] eqn:E.
  2: { destruct ancestors; [by apply not_elem_of_nil in Hp|done]. }
  apply ValidateNarrowing_within in H. eapply policy_within_trans; [done|].
  by eapply Intersect_within.
Qed.

(** A delegated key cannot widen its ancestors' policies.  When
    [ValidateNarrowing] accepts a child policy against the intersection of the
    ancestors' policies, the child policy is within each of them. *)
Theorem ValidateNarrowing_sound (key : string) (child : KeyPolicy) (ancestors : list KeyPolicy) (p : KeyPolicy) :
  ValidateNarrowing child (Intersect key ancestors) = Ok tt -> p ∈ ancestors -> policy_within child p.
Proof. apply ValidateNarrowing_ancestors. Qed.

(** ** Witnesses *)

Module PolicyWitness.

Definition rule (max daily above : string) : SpendingRule :=
  {| r_Currency := "USD"; r_Precision := f_of_Z 100; r_MaxTransaction := max;
     r_DailyLimit := daily; r_ApprovalAbove := above |}.
Definition pol (key : string) (r : SpendingRule) (ledgers : list string) : KeyPolicy :=
  {| p_DenyAll := false; p_InheritedFrom := []; p_APIKeyID := key; p_Version := 1;
     p_Rules := [r]; p_LedgerIDs := ledgers; p_BalanceIDs := [] |}.
Definition root : KeyPolicy := pol "root" (rule "500" "1000" "") ["l1"; "l2"]%string.
Definition child : KeyPolicy := pol "child" (rule "100" "" "50") ["l2"; "l3"]%string.
Definition narrow_child : KeyPolicy := pol "child" (rule "100" "900" "50") ["l2"]%string.
Definition effective : KeyPolicy :=
  match Intersect "child" [child; root] with Some q => q | None => root end.

Lemma Intersect_narrows_witness : policy_within effective root.
Proof.
  apply (Intersect_narrows "child" [child; root] effective root).
  - vm_compute. reflexivity.
  - right. left.
Defined.

Lemma Intersect_greatest_witness :
  (forall id, Allowed (p_LedgerIDs effective) id = true <->
     forall p, p ∈ [child; root] -> Allowed (p_LedgerIDs p) id = true) /\
  (forall id, Allowed (p_BalanceIDs effective) id = true <->
     forall p, p ∈ [child; root] -> Allowed (p_BalanceIDs p) id = true) /\
  (forall k, (forall p, p ∈ [child; root] -> exists r, r ∈ p_Rules p /\ rule_key r = k) ->
     exists r, r ∈ p_Rules effective /\ rule_key r = k).
Proof.
  apply (Intersect_greatest "child" [child; root] effective); vm_compute; reflexivity.
Defined.

Lemma ValidateNarrowing_sound_witness : policy_within narrow_child root.
Proof.
  apply (ValidateNarrowing_sound "child" narrow_child [root] root).
  - vm_compute. reflexivity.
  - left.
Defined.
End PolicyWitness.
