(* ===== verification/PolicyStore.v ===== *)
(** * Policy admissions

    [database/policy.go] and [database/policy_delegation.go]: the tables of
    the policy store as a record, the delegation ancestry of a key, policy
    management, the admission of a transaction against every policy of the
    chain, and the approval decision.  An operation that runs in a database
    transaction returns the store after the commit, or an error with the
    store unchanged (the deferred rollback).  [json.Marshal] of the legs is a
    parameter: only its output's hash is stored and compared. *)
From stdpp Require Import base option list strings gmap sorting.
From Stdlib Require Import ZArith Lia.
From S2P Require Import Prelude GoFloat GoTime Model Sha256 Distribution Policy.
Open Scope Z_scope.

(** A row of [key_policies]. *)
Record policy_row := { kp_document : KeyPolicy; kp_version : Z; kp_enabled : bool }.

(** A row of [policy_admissions]. *)
Record admission_row := { ar_admission : PolicyAdmission; ar_fingerprint : string }.

(** A row of [policy_bindings]. *)
Record binding_row := {
  bd_transaction_id : string; bd_admission_id : string; bd_leg : PolicyLeg; bd_released : Z }.

(** A row of [policy_admission_budgets]. *)
Record budget_row := {
  bg_admission_id : string; bg_api_key_id : string; bg_rule : string; bg_day : Z; bg_amount : Z }.

(** The store.  [policy_usage] is keyed by API key, currency and precision
    (the rule key) and day. *)
Record policy_db := {
  db_parents : gmap string string;
  db_policies : gmap string policy_row;
  db_usage : gmap (string * string * Z) Z;
  db_admissions : gmap string admission_row;
  db_bindings : gmap string binding_row;
  db_budgets : list budget_row }.

(** ** Ancestry *)

(** The rows of the recursive query, the key first; [fuel] is the depth bound
    of the query. *)
Fixpoint ancestors_from (fuel : nat) (parents : gmap string string) (key : string) : list string :=
  key :: match fuel with
         | O => []
         | S fuel' => match parents !! key with
                      | Some parent => ancestors_from fuel' parents parent
                      | None => []
                      end
         end.

(** [keyAncestry]: the row at depth 64, if the query returns one, is refused. *)
Definition keyAncestry (db : policy_db) (key : string) : result (list string) :=
  let ids := ancestors_from 64 (db_parents db) key in
  if (64 <? Z.of_nat (length ids)) then Err (detail ErrDenied "excessive delegation depth")
  else Ok ids.

(** [ancestorPolicies]: the enabled policies, in ancestry order. *)
Definition ancestorPolicies (db : policy_db) (ids : list string) : list KeyPolicy :=
  omap (fun id => row ← db_policies db !! id;
                  if kp_enabled row
                  then let doc := kp_document row in
                       Some {| doc with p_APIKeyID := id; p_Version := kp_version row |}
                  else None) ids.

(** [GetKeyPolicy]. *)
Definition GetKeyPolicy (db : policy_db) (id : string) : result (option KeyPolicy) :=
  let* ids := keyAncestry db id in Ok (Intersect id (ancestorPolicies db ids)).

(** [checkPolicyManagementTarget]. *)
Definition checkPolicyManagementTarget (db : policy_db) (principal : Principal) (target : string)
    : result unit :=
  if pr_Master principal || String.eqb (pr_APIKeyID principal) "" then Ok tt
  else
    let* ancestors := keyAncestry db (pr_APIKeyID principal) in
    if existsb (String.eqb target) (tail ancestors)
    then Err (detail ErrDenied "delegated keys cannot manage ancestor policies") else Ok tt.

(** [PutKeyPolicy]. *)
Definition PutKeyPolicy (db : policy_db) (principal : Principal) (p : KeyPolicy)
    : result (policy_db * KeyPolicy) :=
  if String.eqb (p_APIKeyID p) "" then Err (errors_New "api_key_id is required")
  else
    let* _ := Validate p in
    let* ids := keyAncestry db (p_APIKeyID p) in
    let* _ := checkPolicyManagementTarget db principal (p_APIKeyID p) in
    let ancestors := ancestorPolicies db (tail ids) in
    let* _ := ValidateNarrowing p (Intersect (p_APIKeyID p) ancestors) in
    let p := {| p with p_InheritedFrom := [] |} in
    let version := match db_policies db !! p_APIKeyID p with
                   | Some row => kp_version row + 1 | None => 1 end in
    let row := {| kp_document := p; kp_version := version; kp_enabled := true |} in
    Ok ({| db with db_policies := <[p_APIKeyID p := row]> (db_policies db) |},
        {| p with p_Version := version |}).

(** [DeleteKeyPolicy]: the local policy is disabled. *)
Definition DeleteKeyPolicy (db : policy_db) (principal : Principal) (id : string) : result policy_db :=
  let* _ := keyAncestry db id in
  let* _ := checkPolicyManagementTarget db principal id in
  Ok {| db with db_policies :=
          alter (fun row => {| row with kp_enabled := false; kp_version := kp_version row + 1 |})
            id (db_policies db) |}.

(** ** Admission *)

Definition string_le (a b : string) : Prop := String.leb a b = true.
#[export] Instance string_le_dec : RelDecision string_le.
Proof. intros a b. unfold string_le. apply _. Defined.

(** A map from rule keys to rules; a later rule replaces an earlier one. *)
Definition rules_by_key (rules : list SpendingRule) : gmap string SpendingRule :=
  foldl (fun m r => <[rule_key r := r]> m) ∅ rules.

Definition leg_key (leg : PolicyLeg) : string := RuleKey (pl_Currency leg) (pl_Precision leg).

(** One iteration of the loop that adds up the legs. *)
Definition total_step (p : KeyPolicy) (rules : gmap string SpendingRule)
    (totals : gmap string Z) (leg : PolicyLeg) : result (gmap string Z) :=
  let* n := Integer (pl_Amount leg) in
  let k := leg_key leg in
  match rules !! k with
  | None => Err (detail ErrDenied "currency or precision is not allowed")
  | Some _ =>
      if negb (Allowed (p_BalanceIDs p) (pl_Source leg))
         || negb (Allowed (p_BalanceIDs p) (pl_Destination leg))
         || negb (Allowed (p_LedgerIDs p) (pl_SourceLedger leg))
         || negb (Allowed (p_LedgerIDs p) (pl_DestinationLedger leg))
      then Err (detail ErrDenied "balance or ledger is not allowed")
      else Ok (<[k := default 0 (totals !! k) + n]> totals)
  end.

(** The loop over the totals: the single-transaction limit, and whether an
    approval is needed. *)
Definition decide_step (rules : gmap string SpendingRule) (totals : gmap string Z)
    (decision : string) (k : string) : result string :=
  match rules !! k with
  | None => Ok decision
  | Some r =>
      let n := default 0 (totals !! k) in
      if negb (String.eqb (r_MaxTransaction r) "") && (int_of (r_MaxTransaction r) <? n)
      then Err (detail ErrDenied "aggregate exceeds max_transaction")
      else if negb (String.eqb (r_ApprovalAbove r) "") && (int_of (r_ApprovalAbove r) <? n)
      then Ok "pending"%string
      else Ok decision
  end.

(** The zero rule: what a map lookup gives for an absent key. *)
Definition zero_rule : SpendingRule :=
  {| r_Currency := ""; r_Precision := f_of_Z 0; r_MaxTransaction := "";
     r_DailyLimit := ""; r_ApprovalAbove := "" |}.

(** Charging one total to one ancestor's daily budget. *)
Definition charge_step (day : Z) (ancestor : KeyPolicy) (totals : gmap string Z)
    (usage : gmap (string * string * Z) Z) (k : string) : result (gmap (string * string * Z) Z) :=
  let r := default zero_rule (rules_by_key (p_Rules ancestor) !! k) in
  let limit := r_DailyLimit r in
  let cell := (p_APIKeyID ancestor, rule_key r, day) in
  let current := default 0 (usage !! cell) + default 0 (totals !! k) in
  if negb (String.eqb limit "") && (int_of limit <? current)
  then Err (detail ErrDenied "shared ancestor daily_limit exhausted")
  else Ok (<[cell := current]> usage).
Definition charge_ancestor (day : Z) (totals : gmap string Z) (keys : list string)
    (usage : gmap (string * string * Z) Z) (ancestor : KeyPolicy)
    : result (gmap (string * string * Z) Z) :=
  fold_res (charge_step day ancestor totals) keys usage.

Definition key_le (p q : KeyPolicy) : Prop := string_le (p_APIKeyID p) (p_APIKeyID q).
#[export] Instance key_le_dec : RelDecision key_le.
Proof. intros p q. unfold key_le. apply _. Defined.

Definition bind_leg (admission : string) (bindings : gmap string binding_row) (leg : PolicyLeg)
    : result (gmap string binding_row) :=
  match bindings !! pl_Reference leg with
  | Some _ => Err (errors_New "policy reference is already admitted: duplicate key value")
  | None =>
      if bool_decide (map_Exists (fun _ b => bd_transaction_id b = pl_TransactionID leg) bindings)
      then Err (errors_New "policy reference is already admitted: duplicate key value")
      else Ok (<[pl_Reference leg := {| bd_transaction_id := pl_TransactionID leg;
                 bd_admission_id := admission; bd_leg := leg; bd_released := 0 |}]> bindings)
  end.

Section Admission.
(** [encoding/json.Marshal] on the legs. *)
Variable json_legs : list PolicyLeg -> string.

(** [policyFingerprint]. *)
Definition policyFingerprint (legs : list PolicyLeg) : string :=
  sha_hex (json_legs ((fun leg => {| leg with pl_TransactionID := "" |}) <$> legs)).

Definition find_admission (db : policy_db) (key identity : string) : option admission_row :=
  head (filter (fun r => pa_APIKeyID (ar_admission r) = key /\ pa_Identity (ar_admission r) = identity)
               (snd <$> map_to_list (db_admissions db))).

(** The repeated request with a known identity. *)
Definition readmit (db : policy_db) (fingerprint : string) (old : admission_row)
    : result (policy_db * option PolicyAdmission) :=
  let a := ar_admission old in
  if negb (String.eqb fingerprint (ar_fingerprint old)) then Err ErrIdentityConflict
  else if String.eqb (pa_Decision a) "rejected" then Err ErrDenied
  else if bool_decide (map_Exists (fun _ b => bd_admission_id b = pa_ID a /\ 0 < bd_released b)
                         (db_bindings db))
  then Err ErrDenied
  else Ok (db, Some a).

(** [AdmitPolicy]; [now] is the clock and [id] the generated admission id. *)
Definition AdmitPolicy (db : policy_db) (now : Z) (id key identity : string) (legs : list PolicyLeg)
    : result (policy_db * option PolicyAdmission) :=
  let* ids := keyAncestry db key in
  let policies := ancestorPolicies db ids in
  let fingerprint := policyFingerprint legs in
  match find_admission db key identity with
  | Some old => readmit db fingerprint old
  | None =>
    match Intersect key policies with
    | None => Ok (db, None)
    | Some p =>
      if p_DenyAll p then Err ErrDenied
      else
      let rules := rules_by_key (p_Rules p) in
      let* totals := fold_res (total_step p rules) legs ∅ in
      if (length legs =? 0)%nat then Err (errors_New "policy admission requires transaction legs")
      else
      let keys := merge_sort string_le (elements (dom totals)) in
      let day := truncate_day now in
      let* decision := fold_res (decide_step rules totals) keys "not_required"%string in
      let sorted := merge_sort key_le policies in
      let* usage := fold_res (charge_ancestor day totals keys) sorted (db_usage db) in
      let a := {| pa_ID := id; pa_APIKeyID := key; pa_Identity := identity;
                  pa_Version := p_Version p; pa_Day := day; pa_Decision := decision;
                  pa_DecidedBy := ""; pa_Legs := legs |} in
      match db_admissions db !! id with
      | Some _ => Err (errors_New "duplicate key value violates unique constraint")
      | None =>
        let budgets := mjoin ((fun ancestor => (fun k =>
            {| bg_admission_id := id; bg_api_key_id := p_APIKeyID ancestor;
               bg_rule := rule_key (default zero_rule (rules !! k));
               bg_day := day; bg_amount := default 0 (totals !! k) |}) <$> keys) <$> sorted) in
        let* bindings := fold_res (bind_leg id) legs (db_bindings db) in
        Ok ({| db with db_usage := usage;
               db_admissions := <[id := {| ar_admission := a; ar_fingerprint := fingerprint |}]>
                                  (db_admissions db);
               db_budgets := db_budgets db ++ budgets; db_bindings := bindings |}, Some a)
      end
    end
  end.

(** [Engine.Admit] for the principal of the request's context. *)
Definition Admit (db : policy_db) (now : Z) (id : string) (p : Principal) (internal : bool)
    (identity : string) (legs : list PolicyLeg) : result (policy_db * option PolicyAdmission) :=
  if pr_Master p || String.eqb (pr_APIKeyID p) "" || internal then Ok (db, None)
  else if String.eqb identity "" then Err (errors_New "policy admission requires an idempotency reference")
  else AdmitPolicy db now id (pr_APIKeyID p) identity legs.
End Admission.

(** ** Decisions *)

(** [independentApprover]. *)
Definition independentApprover (db : policy_db) (initiator : string) (p : Principal) : result unit :=
  if pr_Master p then Ok tt
  else if String.eqb initiator (pr_APIKeyID p) then Err ErrDenied
  else
    let* initiatorIDs := keyAncestry db initiator in
    let* approverIDs := keyAncestry db (pr_APIKeyID p) in
    if existsb (fun id => String.eqb id initiator) approverIDs then Err ErrDenied
    else if bool_decide (last initiatorIDs = last approverIDs)
            && negb (length approverIDs =? 1)%nat then Err ErrDenied
    else Ok tt.

(** [DecidePolicyApproval]. *)
Definition DecidePolicyApproval (db : policy_db) (id : string) (p : Principal) (approve : bool)
    : result (policy_db * PolicyAdmission) :=
  if negb (CanApprove p) then Err ErrDenied
  else match db_admissions db !! id with
  | None => Err (sentinel "sql.ErrNoRows" "sql: no rows in result set")
  | Some row =>
      let a := ar_admission row in
      let* _ := independentApprover db (pa_APIKeyID a) p in
      let decision := if approve then "approved"%string else "rejected"%string in
      if String.eqb (pa_Decision a) decision then Ok (db, a)
      else if negb (String.eqb (pa_Decision a) "pending")
      then Err (errors_New "approval decision is final")
      else
        let actor := if pr_Master p then "master"%string else pr_APIKeyID p in
        let a' := {| a with pa_Decision := decision; pa_DecidedBy := actor |} in
        Ok ({| db with db_admissions :=
                 <[id := {| row with ar_admission := a' |}]> (db_admissions db) |}, a')
  end.

(** [CheckPolicyCommit]; [reference] is the binding found for the transaction. *)
Definition CheckPolicyCommit (db : policy_db) (reference : option string) : result unit :=
  match reference with
  | None => Ok tt
  | Some ref =>
      match (b ← db_bindings db !! ref; db_admissions db !! bd_admission_id b) with
      | None => Err (sentinel "sql.ErrNoRows" "sql: no rows in result set")
      | Some row =>
          let decision := pa_Decision (ar_admission row) in
          if negb (String.eqb decision "approved") && negb (String.eqb decision "not_required")
          then Err ErrApprovalRequired else Ok tt
      end
  end.

(** [VerifyPolicyLeg] of a transaction whose reference selects [binding]. *)
Definition VerifyPolicyLeg (db : policy_db) (binding : option binding_row) (t : Transaction)
    : result (option PolicyAdmission) :=
  match binding with
  | None => Ok None
  | Some b =>
      let leg := bd_leg b in
      if match t_PreciseAmount t with
         | None => true
         | Some n =>
             negb (String.eqb (pl_Source leg) (t_Source t))
             || negb (String.eqb (pl_Destination leg) (t_Destination t))
             || negb (String.eqb (pl_Currency leg) (t_Currency t))
             || negb (feq (pl_Precision leg) (t_Precision t))
             || negb (String.eqb (pl_Amount leg) (itoa n))
             || negb (bd_released b =? 0)
         end
      then Err ErrIdentityConflict
      else match db_admissions db !! bd_admission_id b with
      | None => Err (sentinel "sql.ErrNoRows" "sql: no rows in result set")
      | Some row =>
          if String.eqb (pa_Decision (ar_admission row)) "rejected" then Err ErrDenied
          else Ok (Some (ar_admission row))
      end
  end.

(** ** Ancestry has no repetitions *)

Inductive chain (parents : gmap string string) : string -> list string -> Prop :=
| chain_root k : parents !! k = None -> chain parents k [k]
| chain_step k p l : parents !! k = Some p -> chain parents p l -> chain parents k (k :: l).

Lemma chain_fun parents k l1 l2 : chain parents k l1 -> chain parents k l2 -> l1 = l2.
Proof.
  intros H1; revert l2; induction H1 as [k Hk|k p l Hk _ IH]; intros l2 H2; inversion H2; simplify_eq; [done|].
  f_equal. auto.
Qed.

Lemma chain_suffix parents k l1 x l2 : chain parents k (l1 ++ x :: l2) -> chain parents x (x :: l2).
Proof.
  revert k; induction l1 as [|y l1 IH]; intros k H; cbn [app] in H.
  - inversion H; subst; by econstructor.
  - inversion H; subst; [|eauto]. by destruct l1.
Qed.

Lemma chain_NoDup parents k l : chain parents k l -> NoDup l.
Proof.
  intros H. induction H as [k Hk|k p l Hk H IH]; [apply NoDup_singleton|].
  apply NoDup_cons. split; [|done]. intros (l1 & l2 & ->)%list_elem_of_split.
  apply chain_suffix in H as Hs.
  pose proof (chain_fun _ _ _ _ (chain_step _ _ _ _ Hk H) Hs) as Heq.
  apply (f_equal length) in Heq. cbn in Heq. rewrite length_app in Heq. cbn in Heq. lia.
Qed.

Lemma ancestors_chain fuel parents k :
  (length (ancestors_from fuel parents k) <= fuel)%nat -> chain parents k (ancestors_from fuel parents k).
Proof.
  revert k; induction fuel as [|fuel IH]; intros k H; cbn in *; [lia|].
  destruct (parents !! k) as [p|] eqn:E; [|by constructor].
  econstructor; [exact E|]. apply IH. lia.
Qed.

Lemma keyAncestry_chain db k ids : keyAncestry db k = Ok ids -> chain (db_parents db) k ids.
Proof.
  unfold keyAncestry. destruct (64 <? _) eqn:E; [done|].
  intros H. apply Ok_inj in H as <-. zbool. apply ancestors_chain. lia.
Qed.

Lemma ancestorPolicies_elem db ids p : p ∈ ancestorPolicies db ids -> p_APIKeyID p ∈ ids.
Proof.
  unfold ancestorPolicies. intros (id & Hid & Hp)%list_elem_of_omap.
  destruct (db_policies db !! id) as [row|]; [|done].
  cbn in Hp. destruct (kp_enabled row); [|done]. by simplify_eq.
Qed.

Lemma ancestorPolicies_ids db ids : NoDup ids -> NoDup (p_APIKeyID <$> ancestorPolicies db ids).
Proof.
  induction 1 as [|id ids Hn _ IH]; [constructor|].
  pose proof (ancestorPolicies_elem db ids) as Hin. unfold ancestorPolicies in *. cbn [omap list_omap].
  destruct (db_policies db !! id) as [row|]; cbn; [|done]. destruct (kp_enabled row); [|done]. cbn.
  apply NoDup_cons. split; [|done]. intros (p & Hp1 & Hp2)%list_elem_of_fmap.
  apply Hn. rewrite Hp1. by apply Hin.
Qed.

(** ** The loops of an admission *)

Definition leg_amount (leg : PolicyLeg) : Z := int_of (pl_Amount leg).

(** What the legs add up to under one rule key. *)
Definition leg_total (legs : list PolicyLeg) (k : string) : Z :=
  zsum_list (fun leg => if String.eqb (leg_key leg) k then leg_amount leg else 0) legs.

Definition leg_allowed (p : KeyPolicy) (leg : PolicyLeg) : Prop :=
  Allowed (p_BalanceIDs p) (pl_Source leg) = true /\
  Allowed (p_BalanceIDs p) (pl_Destination leg) = true /\
  Allowed (p_LedgerIDs p) (pl_SourceLedger leg) = true /\
  Allowed (p_LedgerIDs p) (pl_DestinationLedger leg) = true.

Lemma totals_spec p rules legs t0 t :
  fold_res (total_step p rules) legs t0 = Ok t ->
  (forall k, default 0 (t !! k) = default 0 (t0 !! k) + leg_total legs k) /\
  dom t = dom t0 ∪ list_to_set (leg_key <$> legs) /\
  (forall leg, leg ∈ legs -> is_Some (rules !! leg_key leg) /\ leg_allowed p leg).
Proof.
  revert t0; induction legs as [|leg legs IH]; intros t0 H; cbn [fold_res] in H.
  { apply Ok_inj in H as <-. split; [intros k; unfold leg_total; cbn; lia|].
    split; [set_solver|]. by intros ? ?%not_elem_of_nil. }
  apply res_bind_Ok in H as (t1 & H1 & H). unfold total_step in H1.
  apply res_bind_Ok in H1 as (n & Hn & H1).
  destruct (rules !! leg_key leg) as [r|] eqn:Er; [|done].
  destruct (_ || _) eqn:Ea; [done|]. zbool. apply Ok_inj in H1 as <-.
  destruct (IH _ H) as (IH1 & IH2 & IH3). split; [|split].
  - intros k. rewrite IH1. unfold leg_total. cbn [zsum_list foldr].
    assert (leg_amount leg = n) as -> by (unfold leg_amount, int_of; by rewrite Hn).
    destruct (String.eqb (leg_key leg) k) eqn:E; zbool.
    + subst. rewrite lookup_insert_eq. unfold zsum_list. simpl. lia.
    + rewrite lookup_insert_ne by done. unfold zsum_list. lia.
  - rewrite IH2, dom_insert_L. cbn. set_solver.
  - intros leg' [->|Hl]%elem_of_cons; [|auto]. split; [eauto|done].
Qed.

Lemma decide_pending rules totals keys d :
  fold_res (decide_step rules totals) keys "pending"%string = Ok d -> d = "pending"%string.
Proof.
  induction keys as [|k keys IH]; cbn [fold_res]; [by intros [= <-]|].
  intros (d1 & H1 & H2)%res_bind_Ok. unfold decide_step in H1.
  destruct (rules !! k); [|apply Ok_inj in H1 as <-; auto].
  destruct (_ && _); [done|]. destruct (_ && _); apply Ok_inj in H1 as <-; auto.
Qed.

Lemma decide_spec rules totals keys d d' k r :
  fold_res (decide_step rules totals) keys d = Ok d' -> k ∈ keys -> rules !! k = Some r ->
  let n := default 0 (totals !! k) in
  lim_le (Some n) (limit_of (r_MaxTransaction r)) /\
  (~ lim_le (Some n) (limit_of (r_ApprovalAbove r)) -> d' = "pending"%string).
Proof.
  revert d; induction keys as [|k' keys IH]; intros d H Hk Hr; [by apply not_elem_of_nil in Hk|].
  cbn [fold_res] in H. apply res_bind_Ok in H as (d1 & H1 & H2).
  apply elem_of_cons in Hk as [->|Hk]; [|eauto]. unfold decide_step in H1. rewrite Hr in H1.
  unfold limit_of. destruct (String.eqb (r_MaxTransaction r) "") eqn:Em, (String.eqb (r_ApprovalAbove r) "") eqn:Ep;
    cbn [negb andb lim_le] in *.
  - tauto.
  - destruct (_ <? _) eqn:E2; zbool; [|split; [done|lia]].
    apply Ok_inj in H1 as <-. split; [done|]. intros _. by eapply decide_pending.
  - destruct (_ <? _) eqn:E1; [done|]. zbool. split; [lia|tauto].
  - destruct (_ <? _) eqn:E1; [done|]. zbool. split; [lia|].
    destruct (_ <? _) eqn:E2; zbool; [|lia].
    apply Ok_inj in H1 as <-. intros _. by eapply decide_pending.
Qed.

Lemma rules_by_key_elem rules k r :
  rules_by_key rules !! k = Some r -> r ∈ rules /\ rule_key r = k.
Proof.
  unfold rules_by_key. induction rules as [|x rules IH] using rev_ind; cbn; [by rewrite lookup_empty|].
  rewrite foldl_app. cbn. intros [[<- <-]|[_ H]]%lookup_insert_Some.
  - split; [apply elem_of_app; right; left|done].
  - destruct (IH H). split; [apply elem_of_app; by left|done].
Qed.

Lemma rules_by_key_is_Some rules r : r ∈ rules -> is_Some (rules_by_key rules !! rule_key r).
Proof.
  unfold rules_by_key. induction rules as [|x rules IH] using rev_ind; [by intros ?%not_elem_of_nil|].
  rewrite foldl_app. cbn. intros [Hr|Hr%list_elem_of_singleton]%elem_of_app; [|subst x]; apply lookup_insert_is_Some'; eauto.
Qed.

(** Charging one ancestor: each of its cells for the day grows by the total
    and stays within the ancestor's daily limit. *)
Lemma charge_spec day p totals keys u u' :
  NoDup keys -> (forall k, k ∈ keys -> is_Some (rules_by_key (p_Rules p) !! k)) ->
  charge_ancestor day totals keys u p = Ok u' ->
  (forall k, k ∈ keys ->
     let cell := (p_APIKeyID p, k, day) in
     default 0 (u' !! cell) = default 0 (u !! cell) + default 0 (totals !! k) /\
     (forall r, rules_by_key (p_Rules p) !! k = Some r ->
        lim_le (Some (default 0 (u' !! cell))) (limit_of (r_DailyLimit r)))) /\
  (forall cell, (cell.1.1 <> p_APIKeyID p \/ cell.1.2 ∉ keys \/ cell.2 <> day) -> u' !! cell = u !! cell).
Proof.
  unfold charge_ancestor. intros Hnd; revert u; induction Hnd as [|k keys Hk _ IH]; intros u Hsome H; cbn [fold_res] in H.
  { apply Ok_inj in H as <-. split; [by intros ? ?%not_elem_of_nil|done]. }
  apply res_bind_Ok in H as (u1 & H1 & H).
  destruct (IH u1) as [IH1 IH2]; [intros k' Hk'; apply Hsome; by right|done|].
  destruct (Hsome k) as [rk Hrk]; [left|]. destruct (rules_by_key_elem _ _ _ Hrk) as [_ Ek].
  unfold charge_step in H1. rewrite Hrk in H1. change (default zero_rule (Some rk)) with rk in H1. cbv zeta in H1. rewrite Ek in H1.
  destruct (_ && _) eqn:El; [done|]. apply Ok_inj in H1 as <-.
  set (cell := (p_APIKeyID p, k, day)) in *. split.
  - intros k' [->|Hk']%elem_of_cons.
    + cbv zeta. fold cell. rewrite (IH2 cell) by (right; left; exact Hk). rewrite lookup_insert_eq. cbn [default from_option].
      split; [done|]. intros r Hr. assert (r = rk) as -> by congruence. unfold limit_of.
      destruct (String.eqb (r_DailyLimit rk) ""); cbn [negb andb] in El; [done|]. zbool. simpl. done.
    + destruct (IH1 k' Hk') as [A1 A2]. cbv zeta. split; [|done]. rewrite A1.
      rewrite lookup_insert_ne; [done|]. intros [= ->]. done.
  - intros c Hc. rewrite IH2 by set_solver. apply lookup_insert_ne. intros <-. cbn in Hc. set_solver.
Qed.

Lemma charge_all_spec day totals keys ps u u' :
  NoDup keys -> (forall p k, p ∈ ps -> k ∈ keys -> is_Some (rules_by_key (p_Rules p) !! k)) ->
  NoDup (p_APIKeyID <$> ps) ->
  fold_res (charge_ancestor day totals keys) ps u = Ok u' ->
  (forall p k, p ∈ ps -> k ∈ keys ->
     let cell := (p_APIKeyID p, k, day) in
     default 0 (u' !! cell) = default 0 (u !! cell) + default 0 (totals !! k) /\
     (forall r, rules_by_key (p_Rules p) !! k = Some r ->
        lim_le (Some (default 0 (u' !! cell))) (limit_of (r_DailyLimit r)))) /\
  (forall cell, (cell.1.1 ∉ p_APIKeyID <$> ps \/ cell.1.2 ∉ keys \/ cell.2 <> day) -> u' !! cell = u !! cell).
Proof.
  intros Hk; revert u; induction ps as [|p ps IH]; intros u Hsome Hnd H; cbn [fold_res] in H.
  { apply Ok_inj in H as <-. split; [by intros ? ? ?%not_elem_of_nil|done]. }
  rewrite fmap_cons in Hnd. apply NoDup_cons in Hnd as [Hp Hnd].
  apply res_bind_Ok in H as (u1 & H1 & H). destruct (IH u1) as [IH1 IH2]; [set_solver|done..|].
  destruct (charge_spec day p totals keys u u1) as [C1 C2]; [done|set_solver|done|]. split.
  - intros q k [->|Hq]%elem_of_cons Hkk; cbv zeta.
    + rewrite (IH2 (p_APIKeyID p, k, day)) by (left; exact Hp). by apply C1.
    + destruct (IH1 q k Hq Hkk) as [A1 A2]. split; [|done]. rewrite A1. rewrite C2; [done|].
      left. cbn. intros Heq. apply Hp. rewrite <- Heq. by apply list_elem_of_fmap_2.
  - intros cell Hc. rewrite IH2, C2; [done|..]; rewrite fmap_cons, not_elem_of_cons in Hc; tauto.
Qed.

Section AdmissionFacts.
Variable json_legs : list PolicyLeg -> string.

(** The successful first admission of an identity, taken apart. *)
Lemma AdmitPolicy_new db now id key identity legs db' a :
  find_admission db key identity = None ->
  AdmitPolicy json_legs db now id key identity legs = Ok (db', Some a) ->
  exists ids q totals, keyAncestry db key = Ok ids /\
    Intersect key (ancestorPolicies db ids) = Some q /\ p_DenyAll q = false /\
    fold_res (total_step q (rules_by_key (p_Rules q))) legs ∅ = Ok totals /\
    let keys := merge_sort string_le (elements (dom totals)) in
    fold_res (decide_step (rules_by_key (p_Rules q)) totals) keys "not_required"%string = Ok (pa_Decision a) /\
    fold_res (charge_ancestor (truncate_day now) totals keys)
      (merge_sort key_le (ancestorPolicies db ids)) (db_usage db) = Ok (db_usage db') /\
    pa_Legs a = legs /\ pa_ID a = id /\ pa_Identity a = identity.
Proof.
  intros Hnone H. unfold AdmitPolicy in H. apply res_bind_Ok in H as (ids & Hids & H).
  rewrite Hnone in H. destruct (Intersect key _) as [q|] eqn:EI; [|done].
  destruct (p_DenyAll q) eqn:Ed; [done|]. apply res_bind_Ok in H as (totals & Ht & H).
  destruct (length legs =? 0)%nat; [done|]. apply res_bind_Ok in H as (d & Hd & H).
  apply res_bind_Ok in H as (u & Hu & H). destruct (db_admissions db !! id); [done|].
  apply res_bind_Ok in H as (bs & _ & H). apply Ok_inj, pair_equal_spec in H as [<- [= <-]].
  exists ids, q, totals. cbn. done.
Qed.

(** C24: an admission obeys every policy of the delegation chain.  When a new
    request is admitted, no policy from the key up to its root denies all;
    every leg's balances and ledgers are on every ancestor's allowlists; every
    currency has a rule in every ancestor and the request's aggregate under
    it is within the ancestor's single-transaction limit; an aggregate above
    any ancestor's approval threshold leaves the admission pending; and each
    ancestor's daily usage grows by exactly the aggregate and stays within
    its daily limit. *)
Theorem AdmitPolicy_obeys_every_ancestor
    (db db' : policy_db) (now : Z) (id key identity : string) (legs : list PolicyLeg) (a : PolicyAdmission) :
  find_admission db key identity = None ->
  AdmitPolicy json_legs db now id key identity legs = Ok (db', Some a) ->
  exists ids, keyAncestry db key = Ok ids /\
  forall p, p ∈ ancestorPolicies db ids ->
    p_DenyAll p = false /\
    forall leg, leg ∈ legs ->
      let k := leg_key leg in
      let n := leg_total legs k in
      let cell := (p_APIKeyID p, k, truncate_day now) in
      leg_allowed p leg /\
      (exists r, r ∈ p_Rules p /\ rule_key r = k /\
         lim_le (Some n) (limit_of (r_MaxTransaction r)) /\
         (~ lim_le (Some n) (limit_of (r_ApprovalAbove r)) -> pa_Decision a = "pending"%string)) /\
      default 0 (db_usage db' !! cell) = default 0 (db_usage db !! cell) + n /\
      (forall r, rules_by_key (p_Rules p) !! k = Some r ->
         lim_le (Some (default 0 (db_usage db' !! cell))) (limit_of (r_DailyLimit r))).
Proof.
  intros Hnone H. apply AdmitPolicy_new in H as (ids & q & totals & Hids & HI & Hd & Ht & Hdec & Hu & _); [|done].
  exists ids. split; [done|]. intros p Hp.
  destruct (Intersect_within _ _ _ p HI Hp Hd) as (Hpd & HL & HB & HR). split; [done|].
  intros leg Hleg. cbv zeta. set (k := leg_key leg).
  apply totals_spec in Ht as (T1 & T2 & T3). destruct (T3 leg Hleg) as [[r Hr] (A1 & A2 & A3 & A4)].
  specialize (T1 k). rewrite lookup_empty in T1. cbn [default from_option] in T1. rewrite Z.add_0_l in T1.
  set (keys := merge_sort string_le (elements (dom totals))) in *.
  assert (k ∈ keys) as Hk.
  { unfold keys. rewrite merge_sort_Permutation, elem_of_elements, T2.
    apply elem_of_union. right. apply elem_of_list_to_set. by apply list_elem_of_fmap_2. }
  assert (NoDup keys) as Hndk by (unfold keys; rewrite merge_sort_Permutation; apply NoDup_elements).
  destruct (decide_spec _ _ _ _ _ _ _ Hdec Hk Hr) as [D1 D2]. rewrite T1 in D1, D2.
  apply rules_by_key_elem in Hr as [Hrin Hrk]. destruct (HR r Hrin) as (r' & Hr' & K' & W1 & _ & W3).
  apply charge_all_spec in Hu as [C1 _].
  2: { done. }
  2: { intros p2 k2 Hp2 Hk2. rewrite merge_sort_Permutation in Hp2.
       unfold keys in Hk2. rewrite merge_sort_Permutation, elem_of_elements, T2, dom_empty_L, (left_id_L ∅ (∪)) in Hk2.
       apply elem_of_list_to_set, list_elem_of_fmap in Hk2 as (l2 & -> & Hl2).
       destruct (T3 l2 Hl2) as [[r2 Hr2] _]. apply rules_by_key_elem in Hr2 as [Hin2 <-].
       destruct (Intersect_within _ _ _ p2 HI Hp2 Hd) as (_ & _ & _ & HR2).
       destruct (HR2 r2 Hin2) as (r3 & Hr3 & K3 & _). rewrite K3. by apply rules_by_key_is_Some. }
  2: { rewrite (fmap_Permutation _ _ _ (merge_sort_Permutation key_le _)).
       apply ancestorPolicies_ids. by eapply chain_NoDup, keyAncestry_chain. }
  destruct (C1 p k) as [U1 U2]; [by rewrite merge_sort_Permutation|done|]. rewrite T1 in U1.
  split; [by repeat split; auto|]. split; [|done].
  exists r'. split; [done|]. split; [by rewrite <- K', Hrk|]. split; [by etrans|].
  intros Hn. apply D2. intros Hle. apply Hn. by etrans.
Qed.

(** Every binding refers to a stored admission (the foreign key). *)
Definition bindings_fk (db : policy_db) : Prop :=
  forall ref b, db_bindings db !! ref = Some b -> is_Some (db_admissions db !! bd_admission_id b).

Lemma find_admission_insert db key identity id row m :
  find_admission db key identity = None -> db_admissions db !! id = None ->
  pa_APIKeyID (ar_admission row) = key -> pa_Identity (ar_admission row) = identity ->
  db_admissions m = <[id := row]> (db_admissions db) ->
  find_admission m key identity = Some row.
Proof.
  intros Hnone Hid Hk Hi Hm. unfold find_admission in *. rewrite Hm.
  apply head_None in Hnone.
  set (P := fun r => pa_APIKeyID (ar_admission r) = key /\ pa_Identity (ar_admission r) = identity) in *.
  assert (filter P (snd <$> map_to_list (<[id:=row]> (db_admissions db))) ≡ₚ [row]) as Hp.
  { rewrite (map_to_list_insert _ _ row Hid), fmap_cons, filter_cons. cbn [snd].
    rewrite decide_True by done. by rewrite Hnone. }
  apply Permutation_singleton_r in Hp. by rewrite Hp.
Qed.

Lemma bind_legs_released id legs bs bs' :
  (forall ref b, bs !! ref = Some b -> bd_admission_id b = id -> bd_released b = 0) ->
  fold_res (bind_leg id) legs bs = Ok bs' ->
  forall ref b, bs' !! ref = Some b -> bd_admission_id b = id -> bd_released b = 0.
Proof.
  intros H0 H. revert H. apply (fold_res_inv (fun bs => forall ref b, bs !! ref = Some b ->
    bd_admission_id b = id -> bd_released b = 0)); [done|].
  intros leg s1 s2 _ Hs1 H2 ref b. unfold bind_leg in H2.
  destruct (s1 !! pl_Reference leg); [done|]. case_bool_decide; [done|].
  apply Ok_inj in H2 as <-. intros [[<- <-]|[_ ?]]%lookup_insert_Some; [done|eauto].
Qed.

(** Admissions are idempotent.  Repeating an admitted request (same key,
    identity and legs) at any later time returns the same admission and
    changes nothing, so no budget is charged twice; a request with the same
    identity and different leg details is refused as a conflict. *)
Theorem AdmitPolicy_idempotent
    (db db' : policy_db) (now now2 : Z) (id id2 key identity : string)
    (legs legs2 : list PolicyLeg) (a : PolicyAdmission) :
  bindings_fk db -> find_admission db key identity = None ->
  AdmitPolicy json_legs db now id key identity legs = Ok (db', Some a) ->
  AdmitPolicy json_legs db' now2 id2 key identity legs = Ok (db', Some a) /\
  (policyFingerprint json_legs legs2 <> policyFingerprint json_legs legs ->
   AdmitPolicy json_legs db' now2 id2 key identity legs2 = Err ErrIdentityConflict).
Proof.
  intros Hfk Hnone H. unfold AdmitPolicy in H |- *. apply res_bind_Ok in H as (ids & Hids & H).
  rewrite Hnone in H. destruct (Intersect key _) as [q|] eqn:EI; [|done].
  destruct (p_DenyAll q); [done|]. apply res_bind_Ok in H as (totals & Ht & H).
  destruct (length legs =? 0)%nat; [done|]. apply res_bind_Ok in H as (d & Hd & H).
  apply res_bind_Ok in H as (u & Hu & H). destruct (db_admissions db !! id) eqn:Hid; [done|].
  apply res_bind_Ok in H as (bs & Hbs & H). apply Ok_inj, pair_equal_spec in H as [Hdb Ha].
  assert (keyAncestry db' key = Ok ids) as -> by (rewrite <- Hdb; exact Hids). cbn [res_bind].
  injection Ha as Ha.
  rewrite (find_admission_insert db key identity id
    {| ar_admission := a; ar_fingerprint := policyFingerprint json_legs legs |} db');
    [|done|done|by rewrite <- Ha|by rewrite <- Ha|by rewrite <- Hdb, <- Ha].
  unfold readmit. cbn [ar_admission ar_fingerprint]. split.
  - rewrite String.eqb_refl. cbn [negb].
    assert (String.eqb (pa_Decision a) "rejected" = false) as ->.
    { rewrite <- Ha. cbn [pa_Decision]. clear -Hd. revert Hd.
      apply (fold_res_inv (fun d => String.eqb d "rejected" = false)); [done|].
      intros k s1 s2 _ Hs1 H2. unfold decide_step in H2.
      destruct (rules_by_key _ !! k); [|by apply Ok_inj in H2 as <-].
      destruct (_ && _); [done|]. by destruct (_ && _); apply Ok_inj in H2 as <-. }
    rewrite bool_decide_eq_false_2; [done|]. intros (ref & b & Hb & Hba & Hr).
    rewrite <- Hdb in Hb. cbn [db_bindings] in Hb. rewrite <- Ha in Hba. cbn [pa_ID] in Hba.
    rewrite (bind_legs_released id legs (db_bindings db) bs) with (ref := ref) (b := b) in Hr; try done.
    intros ref' b' Hb' Hid'. destruct (Hfk _ _ Hb') as [? Hx]. congruence.
  - intros Hne. destruct (String.eqb _ _) eqn:E; [by zbool|done].
Qed.

(** Approval is independent and final.  A decision by a non-master
    principal is only recorded when it holds the exact approvals:write scope,
    is not the initiating key and is not delegated from it, and, when both
    keys descend from one root, is that root itself; and a decision changes
    no admission but a pending one. *)
Theorem approval_independent_and_final
    (db db' : policy_db) (id : string) (p : Principal) (approve : bool) (a : PolicyAdmission) :
  DecidePolicyApproval db id p approve = Ok (db', a) ->
  (exists row, db_admissions db !! id = Some row /\
     (pr_Master p = false ->
        "approvals:write"%string ∈ pr_Scopes p /\
        pa_APIKeyID (ar_admission row) <> pr_APIKeyID p /\
        exists ids initiator_ids, keyAncestry db (pr_APIKeyID p) = Ok ids /\
          keyAncestry db (pa_APIKeyID (ar_admission row)) = Ok initiator_ids /\
          pa_APIKeyID (ar_admission row) ∉ ids /\
          (last initiator_ids = last ids -> ids = [pr_APIKeyID p]))) /\
  pa_Decision a = (if approve then "approved" else "rejected")%string /\
  (forall id' row row', db_admissions db !! id' = Some row -> db_admissions db' !! id' = Some row' ->
     row' = row \/ (id' = id /\ pa_Decision (ar_admission row) = "pending"%string)).
Proof.
  unfold DecidePolicyApproval. intros H. destruct (negb (CanApprove p)) eqn:Hc; [done|].
  destruct (db_admissions db !! id) as [row|] eqn:Hrow; [|done].
  apply res_bind_Ok in H as ([] & Hi & H). split; [|].
  - exists row. split; [done|]. intros Hm. unfold CanApprove in Hc. rewrite Hm in Hc. cbn in Hc.
    unfold independentApprover in Hi. rewrite Hm in Hi.
    destruct (String.eqb (pa_APIKeyID (ar_admission row)) (pr_APIKeyID p)) eqn:E1; [done|]. zbool.
    apply res_bind_Ok in Hi as (is1 & Hk1 & Hi). apply res_bind_Ok in Hi as (is2 & Hk2 & Hi).
    destruct (existsb _ is2) eqn:E2; [done|].
    split; [|split; [done|]].
    + unfold has in Hc. apply existsb_exists in Hc as (s & Hs & ->%String.eqb_eq).
      by apply list_elem_of_In.
    + exists is2, is1. split; [done|]. split; [done|]. split; [|intros Hlast].
      2: { rewrite bool_decide_eq_true_2 in Hi by done. cbn [andb] in Hi.
           destruct (length is2 =? 1)%nat eqn:E3; [|done]. apply Nat.eqb_eq in E3.
           apply keyAncestry_chain in Hk2. destruct is2 as [|k2 [|]]; try done. by inversion Hk2. }
      intros Hin. apply list_elem_of_In in Hin.
      assert (existsb (fun id0 => String.eqb id0 (pa_APIKeyID (ar_admission row))) is2 = true) as Ht.
      { apply existsb_exists. eexists. split; [exact Hin|apply String.eqb_refl]. }
      congruence.
  - cbv zeta in H.
    destruct (String.eqb (pa_Decision (ar_admission row)) (if approve then "approved" else "rejected")%string) eqn:E1.
    { zbool. apply Ok_inj, pair_equal_spec in H as [<- <-]. split; [by destruct approve|].
      intros id' r r' H1 H2. left. congruence. }
    destruct (String.eqb (pa_Decision (ar_admission row)) "pending") eqn:E2; cbn [negb] in H; [|done].
    zbool. apply Ok_inj, pair_equal_spec in H as [<- <-].
    split; [by destruct approve|]. intros id' r r' H1 H2. cbn in H2.
    apply lookup_insert_Some in H2 as [[<- _]|[_ H2]]; [right|left; congruence].
    split; [done|]. congruence.
Qed.

(** A policy that a key manager stores narrows its ancestors.  After
    [PutKeyPolicy] succeeds the stored document is enabled, and is within
    every enabled policy of the key's proper ancestors. *)
Theorem PutKeyPolicy_narrows (db db' : policy_db) (principal : Principal) (p stored : KeyPolicy) :
  PutKeyPolicy db principal p = Ok (db', stored) ->
  exists ids row, keyAncestry db (p_APIKeyID p) = Ok ids /\
    db_policies db' !! p_APIKeyID p = Some row /\ kp_enabled row = true /\
    forall q, q ∈ ancestorPolicies db (tail ids) -> policy_within (kp_document row) q.
Proof.
  unfold PutKeyPolicy. intros H. destruct (String.eqb (p_APIKeyID p) ""); [done|].
  apply res_bind_Ok in H as (? & _ & H). apply res_bind_Ok in H as (ids & Hids & H).
  apply res_bind_Ok in H as (? & _ & H). apply res_bind_Ok in H as ([] & Hv & H).
  apply Ok_inj, pair_equal_spec in H as [<- _]. cbn [db_policies p_APIKeyID].
  eexists ids, _. split; [done|]. rewrite lookup_insert_eq. split; [done|]. split; [done|].
  intros q Hq. pose proof (ValidateNarrowing_ancestors _ _ _ _ Hv Hq) as Hw.
  intros Hd. exact (Hw Hd).
Qed.
End AdmissionFacts.

(** ** Witnesses *)

Module PolicyStoreWitness.

Definition json_refs (legs : list PolicyLeg) : string :=
  String.concat "," (pl_Reference <$> legs).
Definition leg (reference amount : string) : PolicyLeg :=
  {| pl_TransactionID := "txn_" +:+ reference; pl_Reference := reference; pl_Source := "b1";
     pl_Destination := "b2"; pl_SourceLedger := "l2"; pl_DestinationLedger := "l2";
     pl_Currency := "USD"; pl_Precision := f_of_Z 100; pl_Amount := amount |}.
Definition stored (p : KeyPolicy) : policy_row :=
  {| kp_document := p; kp_version := 1; kp_enabled := true |}.
Definition db0 : policy_db :=
  {| db_parents := {["child" := "root"]}%string;
     db_policies := <["child" := stored PolicyWitness.child]> {["root" := stored PolicyWitness.root]}%string;
     db_usage := {[ ("root", RuleKey "USD" (f_of_Z 100), 0) := 900 ]}%string;
     db_admissions := ∅; db_bindings := ∅; db_budgets := [] |}.
Definition legs : list PolicyLeg := [leg "r1" "40"; leg "r2" "30"].
Definition submit (db : policy_db) (now : Z) (id : string) (legs : list PolicyLeg) :=
  AdmitPolicy json_refs db now id "child" "req-1" legs.
Definition db1 : policy_db := match submit db0 5 "adm_1" legs with Ok (db, _) => db | Err _ => db0 end.
Definition a1 : PolicyAdmission :=
  {| pa_ID := "adm_1"; pa_APIKeyID := "child"; pa_Identity := "req-1"; pa_Version := 2; pa_Day := 0;
     pa_Decision := "pending"; pa_DecidedBy := ""; pa_Legs := legs |}.

Lemma AdmitPolicy_obeys_every_ancestor_witness :
  submit db0 5 "adm_1" legs = Ok (db1, Some a1) /\
  exists ids, keyAncestry db0 "child" = Ok ids /\
  forall p, p ∈ ancestorPolicies db0 ids -> p_DenyAll p = false.
Proof.
  assert (submit db0 5 "adm_1" legs = Ok (db1, Some a1)) as H by (vm_compute; reflexivity).
  split; [exact H|].
  destruct (AdmitPolicy_obeys_every_ancestor json_refs db0 db1 5 "adm_1" "child" "req-1" legs a1)
    as (ids & Hids & Hp); [vm_compute; reflexivity|exact H|].
  exists ids. split; [exact Hids|]. intros p Hin. exact (proj1 (Hp p Hin)).
Defined.

Lemma AdmitPolicy_idempotent_witness :
  submit db1 7 "adm_2" legs = Ok (db1, Some a1) /\
  submit db1 7 "adm_2" [leg "r3" "40"] = Err ErrIdentityConflict.
Proof.
  destruct (AdmitPolicy_idempotent json_refs db0 db1 5 7 "adm_1" "adm_2" "child" "req-1"
              legs [leg "r3" "40"] a1) as [H1 H2].
  - intros ref b Hb. exfalso. revert Hb. cbn [db0 db_bindings]. rewrite lookup_empty. discriminate.
  - vm_compute. reflexivity.
  - vm_compute. reflexivity.
  - split; [exact H1|]. apply H2. vm_compute. discriminate.
Defined.

Definition reviewer : Principal :=
  {| pr_APIKeyID := "other"; pr_Scopes := ["approvals:write"%string]; pr_Master := false |}.
Definition a1_approved : PolicyAdmission :=
  {| a1 with pa_Decision := "approved"; pa_DecidedBy := "other" |}.
Definition db2 : policy_db :=
  match DecidePolicyApproval db1 "adm_1" reviewer true with Ok (db, _) => db | Err _ => db0 end.

Lemma approval_independent_and_final_witness :
  DecidePolicyApproval db1 "adm_1" reviewer true = Ok (db2, a1_approved) /\
  pa_Decision a1_approved = "approved"%string.
Proof.
  assert (DecidePolicyApproval db1 "adm_1" reviewer true = Ok (db2, a1_approved)) as H
    by (vm_compute; reflexivity).
  split; [exact H|].
  exact (proj1 (proj2 (approval_independent_and_final db1 db2 "adm_1" reviewer true a1_approved H))).
Defined.

Definition db_put : policy_db :=
  match PutKeyPolicy db0 reviewer PolicyWitness.narrow_child with Ok (db, _) => db | Err _ => db0 end.
Definition put : KeyPolicy :=
  let p := PolicyWitness.narrow_child in {| p with p_Version := 2 |}.

Lemma PutKeyPolicy_narrows_witness :
  exists ids row, keyAncestry db0 "child" = Ok ids /\
    db_policies db_put !! "child"%string = Some row /\ kp_enabled row = true /\
    forall q, q ∈ ancestorPolicies db0 (tail ids) -> policy_within (kp_document row) q.
Proof.
  apply (PutKeyPolicy_narrows db0 db_put reviewer PolicyWitness.narrow_child put).
  vm_compute. reflexivity.
Defined.
End PolicyStoreWitness.
