(* ===== verification/Access.v ===== *)
(** * API keys, scopes and authentication

    [api/middleware/scope.go], [api/middleware/auth.go], [api/apikeys.go],
    [model/api_key.go] and [database/api_key.go]: who may call what, and what
    a key may hand on to the keys it creates.  bcrypt and the random source
    are parameters; the rewriting of a request body by
    [injectAPIKeyToMetadata] is kept as its outcome. *)
From stdpp Require Import base option list strings gmap.
From Stdlib Require Import ZArith Lia Ascii.
From S2P Require Import Prelude GoFloat Model Policy PolicyStore.
Open Scope Z_scope.

(** ** Scopes *)

(** [strings.Split] on a one-byte separator. *)
Fixpoint Split (sep : ascii) (s : string) : list string :=
  match s with
  | EmptyString => [EmptyString]
  | String c r =>
      if Ascii.eqb c sep then EmptyString :: Split sep r
      else match Split sep r with
           | p :: ps => String c p :: ps
           | [] => [String c EmptyString]
           end
  end.

Definition ActionRead : string := "read".
Definition ActionWrite : string := "write".
Definition ActionDelete : string := "delete".
Definition ActionAll : string := "*".
Definition ResourceAll : string := "*".

(** The map [methodToAction]; a missing key gives the empty action. *)
Definition methodToAction (method : string) : string :=
  if existsb (String.eqb method) ["GET"; "HEAD"]%string then ActionRead
  else if existsb (String.eqb method) ["POST"; "PUT"; "PATCH"]%string then ActionWrite
  else if String.eqb method "DELETE" then ActionDelete
  else "".

(** [BuildScope]. *)
Definition BuildScope (resource action : string) : string := resource +:+ ":" +:+ action.

(** [ParseScope]. *)
Definition ParseScope (scope : string) : string * string :=
  match Split ":" scope with
  | [resource; action] => (resource, action)
  | _ => (""%string, ""%string)
  end.

Definition action_within (granted action : string) : bool :=
  String.eqb granted ActionAll || String.eqb granted action.

(** [HasPermission]. *)
Definition HasPermission (scopes : list string) (resource method : string) : bool :=
  let action := methodToAction method in
  if String.eqb action "" then false
  else existsb (fun scope =>
         let '(scopeResource, scopeAction) := ParseScope scope in
         if String.eqb scopeResource ResourceAll then action_within scopeAction action
         else String.eqb scopeResource resource && action_within scopeAction action) scopes.

(** [ScopeCovers]. *)
Definition ScopeCovers (grantedScope requestedScope : string) : bool :=
  let '(grantedResource, grantedAction) := ParseScope grantedScope in
  let '(requestedResource, requestedAction) := ParseScope requestedScope in
  if String.eqb grantedResource "" || String.eqb grantedAction ""
     || String.eqb requestedResource "" || String.eqb requestedAction "" then false
  else if String.eqb grantedResource ResourceAll then action_within grantedAction requestedAction
  else if negb (String.eqb grantedResource requestedResource) then false
  else action_within grantedAction requestedAction.

(** [CanGrantScopes]. *)
Definition CanGrantScopes (callerScopes requestedScopes : list string) : bool :=
  forallb (fun requested => existsb (fun caller => ScopeCovers caller requested) callerScopes) requestedScopes.

(** ** Paths *)

(** The map [pathToResource]. *)
Definition pathToResource (segment : string) : option string :=
  match List.find (fun kv => String.eqb (fst kv) segment)
    [("ledgers", "ledgers"); ("balances", "balances"); ("balances-snapshots", "balances");
     ("accounts", "accounts"); ("identities", "identities"); ("transactions", "transactions");
     ("balance-monitors", "balance-monitors"); ("hooks", "hooks"); ("api-keys", "api-keys");
     ("policies", "policies"); ("approvals", "approvals"); ("search", "search");
     ("reconciliation", "reconciliation"); ("metadata", "metadata"); ("backup", "backup");
     ("backup-s3", "backup")]%string with
  | Some kv => Some (snd kv)
  | None => None
  end.

Definition TrimSlash (path : string) : string :=
  match path with String "/" rest => rest | _ => path end.

(** [getResourceFromPath]; the empty string is no resource. *)
Definition getResourceFromPath (path : string) : string :=
  let parts := Split "/" (TrimSlash path) in
  let first := default ""%string (head parts) in
  if String.eqb first "mocked-account" then "accounts"
  else if String.eqb first "multi-search" then "search"
  else if String.eqb first "refund-transaction" then "transactions"
  else if String.eqb (default ""%string (last parts)) "metadata" then "metadata"
  else default ""%string (pathToResource first).

(** ** The key table *)

(** A row of [api_keys]: an [APIKey] with its hash and prefix; a NULL prefix or
    parent is empty. *)
Record APIKey := {
  k_APIKeyID : string; k_Key : string; k_Name : string; k_OwnerID : string; k_Scopes : list string;
  k_ExpiresAt : Z; k_CreatedAt : Z; k_LastUsedAt : Z; k_IsRevoked : bool; k_RevokedAt : option Z;
  k_ParentAPIKeyID : string; k_prefix : string }.

(** [IsValid]. *)
Definition IsValid (now : Z) (k : APIKey) : bool := negb (k_IsRevoked k) && (now <? k_ExpiresAt k).

(** [getKeyPrefix]. *)
Definition getKeyPrefix (key : string) : string := String.substring 0 16 key.

(** The delegation ancestry the policy store reads. *)
Definition parents_of (keys : list APIKey) : gmap string string :=
  foldr (fun k m => if String.eqb (k_ParentAPIKeyID k) "" then m
                    else <[k_APIKeyID k := k_ParentAPIKeyID k]> m) ∅ keys.

Definition ErrAPIKeyNotFound : go_error := sentinel "database.ErrAPIKeyNotFound" "api key not found".
Definition ErrLegacyAPIKeyVerificationBusy : go_error :=
  sentinel "database.ErrLegacyAPIKeyVerificationBusy" "legacy API key verification is busy".

Section Keys.
(** bcrypt ([golang.org/x/crypto]): a hash with the n-th salt drawn, and its
    verification. *)
Variable GenerateFromPassword : string -> nat -> option string.
Variable CompareHashAndPassword : string -> string -> bool.
(** The n-th key and id drawn from the random source. *)
Variable GenerateKey : nat -> string.
Variable GenerateUUIDWithSuffix : string -> nat -> string.
(** [disableLegacyAPIKeys], and whether one of the verification slots is free. *)
Variable disableLegacyAPIKeys : bool.
Variable slot_free : bool.

(** The constraints and the trigger [protect_api_key_ancestry] on an insert. *)
Definition insert_key (keys : list APIKey) (k : APIKey) : result (list APIKey) :=
  if existsb (fun k' => String.eqb (k_APIKeyID k') (k_APIKeyID k)) keys
  then Err (errors_New "pq: duplicate key value violates unique constraint api_keys_api_key_id_key")
  else if existsb (fun k' => String.eqb (k_Key k') (k_Key k)) keys
  then Err (errors_New "pq: duplicate key value violates unique constraint api_keys_key_key")
  else if String.eqb (k_ParentAPIKeyID k) "" then Ok (keys ++ [k])
  else if negb (existsb (fun k' => String.eqb (k_APIKeyID k') (k_ParentAPIKeyID k)) keys)
  then Err (errors_New "pq: insert or update on table api_keys violates foreign key constraint")
  else if 64 <=? Z.of_nat (length (ancestors_from 63 (parents_of keys) (k_ParentAPIKeyID k)))
  then Err (errors_New "pq: API key delegation exceeds maximum depth")
  else Ok (keys ++ [k]).

(** [CreateAPIKey]: the table, and the key with its plain text. *)
Definition CreateAPIKey (keys : list APIKey) (principal : Principal) (n : nat) (now : Z)
    (name ownerID : string) (scopes : list string) (expiresAt : Z) : result (list APIKey * APIKey) :=
  let plain := GenerateKey n in
  match GenerateFromPassword plain n with
  | None => Err (errors_New "failed to hash API key")
  | Some hash =>
      let row := {| k_APIKeyID := GenerateUUIDWithSuffix "api_key" n; k_Key := hash; k_Name := name;
        k_OwnerID := ownerID; k_Scopes := scopes; k_ExpiresAt := expiresAt; k_CreatedAt := now;
        k_LastUsedAt := 0; k_IsRevoked := false; k_RevokedAt := None;
        k_ParentAPIKeyID := if pr_Master principal then "" else pr_APIKeyID principal;
        k_prefix := getKeyPrefix plain |} in
      let* keys' := insert_key keys row in
      Ok (keys', {| row with k_Key := plain |})
  end.

(** [findAPIKey]: the row that verifies, and whether any row was a candidate. *)
Definition candidates (keys : list APIKey) (now : Z) (key : string) (legacy : bool) : list APIKey :=
  if legacy
  then filter (fun k => k_prefix k = ""%string /\ k_IsRevoked k = false /\ now < k_ExpiresAt k) keys
  else filter (fun k => k_prefix k = getKeyPrefix key) keys.
Definition findAPIKey (keys : list APIKey) (now : Z) (key : string) (legacy : bool)
    : option APIKey * bool :=
  let rows := candidates keys now key legacy in
  (List.find (fun k => (negb legacy || IsValid now k) && CompareHashAndPassword (k_Key k) key) rows,
   match rows with [] => false | _ => true end).

(** The backfill of a legacy row's prefix. *)
Definition backfill (found : APIKey) (key : string) (k : APIKey) : APIKey :=
  if String.eqb (k_APIKeyID k) (k_APIKeyID found) && String.eqb (k_Key k) (k_Key found)
     && String.eqb (k_prefix k) ""
  then {| k with k_prefix := getKeyPrefix key |} else k.

(** [GetAPIKey]: the table it leaves, and the key without its hash. *)
Definition GetAPIKey (keys : list APIKey) (now : Z) (key : string) : list APIKey * result APIKey :=
  match findAPIKey keys now key false with
  | (Some k, _) => (keys, Ok {| k with k_Key := "" |})
  | (None, true) => (keys, Err ErrAPIKeyNotFound)
  | (None, false) =>
      if disableLegacyAPIKeys then (keys, Err ErrAPIKeyNotFound)
      else if negb slot_free then (keys, Err ErrLegacyAPIKeyVerificationBusy)
      else match findAPIKey keys now key true with
           | (Some k, _) => (backfill k key <$> keys, Ok {| k with k_Key := "" |})
           | (None, _) => (keys, Err ErrAPIKeyNotFound)
           end
  end.

(** [RevokeAPIKey]. *)
Definition RevokeAPIKey (keys : list APIKey) (now : Z) (id ownerID : string) : result (list APIKey) :=
  let hit k := String.eqb (k_APIKeyID k) id && String.eqb (k_OwnerID k) ownerID in
  if negb (existsb hit keys) then Err ErrAPIKeyNotFound
  else Ok ((fun k => if hit k then {| k with k_IsRevoked := true; k_RevokedAt := Some now |} else k) <$> keys).

(** [UpdateLastUsed]. *)
Definition UpdateLastUsed (keys : list APIKey) (now : Z) (id : string) : list APIKey :=
  (fun k => if String.eqb (k_APIKeyID k) id then {| k with k_LastUsedAt := now |} else k) <$> keys.

(** [ListAPIKeys]; the order is by creation, newest first. *)
Definition ListAPIKeys (keys : list APIKey) (ownerID : string) : list APIKey :=
  (fun k => {| k with k_Key := "" |}) <$> reverse (filter (fun k => k_OwnerID k = ownerID) keys).

(** ** The handlers of [api/apikeys.go] *)

(** Who is calling: what [Authenticate] put into the request. *)
Inductive caller := Anonymous | Master | ByKey (k : APIKey).
Definition isMasterKeyRequest (c : caller) : bool := match c with Master => true | _ => false end.
Definition currentAPIKeyPrincipal (c : caller) : option APIKey := match c with ByKey k => Some k | _ => None end.
Definition principal_of (c : caller) : Principal :=
  match c with
  | Anonymous => {| pr_APIKeyID := ""; pr_Master := false; pr_Scopes := [] |}
  | Master => {| pr_APIKeyID := ""; pr_Master := true; pr_Scopes := [] |}
  | ByKey k => {| pr_APIKeyID := k_APIKeyID k; pr_Master := false; pr_Scopes := k_Scopes k |}
  end.

Definition errAPIKeyOwnerRequired : go_error := errors_New "owner is required".
Definition errAPIKeyCrossOwnerAccess : go_error := errors_New "cannot manage API keys for another owner".
Definition errAPIKeyExpiryEscalation : go_error := errors_New "cannot grant an expiry later than caller".
Definition errAPIKeyScopeEscalation : go_error := errors_New "cannot grant scopes broader than caller".
Definition errMissingAPIKeyPrincipal : go_error := errors_New "authenticated API key principal missing".

(** [resolveAPIKeyOwner]. *)
Definition resolveAPIKeyOwner (isMaster : bool) (principal : option APIKey) (requestedOwner : string)
    (ownerRequired : bool) : result string :=
  if isMaster then
    if ownerRequired && String.eqb requestedOwner "" then Err errAPIKeyOwnerRequired else Ok requestedOwner
  else match principal with
  | None => Err errMissingAPIKeyPrincipal
  | Some p =>
      if negb (String.eqb requestedOwner "") && negb (String.eqb requestedOwner (k_OwnerID p))
      then Err errAPIKeyCrossOwnerAccess else Ok (k_OwnerID p)
  end.

Fixpoint has_char (c : ascii) (s : string) : bool :=
  match s with EmptyString => false | String c' r => Ascii.eqb c' c || has_char c r end.

(** [validateGrantedScopes]. *)
Definition validateGrantedScopes (isMaster : bool) (principal : option APIKey) (requested : list string) : result unit :=
  if isMaster then Ok tt
  else match principal with
  | None => Err errMissingAPIKeyPrincipal
  | Some p =>
      if existsb (has_char "*") requested then Err errAPIKeyScopeEscalation
      else if negb (CanGrantScopes (k_Scopes p) requested) then Err errAPIKeyScopeEscalation
      else Ok tt
  end.

(** [validateGrantedExpiry]. *)
Definition validateGrantedExpiry (isMaster : bool) (principal : option APIKey) (expiresAt : Z) : result unit :=
  if isMaster then Ok tt
  else match principal with
  | None => Err errMissingAPIKeyPrincipal
  | Some p => if (expiresAt =? 0) || (k_ExpiresAt p <? expiresAt) then Err errAPIKeyExpiryEscalation else Ok tt
  end.

(** [CreateAPIKey] of the API. *)
Record CreateAPIKeyRequest := { rq_Name : string; rq_Scopes : list string; rq_Owner : string; rq_ExpiresAt : Z }.
Definition api_CreateAPIKey (keys : list APIKey) (c : caller) (n : nat) (now : Z) (req : CreateAPIKeyRequest)
    : result (list APIKey * APIKey) :=
  let isMaster := isMasterKeyRequest c in
  let principal := currentAPIKeyPrincipal c in
  let* ownerID := resolveAPIKeyOwner isMaster principal (rq_Owner req) true in
  let* _ := validateGrantedScopes isMaster principal (rq_Scopes req) in
  let* _ := validateGrantedExpiry isMaster principal (rq_ExpiresAt req) in
  CreateAPIKey keys (principal_of c) n now (rq_Name req) ownerID (rq_Scopes req) (rq_ExpiresAt req).

(** [RevokeAPIKey] of the API. *)
Definition api_RevokeAPIKey (keys : list APIKey) (c : caller) (now : Z) (id requestedOwner : string)
    : result (list APIKey) :=
  let isMaster := isMasterKeyRequest c in
  let requestedOwner := if isMaster then requestedOwner else ""%string in
  let* ownerID := resolveAPIKeyOwner isMaster (currentAPIKeyPrincipal c) requestedOwner isMaster in
  RevokeAPIKey keys now id ownerID.

(** ** Authentication *)

Record Request := { r_Path : string; r_Method : string; r_Key : string }.
Record ServerConfig := { cf_Secure : bool; cf_SecretKey : string }.
Inductive decision := Next (c : caller) | AbortWith (code : string).

(** [Authenticate]: [config] is what [config.Fetch] returns, [inject] the
    outcome of [injectAPIKeyToMetadata] for a key, an error code on failure. *)
Definition Authenticate (keys : list APIKey) (now : Z) (config : option ServerConfig)
    (inject : string -> option string) (r : Request) : list APIKey * decision :=
  if existsb (String.eqb (r_Path r)) ["/"; "/health"; "/metrics"]%string then (keys, Next Anonymous)
  else if match config with Some c => negb (cf_Secure c) | None => false end then (keys, Next Anonymous)
  else if String.eqb (r_Key r) "" then (keys, AbortWith "AUTH_MISSING_API_KEY")
  else if match config with
          | Some c => negb (String.eqb (cf_SecretKey c) "") && String.eqb (cf_SecretKey c) (r_Key r)
          | None => false end then (keys, Next Master)
  else match GetAPIKey keys now (r_Key r) with
  | (keys', Err e) =>
      (keys', AbortWith (if errors_Is e "database.ErrLegacyAPIKeyVerificationBusy"
                         then "GEN_RATE_LIMITED" else "AUTH_INVALID_API_KEY"))
  | (keys', Ok k) =>
      if negb (IsValid now k) then (keys', AbortWith "AUTH_EXPIRED_API_KEY")
      else
        let resource := getResourceFromPath (r_Path r) in
        if String.eqb resource "" then (keys', AbortWith "AUTH_UNKNOWN_RESOURCE")
        else if negb (String.eqb resource "policies") && negb (String.eqb resource "approvals")
                && negb (HasPermission (k_Scopes k) resource (r_Method r))
        then (keys', AbortWith "AUTH_INSUFFICIENT_PERMISSIONS")
        else match (if String.eqb (r_Method r) "POST" then inject (k_APIKeyID k) else None) with
             | Some code => (keys', AbortWith code)
             | None => (UpdateLastUsed keys' now (k_APIKeyID k), Next (ByKey k))
             end
  end.
End Keys.

(** ** Scopes form a preorder that granting respects *)

Definition scopes_le (a b : list string) : Prop :=
  forall resource method, HasPermission a resource method = true -> HasPermission b resource method = true.

#[export] Instance scopes_le_preorder : PreOrder scopes_le.
Proof. split; [by intros a r m|]. intros a b c H1 H2 r m H. by apply H2, H1. Qed.

Lemma action_within_trans a b c : action_within a b = true -> action_within b c = true -> b <> ActionAll -> action_within a c = true.
Proof.
  unfold action_within. intros [H|H]%orb_true_iff [H'|H']%orb_true_iff Hb; apply String.eqb_eq in H, H'; subst; try done.
  by rewrite String.eqb_refl, orb_true_r.
Qed.

Lemma action_within_widen a b c : action_within a b = true -> action_within b c = true -> action_within a c = true.
Proof.
  intros H1 H2. destruct (decide (b = ActionAll)) as [->|]; [|by apply (action_within_trans a b c)].
  unfold action_within in *. apply orb_true_iff in H1 as [H1|H1]; apply String.eqb_eq in H1; subst; done.
Qed.

(** One scope that covers another grants all it grants. *)
Lemma ScopeCovers_sound granted requested resource method :
  ScopeCovers granted requested = true ->
  HasPermission [requested] resource method = true -> HasPermission [granted] resource method = true.
Proof.
  unfold ScopeCovers, HasPermission. destruct (ParseScope granted) as [gr ga] eqn:Eg.
  destruct (ParseScope requested) as [rr ra] eqn:Er.
  destruct (_ || String.eqb ra "") eqn:Ene; [done|].
  destruct (String.eqb (methodToAction method) ""); [done|]. cbn [existsb]. rewrite Eg, Er, !orb_false_r.
  destruct (String.eqb gr ResourceAll) eqn:Egr.
  - intros Hc Hp. apply (action_within_widen ga ra); [exact Hc|].
    destruct (String.eqb rr ResourceAll); [done|]. by apply andb_true_iff in Hp as [_ Hp].
  - destruct (String.eqb gr rr) eqn:E; [|done]. apply String.eqb_eq in E. subst rr. rewrite Egr. cbn [negb].
    intros Hc [Hr Ha]%andb_true_iff. rewrite Hr. cbn [andb]. by apply (action_within_widen ga ra).
Qed.

Lemma HasPermission_elem scopes resource method :
  HasPermission scopes resource method = true <-> exists s, s ∈ scopes /\ HasPermission [s] resource method = true.
Proof.
  unfold HasPermission. destruct (String.eqb (methodToAction method) ""); [naive_solver|].
  rewrite existsb_exists. split.
  - intros (s & Hs & H). exists s. rewrite list_elem_of_In. split; [done|]. cbn. by rewrite H.
  - intros (s & Hs & H). exists s. rewrite <- list_elem_of_In. split; [done|]. cbn in H. by rewrite orb_false_r in H.
Qed.

Lemma CanGrantScopes_le caller requested : CanGrantScopes caller requested = true -> scopes_le requested caller.
Proof.
  unfold CanGrantScopes. rewrite forallb_forall. intros H resource method Hp.
  apply HasPermission_elem in Hp as (r & Hr & Hp). apply list_elem_of_In, H, existsb_exists in Hr as (c & Hc & Hcov).
  apply HasPermission_elem. exists c. rewrite list_elem_of_In. split; [done|]. by eapply ScopeCovers_sound.
Qed.

(** ** Ancestry of a key table *)

Lemma parents_of_Some keys id p : NoDup (k_APIKeyID <$> keys) ->
  parents_of keys !! id = Some p <->
  exists k, k ∈ keys /\ k_APIKeyID k = id /\ k_ParentAPIKeyID k = p /\ p <> ""%string.
Proof.
  induction keys as [|k keys IH]; intros Hnd; cbn [parents_of foldr].
  { rewrite lookup_empty. split; [done|]. by intros (k & ?%not_elem_of_nil & _). }
  rewrite fmap_cons in Hnd. apply NoDup_cons in Hnd as [Hk Hnd]. specialize (IH Hnd). fold (parents_of keys).
  assert (forall x, x ∈ keys -> k_APIKeyID x <> k_APIKeyID k) as Hne.
  { intros x Hx E. apply Hk. rewrite <- E. by apply list_elem_of_fmap_2. }
  destruct (String.eqb (k_ParentAPIKeyID k) "") eqn:E; zbool.
  - rewrite IH. setoid_rewrite elem_of_cons. naive_solver.
  - rewrite lookup_insert_Some, IH. setoid_rewrite elem_of_cons. split.
    + intros [[<- <-]|(Hn & x & Hx & H)]; [exists k; tauto|exists x; tauto].
    + intros (x & [->|Hx] & H1 & H2 & H3); [left; by subst|]. right. subst. split; [|by exists x].
      intros Heq. by apply (Hne x Hx).
Qed.

Lemma ancestors_from_ext (inside : string -> Prop) m1 m2 fuel x :
  (forall y, inside y -> m1 !! y = m2 !! y) -> (forall y p, inside y -> m1 !! y = Some p -> inside p) -> inside x ->
  ancestors_from fuel m1 x = ancestors_from fuel m2 x.
Proof.
  intros Heq Hcl. revert x. induction fuel as [|fuel IH]; intros x Hx; [done|]. cbn [ancestors_from].
  rewrite <- Heq by done. destruct (m1 !! x) as [p|] eqn:E; [|done]. f_equal. apply IH. by eapply Hcl.
Qed.

Lemma ancestors_from_S fuel m x :
  ancestors_from (S fuel) m x = x :: match m !! x with Some p => ancestors_from fuel m p | None => [] end.
Proof. done. Qed.

(** ** What a key hands on *)

(** [k] has the owner of [p], expires no later, and may do no more. *)
Definition within (k p : APIKey) : Prop :=
  k_OwnerID k = k_OwnerID p /\ k_ExpiresAt k <= k_ExpiresAt p /\ scopes_le (k_Scopes k) (k_Scopes p).
#[export] Instance within_preorder : PreOrder within.
Proof.
  split; [intros k; split_and!; [done|lia|done]|]. intros a b c (O1 & E1 & S1) (O2 & E2 & S2).
  split_and!; [congruence|lia|by transitivity (k_Scopes b)].
Qed.

(** The columns no statement updates. *)
Definition same_key (a b : APIKey) : Prop :=
  k_APIKeyID a = k_APIKeyID b /\ k_OwnerID a = k_OwnerID b /\ k_Scopes a = k_Scopes b /\
  k_ExpiresAt a = k_ExpiresAt b /\ k_ParentAPIKeyID a = k_ParentAPIKeyID b.

Record keys_ok (keys : list APIKey) : Prop := {
  ko_ids : NoDup (k_APIKeyID <$> keys);
  ko_parent : forall k, k ∈ keys -> k_ParentAPIKeyID k <> ""%string ->
    exists p, p ∈ keys /\ k_APIKeyID p = k_ParentAPIKeyID k /\ within k p;
  ko_depth : forall k, k ∈ keys -> (length (ancestors_from 64 (parents_of keys) (k_APIKeyID k)) <= 64)%nat }.

Lemma within_same a b c d : same_key a b -> same_key c d -> within b d -> within a c.
Proof. intros (_ & A1 & A2 & A3 & _) (_ & C1 & C2 & C3 & _). unfold within. by rewrite A1, A2, A3, C1, C2, C3. Qed.

Lemma parents_of_map g keys : (forall k, same_key (g k) k) -> parents_of (g <$> keys) = parents_of keys.
Proof.
  intros Hg. induction keys as [|k keys IH]; [done|]. rewrite fmap_cons. cbn [parents_of foldr].
  fold (parents_of (g <$> keys)) (parents_of keys). destruct (Hg k) as (E1 & _ & _ & _ & E2). by rewrite IH, E1, E2.
Qed.

Lemma map_keys_ok g keys : (forall k, same_key (g k) k) -> keys_ok keys -> keys_ok (g <$> keys).
Proof.
  intros Hg [H1 H2 H3]. split.
  - rewrite <- list_fmap_compose. erewrite list_fmap_ext; [exact H1|]. intros i k _. apply Hg.
  - intros k (k0 & -> & Hk)%list_elem_of_fmap. destruct (Hg k0) as (E1 & E2 & E3 & E4 & E5). rewrite E5. intros Hne.
    destruct (H2 k0 Hk Hne) as (p & Hp & Hid & Hw). exists (g p). split; [by apply list_elem_of_fmap_2|].
    split; [by rewrite (proj1 (Hg p))|]. by eapply within_same.
  - intros k (k0 & -> & Hk)%list_elem_of_fmap. rewrite parents_of_map by done. rewrite (proj1 (Hg k0)). by apply H3.
Qed.

Section InsertKey.
Variables (keys : list APIKey) (k : APIKey).
Hypothesis Hok : keys_ok keys.
Hypothesis Hfresh : forall x, x ∈ keys -> k_APIKeyID x <> k_APIKeyID k.

Lemma insert_ids : NoDup (k_APIKeyID <$> keys ++ [k]).
Proof.
  rewrite fmap_app. apply NoDup_app. split; [apply Hok|]. split; [|apply NoDup_singleton].
  intros x (y & -> & Hy)%list_elem_of_fmap E%list_elem_of_singleton. by apply (Hfresh y).
Qed.

(** The ancestry of the other keys does not change. *)
Lemma insert_ancestors fuel x : x ∈ keys ->
  ancestors_from fuel (parents_of (keys ++ [k])) (k_APIKeyID x) = ancestors_from fuel (parents_of keys) (k_APIKeyID x).
Proof.
  intros Hx. symmetry. apply (ancestors_from_ext (fun y => y ∈ k_APIKeyID <$> keys)).
  - intros y (z & -> & Hz)%list_elem_of_fmap. apply option_eq. intros p.
    rewrite (parents_of_Some _ _ _ (ko_ids _ Hok)), (parents_of_Some _ _ _ insert_ids). setoid_rewrite elem_of_app.
    setoid_rewrite list_elem_of_singleton. split.
    + intros (w & Hw & H). exists w. split; [by left|done].
    + intros (w & [Hw| ->] & H & Hr); [by exists w|]. exfalso. by apply (Hfresh z).
  - intros y p _ Hp. apply (parents_of_Some _ _ _ (ko_ids _ Hok)) in Hp as (w & Hw & _ & <- & Hne).
    destruct (ko_parent _ Hok w Hw Hne) as (q & Hq & <- & _). by apply list_elem_of_fmap_2.
  - by apply list_elem_of_fmap_2.
Qed.

Lemma insert_parent p : k_ParentAPIKeyID k = p ->
  parents_of (keys ++ [k]) !! k_APIKeyID k = if String.eqb p "" then None else Some p.
Proof.
  intros <-. apply option_eq. intros q. rewrite (parents_of_Some _ _ _ insert_ids). split.
  - intros (w & [Hw| ->%list_elem_of_singleton]%elem_of_app & H1 & <- & H3); [by apply (Hfresh w) in H1|].
    by apply String.eqb_neq in H3 as ->.
  - destruct (String.eqb (k_ParentAPIKeyID k) "") eqn:E; [done|]. intros [= <-]. zbool. exists k.
    rewrite elem_of_app, list_elem_of_singleton. auto.
Qed.
End InsertKey.

Lemma insert_keys_ok keys k keys' :
  keys_ok keys -> insert_key keys k = Ok keys' ->
  (k_ParentAPIKeyID k <> ""%string -> exists p, p ∈ keys /\ k_APIKeyID p = k_ParentAPIKeyID k /\ within k p) ->
  keys_ok keys'.
Proof.
  intros Hok Hins Hpar. unfold insert_key in Hins.
  destruct (existsb (fun k' => String.eqb (k_APIKeyID k') (k_APIKeyID k)) keys) eqn:Eid; [done|].
  destruct (existsb _ keys) eqn:Ekey in Hins; [done|]. clear Ekey.
  assert (forall x, x ∈ keys -> k_APIKeyID x <> k_APIKeyID k) as Hfresh.
  { intros x Hx E. enough (existsb (fun k' => String.eqb (k_APIKeyID k') (k_APIKeyID k)) keys = true) by congruence.
    apply existsb_exists. exists x. by rewrite <- list_elem_of_In, E, String.eqb_refl. }
  assert (keys' = keys ++ [k]) as ->.
  { clear - Hins. repeat (res_step Hins; try discriminate Hins); by apply Ok_inj in Hins. }
  split; [by apply insert_ids| |].
  - intros x [Hx|Hx%list_elem_of_singleton]%elem_of_app Hne.
    + destruct (ko_parent _ Hok x Hx Hne) as (p & Hp & H). exists p. split; [apply elem_of_app; by left|done].
    + subst x. destruct (Hpar Hne) as (p & Hp & H). exists p. split; [apply elem_of_app; by left|done].
  - intros x [Hx|Hx%list_elem_of_singleton]%elem_of_app; [rewrite insert_ancestors by done; by apply Hok|]. subst x.
    rewrite (ancestors_from_S 63), (insert_parent keys k Hok Hfresh _ eq_refl).
    destruct (String.eqb (k_ParentAPIKeyID k) "") eqn:E; [cbn; lia|]. zbool.
    destruct (Hpar E) as (p & Hp & Hid & _). destruct (negb _); [done|]. destruct (64 <=? _) eqn:Ed; [done|]. zbool.
    cbn [length]. rewrite <- Hid, insert_ancestors, Hid by done. lia.
Qed.

(** ** Histories of the key table *)

Section Histories.
Variables (hash : string -> nat -> option string) (verify : string -> string -> bool).
Variables (new_key : nat -> string) (gen : string -> nat -> string) (no_legacy slot_free : bool).

(** The caller was authenticated: its key is a row of the table. *)
Definition authenticated (keys : list APIKey) (c : caller) : Prop :=
  match c with ByKey k => exists row, row ∈ keys /\ same_key row k | _ => True end.

Inductive keys_step (keys keys' : list APIKey) : Prop :=
| step_create_key c n now req k :
    authenticated keys c -> api_CreateAPIKey hash new_key gen keys c n now req = Ok (keys', k) ->
    keys_step keys keys'
| step_revoke_key c now id owner : api_RevokeAPIKey keys c now id owner = Ok keys' -> keys_step keys keys'
| step_authenticate now config inject r :
    keys' = fst (Authenticate verify no_legacy slot_free keys now config inject r) -> keys_step keys keys'.

Inductive keys_reachable : list APIKey -> Prop :=
| keys_none : keys_reachable []
| keys_more keys keys' : keys_reachable keys -> keys_step keys keys' -> keys_reachable keys'.

Lemma create_keys_ok keys c n now req keys' k :
  keys_ok keys -> authenticated keys c -> api_CreateAPIKey hash new_key gen keys c n now req = Ok (keys', k) -> keys_ok keys'.
Proof.
  intros Hok Hauth H. unfold api_CreateAPIKey in H.
  apply res_bind_Ok in H as (owner & Ho & H). apply res_bind_Ok in H as ([] & Hs & H).
  apply res_bind_Ok in H as ([] & He & H). unfold CreateAPIKey in H. destruct (hash _ _) as [h|]; [|done].
  apply res_bind_Ok in H as (keys1 & Hi & H). apply Ok_inj in H as [= -> _].
  eapply insert_keys_ok; [done|exact Hi|]. cbn [k_ParentAPIKeyID]. destruct c as [| |p]; cbn; [done..|]. intros _.
  destruct Hauth as (row & Hrow & S1 & S2 & S3 & S4 & _). exists row. split; [done|]. split; [done|].
  cbn in Ho, Hs, He. unfold within. cbn. rewrite S2, S3, S4.
  destruct (_ && _) in Ho; [done|]. apply Ok_inj in Ho as <-.
  destruct (existsb _ _) in Hs; [done|]. destruct (CanGrantScopes _ _) eqn:Hg in Hs; [|done].
  destruct (_ || _) eqn:Hx in He; [done|]. zbool. split_and!; [done|lia|by apply CanGrantScopes_le].
Qed.

(** The table after an authentication differs in prefixes and use times. *)
Lemma Authenticate_map keys now config inject r :
  exists g, fst (Authenticate verify no_legacy slot_free keys now config inject r) = g <$> keys /\
    forall k, same_key (g k) k /\ k_IsRevoked (g k) = k_IsRevoked k.
Proof.
  assert (forall k : APIKey, same_key (id k) k /\ k_IsRevoked (id k) = k_IsRevoked k) as Hid by done.
  assert (exists g0, fst (GetAPIKey verify no_legacy slot_free keys now (r_Key r)) = g0 <$> keys /\
    forall k, same_key (g0 k) k /\ k_IsRevoked (g0 k) = k_IsRevoked k) as (g0 & Hg0 & Hs0).
  { unfold GetAPIKey. destruct (findAPIKey _ _ _ _ false) as [[k|] []];
      try (exists id; rewrite list_fmap_id; done).
    destruct no_legacy; [exists id; by rewrite list_fmap_id|]. destruct (negb slot_free); [exists id; by rewrite list_fmap_id|].
    destruct (findAPIKey _ _ _ _ true) as [[k|] ?]; [|exists id; by rewrite list_fmap_id].
    exists (backfill k (r_Key r)). split; [done|]. intros x. unfold backfill. by destruct (_ && _). }
  unfold Authenticate. destruct (existsb _ _); [exists id; by rewrite list_fmap_id|].
  destruct (match config with Some c => negb (cf_Secure c) | None => false end); [exists id; by rewrite list_fmap_id|].
  destruct (String.eqb (r_Key r) ""); [exists id; by rewrite list_fmap_id|].
  destruct (match config with Some c => _ && _ | None => false end); [exists id; by rewrite list_fmap_id|].
  destruct (GetAPIKey _ _ _ _ _ _) as [keys' [k|e]]; cbn in Hg0; subst keys'; [|by exists g0].
  destruct (negb (IsValid now k)); [by exists g0|]. cbv zeta. destruct (String.eqb _ ""); [by exists g0|].
  destruct (_ && _); [by exists g0|]. destruct (if String.eqb _ "POST" then _ else _); [by exists g0|].
  exists ((fun k' => if String.eqb (k_APIKeyID k') (k_APIKeyID k) then {| k' with k_LastUsedAt := now |} else k') ∘ g0).
  cbn [fst]. unfold UpdateLastUsed. rewrite list_fmap_compose. split; [done|]. intros x. cbn. destruct (Hs0 x) as [H1 H2].
  by destruct (String.eqb _ _).
Qed.

Lemma revoke_map keys now id owner keys' : RevokeAPIKey keys now id owner = Ok keys' ->
  exists g, keys' = g <$> keys /\ forall k, same_key (g k) k /\
    (k_APIKeyID k = id /\ k_OwnerID k = owner -> k_IsRevoked (g k) = true).
Proof.
  unfold RevokeAPIKey. destruct (negb _); [done|]. intros H. apply Ok_inj in H as <-. eexists. split; [reflexivity|].
  intros k. cbv beta. destruct (_ && _) eqn:E; [done|]. split; [done|]. intros [E1 E2].
  by rewrite E1, E2, !String.eqb_refl in E.
Qed.

Lemma step_keys_ok keys keys' : keys_step keys keys' -> keys_ok keys -> keys_ok keys'.
Proof.
  intros [c n now req k Ha Hc|c now id owner Hr|now config inject r ->] Hok.
  - by eapply create_keys_ok.
  - unfold api_RevokeAPIKey in Hr. apply res_bind_Ok in Hr as (o & _ & Hr). apply revoke_map in Hr as (g & -> & Hg).
    apply map_keys_ok; [|done]. intros k. apply Hg.
  - destruct (Authenticate_map keys now config inject r) as (g & -> & Hg). apply map_keys_ok; [|done]. intros k. apply Hg.
Qed.

Lemma reachable_keys_ok keys : keys_reachable keys -> keys_ok keys.
Proof.
  induction 1 as [|keys keys' _ IH Hs]; [|by eapply step_keys_ok]. split; [constructor|..]; by intros k ?%not_elem_of_nil.
Qed.

(** A key is within each of its ancestors. *)
Lemma chain_within keys k l : keys_ok keys -> k ∈ keys -> chain (parents_of keys) (k_APIKeyID k) l ->
  forall a, a ∈ keys -> k_APIKeyID a ∈ l -> within k a.
Proof.
  intros Hok Hk Hc. remember (k_APIKeyID k) as id eqn:Eid. revert k Hk Eid.
  assert (forall x y, x ∈ keys -> y ∈ keys -> k_APIKeyID x = k_APIKeyID y -> x = y) as Hinj.
  { intros x y Hx Hy E. apply list_elem_of_lookup in Hx as [i Hi], Hy as [j Hj].
    assert (i = j) as ->; [|congruence].
    apply (NoDup_lookup _ i j (k_APIKeyID x) (ko_ids _ Hok)); rewrite list_lookup_fmap; [by rewrite Hi|rewrite Hj; cbn; congruence]. }
  induction Hc as [id Hnone|id p l Hp Hc IH]; intros k Hk -> a Ha Hin.
  - apply list_elem_of_singleton in Hin. by rewrite (Hinj a k).
  - apply elem_of_cons in Hin as [Hin|Hin]; [by rewrite (Hinj a k)|].
    apply (parents_of_Some _ _ _ (ko_ids _ Hok)) in Hp as (w & Hw & Hwid & Hwp & Hne).
    rewrite (Hinj w k) in Hwp by done. rewrite <- Hwp in Hne.
    destruct (ko_parent _ Hok k Hk Hne) as (q & Hq & Hqid & Hwithin).
    transitivity q; [done|]. apply (IH q); congruence.
Qed.


(** *** Revocation *)

Lemma GetAPIKey_row keys now key keys' k :
  GetAPIKey verify no_legacy slot_free keys now key = (keys', Ok k) ->
  exists row, row ∈ keys /\ k = {| row with k_Key := "" |} /\ verify (k_Key row) key = true.
Proof.
  assert (forall legacy row b, findAPIKey verify keys now key legacy = (Some row, b) -> row ∈ keys /\ verify (k_Key row) key = true) as Hf.
  { intros legacy row b [= Hrow _]. apply List.find_some in Hrow as [Hin Hv]. apply andb_true_iff in Hv as [_ Hv].
    apply list_elem_of_In in Hin. unfold candidates in Hin. destruct legacy; by apply list_elem_of_filter in Hin as [_ Hin]. }
  unfold GetAPIKey. destruct (findAPIKey _ _ _ _ false) as [[row|] []] eqn:E; [| |done|].
  1,2: intros [= _ <-]; destruct (Hf _ _ _ E); by exists row.
  destruct no_legacy; [done|]. destruct (negb slot_free); [done|].
  destruct (findAPIKey _ _ _ _ true) as [[row|] ?] eqn:E2; [|done].
  intros [= _ <-]; destruct (Hf _ _ _ E2); by exists row.
Qed.

Lemma Authenticate_ByKey keys now config inject r k :
  snd (Authenticate verify no_legacy slot_free keys now config inject r) = Next (ByKey k) ->
  (exists row, row ∈ keys /\ k = {| row with k_Key := "" |} /\ verify (k_Key row) (r_Key r) = true) /\
  IsValid now k = true /\ getResourceFromPath (r_Path r) <> ""%string /\
  (HasPermission (k_Scopes k) (getResourceFromPath (r_Path r)) (r_Method r) = true \/
   getResourceFromPath (r_Path r) = "policies"%string \/ getResourceFromPath (r_Path r) = "approvals"%string).
Proof.
  unfold Authenticate. destruct (existsb _ _); [done|].
  destruct (match config with Some c => negb (cf_Secure c) | None => false end); [done|].
  destruct (String.eqb (r_Key r) ""); [done|].
  destruct (match config with Some c => _ && _ | None => false end); [done|].
  destruct (GetAPIKey _ _ _ _ _ _) as [keys' [k'|e]] eqn:EG; [|done].
  destruct (IsValid now k') eqn:EV; [|done]. cbn [negb]. set (res := getResourceFromPath (r_Path r)). cbv zeta.
  destruct (String.eqb res "") eqn:ER; [done|].
  destruct (_ && _) eqn:EP; [done|]. destruct (if String.eqb _ "POST" then _ else _); [done|]. intros [= ->].
  split; [by eapply GetAPIKey_row|]. zbool. split_and!; [done..|].
  destruct (HasPermission _ _ _); [by left|]. right. rewrite andb_true_r in EP. apply andb_false_iff in EP as [E|E]; zbool; auto.
Qed.

(** The key [id] is in the table and revoked. *)
Definition revoked (id : string) (keys : list APIKey) : Prop :=
  exists row, row ∈ keys /\ k_APIKeyID row = id /\ k_IsRevoked row = true.

Lemma RevokeAPIKey_revoked keys now id owner keys' : RevokeAPIKey keys now id owner = Ok keys' -> revoked id keys'.
Proof.
  intros Hrev. pose proof Hrev as Hm. apply revoke_map in Hm as (g & -> & Hg). unfold RevokeAPIKey in Hrev.
  destruct (existsb _ keys) eqn:E; [|done]. apply existsb_exists in E as (x & Hx & Hhit). zbool.
  apply list_elem_of_In in Hx. exists (g x). destruct (Hg x) as [(H1 & _) H2]. split; [by apply list_elem_of_fmap_2|].
  split; [by rewrite H1|]. by apply H2.
Qed.

Lemma step_revoked keys keys' id : keys_step keys keys' -> revoked id keys -> revoked id keys'.
Proof.
  intros Hs (row & Hrow & Hid & Hd). destruct Hs as [cl n now req k _ Hc|cl now i o Hr|now config inject r ->].
  - unfold api_CreateAPIKey in Hc. do 3 apply res_bind_Ok in Hc as (? & _ & Hc). unfold CreateAPIKey in Hc.
    destruct (hash _ _); [|done]. apply res_bind_Ok in Hc as (ks & Hi & Hc). apply Ok_inj in Hc as [= -> _].
    exists row. split; [|done]. unfold insert_key in Hi.
    repeat (res_step Hi; try discriminate Hi); apply Ok_inj in Hi as <-; apply elem_of_app; by left.
  - unfold api_RevokeAPIKey in Hr. apply res_bind_Ok in Hr as (oo & _ & Hr). unfold RevokeAPIKey in Hr.
    destruct (negb _); [done|]. apply Ok_inj in Hr as <-. eexists. split; [by apply list_elem_of_fmap_2, Hrow|].
    cbv beta. by destruct (_ && _).
  - destruct (Authenticate_map keys now config inject r) as (g & -> & Hg). exists (g row). destruct (Hg row) as [(H1 & _) H2].
    split; [by apply list_elem_of_fmap_2|]. by rewrite H1, H2.
Qed.

(** A revoked key is refused at once.  After an owner's revocation of a
    key, no request - whatever header, path, method, clock and configuration -
    is authenticated as that key again, in any later history. *)
Theorem revocation_is_final (keys keys1 keys2 : list APIKey) (id owner : string) (now0 now : Z)
    (config : option ServerConfig) (inject : string -> option string) (r : Request) (k : APIKey) :
  keys_reachable keys -> RevokeAPIKey keys now0 id owner = Ok keys1 -> rtc keys_step keys1 keys2 ->
  snd (Authenticate verify no_legacy slot_free keys2 now config inject r) = Next (ByKey k) -> k_APIKeyID k <> id.
Proof.
  intros Hok%reachable_keys_ok Hrev Hsteps Hnext.
  assert (keys_ok keys1) as Hok1.
  { pose proof Hrev as Hm. apply revoke_map in Hm as (g & -> & Hg). apply map_keys_ok; [intros x; apply Hg|done]. }
  apply RevokeAPIKey_revoked in Hrev.
  assert (keys_ok keys2 /\ revoked id keys2) as [Hok2 (row & Hrow & Hid & Hdead)].
  { clear Hnext. induction Hsteps as [|a b c Hs _ IH]; [done|].
    apply IH; [by eapply step_revoked|by eapply step_keys_ok]. }
  apply Authenticate_ByKey in Hnext as ((row' & Hrow' & -> & _) & Hv & _). cbn. intros E.
  assert (row' = row) as ->.
  { apply list_elem_of_lookup in Hrow as [i Hi], Hrow' as [j Hj]. assert (i = j) as ->; [|congruence].
    apply (NoDup_lookup _ i j id (ko_ids _ Hok2)); rewrite list_lookup_fmap; [rewrite Hi|rewrite Hj]; cbn; congruence. }
  unfold IsValid in Hv. cbn in Hv. by rewrite Hdead in Hv.
Qed.

(** A wildcard scope is a policy manager one delegation away.  A key whose
    only scope is the wildcard cannot manage policies or approve, but the API
    lets it create a key that can: the wildcard covers the concrete
    administrative scopes when it grants them. *)
Theorem wildcard_mints_authority (keys : list APIKey) (p : APIKey) (n : nat) (now : Z) (h : string) :
  k_Scopes p = ["*:*"%string] -> k_ExpiresAt p <> 0 ->
  hash (new_key n) n = Some h ->
  (exists keys', insert_key keys
     {| k_APIKeyID := gen "api_key" n; k_Key := h; k_Name := "child"; k_OwnerID := k_OwnerID p;
        k_Scopes := ["policies:write"; "approvals:write"]%string; k_ExpiresAt := k_ExpiresAt p; k_CreatedAt := now;
        k_LastUsedAt := 0; k_IsRevoked := false; k_RevokedAt := None; k_ParentAPIKeyID := k_APIKeyID p;
        k_prefix := getKeyPrefix (new_key n) |} = Ok keys') ->
  CanManagePolicies (principal_of (ByKey p)) = false /\ CanApprove (principal_of (ByKey p)) = false /\
  exists keys' child,
    api_CreateAPIKey hash new_key gen keys (ByKey p) n now
      {| rq_Name := "child"; rq_Scopes := ["policies:write"; "approvals:write"]%string; rq_Owner := k_OwnerID p;
         rq_ExpiresAt := k_ExpiresAt p |} = Ok (keys', child) /\
    CanManagePolicies (principal_of (ByKey child)) = true /\ CanApprove (principal_of (ByKey child)) = true.
Proof.
  intros Hs He Hh [keys' Hins].
  split; [unfold CanManagePolicies, has; cbn; by rewrite Hs|]. split; [unfold CanApprove, has; cbn; by rewrite Hs|].
  unfold api_CreateAPIKey. cbn [isMasterKeyRequest currentAPIKeyPrincipal resolveAPIKeyOwner rq_Owner rq_Scopes rq_ExpiresAt].
  rewrite String.eqb_refl, andb_false_r. cbn [negb res_bind]. unfold validateGrantedScopes. rewrite Hs.
  change (CanGrantScopes ["*:*"%string] ["policies:write"; "approvals:write"]%string) with true.
  change (existsb (has_char "*") ["policies:write"; "approvals:write"]%string) with false. cbn [negb res_bind].
  unfold validateGrantedExpiry. rewrite Z.ltb_irrefl, orb_false_r. apply Z.eqb_neq in He as ->. cbn [res_bind].
  unfold CreateAPIKey. rewrite Hh. cbn [principal_of pr_Master pr_APIKeyID rq_Name rq_Scopes]. rewrite Hins.
  eexists _, _. split; [reflexivity|]. done.
Qed.
End Histories.

(** ** Witnesses *)
Module AccessWitness.

(** A toy bcrypt that keeps the salt in front of the password. *)
Definition toy_hash (password : string) (n : nat) : option string := Some (itoa (Z.of_nat n) +:+ "$" +:+ password).
Definition toy_verify (h password : string) : bool :=
  match Split "$" h with [_; p] => String.eqb p password | _ => false end.
Definition toy_key (n : nat) : string := "key-" +:+ itoa (Z.of_nat n).
Definition toy_gen (suffix : string) (n : nat) : string := suffix +:+ "_" +:+ itoa (Z.of_nat n).

Definition create (keys : list APIKey) (c : caller) (n : nat) (scopes : list string) (expires : Z) : list APIKey :=
  match api_CreateAPIKey toy_hash toy_key toy_gen keys c n 5
          {| rq_Name := "k"; rq_Scopes := scopes; rq_Owner := "acme"; rq_ExpiresAt := expires |} with
  | Ok (keys', _) => keys' | Err _ => keys end.
Definition blank : APIKey :=
  {| k_APIKeyID := ""; k_Key := ""; k_Name := ""; k_OwnerID := ""; k_Scopes := []; k_ExpiresAt := 0; k_CreatedAt := 0;
     k_LastUsedAt := 0; k_IsRevoked := false; k_RevokedAt := None; k_ParentAPIKeyID := ""; k_prefix := "" |}.

Definition keys1 : list APIKey := create [] Master 1 ["*:*"]%string 100.
Definition root : APIKey := default blank (head keys1).
Definition keys2 : list APIKey := create keys1 (ByKey root) 2 ["transactions:read"]%string 90.
Definition agent : APIKey := default blank (last keys2).
Definition keys3 : list APIKey := match RevokeAPIKey keys2 6 "api_key_2" "acme" with Ok k => k | Err _ => [] end.

Lemma keys2_reachable : keys_reachable toy_hash toy_verify toy_key toy_gen false true keys2.
Proof.
  eapply keys_more; [eapply keys_more; [apply keys_none|]|].
  - eapply (step_create_key _ _ _ _ _ _ [] keys1 Master 1 5 {| rq_Name := "k"; rq_Scopes := ["*:*"]%string; rq_Owner := "acme"; rq_ExpiresAt := 100 |}); [done|].
    vm_compute. reflexivity.
  - eapply (step_create_key _ _ _ _ _ _ keys1 keys2 (ByKey root) 2 5 {| rq_Name := "k"; rq_Scopes := ["transactions:read"]%string; rq_Owner := "acme"; rq_ExpiresAt := 90 |}).
    + exists root. split; [vm_compute; left|done].
    + vm_compute. reflexivity.
Qed.

Definition no_policy_rows : policy_db :=
  {| db_parents := parents_of keys2; db_policies := ∅; db_usage := ∅; db_admissions := ∅; db_bindings := ∅; db_budgets := [] |}.


Definition get_with_key (n : nat) : Request := {| r_Path := "/transactions/1"; r_Method := "GET"; r_Key := toy_key n |}.
Definition secure : option ServerConfig := Some {| cf_Secure := true; cf_SecretKey := "master" |}.
Definition answer (keys : list APIKey) (n : nat) : decision :=
  snd (Authenticate toy_verify false true keys 7 secure (fun _ => None) (get_with_key n)).

(** Before the revocation the key is accepted; after it, only the root is. *)
Lemma revocation_is_final_witness :
  answer keys2 2 = Next (ByKey {| agent with k_Key := "" |}) /\ answer keys3 2 = AbortWith "AUTH_EXPIRED_API_KEY" /\
    k_APIKeyID root <> "api_key_2"%string.
Proof.
  split; [vm_compute; reflexivity|]. split; [vm_compute; reflexivity|].
  apply (revocation_is_final toy_hash toy_verify toy_key toy_gen false true keys2 keys3 keys3 "api_key_2" "acme" 6 7 secure
    (fun _ => None) (get_with_key 1) {| root with k_Key := "" |} keys2_reachable).
  - vm_compute. reflexivity.
  - apply rtc_refl.
  - vm_compute. reflexivity.
Defined.

Lemma wildcard_mints_authority_witness :
  CanManagePolicies (principal_of (ByKey root)) = false /\ CanApprove (principal_of (ByKey root)) = false /\
    exists keys' child, api_CreateAPIKey toy_hash toy_key toy_gen keys1 (ByKey root) 9 5
      {| rq_Name := "child"; rq_Scopes := ["policies:write"; "approvals:write"]%string; rq_Owner := k_OwnerID root;
         rq_ExpiresAt := k_ExpiresAt root |} = Ok (keys', child) /\
    CanManagePolicies (principal_of (ByKey child)) = true /\ CanApprove (principal_of (ByKey child)) = true.
Proof.
  apply (wildcard_mints_authority toy_hash toy_key toy_gen keys1 root 9 5 "9$key-9").
  - reflexivity.
  - vm_compute. discriminate.
  - vm_compute. reflexivity.
  - eexists. vm_compute. reflexivity.
Defined.
End AccessWitness.
