(* ===== verification/Store.v ===== *)
(** * The ledger store

    [database/]: the transactions, balances, refund claims, lineage outbox and
    policy tables as a record, with the triggers that the migrations of
    [internal/core/sql] install on an insert into [transactions]
    ([1791500001.sql], [1791504001.sql] to [1791504003.sql]), and the datasource
    operations on top of them.  An operation that runs in one database
    transaction either commits all its statements or changes nothing.  A row
    keeps the twenty columns that the inserts write; timestamps keep their
    instant. *)
From stdpp Require Import base option list strings gmap sorting.
From Stdlib Require Import ZArith Lia.
From S2P Require Import Prelude GoFloat Model GoTime Sha256 Decimal Amount Balance Policy PolicyStore.
Close Scope Q_scope.
Open Scope Z_scope.

(** ** Execution controls ([model/execution_controls.go]) *)

Record ExecutionControls := {
  ec_ReservedMetadata : gmap string json;
  ec_EconomicVersion : Z;
  ec_AllowOverdraft : bool; ec_Inflight : bool; ec_Atomic : bool; ec_SkipQueue : bool;
  ec_SkipBalanceUpdate : bool;
  ec_ParentKind : string; ec_QueuedParent : string; ec_QueueLane : string; ec_ShadowFor : string;
  ec_GroupIDs : list string;
  ec_Sources : list Distribution; ec_Destinations : list Distribution;
  ec_InflightExpiryDate : Z; ec_InflightCommitDate : Z }.

(** [ExecutionMetadata]. *)
Definition ExecutionMetadata (t : Transaction) : metadata :=
  match t_ReservedMetadata t with Some m => Some m | None => t_MetaData t end.

Definition reserved_keys : list string :=
  ["LEDGERFORGE_LINEAGE_PROVIDER"; "_lineage_type"; "_provider"; "_main_balance"; "_allocation"]%string.

(** [Transaction.ExecutionControls]. *)
Definition execution_controls (t : Transaction) : ExecutionControls := {|
  ec_ReservedMetadata :=
    filter (fun kv => kv.1 ∈ reserved_keys) (default ∅ (ExecutionMetadata t));
  ec_EconomicVersion := 1;
  ec_AllowOverdraft := t_AllowOverdraft t; ec_Inflight := t_Inflight t; ec_Atomic := t_Atomic t;
  ec_SkipQueue := t_SkipQueue t; ec_SkipBalanceUpdate := t_SkipBalanceUpdate t;
  ec_ParentKind := t_ParentKind t; ec_QueuedParent := t_QueuedParent t;
  ec_QueueLane := t_QueueLane t; ec_ShadowFor := t_ShadowFor t;
  ec_GroupIDs := t_GroupIds t; ec_Sources := t_Sources t; ec_Destinations := t_Destinations t;
  ec_InflightExpiryDate := t_InflightExpiryDate t;
  ec_InflightCommitDate := t_InflightCommitDate t |}.

(** [ExecutionControls.Apply]. *)
Definition apply_controls (c : ExecutionControls) (t : Transaction) : Transaction :=
  {| t with
     t_ReservedMetadata := Some (ec_ReservedMetadata c);
     t_AllowOverdraft := ec_AllowOverdraft c; t_Inflight := ec_Inflight c; t_Atomic := ec_Atomic c;
     t_SkipQueue := ec_SkipQueue c; t_SkipBalanceUpdate := ec_SkipBalanceUpdate c;
     t_ParentKind := ec_ParentKind c; t_QueuedParent := ec_QueuedParent c;
     t_QueueLane := ec_QueueLane c; t_ShadowFor := ec_ShadowFor c;
     t_GroupIds := ec_GroupIDs c; t_Sources := ec_Sources c; t_Destinations := ec_Destinations c;
     t_InflightExpiryDate := ec_InflightExpiryDate c;
     t_InflightCommitDate := ec_InflightCommitDate c |}.

(** ** Tables *)

(** A row of [transactions]. *)
Record txn_row := {
  x_id : string; x_parent : string; x_source : string; x_reference : string;
  x_amount : string; x_precise : Z; x_precision : float64; x_currency : string;
  x_destination : string; x_description : string; x_status : string; x_created_at : Z;
  x_meta : metadata; x_scheduled_for : Z; x_hash : string; x_effective_date : option Z;
  x_rate : float64; x_overdraft_limit : float64; x_queue_action : string;
  x_controls : ExecutionControls }.

(** The payload of an outbox entry ([internal/core/lineage.go]). *)
Record LineageOutboxPayload := {
  lp_Amount : float64; lp_PreciseAmount : string; lp_Currency : string; lp_Precision : float64;
  lp_Reference : string; lp_SkipQueue : bool; lp_Inflight : bool }.

(** The JSON of an entry: of a transaction, or of work on the shadows of a
    parent. *)
Inductive outbox_payload :=
| LineagePayload (p : LineageOutboxPayload)
| ShadowPayload (parent_transaction_id : string).

Record LineageOutbox := {
  lo_ID : Z; lo_TransactionID : string; lo_SourceBalanceID : string; lo_DestinationBalanceID : string;
  lo_Provider : string; lo_LineageType : string; lo_Payload : outbox_payload;
  lo_Status : string; lo_Attempts : Z; lo_MaxAttempts : Z; lo_LastError : string; lo_LockedUntil : option Z;
  lo_Inflight : bool }.

(** [LineageMapping] ([model/balance.go]) and the columns of an identity that
    lineage uses. *)
Record LineageMapping := {
  lm_BalanceID : string; lm_Provider : string; lm_ShadowBalanceID : string; lm_AggregateBalanceID : string;
  lm_IdentityID : string; lm_CreatedAt : Z }.
Record Identity := {
  id_IdentityID : string; id_FirstName : string; id_LastName : string; id_OrganizationName : string }.

Record ledger_db := {
  ld_txns : list txn_row;
  ld_claims : gmap string string;
  ld_balances : gmap string Balance;
  ld_outbox : list LineageOutbox;
  ld_policy : policy_db;
  ld_mappings : list LineageMapping;
  ld_identities : gmap string Identity;
  ld_ids : nat }.

(** ** Errors *)

(** [apierror.NewAPIError]: [APIError] has no [Unwrap], so the wrapped details
    are not part of the error chain. *)
Definition NewAPIError (code message : string) (details : option go_error) : go_error :=
  GoError (code +:+ ": " +:+ message) ["APIError:" +:+ code].
Definition ErrInternalServer : string := "INTERNAL_SERVER_ERROR".
Definition ErrNotFound : string := "NOT_FOUND".
Definition ErrConflict : string := "CONFLICT".
Definition ErrBalNotFound : string := "BAL_NOT_FOUND".

(** [*pq.Error]: its code and constraint are what callers look at. *)
Definition pq_error (code constraint message : string) : go_error :=
  GoError ("pq: " +:+ message) ["pq:" +:+ code +:+ ":" +:+ constraint].
Definition raise_exception (message : string) : go_error := pq_error "P0001" "" message.
Definition unique_violation (constraint : string) : go_error :=
  pq_error "23505" constraint
    ("duplicate key value violates unique constraint " +:+ constraint).

(** ** Triggers on an insert into [transactions] *)

Definition is_status (s : string) (r : txn_row) : bool := String.eqb (x_status r) s.
Definition is_parent (id : string) (r : txn_row) : bool := String.eqb (x_parent r) id.

Definition find_txn (db : ledger_db) (id : string) : option txn_row :=
  List.find (fun r => String.eqb (x_id r) id) (ld_txns db).

(** The condition of the sum in the trigger, and of
    [GetTotalCommittedTransactions]: a row that uses up its parent's hold. *)
Definition consumes (db : ledger_db) (r : txn_row) : bool :=
  is_status "APPLIED" r || is_status "VOID" r ||
  (is_status "QUEUED" r && String.eqb (x_queue_action r) "COMMIT" &&
   negb (existsb (fun c => is_parent (x_id r) c && is_status "REJECTED" c) (ld_txns db))).

Definition consumed (db : ledger_db) (id : string) : Z :=
  zsum_list (fun r => if is_parent id r && consumes db r then x_precise r else 0) (ld_txns db).

(** The legs of a transition are those of its hold. *)
Definition same_legs (a b : txn_row) : bool :=
  String.eqb (x_source a) (x_source b) && String.eqb (x_destination a) (x_destination b)
  && feq (x_precision a) (x_precision b) && String.eqb (x_currency a) (x_currency b).

Definition refund_reference (id : string) : string := id +:+ "_refund".

(** [claim_transaction_lifecycle]. *)
Definition claim_transaction_lifecycle (db : ledger_db) (new : txn_row) : result ledger_db :=
  let requires_parent :=
    if negb (String.eqb (x_queue_action new) "")
    then Err (raise_exception "Lifecycle action requires an inflight parent") else Ok db in
  if String.eqb (x_parent new) "" then requires_parent
  else match find_txn db (x_parent new) with
  | None => requires_parent
  | Some parent =>
    if String.eqb (x_reference new) (refund_reference (x_id parent)) then
      if negb (is_status "APPLIED" parent)
      then Err (raise_exception "Only APPLIED transactions can be refunded")
      else if negb (String.eqb (x_source new) (x_destination parent))
              || negb (String.eqb (x_destination new) (x_source parent))
              || negb (x_precise new =? x_precise parent)
      then Err (raise_exception "Refund must reverse the original legs")
      else match ld_claims db !! x_id parent with
      | Some _ => Err (unique_violation "refund_claims_pkey")
      | None =>
          if bool_decide (map_Exists (fun _ reversal => reversal = x_id new) (ld_claims db))
          then Err (unique_violation "refund_claims_reversal_transaction_key")
          else Ok {| db with ld_claims := <[x_id parent := x_id new]> (ld_claims db) |}
      end
    else if String.eqb (x_queue_action parent) "COMMIT" then
      if negb (is_status "APPLIED" new || is_status "REJECTED" new)
         || negb (x_precise new =? x_precise parent) || negb (same_legs new parent)
      then Err (raise_exception "Invalid queued inflight transition")
      else if existsb (is_parent (x_id parent)) (ld_txns db)
      then Err (unique_violation "idx_transactions_reference_unique")
      else Ok db
    else if is_status "INFLIGHT" parent
            && (is_status "APPLIED" new || is_status "VOID" new || is_status "QUEUED" new) then
      if is_status "QUEUED" new && negb (String.eqb (x_queue_action new) "COMMIT")
      then Err (raise_exception "Queued inflight transition requires a commit action")
      else if (x_precise new <=? 0) || negb (same_legs new parent)
              || negb (feq (x_rate new) (x_rate parent))
      then Err (raise_exception "Invalid inflight transition amount or legs")
      else if x_precise parent <? consumed db (x_id parent) + x_precise new
      then Err (raise_exception "Cannot commit more than the remaining amount")
      else Ok db
    else requires_parent
  end.

(** The recursive ancestor query of the policy triggers and of [bindingByID]:
    the binding of the nearest ancestor, at most sixteen levels up. *)
Definition binding_of_txn (p : policy_db) (id : string) : option (string * binding_row) :=
  head (filter (fun kv => bd_transaction_id kv.2 = id) (map_to_list (db_bindings p))).
Fixpoint bound_ancestor (depth : nat) (db : ledger_db) (id : string) : option (string * binding_row) :=
  match binding_of_txn (ld_policy db) id with
  | Some kb => Some kb
  | None =>
    match depth with
    | O => None
    | S depth' =>
        match find_txn db id with
        | Some r => if String.eqb (x_parent r) "" || String.eqb (x_parent r) (x_id r) then None
                    else bound_ancestor depth' db (x_parent r)
        | None => None
        end
    end
  end.

(** The binding selected by a posting reference, or by its queued copy. *)
Definition binding_of_reference (p : policy_db) (reference : string) : option (string * binding_row) :=
  head (filter (fun kv => kv.1 = reference \/ (kv.1 +:+ "_q")%string = reference)
          (map_to_list (db_bindings p))).

(** [enforce_policy_posting]: the row as it is inserted. *)
Definition enforce_policy_posting (db : ledger_db) (new : txn_row) : result txn_row :=
  let p := ld_policy db in
  let direct := binding_of_reference p (x_reference new) in
  let original_leg := match direct with Some _ => true | None => false end in
  let bound :=
    match direct with
    | Some kb => Some kb
    | None =>
      if String.eqb (x_parent new) "" then None
      else match find_txn db (x_parent new) with
      | Some parent =>
          if is_status "INFLIGHT" parent
             || (is_status "QUEUED" parent && String.eqb (x_queue_action parent) "COMMIT")
          then bound_ancestor 16 db (x_parent new) else None
      | None => None
      end
    end in
  match bound with
  | None => Ok new
  | Some (_, b) =>
    match db_admissions p !! bd_admission_id b with
    | None => Ok new
    | Some adm =>
      let leg := bd_leg b in
      let amount := int_of (pl_Amount leg) in
      let decision := pa_Decision (ar_admission adm) in
      let live := negb (is_status "VOID" new || is_status "REJECTED" new) in
      if negb (String.eqb (x_source new) (pl_Source leg))
         || negb (String.eqb (x_destination new) (pl_Destination leg))
         || negb (String.eqb (x_currency new) (pl_Currency leg))
         || negb (feq (x_precision new) (pl_Precision leg)) || (x_precise new <? 0)
         || (original_leg && negb (x_precise new =? amount))
         || (negb original_leg && (amount <? x_precise new))
      then Err (pq_error "23514" "" "policy admission transaction details do not match")
      else if live && (0 <? bd_released b)
              && (original_leg || (amount - bd_released b <? x_precise new))
      then Err (pq_error "23514" "" "policy reservation was released")
      else if live && String.eqb decision "rejected"
      then Err (pq_error "23514" "" "policy approval was rejected")
      else if live && (is_status "APPLIED" new || String.eqb (x_queue_action new) "COMMIT")
              && negb (String.eqb decision "approved" || String.eqb decision "not_required")
      then Err (pq_error "23514" "" "policy transaction requires independent approval")
      else if is_status "APPLIED" new && original_leg && String.eqb decision "approved"
      then Err (pq_error "23514" "" "approved policy transaction must settle its hold")
      else
        let meta := md_set (md_set (x_meta new) "policy_admission_id" (JStr (pa_ID (ar_admission adm))))
                      "policy_approval" (JStr decision) in
        Ok {| new with x_meta := meta |}
    end
  end.

(** The recursive [family] of a binding: the rows posted under its reference
    and their descendants with the same legs.  Each round adds a row, so
    [fuel] is the number of rows. *)
Definition family_step (db : ledger_db) (reference : string) (b : binding_row)
    (fam : list txn_row) : list txn_row :=
  filter (fun r =>
      existsb (fun f => is_parent (x_id f) r) fam = true /\
      existsb (fun f => String.eqb (x_id f) (x_id r)) fam = false /\
      String.eqb (x_source r) (pl_Source (bd_leg b))
        && String.eqb (x_destination r) (pl_Destination (bd_leg b))
        && String.eqb (x_currency r) (pl_Currency (bd_leg b))
        && feq (x_precision r) (pl_Precision (bd_leg b)) = true /\
      map_Forall (fun ref other => bd_transaction_id other = x_id r -> ref = reference)
        (db_bindings (ld_policy db)))
    (ld_txns db).
Fixpoint family (fuel : nat) (db : ledger_db) (reference : string) (b : binding_row)
    (fam : list txn_row) : list txn_row :=
  match fuel with
  | O => fam
  | S fuel' =>
      match family_step db reference b fam with
      | [] => fam
      | next => family fuel' db reference b (fam ++ next)
      end
  end.

(** The rows posted under a reference or its queued copy. *)
Definition posted_under (reference : string) (r : txn_row) : bool :=
  String.eqb (x_reference r) reference || String.eqb (x_reference r) (reference +:+ "_q").

(** [policy_releasable_capacity]. *)
Definition policy_releasable_capacity (db : ledger_db) (reference : string) (b : binding_row) : Z :=
  let seeds := filter (fun r => posted_under reference r = true) (ld_txns db) in
  let fam := family (length (ld_txns db)) db reference b seeds in
  let amount := int_of (pl_Amount (bd_leg b)) in
  if existsb (fun r => is_status "REJECTED" r && posted_under reference r) fam then amount
  else Z.min amount (zsum_list (fun r => if is_status "VOID" r then x_precise r else 0) fam).

(** [release_policy_budgets]; [policy_usage] has [CHECK (used >= 0)]. *)
Definition release_budget (admission rule : string) (delta : Z)
    (usage : gmap (string * string * Z) Z) (budget : budget_row) : result (gmap (string * string * Z) Z) :=
  if String.eqb (bg_admission_id budget) admission && String.eqb (bg_rule budget) rule then
    let cell := (bg_api_key_id budget, bg_rule budget, bg_day budget) in
    match usage !! cell with
    | None => Ok usage
    | Some used => if used - delta <? 0 then Err (pq_error "23514" "policy_usage_used_check" "check violation")
                   else Ok (<[cell := used - delta]> usage)
    end
  else Ok usage.
Definition release_policy_budgets (p : policy_db) (admission rule : string) (delta : Z)
    : result policy_db :=
  let* usage := fold_res (release_budget admission rule delta) (db_budgets p) (db_usage p) in
  Ok {| p with db_usage := usage |}.

(** A pending admission whose bindings are all released becomes rejected. *)
Definition reject_released_admission (p : policy_db) (admission : string) : policy_db :=
  if bool_decide (map_Exists (fun _ b => bd_admission_id b = admission /\
       bd_released b < int_of (pl_Amount (bd_leg b))) (db_bindings p))
  then p
  else {| p with db_admissions := alter (fun row =>
            let a := ar_admission row in
            if String.eqb (pa_Decision a) "pending"
            then {| row with ar_admission :=
                      {| a with pa_Decision := "rejected"; pa_DecidedBy := "system:void-or-failure" |} |}
            else row) admission (db_admissions p) |}.

(** The release of what a terminal row leaves unused, shared by the trigger
    and by [ReleasePolicyLeg]. *)
Definition release_unused (p : policy_db) (reference : string) (b : binding_row) (unused : Z)
    : result policy_db :=
  let delta := unused - bd_released b in
  if delta <=? 0 then Ok p
  else
    let* p := release_policy_budgets p (bd_admission_id b) (leg_key (bd_leg b)) delta in
    Ok {| p with db_bindings := <[reference := {| b with bd_released := unused |}]> (db_bindings p) |}.

(** [release_terminal_policy_reservation], after [new] was inserted. *)
Definition release_terminal_policy_reservation (db : ledger_db) (new : txn_row) : result ledger_db :=
  if negb (is_status "VOID" new || is_status "REJECTED" new) then Ok db
  else match bound_ancestor 16 db (x_id new) with
  | None => Ok db
  | Some (reference, b) =>
      let unused := policy_releasable_capacity db reference b in
      let* p := release_unused (ld_policy db) reference b unused in
      Ok {| db with ld_policy := reject_released_admission p (bd_admission_id b) |}
  end.

(** An insert: the two BEFORE triggers in name order, the unique indexes on
    [transaction_id] and [reference], the row, the AFTER trigger. *)
Definition insert_transaction (db : ledger_db) (new : txn_row) : result ledger_db :=
  let* db1 := claim_transaction_lifecycle db new in
  let* new1 := enforce_policy_posting db1 new in
  if existsb (fun r => String.eqb (x_id r) (x_id new1)) (ld_txns db1)
  then Err (unique_violation "transactions_transaction_id_key")
  else if existsb (fun r => String.eqb (x_reference r) (x_reference new1)) (ld_txns db1)
  then Err (unique_violation "idx_transactions_reference_unique")
  else release_terminal_policy_reservation {| db1 with ld_txns := ld_txns db1 ++ [new1] |} new1.

(** ** Datasource operations *)

(** [persistNumericColumns]. *)
Definition persistNumericColumns (t : Transaction) : result (string * Z) :=
  if String.eqb (t_AmountString t) "" then Err (errors_New "amount is required")
  else match t_PreciseAmount t with
  | None => Err (errors_New "precise_amount is required")
  | Some n => Ok (t_AmountString t, n)
  end.

(** The columns of an insert. *)
Definition row_of (t : Transaction) (cols : string * Z) : txn_row := {|
  x_id := t_TransactionID t; x_parent := t_ParentTransaction t; x_source := t_Source t;
  x_reference := t_Reference t; x_amount := cols.1; x_precise := cols.2;
  x_precision := t_Precision t; x_currency := t_Currency t; x_destination := t_Destination t;
  x_description := t_Description t; x_status := t_Status t; x_created_at := t_CreatedAt t;
  x_meta := t_MetaData t; x_scheduled_for := t_ScheduledFor t; x_hash := t_Hash t;
  x_effective_date := t_EffectiveDate t; x_rate := t_Rate t;
  x_overdraft_limit := t_OverdraftLimit t; x_queue_action := t_QueueAction t;
  x_controls := execution_controls t |}.

(** [recordTransactionInTx]: also the body of [RecordTransaction]. *)
Definition recordTransactionInTx (db : ledger_db) (t : Transaction) : result ledger_db :=
  match persistNumericColumns t with
  | Err e => Err (NewAPIError ErrInternalServer "Failed to record transaction" (Some e))
  | Ok cols =>
      match insert_transaction db (row_of t cols) with
      | Err e => Err (NewAPIError ErrInternalServer "Failed to record transaction" (Some e))
      | Ok db' => Ok db'
      end
  end.

(** [RecordTransaction]. *)
Definition RecordTransaction (db : ledger_db) (t : Transaction) : result (ledger_db * Transaction) :=
  let* db' := recordTransactionInTx db t in Ok (db', t).

(** [updateBalance]: an update guarded by the version the balance was read at.
    A nil amount prints as ["<nil>"], which the column refuses. *)
Definition updateBalance (db : ledger_db) (b : Balance) : result (ledger_db * Balance) :=
  match b_Balance b, b_CreditBalance b, b_DebitBalance b,
        b_InflightBalance b, b_InflightCreditBalance b, b_InflightDebitBalance b with
  | Some _, Some _, Some _, Some _, Some _, Some _ =>
      let conflict := NewAPIError ErrConflict ("Optimistic locking failure: balance with ID '"
        +:+ b_BalanceID b +:+ "' may have been updated or deleted by another transaction") None in
      match ld_balances db !! b_BalanceID b with
      | None => Err conflict
      | Some row =>
          if negb (b_Version row =? b_Version b) then Err conflict
          else
            let row' := {| row with
              b_Balance := b_Balance b; b_CreditBalance := b_CreditBalance b;
              b_DebitBalance := b_DebitBalance b; b_InflightBalance := b_InflightBalance b;
              b_InflightCreditBalance := b_InflightCreditBalance b;
              b_InflightDebitBalance := b_InflightDebitBalance b;
              b_Currency := b_Currency b; b_LedgerID := b_LedgerID b;
              b_CreatedAt := b_CreatedAt b; b_Version := b_Version row + 1 |} in
            Ok ({| db with ld_balances := <[b_BalanceID b := row']> (ld_balances db) |},
                {| b with b_Version := b_Version b + 1 |})
      end
  | _, _, _, _, _, _ =>
      Err (NewAPIError ErrInternalServer "Failed to update balance" None)
  end.

(** [InsertLineageOutboxInTx]; [transaction_id] is unique in the outbox, the id
    is a sequence and rows are never deleted. *)
Definition InsertLineageOutboxInTx (db : ledger_db) (o : LineageOutbox) : result ledger_db :=
  if existsb (fun o' => String.eqb (lo_TransactionID o') (lo_TransactionID o)) (ld_outbox db)
  then Err (NewAPIError ErrInternalServer "Failed to insert lineage outbox entry"
              (Some (unique_violation "lineage_outbox_transaction_id_uidx")))
  else Ok {| db with ld_outbox := ld_outbox db ++ [{| o with lo_ID := Z.of_nat (length (ld_outbox db)) + 1; lo_Status := "pending"; lo_Attempts := 0;
                                                          lo_LastError := ""; lo_LockedUntil := None |}] |}.

(** [RecordTransactionWithBalances]. *)
Definition RecordTransactionWithBalances (db : ledger_db) (t : Transaction) (source destination : Balance)
    : result (ledger_db * Transaction) :=
  let* p1 := updateBalance db source in
  let* p2 := updateBalance p1.1 destination in
  let* db3 := recordTransactionInTx p2.1 t in
  Ok (db3, t).

(** [RecordTransactionWithBalancesAndOutbox]. *)
Definition RecordTransactionWithBalancesAndOutbox (db : ledger_db) (t : Transaction)
    (source destination : Balance) (outbox : option LineageOutbox) : result (ledger_db * Transaction) :=
  let* p := RecordTransactionWithBalances db t source destination in
  match outbox with
  | None => Ok p
  | Some o =>
      match InsertLineageOutboxInTx p.1 o with
      | Err e => Err (wrap "failed to insert lineage outbox: " e)
      | Ok db' => Ok (db', t)
      end
  end.

(** ** Reads *)

Section Reads.
(** The driver's conversion of a NUMERIC column to [float64]. *)
Variable numeric_float : string -> float64.
(** [model.GenerateUUIDWithSuffix] ([google/uuid]): the n-th id generated. *)
Variable GenerateUUIDWithSuffix : string -> nat -> string.

(** The columns all the transaction reads select, with
    [DecodeTransactionMetadata] on the projection that [transaction_metadata]
    builds from the metadata and the execution controls. *)
Definition scan_transaction (r : txn_row) : Transaction :=
  let t := {| zero_transaction with
    t_TransactionID := x_id r; t_ParentTransaction := x_parent r; t_Source := x_source r;
    t_Reference := x_reference r; t_Amount := numeric_float (x_amount r);
    t_PreciseAmount := Some (x_precise r); t_Precision := x_precision r;
    t_Currency := x_currency r; t_Destination := x_destination r;
    t_Description := x_description r; t_Status := x_status r; t_CreatedAt := x_created_at r;
    t_Hash := x_hash r;
    t_MetaData := Some (delete "__execution_controls"%string (default ∅ (x_meta r))) |} in
  apply_controls (x_controls r) t.

Definition txn_not_found (id : string) : go_error :=
  NewAPIError ErrNotFound ("Transaction with ID '" +:+ id +:+ "' not found")
    (Some (sentinel "sql.ErrNoRows" "sql: no rows in result set")).

(** [GetTransaction]. *)
Definition GetTransaction (db : ledger_db) (id : string) : result Transaction :=
  match find_txn db id with
  | None => Err (txn_not_found id)
  | Some r =>
      let t := scan_transaction r in
      Ok {| t with t_EffectiveDate := x_effective_date r; t_Rate := x_rate r;
            t_OverdraftLimit := x_overdraft_limit r; t_QueueAction := x_queue_action r |}
  end.

(** [IsParentTransactionVoid]. *)
Definition IsParentTransactionVoid (db : ledger_db) (parentID : string) : bool :=
  existsb (fun r => is_parent parentID r && is_status "VOID" r) (ld_txns db).

(** [TransactionExistsByRef]. *)
Definition TransactionExistsByRef (db : ledger_db) (reference : string) : bool :=
  existsb (fun r => String.eqb (x_reference r) reference) (ld_txns db).

(** [GetTotalCommittedTransactions]. *)
Definition GetTotalCommittedTransactions (db : ledger_db) (parentID : string) : Z :=
  consumed db parentID.

(** [IsTransactionRefunded]. *)
Definition IsTransactionRefunded (db : ledger_db) (t : Transaction) : bool :=
  existsb (fun r => is_parent (t_TransactionID t) r && String.eqb (x_source r) (t_Destination t)
                    && String.eqb (x_destination r) (t_Source t)) (ld_txns db).

(** [ORDER BY created_at DESC LIMIT n OFFSET k]. *)
Definition newer (a b : txn_row) : Prop := x_created_at b <= x_created_at a.
#[local] Instance newer_dec : RelDecision newer.
Proof. intros a b. unfold newer. apply _. Defined.
Definition page (rows : list txn_row) (batchSize offset : Z) : list txn_row :=
  take (Z.to_nat batchSize) (drop (Z.to_nat offset) (merge_sort newer rows)).

(** [GetInflightTransactionsByParentID]. *)
Definition inflight_rows (db : ledger_db) (parentID : string) : list txn_row :=
  filter (fun r => is_status "INFLIGHT" r = true /\
    (x_id r = parentID \/ x_parent r = parentID \/ ec_QueuedParent (x_controls r) = parentID))
    (ld_txns db).
Definition queued_inflight_rows (db : ledger_db) (parentID : string) : list txn_row :=
  filter (fun r => (x_id r = parentID \/ x_parent r = parentID) /\ is_status "QUEUED" r = true /\
    ec_Inflight (x_controls r) = true /\
    existsb (fun c => String.eqb (x_reference c) (x_reference r +:+ "_q") && is_status "REJECTED" c)
      (ld_txns db) = false /\
    existsb (fun c => is_parent (x_id r) c && is_status "INFLIGHT" c) (ld_txns db) = false)
    (ld_txns db).
Definition GetInflightTransactionsByParentID (db : ledger_db) (parentID : string) (batchSize offset : Z)
    : list Transaction :=
  let rows := match inflight_rows db parentID with
              | [] => queued_inflight_rows db parentID
              | rows => rows
              end in
  (fun r => let t := scan_transaction r in
            {| t with t_ScheduledFor := x_scheduled_for r; t_EffectiveDate := x_effective_date r |})
    <$> page rows batchSize offset.

(** [GetRefundableTransactionsByParentID]. *)
Definition GetRefundableTransactionsByParentID (db : ledger_db) (parentID : string)
    (batchSize offset : Z) : list Transaction :=
  let rows := filter (fun r => is_status "APPLIED" r = true /\
      (x_id r = parentID \/
       (x_parent r = parentID /\ x_reference r <> refund_reference parentID) \/
       (ec_QueuedParent (x_controls r) = parentID /\ x_reference r <> refund_reference parentID)))
      (ld_txns db) in
  (fun r => let t := scan_transaction r in {| t with t_ScheduledFor := x_scheduled_for r |})
    <$> page rows batchSize offset.

(** [GetQueuedAmounts]. *)
Definition still_queued (db : ledger_db) (r : txn_row) : bool :=
  is_status "QUEUED" r &&
  negb (existsb (fun c => is_parent (x_id r) c &&
          (is_status "APPLIED" c || is_status "REJECTED" c || is_status "VOID" c || is_status "INFLIGHT" c))
        (ld_txns db)).
Definition GetQueuedAmounts (db : ledger_db) (balanceID : string) : Z * Z :=
  (zsum_list (fun r => if String.eqb (x_source r) balanceID && still_queued db r
                       then x_precise r else 0) (ld_txns db),
   zsum_list (fun r => if String.eqb (x_destination r) balanceID
                          && negb (String.eqb (x_source r) balanceID) && still_queued db r
                       then x_precise r else 0) (ld_txns db)).

(** The columns of a balance row as the reads return them. *)
Definition scan_balance (row : Balance) : Balance :=
  {| row with b_CurrencyMultiplier := fzero; b_ID := 0; b_QueuedDebitBalance := None;
     b_QueuedCreditBalance := None; b_InflightExpiresAt := 0 |}.

Definition balance_not_found (id : string) : go_error :=
  NewAPIError ErrBalNotFound ("Balance with ID '" +:+ id +:+ "' not found") None.

(** [GetBalanceByIDLite]. *)
Definition GetBalanceByIDLite (db : ledger_db) (id : string) : result Balance :=
  match ld_balances db !! id with
  | None => Err (balance_not_found id)
  | Some row => Ok (scan_balance row)
  end.

(** [GetBalanceByID] without joined records. *)
Definition GetBalanceByID (db : ledger_db) (id : string) (withQueued : bool) : result Balance :=
  let* b := GetBalanceByIDLite db id in
  if withQueued then
    let q := GetQueuedAmounts db id in
    Ok {| b with b_QueuedDebitBalance := Some q.1; b_QueuedCreditBalance := Some q.2 |}
  else Ok b.

(** [GetBalanceByIndicator]; the metadata column is not selected. *)
Definition find_indicator (db : ledger_db) (indicator currency : string) : option Balance :=
  head (filter (fun b => b_Indicator b = indicator /\ b_Currency b = currency)
          (snd <$> map_to_list (ld_balances db))).
Definition GetBalanceByIndicator (db : ledger_db) (indicator currency : string) : result Balance :=
  match find_indicator db indicator currency with
  | None => Err (errors_New ("balance with indicator '" +:+ indicator +:+ "' not found"))
  | Some row => let b := scan_balance row in Ok {| b with b_MetaData := None |}
  end.

(** [CreateBalance]: the inflight columns and the version take their column
    defaults. *)
Definition CreateBalance (db : ledger_db) (now : Z) (b : Balance) : ledger_db * result Balance :=
  let id := GenerateUUIDWithSuffix "bln" (ld_ids db) in
  let db := {| db with ld_ids := S (ld_ids db) |} in
  let b := {| b with b_BalanceID := id; b_CreatedAt := now;
     b_Balance := Some (BAL b); b_CreditBalance := Some (CR b); b_DebitBalance := Some (DR b);
     b_InflightBalance := Some (IBAL b); b_InflightCreditBalance := Some (ICR b);
     b_InflightDebitBalance := Some (IDR b) |} in
  let strategy := if String.eqb (b_AllocationStrategy b) "" then "FIFO"%string else b_AllocationStrategy b in
  let row := {| b with b_AllocationStrategy := strategy; b_Version := 1;
     b_InflightBalance := Some 0; b_InflightCreditBalance := Some 0; b_InflightDebitBalance := Some 0 |} in
  let exists_err name := NewAPIError ErrConflict name (Some (unique_violation "balances")) in
  match ld_balances db !! id with
  | Some _ => (db, Err (exists_err ("Balance already exists: " +:+ id)))
  | None =>
      if negb (String.eqb (b_Indicator b) "")
         && match find_indicator db (b_Indicator b) (b_Currency b) with Some _ => true | None => false end
      then (db, Err (exists_err ("Balance already exists for indicator '" +:+ b_Indicator b
                                 +:+ "' and '" +:+ b_Currency b +:+ "'")))
      else ({| db with ld_balances := <[id := row]> (ld_balances db) |}, Ok b)
  end.

(** ** Policy reads that need the transactions *)

(** [policyReference]. *)
Definition policyReference (db : ledger_db) (id : string) : option (string * binding_row) :=
  bound_ancestor 16 db id.

(** [CheckPolicyCommit] and [VerifyPolicyLeg] on the ledger's tables. *)
Definition checkPolicyCommit (db : ledger_db) (id : string) : result unit :=
  CheckPolicyCommit (ld_policy db) (fst <$> policyReference db id).
Definition verifyPolicyLeg (db : ledger_db) (t : Transaction) : result (option PolicyAdmission) :=
  VerifyPolicyLeg (ld_policy db) (snd <$> binding_of_reference (ld_policy db) (t_Reference t)) t.

(** [ReleasePolicyLeg]: nothing is written when nothing new is unused. *)
Definition ReleasePolicyLeg (db : ledger_db) (id : string) : result ledger_db :=
  match policyReference db id with
  | None => Ok db
  | Some (reference, b) =>
      let unused := policy_releasable_capacity db reference b in
      if unused - bd_released b <=? 0 then Ok db
      else
        let* p := release_unused (ld_policy db) reference b unused in
        Ok {| db with ld_policy := reject_released_admission p (bd_admission_id b) |}
  end.

(** [PolicyHoldIDs]. *)
Definition PolicyHoldIDs (db : ledger_db) (admission : string) : list string :=
  merge_sort string_le (x_id <$> filter (fun r => is_status "INFLIGHT" r = true /\
    map_Exists (fun reference b => bd_admission_id b = admission /\ posted_under reference r = true)
      (db_bindings (ld_policy db))) (ld_txns db)).
End Reads.
