(* ===== verification/Lifecycle.v ===== *)
(** * The life of a hold

    What the insert trigger on [transactions] guarantees for every history of
    the store: a hold is never committed and voided for more than its amount,
    whatever the order in which commits, voids, queued commits and their
    worker children are inserted, and a transaction is reversed at most once.
    Inserts that touch the same hold are serialised by the trigger's
    [FOR UPDATE] on the parent row, so a history is a sequence of inserts. *)
From stdpp Require Import base option list strings gmap.
From Stdlib Require Import ZArith Lia.
From S2P Require Import Prelude GoFloat Model Policy PolicyStore Store.
Open Scope Z_scope.

(** ** What an insert does *)

Lemma enforce_policy_posting_meta db new new' :
  enforce_policy_posting db new = Ok new' -> exists m, new' = {| new with x_meta := m |}.
Proof.
  assert (new = {| new with x_meta := x_meta new |}) as Hid by (by destruct new).
  unfold enforce_policy_posting. set (bound := match binding_of_reference _ _ with Some _ => _ | None => _ end).
  destruct bound as [[ref b]|]; [|intros [= <-]; eauto].
  destruct (db_admissions _ !! _) as [adm|]; [|intros [= <-]; eauto].
  cbv zeta. do 5 (destruct (_ : bool); [done|]). intros [= <-]. eauto.
Qed.

Lemma claim_only_claims db new c :
  claim_transaction_lifecycle db new = Ok c ->
  exists m, c = {| db with ld_claims := m |}.
Proof.
  assert (db = {| db with ld_claims := ld_claims db |}) as Hid by (by destruct db).
  unfold claim_transaction_lifecycle. intros H.
  repeat (res_step H; try discriminate H); apply Ok_inj in H as <-; eauto.
Qed.

Lemma release_only_policy db new db' :
  release_terminal_policy_reservation db new = Ok db' ->
  exists p, db' = {| db with ld_policy := p |}.
Proof.
  assert (db = {| db with ld_policy := ld_policy db |}) as Hid by (by destruct db).
  unfold release_terminal_policy_reservation. intros H.
  repeat (res_step H; try discriminate H); apply Ok_inj in H as <-; eauto.
Qed.

Record inserted (db : ledger_db) (new : txn_row) (db' : ledger_db) (row : txn_row) : Prop := {
  ins_row : exists m, row = {| new with x_meta := m |};
  ins_txns : ld_txns db' = ld_txns db ++ [row];
  ins_claims : exists c, claim_transaction_lifecycle db new = Ok c /\ ld_claims db' = ld_claims c;
  ins_balances : ld_balances db' = ld_balances db;
  ins_outbox : ld_outbox db' = ld_outbox db;
  ins_ids : ld_ids db' = ld_ids db;
  ins_fresh_id : forall r, r ∈ ld_txns db -> x_id r <> x_id new;
  ins_fresh_ref : forall r, r ∈ ld_txns db -> x_reference r <> x_reference new }.

Lemma existsb_false {A} (f : A -> bool) l : existsb f l = false -> forall a, a ∈ l -> f a = false.
Proof.
  intros H a Ha. destruct (f a) eqn:E; [|done]. exfalso.
  assert (existsb f l = true); [|congruence]. apply existsb_exists. exists a. by rewrite <- list_elem_of_In.
Qed.

Lemma insert_inserted db new db' :
  insert_transaction db new = Ok db' -> exists row, inserted db new db' row.
Proof.
  unfold insert_transaction. intros H. apply res_bind_Ok in H as (c & Hc & H).
  apply res_bind_Ok in H as (row & Hrow & H). apply enforce_policy_posting_meta in Hrow as [m Hm].
  destruct (claim_only_claims _ _ _ Hc) as [cm Hcm].
  destruct (existsb _ _) eqn:E1; [done|]. destruct (existsb _ _) eqn:E2 in H; [done|].
  apply release_only_policy in H as [p ->]. exists row.
  assert (ld_txns c = ld_txns db) as Ht by (by rewrite Hcm).
  rewrite Ht in E1, E2. split; try (rewrite Hcm; done); [by eauto|by eauto| |].
  - intros r Hr Heq. pose proof (existsb_false _ _ E1 r Hr) as Hf. cbv beta in Hf.
    rewrite Hm, Heq in Hf. cbn in Hf. by rewrite String.eqb_refl in Hf.
  - intros r Hr Heq. pose proof (existsb_false _ _ E2 r Hr) as Hf. cbv beta in Hf.
    rewrite Hm, Heq in Hf. cbn in Hf. by rewrite String.eqb_refl in Hf.
Qed.

Lemma find_txn_elem db id r : find_txn db id = Some r -> r ∈ ld_txns db /\ x_id r = id.
Proof.
  unfold find_txn. intros [Hin Hid]%List.find_some. apply String.eqb_eq in Hid.
  by rewrite list_elem_of_In.
Qed.

Lemma find_txn_unique db r :
  NoDup (x_id <$> ld_txns db) -> r ∈ ld_txns db -> find_txn db (x_id r) = Some r.
Proof.
  unfold find_txn. induction (ld_txns db) as [|x l IH]; intros Hnd Hr; [by apply not_elem_of_nil in Hr|].
  rewrite fmap_cons in Hnd. apply NoDup_cons in Hnd as [Hx Hnd]. cbn.
  apply elem_of_cons in Hr as [->|Hr]; [by rewrite String.eqb_refl|].
  destruct (String.eqb (x_id x) (x_id r)) eqn:E; [|auto]. zbool. exfalso. apply Hx. rewrite E.
  by apply list_elem_of_fmap_2.
Qed.

(** ** Histories *)

(** An update of metadata: what the update trigger allows, besides the chain
    columns. *)
Definition with_meta (f : txn_row -> metadata) (r : txn_row) : txn_row := {| r with x_meta := f r |}.

Inductive store_step (db db' : ledger_db) : Prop :=
| step_insert (new : txn_row) :
    insert_transaction db new = Ok db' ->
    (** a generated id is not named by a row before it exists *)
    (forall r, r ∈ ld_txns db -> x_parent r <> x_id new) ->
    store_step db db'
| step_update :
    (exists f, ld_txns db' = with_meta f <$> ld_txns db) -> ld_claims db' = ld_claims db ->
    store_step db db'.

Inductive store_reachable : ledger_db -> Prop :=
| reach_empty db : ld_txns db = [] -> ld_claims db = ∅ -> store_reachable db
| reach_step db db' : store_reachable db -> store_step db db' -> store_reachable db'.

(** A hold that commits and voids may use up. *)
Definition hold (h : txn_row) : Prop :=
  x_id h <> ""%string /\ x_status h = "INFLIGHT"%string /\ x_queue_action h <> "COMMIT"%string.
Definition transition (r : txn_row) : bool :=
  is_status "APPLIED" r || is_status "VOID" r || is_status "QUEUED" r.

(** A queued commit: the reservation of a part of a hold. *)
Definition queued_commit (q : txn_row) : bool :=
  negb (String.eqb (x_id q) "") && is_status "QUEUED" q && String.eqb (x_queue_action q) "COMMIT".

Record lifecycle_ok (db : ledger_db) : Prop := {
  lc_ids : NoDup (x_id <$> ld_txns db);
  lc_refs : NoDup (x_reference <$> ld_txns db);
  lc_positive : forall h r, h ∈ ld_txns db -> hold h -> r ∈ ld_txns db ->
    x_parent r = x_id h -> transition r = true -> 0 < x_precise r;
  lc_bound : forall h, h ∈ ld_txns db -> hold h -> consumed db (x_id h) <= Z.max 0 (x_precise h);
  lc_one_child : forall q, q ∈ ld_txns db -> queued_commit q = true ->
    (length (filter (fun c => x_parent c = x_id q) (ld_txns db)) <= 1)%nat;
  lc_child : forall q c, q ∈ ld_txns db -> queued_commit q = true -> c ∈ ld_txns db ->
    x_parent c = x_id q ->
    x_precise c = x_precise q /\ (x_status c = "APPLIED"%string \/ x_status c = "REJECTED"%string);
  lc_refund : forall r o, r ∈ ld_txns db -> o ∈ ld_txns db -> x_id r <> x_id o -> x_parent r = x_id o ->
    x_parent r <> ""%string -> x_reference r = refund_reference (x_id o) ->
    x_status o = "APPLIED"%string /\ x_source r = x_destination o /\ x_destination r = x_source o /\
    x_precise r = x_precise o }.

(** ** The trigger, case by case *)

Lemma is_status_of r s s' : x_status r = s' -> is_status s r = String.eqb s' s.
Proof. unfold is_status. by intros ->. Qed.

Section Claim.
Variables (db : ledger_db) (new : txn_row) (c : ledger_db).
Hypothesis Hids : NoDup (x_id <$> ld_txns db).
Hypothesis Hclaim : claim_transaction_lifecycle db new = Ok c.

Lemma claim_of_hold h :
  h ∈ ld_txns db -> hold h -> x_parent new = x_id h -> transition new = true ->
  0 < x_precise new /\ consumed db (x_id h) + x_precise new <= x_precise h.
Proof.
  intros Hh (Hne & Hs & Hq) Hp Ht. revert Hclaim. unfold claim_transaction_lifecycle.
  rewrite Hp, (find_txn_unique db h Hids Hh). apply String.eqb_neq in Hne as ->.
  rewrite (is_status_of h "APPLIED" _ Hs), (is_status_of h "INFLIGHT" _ Hs). cbn [String.eqb Ascii.eqb Bool.eqb negb].
  destruct (String.eqb (x_reference new) _); [done|].
  apply String.eqb_neq in Hq as ->. unfold transition in Ht. rewrite Ht. cbn [andb].
  intros H. repeat (res_step H; try discriminate H). zbool. lia.
Qed.

Lemma claim_of_queued_commit q :
  q ∈ ld_txns db -> queued_commit q = true -> x_parent new = x_id q ->
  x_precise new = x_precise q /\
  (x_status new = "APPLIED"%string \/ x_status new = "REJECTED"%string) /\
  forall r, r ∈ ld_txns db -> x_parent r <> x_id q.
Proof.
  intros Hin Hq Hp. unfold queued_commit in Hq. apply andb_true_iff in Hq as [[Hne Hs]%andb_true_iff Hq].
  apply String.eqb_eq in Hs. revert Hclaim. unfold claim_transaction_lifecycle.
  rewrite Hp, (find_txn_unique db q Hids Hin). apply negb_true_iff in Hne as ->.
  rewrite (is_status_of q "APPLIED" _ Hs). cbn [String.eqb Ascii.eqb Bool.eqb negb].
  destruct (String.eqb (x_reference new) _); [done|]. rewrite Hq.
  destruct (_ || negb (same_legs new q)) eqn:E; [done|]. destruct (existsb _ _) eqn:E2; [done|]. intros _.
  apply orb_false_iff in E as [[E Ez]%orb_false_iff _]. apply negb_false_iff, orb_true_iff in E.
  zbool. split; [done|]. split.
  - destruct E as [E|E]; apply String.eqb_eq in E; auto.
  - intros r Hr. pose proof (existsb_false _ _ E2 r Hr) as Hf. unfold is_parent in Hf. by zbool.
Qed.

Lemma claim_of_refund o :
  o ∈ ld_txns db -> x_parent new = x_id o -> x_parent new <> ""%string ->
  x_reference new = refund_reference (x_id o) ->
  x_status o = "APPLIED"%string /\ x_source new = x_destination o /\
  x_destination new = x_source o /\ x_precise new = x_precise o.
Proof.
  intros Hin Hp Hne Hr. revert Hclaim. unfold claim_transaction_lifecycle.
  apply String.eqb_neq in Hne as ->. rewrite Hp, (find_txn_unique db o Hids Hin).
  rewrite Hr, String.eqb_refl. destruct (is_status "APPLIED" o) eqn:Es; cbn [negb]; [|done].
  intros H. res_step H; [done|]. apply String.eqb_eq in Es. by zbool.
Qed.
End Claim.

(** ** What a hold's children use up, after an insert *)

Lemma zsum_list_le {A} (f g : A -> Z) l :
  (forall a, a ∈ l -> f a <= g a) -> zsum_list f l <= zsum_list g l.
Proof.
  induction l as [|a l IH]; intros H; [done|]. cbn [zsum_list foldr].
  pose proof (H a ltac:(left)). assert (zsum_list f l <= zsum_list g l); [|unfold zsum_list in *; lia].
  apply IH. intros b Hb. apply H. by right.
Qed.

Lemma consumes_transition db r : consumes db r = true -> transition r = true.
Proof.
  unfold consumes, transition. destruct (is_status "APPLIED" r), (is_status "VOID" r), (is_status "QUEUED" r); done.
Qed.

Lemma consumes_insert db db' row r :
  ld_txns db' = ld_txns db ++ [row] -> consumes db' r = true -> consumes db r = true.
Proof.
  intros Ht. unfold consumes. rewrite Ht, existsb_app.
  destruct (is_status "APPLIED" r), (is_status "VOID" r), (is_status "QUEUED" r && _); try done.
  cbn [orb andb]. by destruct (existsb _ (ld_txns db)).
Qed.

Lemma consumed_insert db db' row id :
  ld_txns db' = ld_txns db ++ [row] ->
  (forall r, r ∈ ld_txns db -> x_parent r = id -> transition r = true -> 0 < x_precise r) ->
  consumed db' id <= consumed db id + (if is_parent id row && consumes db' row then x_precise row else 0).
Proof.
  intros Ht Hpos. unfold consumed at 1. rewrite Ht, zsum_list_app. cbn [zsum_list foldr].
  rewrite Z.add_0_r. apply Z.add_le_mono_r, zsum_list_le. intros r Hr.
  destruct (is_parent id r) eqn:Ep; [|done]. unfold is_parent in Ep. zbool. cbn [andb].
  destruct (consumes db' r) eqn:E1.
  - by rewrite (consumes_insert _ _ _ _ Ht E1).
  - destruct (consumes db r) eqn:E2; [|done].
    apply consumes_transition in E2. pose proof (Hpos r Hr Ep E2). lia.
Qed.

Lemma consumed_no_child db id : (forall r, r ∈ ld_txns db -> x_parent r = id -> transition r = false) ->
  consumed db id = 0.
Proof.
  intros H. unfold consumed. transitivity (zsum_list (fun _ : txn_row => 0) (ld_txns db)).
  - apply Z.le_antisymm; apply zsum_list_le; intros r Hr;
      (destruct (is_parent id r && consumes db r) eqn:E; [|done]);
      unfold is_parent in E; zbool; exfalso;
      match goal with Hc : consumes _ _ = true |- _ => apply consumes_transition in Hc end;
      by rewrite H in *.
  - induction (ld_txns db) as [|x l IH]; [done|]. cbn. apply IH. intros r Hr. apply H. by right.
Qed.

(** ** Preservation *)

Lemma filter_children_app db row q :
  length (filter (fun c => x_parent c = x_id q) (ld_txns db ++ [row])) =
  (length (filter (fun c => x_parent c = x_id q) (ld_txns db)) +
   (if decide (x_parent row = x_id q) then 1 else 0))%nat.
Proof. rewrite filter_app, length_app, filter_cons, filter_nil. by destruct (decide _). Qed.

Section Insert.
Variables (db db' : ledger_db) (new row : txn_row).
Hypothesis Hok : lifecycle_ok db.
Hypothesis Hins : inserted db new db' row.
Hypothesis Hfresh : forall r, r ∈ ld_txns db -> x_parent r <> x_id new.

Lemma row_fields : x_id row = x_id new /\ x_parent row = x_parent new /\ x_reference row = x_reference new /\
  x_status row = x_status new /\ x_precise row = x_precise new /\ x_queue_action row = x_queue_action new /\
  x_source row = x_source new /\ x_destination row = x_destination new.
Proof. by destruct (ins_row _ _ _ _ Hins) as [m ->]. Qed.

Lemma elem_insert r : r ∈ ld_txns db' <-> r ∈ ld_txns db \/ r = row.
Proof. rewrite (ins_txns _ _ _ _ Hins), elem_of_app, list_elem_of_singleton. done. Qed.

(** A child of the new row is the new row itself. *)
Lemma child_of_new r : r ∈ ld_txns db' -> x_parent r = x_id row -> r = row.
Proof.
  destruct row_fields as (-> & _). intros [Hr| ->]%elem_insert; [|done]. by intros ?%Hfresh.
Qed.

Lemma insert_claim : exists c, claim_transaction_lifecycle db new = Ok c.
Proof. destruct (ins_claims _ _ _ _ Hins) as (c & Hc & _). eauto. Qed.

(** A self-parented row finds no parent, so it carries no action. *)
Lemma self_parent_action : x_parent row = x_id row -> x_id row <> ""%string -> x_queue_action row = ""%string.
Proof.
  destruct row_fields as (-> & -> & _ & _ & _ & -> & _). intros Hp Hne.
  destruct insert_claim as [c Hc]. revert Hc. unfold claim_transaction_lifecycle.
  rewrite Hp. apply String.eqb_neq in Hne as ->.
  destruct (find_txn db (x_id new)) as [p|] eqn:Ef.
  - apply find_txn_elem in Ef as [Hin Hid]. by apply (ins_fresh_id _ _ _ _ Hins) in Hin.
  - destruct (String.eqb (x_queue_action new) "") eqn:E; [|done]. by zbool.
Qed.

Lemma insert_positive h r : h ∈ ld_txns db' -> hold h -> r ∈ ld_txns db' ->
  x_parent r = x_id h -> transition r = true -> 0 < x_precise r.
Proof.
  intros Hh Hhold Hr Hp Ht. destruct row_fields as (E1 & E2 & E3 & E4 & E5 & E6 & _).
  apply elem_insert in Hh as [Hh| ->].
  2: { apply child_of_new in Hp; [|done]. subst r. destruct Hhold as (_ & Hs & _).
       unfold transition in Ht. rewrite !(is_status_of row _ _ Hs) in Ht. done. }
  apply elem_insert in Hr as [Hr| ->]; [by apply (lc_positive _ Hok h r)|].
  destruct insert_claim as [c Hc]. rewrite E5.
  apply (claim_of_hold db new c (lc_ids _ Hok) Hc h Hh Hhold); [congruence|].
  unfold transition, is_status in *. by rewrite <- E4.
Qed.

Lemma insert_bound h : h ∈ ld_txns db' -> hold h -> consumed db' (x_id h) <= Z.max 0 (x_precise h).
Proof.
  intros Hh Hhold. destruct row_fields as (E1 & E2 & E3 & E4 & E5 & E6 & _).
  apply elem_insert in Hh as [Hh| ->].
  - pose proof (lc_bound _ Hok h Hh Hhold) as Hb.
    pose proof (consumed_insert db db' row (x_id h) (ins_txns _ _ _ _ Hins)
                  (fun r Hr Hp Ht => lc_positive _ Hok h r Hh Hhold Hr Hp Ht)) as Hc.
    destruct (is_parent (x_id h) row && consumes db' row) eqn:E; [|lia].
    unfold is_parent in E. zbool. apply consumes_transition in H0.
    destruct insert_claim as [c Hcl].
    destruct (claim_of_hold db new c (lc_ids _ Hok) Hcl h Hh Hhold) as [_ Hle].
    + congruence.
    + unfold transition, is_status in *. by rewrite <- E4.
    + lia.
  - rewrite consumed_no_child; [lia|]. intros r Hr Hp. apply child_of_new in Hp; [|done]. subst r.
    destruct Hhold as (_ & Hs & _). unfold transition. by rewrite !(is_status_of row _ _ Hs).
Qed.

Lemma insert_one_child q : q ∈ ld_txns db' -> queued_commit q = true ->
  (length (filter (fun c => x_parent c = x_id q) (ld_txns db')) <= 1)%nat.
Proof.
  intros Hq Hqc. destruct row_fields as (E1 & E2 & _).
  rewrite (ins_txns _ _ _ _ Hins), filter_children_app. apply elem_insert in Hq as [Hq| ->].
  - pose proof (lc_one_child _ Hok q Hq Hqc) as H1. destruct (decide _) as [Hp|]; [|lia].
    destruct insert_claim as [c Hcl].
    destruct (claim_of_queued_commit db new c (lc_ids _ Hok) Hcl q Hq Hqc) as (_ & _ & Hno); [congruence|].
    assert (filter (fun c => x_parent c = x_id q) (ld_txns db) = []) as ->; [|cbn; lia].
    apply elem_of_nil_inv. intros r [Hr1 Hr2]%list_elem_of_filter. by apply (Hno r).
  - assert (filter (fun c => x_parent c = x_id row) (ld_txns db) = []) as ->.
    { apply elem_of_nil_inv. intros r [Hr1 Hr2]%list_elem_of_filter. rewrite E1 in Hr1. by apply (Hfresh r). }
    cbn. destruct (decide _); lia.
Qed.

Lemma insert_child q c : q ∈ ld_txns db' -> queued_commit q = true -> c ∈ ld_txns db' -> x_parent c = x_id q ->
  x_precise c = x_precise q /\ (x_status c = "APPLIED"%string \/ x_status c = "REJECTED"%string).
Proof.
  intros Hq Hqc Hc Hp. destruct row_fields as (E1 & E2 & E3 & E4 & E5 & E6 & _).
  apply elem_insert in Hq as [Hq| ->].
  - apply elem_insert in Hc as [Hc| ->]; [by apply (lc_child _ Hok q c)|]. destruct insert_claim as [cl Hcl].
    destruct (claim_of_queued_commit db new cl (lc_ids _ Hok) Hcl q Hq Hqc) as (A1 & A2 & _); [congruence|].
    by rewrite E5, E4.
  - apply child_of_new in Hp as Hcr; [|done]. subst c. unfold queued_commit in Hqc.
    apply andb_true_iff in Hqc as [[Hne _]%andb_true_iff Hqa]. zbool.
    rewrite (self_parent_action Hp Hne) in Hqa. done.
Qed.

Lemma insert_refund r o : r ∈ ld_txns db' -> o ∈ ld_txns db' -> x_id r <> x_id o -> x_parent r = x_id o ->
  x_parent r <> ""%string -> x_reference r = refund_reference (x_id o) ->
  x_status o = "APPLIED"%string /\ x_source r = x_destination o /\ x_destination r = x_source o /\
  x_precise r = x_precise o.
Proof.
  intros Hr Ho Hro Hp Hne Href. destruct row_fields as (E1 & E2 & E3 & E4 & E5 & E6 & E7 & E8).
  apply elem_insert in Ho as [Ho| ->].
  - apply elem_insert in Hr as [Hr| ->]; [by apply (lc_refund _ Hok r o)|]. destruct insert_claim as [cl Hcl].
    destruct (claim_of_refund db new cl (lc_ids _ Hok) Hcl o Ho) as (A1 & A2 & A3 & A4); try congruence.
    by rewrite E7, E8, E5.
  - apply child_of_new in Hp as Hcr; [|done]. by subst r.
Qed.

Lemma NoDup_insert {B} (f : txn_row -> B) : NoDup (f <$> ld_txns db) ->
  (forall r, r ∈ ld_txns db -> f r <> f row) -> NoDup (f <$> ld_txns db').
Proof.
  intros Hnd Hf. rewrite (ins_txns _ _ _ _ Hins), fmap_app. apply NoDup_app. split; [done|].
  split; [|apply NoDup_singleton]. intros x (r & -> & Hr)%list_elem_of_fmap Hx.
  apply list_elem_of_singleton in Hx. by apply (Hf r).
Qed.

Lemma insert_lifecycle : lifecycle_ok db'.
Proof.
  destruct row_fields as (E1 & E2 & E3 & _). split.
  - apply NoDup_insert; [apply Hok|]. intros r Hr. rewrite E1. by apply (ins_fresh_id _ _ _ _ Hins).
  - apply NoDup_insert; [apply Hok|]. intros r Hr. rewrite E3. by apply (ins_fresh_ref _ _ _ _ Hins).
  - apply insert_positive.
  - apply insert_bound.
  - apply insert_one_child.
  - apply insert_child.
  - apply insert_refund.
Qed.
End Insert.

(** ** Metadata updates *)

Section Update.
Variables (db db' : ledger_db) (f : txn_row -> metadata).
Hypothesis Htx : ld_txns db' = with_meta f <$> ld_txns db.

Lemma existsb_with_meta (p : txn_row -> bool) :
  (forall r, p (with_meta f r) = p r) -> existsb p (ld_txns db') = existsb p (ld_txns db).
Proof.
  intros Hp. rewrite Htx. generalize (ld_txns db) as l. induction l as [|x l IH]; [done|].
  change (p (with_meta f x) || existsb p (with_meta f <$> l) = p x || existsb p l). by rewrite Hp, IH.
Qed.

Lemma consumes_with_meta r : consumes db' (with_meta f r) = consumes db r.
Proof. unfold consumes. rewrite existsb_with_meta; done. Qed.

Lemma consumed_with_meta id : consumed db' id = consumed db id.
Proof.
  unfold consumed. rewrite Htx.
  assert (forall l, zsum_list (fun r => if is_parent id r && consumes db' r then x_precise r else 0) (with_meta f <$> l) =
    zsum_list (fun r => if is_parent id r && consumes db r then x_precise r else 0) l) as H; [|apply H].
  induction l as [|x l IH]; [done|]. rewrite fmap_cons. cbn [zsum_list foldr].
  rewrite consumes_with_meta. unfold zsum_list in IH. by rewrite IH.
Qed.

Lemma elem_with_meta r : r ∈ ld_txns db' <-> exists r0, r = with_meta f r0 /\ r0 ∈ ld_txns db.
Proof. rewrite Htx. apply list_elem_of_fmap. Qed.

Lemma children_with_meta id :
  length (filter (fun c => x_parent c = id) (ld_txns db')) =
  length (filter (fun c => x_parent c = id) (ld_txns db)).
Proof.
  rewrite Htx. generalize (ld_txns db) as l. induction l as [|x l IH]; [done|]. rewrite fmap_cons, !filter_cons.
  change (x_parent (with_meta f x)) with (x_parent x). destruct (decide _); cbn; by rewrite IH.
Qed.

Lemma update_lifecycle : lifecycle_ok db -> lifecycle_ok db'.
Proof.
  intros Hok. split.
  - rewrite Htx, <- list_fmap_compose. apply Hok.
  - rewrite Htx, <- list_fmap_compose. apply Hok.
  - intros h r (h0 & -> & Hh)%elem_with_meta Hhold (r0 & -> & Hr)%elem_with_meta.
    exact (lc_positive _ Hok h0 r0 Hh Hhold Hr).
  - intros h (h0 & -> & Hh)%elem_with_meta Hhold. rewrite consumed_with_meta.
    exact (lc_bound _ Hok h0 Hh Hhold).
  - intros q (q0 & -> & Hq)%elem_with_meta Hqc. rewrite children_with_meta.
    exact (lc_one_child _ Hok q0 Hq Hqc).
  - intros q c (q0 & -> & Hq)%elem_with_meta Hqc (c0 & -> & Hc)%elem_with_meta.
    exact (lc_child _ Hok q0 c0 Hq Hqc Hc).
  - intros r o (r0 & -> & Hr)%elem_with_meta (o0 & -> & Ho)%elem_with_meta.
    exact (lc_refund _ Hok r0 o0 Hr Ho).
Qed.
End Update.

Lemma step_lifecycle db db' : store_step db db' -> lifecycle_ok db -> lifecycle_ok db'.
Proof.
  intros [new Hi Hf|[f Hf] _] Hok; [|by eapply update_lifecycle].
  apply insert_inserted in Hi as [row Hi]. by eapply insert_lifecycle.
Qed.

Lemma reachable_lifecycle db : store_reachable db -> lifecycle_ok db.
Proof.
  induction 1 as [db H1 _|db db' _ IH Hs]; [|by eapply step_lifecycle].
  split; rewrite H1; try (cbn; constructor); intros; exfalso; by eapply not_elem_of_nil.
Qed.

(** ** What was settled *)

(** Applied by worker or recovery children of a queued commit. *)
Definition applied_children (db : ledger_db) (id : string) : Z :=
  zsum_list (fun c => if is_parent id c && is_status "APPLIED" c then x_precise c else 0) (ld_txns db).

(** What of a hold reached the balances: its commits and voids, and the
    applied children of its queued commits. *)
Definition settled (db : ledger_db) (id : string) : Z :=
  zsum_list (fun r => if is_parent id r then
      if is_status "APPLIED" r || is_status "VOID" r then x_precise r
      else if queued_commit r then applied_children db (x_id r) else 0
    else 0) (ld_txns db).

Lemma zsum_list_filter {A} (P : A -> Prop) `{!forall a, Decision (P a)} (g : A -> Z) l :
  zsum_list (fun a => if decide (P a) then g a else 0) l = zsum_list g (filter P l).
Proof.
  induction l as [|a l IH]; [done|]. rewrite filter_cons. cbn [zsum_list foldr].
  unfold zsum_list in IH. rewrite IH. by destruct (decide (P a)).
Qed.

Lemma applied_children_filter db id : applied_children db id =
  zsum_list (fun c => if is_status "APPLIED" c then x_precise c else 0)
    (filter (fun c => x_parent c = id) (ld_txns db)).
Proof.
  rewrite <- zsum_list_filter. unfold applied_children, is_parent.
  apply Z.le_antisymm; apply zsum_list_le; intros c _; destruct (decide (x_parent c = id)) as [->|Hne];
    try rewrite String.eqb_refl; try (apply String.eqb_neq in Hne as ->); done.
Qed.

(** A queued commit settles nothing once its child was rejected, and at most
    its own amount otherwise. *)
Lemma applied_children_le db q : lifecycle_ok db -> q ∈ ld_txns db -> queued_commit q = true ->
  0 < x_precise q -> 0 <= applied_children db (x_id q) <= (if consumes db q then x_precise q else 0).
Proof.
  intros Hok Hq Hqc Hpos. rewrite applied_children_filter.
  pose proof (lc_one_child _ Hok q Hq Hqc) as Hlen.
  set (l := filter (fun c => x_parent c = x_id q) (ld_txns db)) in *.
  destruct l as [|c [|]] eqn:El; cbn in Hlen; [destruct (consumes db q); cbn; lia| |lia].
  assert (c ∈ l) as Hc by (rewrite El; left). apply list_elem_of_filter in Hc as [Hp Hc].
  destruct (lc_child _ Hok q c Hq Hqc Hc Hp) as [Hamt Hst]. cbn. rewrite Z.add_0_r.
  destruct Hst as [Hs|Hs]; rewrite (is_status_of c "APPLIED" _ Hs); cbn [String.eqb Ascii.eqb Bool.eqb].
  2: { destruct (consumes db q); lia. }
  assert (consumes db q = true) as ->; [|lia]. unfold queued_commit in Hqc.
  apply andb_true_iff in Hqc as [[_ H1]%andb_true_iff H2]. unfold consumes. rewrite H1, H2.
  destruct (existsb _ (ld_txns db)) eqn:E; [|by rewrite !orb_true_r].
  apply existsb_exists in E as (d & Hd & Hdd). apply list_elem_of_In in Hd. unfold is_parent in Hdd.
  apply andb_true_iff in Hdd as [Hdp Hds]. apply String.eqb_eq in Hdp, Hds.
  assert (d ∈ l) as Hdl by (by apply list_elem_of_filter). rewrite El in Hdl.
  apply list_elem_of_singleton in Hdl. congruence.
Qed.

Lemma settled_consumed db h : lifecycle_ok db -> h ∈ ld_txns db -> hold h ->
  0 <= settled db (x_id h) <= consumed db (x_id h).
Proof.
  intros Hok Hh Hhold.
  assert (forall r, r ∈ ld_txns db ->
    0 <= (if is_parent (x_id h) r then if is_status "APPLIED" r || is_status "VOID" r then x_precise r
          else if queued_commit r then applied_children db (x_id r) else 0 else 0)
      <= (if is_parent (x_id h) r && consumes db r then x_precise r else 0)) as Hterm.
  { intros r Hr. destruct (is_parent (x_id h) r) eqn:Ep; [|done]. unfold is_parent in Ep. zbool. cbn [andb].
    pose proof (lc_positive _ Hok h r Hh Hhold Hr Ep) as Hpos.
    destruct (is_status "APPLIED" r || is_status "VOID" r) eqn:Es.
    { assert (consumes db r = true) as -> by (unfold consumes; by rewrite Es).
      specialize (Hpos ltac:(unfold transition; by rewrite Es)). lia. }
    destruct (queued_commit r) eqn:Eq.
    { apply applied_children_le; [done..|]. apply Hpos. unfold queued_commit in Eq.
      apply andb_true_iff in Eq as [[_ Eq]%andb_true_iff _]. unfold transition. by rewrite Es, Eq. }
    destruct (consumes db r) eqn:Ec; [|lia]. apply consumes_transition in Ec. specialize (Hpos Ec). lia. }
  split; [apply zsum_list_nonneg|apply zsum_list_le]; intros r Hr; by apply Hterm.
Qed.

(** C13: a hold is never settled beyond its amount.  In every history of the
    store, what the commits, voids and worker children of a hold have moved is
    between zero and what the store counts as consumed, which is at most the
    held amount; a queued commit that was rejected counts for nothing. *)
Theorem hold_never_overspent (db : ledger_db) (h : txn_row) :
  store_reachable db -> h ∈ ld_txns db -> hold h ->
  0 <= settled db (x_id h) <= consumed db (x_id h) /\
  consumed db (x_id h) <= Z.max 0 (x_precise h).
Proof.
  intros Hr%reachable_lifecycle Hh Hhold. split; [by apply settled_consumed|by apply lc_bound].
Qed.

(** C25: a transaction is reversed at most once and exactly.  In every history,
    two refund rows of one original are the same row, the original was
    applied, and the refund has its legs reversed and its amount. *)
Theorem refund_once_and_exact (db : ledger_db) (o r1 r2 : txn_row) :
  store_reachable db -> o ∈ ld_txns db -> r1 ∈ ld_txns db -> r2 ∈ ld_txns db ->
  x_id o <> ""%string -> x_id r1 <> x_id o ->
  x_parent r1 = x_id o -> x_reference r1 = refund_reference (x_id o) ->
  x_reference r2 = refund_reference (x_id o) ->
  r1 = r2 /\ x_status o = "APPLIED"%string /\ x_source r1 = x_destination o /\
  x_destination r1 = x_source o /\ x_precise r1 = x_precise o.
Proof.
  intros Hr%reachable_lifecycle Ho H1 H2 Hne Hid Hp E1 E2. split.
  - pose proof (lc_refs _ Hr) as Hnd. apply list_elem_of_lookup in H1 as [i Hi], H2 as [j Hj].
    assert (i = j) as ->; [|congruence].
    apply (NoDup_lookup _ i j (x_reference r1) Hnd); rewrite list_lookup_fmap.
    + by rewrite Hi.
    + rewrite Hj. cbn. congruence.
  - apply (lc_refund _ Hr r1 o); congruence.
Qed.

(** ** Witnesses *)

Module LifecycleWitness.

Definition no_policies : policy_db :=
  {| db_parents := ∅; db_policies := ∅; db_usage := ∅; db_admissions := ∅; db_bindings := ∅; db_budgets := [] |}.
Definition empty_db : ledger_db :=
  {| ld_txns := []; ld_claims := ∅; ld_balances := ∅; ld_outbox := []; ld_policy := no_policies;
     ld_mappings := []; ld_identities := ∅; ld_ids := 0 |}.
Definition row (id parent reference source destination status action : string) (amount : Z) : txn_row :=
  let t := {| zero_transaction with
    t_TransactionID := id; t_ParentTransaction := parent; t_Reference := reference; t_Source := source;
    t_Destination := destination; t_Status := status; t_QueueAction := action; t_Currency := "USD";
    t_Precision := f_of_Z 100 |} in
  row_of t ("1"%string, amount).

(** A hold of 100, a commit of 60 of it, a queued commit of 30 and its worker
    child, and a void of the rest; then a refund of the commit. *)
Definition history : list txn_row := [
  row "h" "" "r1" "a" "b" "INFLIGHT" "" 100;
  row "c" "h" "r2" "a" "b" "APPLIED" "COMMIT" 60;
  row "q" "h" "r3" "a" "b" "QUEUED" "COMMIT" 30;
  row "w" "q" "r3_q" "a" "b" "APPLIED" "COMMIT" 30;
  row "v" "h" "r4" "a" "b" "VOID" "" 10;
  row "o" "" "r5" "a" "b" "APPLIED" "" 7;
  row "f" "o" "o_refund" "b" "a" "APPLIED" "" 7].

Definition insert_all (db : ledger_db) (rows : list txn_row) : ledger_db :=
  foldl (fun db r => match insert_transaction db r with Ok db' => db' | Err _ => db end) db rows.

Fixpoint checks (db : ledger_db) (rows : list txn_row) : bool :=
  match rows with
  | [] => true
  | r :: rest =>
      is_ok (insert_transaction db r)
      && forallb (fun x => negb (String.eqb (x_parent x) (x_id r))) (ld_txns db)
      && checks (insert_all db [r]) rest
  end.

Lemma insert_all_reachable rows db :
  store_reachable db -> checks db rows = true -> store_reachable (insert_all db rows).
Proof.
  revert db; induction rows as [|r rows IH]; intros db Hr Hc; [done|]. cbn [checks] in Hc.
  apply andb_true_iff in Hc as [[Hok Hf]%andb_true_iff Hc].
  change (store_reachable (insert_all (insert_all db [r]) rows)). apply IH; [|done]. clear IH Hc.
  unfold insert_all. cbn [foldl]. destruct (insert_transaction db r) as [db'|] eqn:E; [|done].
  eapply reach_step; [exact Hr|]. eapply step_insert; [exact E|]. intros x Hx.
  rewrite forallb_forall in Hf. apply list_elem_of_In, Hf in Hx. by zbool.
Qed.

Definition final : ledger_db := insert_all empty_db history.

Lemma final_reachable : store_reachable final.
Proof. apply insert_all_reachable; [by constructor|]. vm_compute. reflexivity. Qed.

Lemma hold_never_overspent_witness :
  0 <= settled final "h" <= consumed final "h" /\ consumed final "h" <= Z.max 0 100 /\
  settled final "h" = 100.
Proof.
  destruct (hold_never_overspent final (row "h" "" "r1" "a" "b" "INFLIGHT" "" 100) final_reachable)
    as [H1 H2].
  - vm_compute. left.
  - split; [discriminate|]. split; [reflexivity|discriminate].
  - split; [exact H1|]. split; [exact H2|]. vm_compute. reflexivity.
Defined.

Lemma refund_once_and_exact_witness :
  x_destination (row "f" "o" "o_refund" "b" "a" "APPLIED" "" 7) =
  x_source (row "o" "" "r5" "a" "b" "APPLIED" "" 7).
Proof.
  destruct (refund_once_and_exact final (row "o" "" "r5" "a" "b" "APPLIED" "" 7)
    (row "f" "o" "o_refund" "b" "a" "APPLIED" "" 7) (row "f" "o" "o_refund" "b" "a" "APPLIED" "" 7)
    final_reachable) as (_ & _ & _ & H & _); try reflexivity; try discriminate; try exact H;
    vm_compute; repeat constructor.
Defined.
End LifecycleWitness.
