(* ===== verification/Engine.v ===== *)
(** * Transaction execution

    [internal/core/transaction_execution.go], [transaction_inflight.go],
    [transaction_refunds.go], [transaction_rejection.go] and the lineage outbox
    entry of [lineage_outbox.go]: recording a transaction against its two
    balances, and committing, voiding and refunding it.  A handler is a
    computation in a state and error monad over the store: the state after it
    is returned with an error too, because earlier statements of the handler
    may have committed.  Redis locks and the HTTP hooks are parameters; traces,
    logs, metrics, webhooks, the search index and the hot-pair statistics are
    left out.  The executor here handles one transaction at a time; batches of
    queued transactions are in [Coalesce]. *)
From stdpp Require Import base option list strings gmap.
From Stdlib Require Import ZArith Lia SpecFloat.
From S2P Require Import Prelude GoFloat Model GoTime Sha256 Decimal Amount Balance Policy PolicyStore Store.
Close Scope Q_scope.
Open Scope Z_scope.

(** ** Handlers *)

Definition M (A : Type) : Type := ledger_db -> ledger_db * result A.
Definition ret {A} (a : A) : M A := fun db => (db, Ok a).
Definition fail {A} (e : go_error) : M A := fun db => (db, Err e).
Definition bind {A B} (m : M A) (f : A -> M B) : M B :=
  fun db => match m db with
            | (db', Ok a) => f a db'
            | (db', Err e) => (db', Err e)
            end.
(** A pure step, a read, and a database transaction that is rolled back on
    an error. *)
Definition lift {A} (r : result A) : M A := fun db => (db, r).
Definition reads {A} (f : ledger_db -> result A) : M A := fun db => (db, f db).
Definition atomically {A} (f : ledger_db -> result (ledger_db * A)) : M A :=
  fun db => match f db with Ok (db', a) => (db', Ok a) | Err e => (db, Err e) end.
(** [fmt.Errorf("msg: %w", err)] on the error of a step. *)
Definition with_context {A} (msg : string) (m : M A) : M A :=
  fun db => match m db with
            | (db', Err e) => (db', Err (wrap (msg +:+ ": ") e))
            | r => r
            end.
Definition try {A} (m : M A) : M (result A) := fun db => let '(db', r) := m db in (db', Ok r).

Declare Scope engine_scope.
Notation "'let!' x := m 'in' k" := (bind m (fun x => k))
  (at level 10, x name, m at level 100, k at level 200) : engine_scope.
Open Scope engine_scope.

Definition StatusQueued : string := "QUEUED".
Definition StatusApplied : string := "APPLIED".
Definition StatusScheduled : string := "SCHEDULED".
Definition StatusRejected : string := "REJECTED".
Definition StatusInflight : string := "INFLIGHT".
Definition StatusVoid : string := "VOID".
Definition StatusCommit : string := "COMMIT".

(** [HashTxn]. *)
Definition HashTxn (t : Transaction) : string :=
  sha_hex (FormatFloat (t_Amount t) +:+ t_Reference t +:+ t_Currency t +:+ t_Source t +:+ t_Destination t).

(** ** Pieces of the executor *)

(** [isZeroPreciseAmount]. *)
Definition isZeroPreciseAmount (t : Transaction) : bool :=
  match t_PreciseAmount t with Some n => n <=? 0 | None => false end.

(** [policyMarked]. *)
Definition policyMarked (t : Transaction) : bool :=
  match md_get (t_MetaData t) "policy_admission_id" with Some _ => true | None => false end.

(** [clearTerminalInflightMetadata]. *)
Definition clearTerminalInflightMetadata (t : Transaction) : Transaction :=
  if String.eqb (t_Status t) StatusInflight then t
  else {| t with t_Inflight := false; t_MetaData := delete "inflight"%string <$> t_MetaData t |}.

(** The map [applicableStatus]; a missing key gives the empty string. *)
Definition applicableStatus (s : string) : string :=
  if String.eqb s StatusQueued then StatusApplied
  else if String.eqb s StatusApplied then StatusApplied
  else if String.eqb s StatusScheduled then StatusApplied
  else if String.eqb s StatusCommit then StatusApplied
  else if String.eqb s StatusVoid then StatusVoid
  else "".

(** [updateTransactionDetails]. *)
Definition updateTransactionDetails (t : Transaction) (source destination : Balance) : Transaction :=
  {| t with t_Source := b_BalanceID source; t_Destination := b_BalanceID destination;
     t_Status := if t_Inflight t then StatusInflight else applicableStatus (t_Status t) |}.

(** [getLineageProvider]. *)
Definition getLineageProvider (t : Transaction) : string :=
  match md_get (ExecutionMetadata t) "LEDGERFORGE_LINEAGE_PROVIDER" with
  | Some (JStr p) => p
  | _ => ""
  end.

(** [PrepareLineageOutbox]. *)
Definition PrepareLineageOutbox (t : Transaction) (source destination : Balance) : option LineageOutbox :=
  let provider := getLineageProvider t in
  let needsCredit := negb (String.eqb provider "") && b_TrackFundLineage destination in
  let needsDebit := b_TrackFundLineage source in
  if negb needsCredit && negb needsDebit then None
  else
    let lineageType := if needsCredit && negb needsDebit then "credit"%string
                       else if needsDebit && negb needsCredit then "debit"%string else "both"%string in
    Some {| lo_ID := 0; lo_TransactionID := t_TransactionID t; lo_SourceBalanceID := b_BalanceID source;
            lo_DestinationBalanceID := b_BalanceID destination; lo_Provider := provider;
            lo_LineageType := lineageType;
            lo_Payload := LineagePayload {| lp_Amount := t_Amount t;
               lp_PreciseAmount := match t_PreciseAmount t with Some n => itoa n | None => "<nil>" end;
               lp_Currency := t_Currency t; lp_Precision := t_Precision t;
               lp_Reference := t_Reference t; lp_SkipQueue := true; lp_Inflight := t_Inflight t |};
            lo_Status := ""; lo_Attempts := 0; lo_MaxAttempts := 5; lo_LastError := ""; lo_LockedUntil := None; lo_Inflight := t_Inflight t |}.

(** [prepareTransactionOutbox]. *)
Definition prepareTransactionOutbox (t : Transaction) (source destination : Balance) : option LineageOutbox :=
  if negb (String.eqb (t_Status t) StatusApplied) && negb (String.eqb (t_Status t) StatusInflight) then None
  else if negb (String.eqb (t_ParentTransaction t) "") && String.eqb (t_QueueAction t) StatusCommit then None
  else PrepareLineageOutbox t source destination.

(** [queuedBatchPostCommitWork]. *)
Record execution_work := {
  w_transaction : Transaction; w_sourceBalance : Balance; w_destinationBalance : Balance;
  w_outbox : option LineageOutbox }.

(** [buildTransactionExecutionWork]: the work, and whether nothing is to be
    persisted. *)
Definition buildTransactionExecutionWork (t : Transaction) (source destination : Balance)
    : execution_work * bool :=
  let t := updateTransactionDetails t source destination in
  if match t_PreciseAmount t with Some n => n =? 0 | None => false end
  then ({| w_transaction := t; w_sourceBalance := source; w_destinationBalance := destination;
           w_outbox := None |}, true)
  else
    let outbox := prepareTransactionOutbox t source destination in
    ({| w_transaction := clearTerminalInflightMetadata t; w_sourceBalance := source;
        w_destinationBalance := destination; w_outbox := outbox |}, false).

Definition HasPrefix (s prefix : string) : bool := String.prefix prefix s.

Section Executor.
Context {Dops : DecimalOps}.
Variable numeric_float : string -> float64.
Variable GenerateUUIDWithSuffix : string -> nat -> string.
(** The outcome of the pre-transaction HTTP hooks. *)
Variable pre_hooks : Transaction -> result unit.
(** The outcome of acquiring the Redis locks of these keys. *)
Variable acquire : list string -> result unit.
(** [config.Transaction.EnableQueuedChecks], and the clock. *)
Variable EnableQueuedChecks : bool.
Variable now : Z.

(** [applyTransactionToBalances]. *)
Definition applyTransactionToBalances (t : Transaction) (source destination : Balance)
    : result (Transaction * Balance * Balance) :=
  let transition := String.eqb (t_Status t) StatusCommit || String.eqb (t_Status t) StatusVoid in
  let* _ :=
    if transition then
      match t_PreciseAmount t with
      | Some amount =>
          if amount <=? 0 then Err (errors_New "inflight transition amount must be positive")
          else if (IDR source <? amount) || (ICR destination <? amount)
          then Err (errors_New "insufficient inflight reservation") else Ok tt
      | None => Err (errors_New "inflight transition amount must be positive")
      end
    else Ok tt in
  let '(source, destination) :=
    if transition then (InitializeBalanceFields source, InitializeBalanceFields destination)
    else (source, destination) in
  if String.eqb (t_Status t) StatusCommit then
    match CommitInflightDebit source t with
    | (_, _, Err e) => Err (wrap "commit inflight debit failed: " e)
    | (source', t', Ok _) =>
        match CommitInflightCredit destination t' with
        | (_, _, Err e) => Err (wrap "commit inflight credit failed: " e)
        | (destination', t'', Ok _) => Ok (t'', source', destination')
        end
    end
  else if String.eqb (t_Status t) StatusVoid then
    match RollbackInflightDebit source (t_PreciseAmount t) with
    | (_, Err e) => Err (wrap "void inflight debit failed: " e)
    | (source', Ok _) =>
        match RollbackInflightCredit destination (t_PreciseAmount t) with
        | (_, Err e) => Err (wrap "void inflight credit failed: " e)
        | (destination', Ok _) => Ok (t, source', destination')
        end
    end
  else
    match UpdateBalances t source destination with
    | (_, _, _, Err e) => Err e
    | (t', source', destination', Ok _) => Ok (t', source', destination')
    end.

(** [isAlreadyExists]. *)
Definition isAlreadyExists (e : go_error) : bool := errors_Is e ("APIError:" +:+ ErrConflict).
Definition GeneralLedgerID : string := "general_ledger_id".

(** The balance with its queued amounts, when the configuration asks for them. *)
Definition with_queued (b : Balance) : M Balance :=
  if EnableQueuedChecks then reads (fun db => GetBalanceByID db (b_BalanceID b) true) else ret b.

(** [getOrCreateBalanceByIndicator]. *)
Definition getOrCreateBalanceByIndicator (indicator currency : string) : M Balance :=
  let! found := try (reads (fun db => GetBalanceByIndicator db indicator currency)) in
  match found with
  | Ok b => with_queued b
  | Err _ =>
      let fresh := {| zero_balance with b_Indicator := indicator; b_LedgerID := GeneralLedgerID;
                      b_Currency := currency |} in
      let! created := try (fun db => CreateBalance GenerateUUIDWithSuffix db now fresh) in
      match created with
      | Err e => if isAlreadyExists e
                 then let! b := reads (fun db => GetBalanceByIndicator db indicator currency) in with_queued b
                 else fail e
      | Ok _ => let! b := reads (fun db => GetBalanceByIndicator db indicator currency) in with_queued b
      end
  end.

Definition resolve_id (side name currency : string) : M string :=
  if HasPrefix name "@" then
    with_context ("failed to resolve " +:+ side +:+ " balance indicator")
      (let! b := getOrCreateBalanceByIndicator name currency in ret (b_BalanceID b))
  else ret name.

(** [resolveBalanceIDs]. *)
Definition resolveBalanceIDs (t : Transaction) : M (string * string) :=
  let! sourceID := resolve_id "source" (t_Source t) (t_Currency t) in
  let! destID := resolve_id "destination" (t_Destination t) (t_Currency t) in
  ret (sourceID, destID).

Definition get_balance (name currency : string) : M Balance :=
  if HasPrefix name "@" then getOrCreateBalanceByIndicator name currency
  else if EnableQueuedChecks then reads (fun db => GetBalanceByID db name true)
  else reads (fun db => GetBalanceByIDLite db name).

(** [getSourceAndDestination]. *)
Definition getSourceAndDestination (t : Transaction) : M (Balance * Balance) :=
  let! source := get_balance (t_Source t) (t_Currency t) in
  let! destination := get_balance (t_Destination t) (t_Currency t) in
  ret (source, destination).

(** [validateTxn]. *)
Definition validateTxn (t : Transaction) : M unit :=
  reads (fun db => if TransactionExistsByRef db (t_Reference t)
                   then Err (errors_New ("reference " +:+ t_Reference t +:+ " has already been used"))
                   else Ok tt).

(** [validateAndPrepareTransaction]. *)
Definition validateAndPrepareTransaction (t : Transaction) : M (Transaction * Balance * Balance) :=
  let! _ := with_context "transaction validation failed" (validateTxn t) in
  let! sd := with_context "failed to get source and destination balances" (getSourceAndDestination t) in
  ret ({| t with t_Source := b_BalanceID sd.1; t_Destination := b_BalanceID sd.2 |}, sd.1, sd.2).

(** [verifyPolicyExecution]: the transaction as the admission marks it. *)
Definition verifyPolicyExecution (t : Transaction) : M Transaction :=
  if negb (policyMarked t) then ret t
  else if String.eqb (t_Status t) StatusCommit then
    let! _ := reads (fun db => checkPolicyCommit db (t_ParentTransaction t)) in ret t
  else if String.eqb (t_Status t) StatusVoid then ret t
  else
    let! found := reads (fun db => verifyPolicyLeg db t) in
    match found with
    | None => fail ErrDenied
    | Some a =>
        let t' := Apply (Some a) t in
        let id := foldl (fun id leg => if String.eqb (pl_Reference leg) (t_Reference t')
                                       then pl_TransactionID leg else id)
                    (t_TransactionID t') (pa_Legs a) in
        ret {| t' with t_TransactionID := id |}
    end.

(** [releasePolicyCapacity]: an error is only logged. *)
Definition releasePolicyCapacity (id : string) : M unit :=
  fun db => (match ReleasePolicyLeg db id with Ok db' => db' | Err _ => db end, Ok tt).

(** [RejectTransaction] up to the failure handling of an atomic batch, whose
    parent is returned. *)
Definition RejectTransaction (t : Transaction) (reason : string) : M (Transaction * option string) :=
  let t := {| t with t_Status := StatusRejected;
              t_MetaData := md_set (t_MetaData t) "ledgerforge_rejection_reason" (JStr reason) |} in
  let t := snd (ApplyPrecision t) in
  let! t := atomically (fun db => RecordTransaction db t) in
  let! _ := if policyMarked t then releasePolicyCapacity (t_TransactionID t) else ret tt in
  if t_Atomic t then
    if String.eqb (t_QueuedParent t) "" then fail (errors_New "parent transaction ID not found in meta data")
    else ret (t, Some (t_QueuedParent t))
  else ret (t, None).

(** [handleZeroAmountTransaction]. *)
Definition handleZeroAmountTransaction (t : Transaction) (viaQueue : bool) : M Transaction :=
  if viaQueue then let! r := RejectTransaction t "zero amount" in ret r.1 else ret t.

(** [persistSingleTransactionExecutionWork]. *)
Definition persistSingleTransactionExecutionWork (w : execution_work) : M Transaction :=
  with_context "failed to persist transaction with balances"
    (atomically (fun db => RecordTransactionWithBalancesAndOutbox db (w_transaction w)
       (w_sourceBalance w) (w_destinationBalance w) (w_outbox w))).

(** The function that [recordTransactionSingle] runs under the locks. *)
Definition record_locked (t : Transaction) (viaQueue : bool) : M Transaction :=
  let! _ := lift (pre_hooks t) in
  let! tsd := validateAndPrepareTransaction t in
  let t := tsd.1.1 in
  if isZeroPreciseAmount t then handleZeroAmountTransaction t viaQueue
  else
    let! t := verifyPolicyExecution t in
    let! applied := with_context "failed to apply transaction to balances"
                      (lift (applyTransactionToBalances t tsd.1.2 tsd.2)) in
    let ws := buildTransactionExecutionWork applied.1.1 applied.1.2 applied.2 in
    if ws.2 then handleZeroAmountTransaction (w_transaction ws.1) viaQueue
    else persistSingleTransactionExecutionWork ws.1.

(** [recordTransactionSingle] with [executeWithLock]. *)
Definition recordTransactionSingle (t : Transaction) (viaQueue : bool) : M Transaction :=
  let! ids := with_context "failed to resolve balance IDs" (resolveBalanceIDs t) in
  let t := {| t with t_Source := ids.1; t_Destination := ids.2 |} in
  let! _ := with_context "failed to acquire lock" (lift (acquire [ids.1; ids.2])) in
  record_locked t viaQueue.

(** [executeTransactionPlan] in single mode. *)
Definition executeTransactionPlan (t : Transaction) (viaQueue : bool) : M Transaction :=
  let! t := verifyPolicyExecution t in recordTransactionSingle t viaQueue.

(** [RecordTransaction] in an internal policy context, where no admission is
    made. *)
Definition RecordTransaction_internal (t : Transaction) : M Transaction :=
  executeTransactionPlan t false.
End Executor.
