(* ===== verification/Inflight.v ===== *)
(** * Holds: commits, voids and refunds

    [internal/core/transaction_inflight.go], the shadow transactions of
    [lineage_shadow.go], and [transaction_refunds.go] up to the queueing of the
    refund.  Committing a hold commits its lineage shadows by the same
    handler; [fuel] bounds that nesting. *)
From stdpp Require Import base option list strings gmap sorting.
From Stdlib Require Import ZArith Lia SpecFloat.
From S2P Require Import Prelude GoFloat Model GoTime Sha256 Decimal Amount Balance Policy PolicyStore Store Engine.
Close Scope Q_scope.
Open Scope Z_scope.

(** ** Errors *)

Definition lower_ascii (c : Ascii.ascii) : Ascii.ascii :=
  let n := Ascii.N_of_ascii c in
  if ((65 <=? n) && (n <=? 90))%N then Ascii.ascii_of_N (n + 32) else c.
(** [strings.ToLower] and [strings.Contains]. *)
Fixpoint ToLower (s : string) : string :=
  match s with EmptyString => EmptyString | String c s' => String (lower_ascii c) (ToLower s') end.
Definition Contains (s sub : string) : bool :=
  match String.index 0 sub s with Some _ => true | None => false end.

(** [classifyInflightError]. *)
Definition classifyInflightError (err : option go_error) : string :=
  match err with
  | None => ""
  | Some e =>
      let msg := ToLower (err_msg e) in
      if Contains msg "transaction not found" || Contains msg "no rows in result set"
         || Contains msg "not found" then "NOT_FOUND"
      else if Contains msg "has already been voided" then "ALREADY_VOIDED"
      else if Contains msg "transaction already committed" then "ALREADY_COMMITTED"
      else if Contains msg "not in inflight status" then "NOT_INFLIGHT"
      else if Contains msg "cannot commit more than" then "INVALID_AMOUNT"
      else if Contains msg "failed to acquire lock" then "LOCKED"
      else "INTERNAL_ERROR"
  end.

(** [IsDuplicateReferenceError]: [errors.As] finds a [*pq.Error] in the chain,
    or the message is inspected. *)
Definition pq_in_chain (e : go_error) : option string :=
  List.find (fun tag => String.prefix "pq:" tag) (err_is e).
Definition IsDuplicateReferenceError (e : go_error) : bool :=
  match pq_in_chain e with
  | Some tag => String.prefix "pq:23505:" tag && Contains (ToLower tag) "reference"
  | None =>
      let msg := ToLower (err_msg e) in
      (Contains msg "duplicate key value violates unique constraint" && Contains msg "reference")
      || (Contains msg "reference" && Contains msg "already been used")
  end.

(** [isTerminalInflightError]. *)
Definition isTerminalInflightError (e : go_error) : bool :=
  IsDuplicateReferenceError e ||
  existsb (String.eqb (classifyInflightError (Some e)))
    ["ALREADY_COMMITTED"; "ALREADY_VOIDED"; "NOT_INFLIGHT"; "INVALID_AMOUNT"]%string.

(** [shouldExpandInflightParent]. *)
Definition shouldExpandInflightParent (e : go_error) : bool :=
  errors_Is e "sql.ErrNoRows" ||
  existsb (String.eqb (classifyInflightError (Some e))) ["NOT_FOUND"; "NOT_INFLIGHT"]%string.

(** ** Amounts *)

(** [IsInflightTransaction]. *)
Definition IsInflightTransaction (t : Transaction) : bool :=
  String.eqb (t_Status t) StatusInflight || (String.eqb (t_Status t) StatusQueued && t_Inflight t).

(** The quotient [num / den], both positive, rounded half to even to [p] bits. *)
Definition quo_bits (p num den : Z) : Z * Z :=
  let e0 := Z.log2 num - Z.log2 den - p in
  let scaled e := if 0 <=? e then (num, den * 2 ^ e) else (num * 2 ^ (- e), den) in
  let e := if 2 ^ p <=? (let '(a, b) := scaled e0 in a / b) then e0 + 1 else e0 in
  let '(a, b) := scaled e in
  let q := a / b in
  let r := a mod b in
  let up := if b <? 2 * r then true else if 2 * r <? b then false else Z.odd q in
  ((if up then q + 1 else q), e).

(** [convertPreciseToFloat]: a [big.Float] quotient of 64 bits (more for a
    longer integer), rounded to [float64]. *)
Definition convertPreciseToFloat (n : Z) (precision : float64) : float64 :=
  match precision with
  | S754_nan => S754_nan
  | S754_infinity s => S754_zero (xorb s (n <? 0))
  | S754_zero s => if n =? 0 then S754_nan else S754_infinity (xorb s (n <? 0))
  | S754_finite s m e =>
      if n =? 0 then S754_zero s
      else
        let sign := xorb s (n <? 0) in
        let num := if 0 <=? e then Z.abs n else Z.abs n * 2 ^ (- e) in
        let den := if 0 <=? e then Z.pos m * 2 ^ e else Z.pos m in
        let p := Z.max 64 (Z.log2 (Z.abs n) + 1) in
        let '(q, x) := quo_bits p num den in
        binary_normalize 53 1024 (if sign then - q else q) x false
  end.

(** The [%.2f] verb. *)
Definition Sprintf_2f (f : float64) : string :=
  match f with
  | S754_nan => "NaN"
  | S754_infinity s => if s then "-Inf" else "+Inf"
  | _ =>
      let num := Z.abs (fmant f) * 100 in
      let q := if 0 <=? fexp f then num * 2 ^ fexp f
               else let d := 2 ^ (- fexp f) in
                    let q := num / d in let r := num mod d in
                    if d <? 2 * r then q + 1 else if 2 * r <? d then q
                    else if Z.even q then q else q + 1 in
      let neg := match f with S754_finite s _ _ => s | S754_zero s => s | _ => false end in
      (if neg then "-" else "")%string +:+ itoa (q / 100) +:+ "." +:+ pad_digits 2 (q mod 100)
  end.

(** [checkTransactionCommitStatus]. *)
Definition checkTransactionCommitStatus (amountLeft : Z) : result unit :=
  if amountLeft <=? 0 then Err (errors_New "cannot commit: transaction already committed") else Ok tt.

(** [validateRequestedAmount]; a nil [amount] is [None]. *)
Definition validateRequestedAmount (t : Transaction) (amount : option Z) (amountLeft : Z) : result unit :=
  match amount with
  | None => Err (errors_New "commit amount is required")
  | Some a =>
      if a <? 0 then Err (errors_New "commit amount cannot be negative")
      else if a =? 0 then Ok tt
      else
        let money n := t_Currency t +:+ Sprintf_2f (convertPreciseToFloat n (t_Precision t)) in
        if default 0 (t_PreciseAmount t) <? a
        then Err (errors_New ("cannot commit more than the original transaction amount. Original: "
               +:+ t_Currency t +:+ Sprintf_2f (t_Amount t) +:+ ", Requested: " +:+ money a))
        else if amountLeft <? a
        then Err (errors_New ("cannot commit more than the remaining amount. Available: "
               +:+ money amountLeft +:+ ", Requested: " +:+ money a))
        else Ok tt
  end.

(** [updateTransactionAmount]. *)
Definition updateTransactionAmount (t : Transaction) (amount amountLeft : Z) : Transaction :=
  if negb (amount =? 0) then {| t with t_PreciseAmount := Some amount |}
  else {| t with t_Amount := convertPreciseToFloat amountLeft (t_Precision t);
          t_PreciseAmount := Some amountLeft |}.

Section Inflight.
Context {Dops : DecimalOps}.
Variable numeric_float : string -> float64.
Variable GenerateUUIDWithSuffix : string -> nat -> string.
Variable pre_hooks : Transaction -> result unit.
Variable acquire : list string -> result unit.
Variable EnableQueuedChecks : bool.
Variable now : Z.
(** The asynq queue: the transaction waiting under an id, and the outcome of
    enqueueing one. *)
Variable GetTransactionFromQueue : string -> result (option Transaction).
Variable enqueue : Transaction -> result unit.

Definition RecordTransaction_int (t : Transaction) : M Transaction :=
  RecordTransaction_internal GenerateUUIDWithSuffix pre_hooks acquire EnableQueuedChecks now t.

Definition new_id (suffix : string) : M string :=
  fun db => ({| db with ld_ids := S (ld_ids db) |}, Ok (GenerateUUIDWithSuffix suffix (ld_ids db))).

(** [err == sql.ErrNoRows]. *)
Definition is_ErrNoRows (e : go_error) : bool :=
  bool_decide (e = sentinel "sql.ErrNoRows" "sql: no rows in result set").

(** [fetchAndValidateInflightTransaction]. *)
Definition fetchAndValidateInflightTransaction (id : string) : M Transaction :=
  let! found := try (reads (fun db => GetTransaction numeric_float db id)) in
  let! t := match found with
            | Ok t => ret t
            | Err e =>
                if is_ErrNoRows e then
                  match GetTransactionFromQueue id with
                  | Err e' => fail e'
                  | Ok None => fail (errors_New "transaction not found")
                  | Ok (Some t) => ret t
                  end
                else fail e
            end in
  if negb (IsInflightTransaction t) then fail (errors_New "transaction is not in inflight status")
  else
    let! voided := reads (fun db => Ok (IsParentTransactionVoid db id)) in
    if voided then fail (errors_New "transaction has already been voided") else ret t.

(** [calculateRemainingAmount]. *)
Definition calculateRemainingAmount (t : Transaction) : M Z :=
  reads (fun db => Ok (default 0 (t_PreciseAmount t) - GetTotalCommittedTransactions db (t_TransactionID t))).

(** [validateAndUpdateAmount]. *)
Definition validateAndUpdateAmount (t : Transaction) (amount : option Z) : M Transaction :=
  let! _ := reads (fun db => checkPolicyCommit db (t_TransactionID t)) in
  let! amountLeft := calculateRemainingAmount t in
  let! _ := lift (checkTransactionCommitStatus amountLeft) in
  let! _ := lift (validateRequestedAmount t amount amountLeft) in
  ret (updateTransactionAmount t (default 0 amount) amountLeft).

(** The child row of a hold: new id, reference, parent and dates. *)
Definition child_of (t : Transaction) (id reference : string) : Transaction :=
  let effective := match t_EffectiveDate t with Some d => Some d | None => Some now end in
  let t' := {| t with t_ParentTransaction := t_TransactionID t; t_ParentKind := "economic";
     t_CreatedAt := now; t_EffectiveDate := effective; t_TransactionID := id; t_Reference := reference |} in
  {| t' with t_Hash := HashTxn t' |}.

Definition child_reference (reference : string) : M string :=
  if String.eqb reference "" then new_id "ref" else ret reference.

(** [createQueueCopy]. *)
Definition createQueueCopy (persisted : Transaction) (originalRef : string) : M Transaction :=
  let! id := new_id "txn" in
  let q := {| persisted with t_TransactionID := id; t_ParentTransaction := t_TransactionID persisted;
              t_ParentKind := "economic"; t_Reference := originalRef +:+ "_q" |} in
  ret (if String.eqb (t_QueueAction persisted) StatusCommit
       then {| q with t_Status := StatusCommit; t_Inflight := false |} else q).

(** [finalizeCommitment]. *)
Definition finalizeCommitment (t : Transaction) (withQueue : bool) (reference : string) : M Transaction :=
  let! id := new_id "txn" in
  let! ref := child_reference reference in
  let t0 := {| t with t_Status := StatusCommit; t_QueueAction := StatusCommit; t_Inflight := false |} in
  let t := child_of t0 id ref in
  if withQueue then
    let q := clearTerminalInflightMetadata {| t with t_Status := StatusQueued; t_QueueAction := StatusCommit |} in
    let q := snd (ApplyPrecision q) in
    let! persisted := with_context "failed to reserve inflight commit"
                        (atomically (fun db => RecordTransaction db q)) in
    let! copy := createQueueCopy persisted (t_Reference persisted) in
    let! _ := with_context "failed to enqueue transaction" (lift (enqueue copy)) in
    ret (clearTerminalInflightMetadata q)
  else with_context "saving transaction to db error" (RecordTransaction_int t).

(** [finalizeVoidTransaction]. *)
Definition finalizeVoidTransaction (t : Transaction) (amountLeft : Z) (reference : string) : M Transaction :=
  let! id := new_id "txn" in
  let! ref := child_reference reference in
  let t0 := {| t with t_Status := StatusVoid; t_Inflight := false; t_PreciseAmount := Some amountLeft |} in
  let t := snd (ApplyPrecision (child_of t0 id ref)) in
  with_context "saving transaction to db error" (RecordTransaction_int t).

(** ** Shadows *)

(** [inflightTransactionNeedsShadowWork]. *)
Definition inflightTransactionNeedsShadowWork (t : Transaction) : M bool :=
  reads (fun db =>
    let is_shadow := match md_get (ExecutionMetadata t) "_lineage_type" with Some _ => true | None => false end in
    let has_alloc := match ExecutionMetadata t, md_get (t_MetaData t) "LEDGERFORGE_FUND_ALLOCATION" with
                     | Some _, Some _ => true | _, _ => false end in
    if is_shadow then Ok false
    else if has_alloc then Ok true
    else if negb (String.eqb (getLineageProvider t) "") then
      match GetBalanceByIDLite db (t_Destination t) with
      | Err _ => Ok true
      | Ok b => Ok (b_TrackFundLineage b)
      end
    else if HasPrefix (t_Source t) "@" then Ok false
    else match GetBalanceByIDLite db (t_Source t) with
      | Err _ => Ok true
      | Ok b => Ok (b_TrackFundLineage b)
      end).

(** [GetTransactionsByShadowFor]: the ids and amounts the callers use. *)
Definition older (a b : txn_row) : Prop := x_created_at a <= x_created_at b.
#[local] Instance older_dec : RelDecision older.
Proof. intros a b. unfold older. apply _. Defined.
Definition GetTransactionsByShadowFor (db : ledger_db) (parentID : string) : list (string * Z) :=
  (fun r => (x_id r, x_precise r)) <$>
    merge_sort older (filter (fun r => ec_ShadowFor (x_controls r) = parentID) (ld_txns db)).

(** The shadows that an action failed on; what was already processed is
    skipped. *)
Definition run_shadow (act : string -> Z -> M Transaction) (failed : list string) (shadow : string * Z)
    : M (list string) :=
  let! r := try (act shadow.1 shadow.2) in
  match r with
  | Ok _ => ret failed
  | Err e => if Contains (err_msg e) "already committed" || Contains (err_msg e) "not in inflight status"
             then ret failed else ret (failed ++ [shadow.1])
  end.
Fixpoint run_shadows (act : string -> Z -> M Transaction) (failed : list string) (shadows : list (string * Z))
    : M (list string) :=
  match shadows with
  | [] => ret failed
  | s :: rest => let! failed := run_shadow act failed s in run_shadows act failed rest
  end.

(** [commitShadowTransactions] and [voidShadowTransactions]. *)
Definition process_shadows (verb : string) (act : string -> Z -> M Transaction) (parentID : string) : M unit :=
  let! shadows := reads (fun db => Ok (GetTransactionsByShadowFor db parentID)) in
  let! failed := run_shadows act [] shadows in
  match failed with
  | [] => ret tt
  | _ => fail (errors_New ("failed to " +:+ verb +:+ " " +:+ itoa (Z.of_nat (length failed))
                           +:+ " shadow transactions: [" +:+ String.concat " " failed +:+ "]"))
  end.

(** [queueShadowWork]: the callers only log its error. *)
Definition queueShadowWork (verb lineageType : string) (act : string -> Z -> M Transaction)
    (parentID : string) (t : Transaction) : M unit :=
  let! needed := inflightTransactionNeedsShadowWork t in
  if negb needed then ret tt
  else
    let! r := try (process_shadows verb act parentID) in
    match r with
    | Ok _ => ret tt
    | Err _ =>
        let entry := {| lo_ID := 0; lo_TransactionID := parentID +:+ "_" +:+ lineageType; lo_SourceBalanceID := "";
          lo_DestinationBalanceID := ""; lo_Provider := ""; lo_LineageType := lineageType;
          lo_Payload := ShadowPayload parentID; lo_Status := ""; lo_Attempts := 0; lo_MaxAttempts := 5;
          lo_LastError := ""; lo_LockedUntil := None; lo_Inflight := false |} in
        let! _ := try (atomically (fun db => let* db' := InsertLineageOutboxInTx db entry in Ok (db', tt))) in
        ret tt
    end.

(** ** The handlers *)

(** [CommitInflightTransactionWithRef] ([withQueue = false]) and
    [CommitInflightTransactionWithQueue]. *)
Fixpoint commit_inflight (fuel : nat) (withQueue : bool) (id : string) (amount : option Z)
    (reference : string) : M Transaction :=
  let! _ := with_context "failed to acquire lock for inflight commit"
              (lift (acquire ["inflight-commit:" +:+ id])) in
  let! t := fetchAndValidateInflightTransaction id in
  let! t := validateAndUpdateAmount t amount in
  let! committed := finalizeCommitment t withQueue reference in
  let! _ := match fuel with
            | O => ret tt
            | S fuel' => queueShadowWork "commit" "shadow_commit"
                           (fun s n => commit_inflight fuel' false s (Some n) "") id t
            end in
  ret committed.

(** [VoidInflightTransactionWithRef]. *)
Fixpoint void_inflight (fuel : nat) (id reference : string) : M Transaction :=
  let! _ := with_context "failed to acquire lock for inflight void"
              (lift (acquire ["inflight-commit:" +:+ id])) in
  let! t := fetchAndValidateInflightTransaction id in
  let! amountLeft := calculateRemainingAmount t in
  if amountLeft <=? 0 then fail (errors_New "cannot void: transaction already committed")
  else
    let! voided := finalizeVoidTransaction t amountLeft reference in
    let! _ := match fuel with
              | O => ret tt
              | S fuel' => queueShadowWork "void" "shadow_void"
                             (fun s _ => void_inflight fuel' s "") id t
              end in
    let! _ := releasePolicyCapacity id in
    ret voided.

(** ** Actions on a parent *)

(** [Config().Transaction.BatchSize]. *)
Variable BatchSize : Z.
Definition batch_size : Z := if BatchSize <=? 0 then 100 else BatchSize.

(** [collectInflightLegs]: the loop over pages, from [offset]. *)
Fixpoint collect_from (fuel : nat) (db : ledger_db) (parentID : string) (offset : Z) : option (list Transaction) :=
  match fuel with
  | O => None
  | S fuel' =>
      let batch := GetInflightTransactionsByParentID numeric_float db parentID batch_size offset in
      if Z.of_nat (length batch) <? batch_size then Some batch
      else legs ← collect_from fuel' db parentID (offset + batch_size); Some (batch ++ legs)
  end.
Definition collectInflightLegs (parentID : string) : M (list Transaction) :=
  reads (fun db => match collect_from (S (length (ld_txns db))) db parentID 0 with
                   | Some legs => Ok legs
                   | None => Err (errors_New "unreachable")
                   end).

Definition InflightActionCommit : string := "commit".
Definition InflightActionVoid : string := "void".

(** [inflightActionReference]. *)
Definition inflightActionReference (legID action actionID : string) : string :=
  if String.eqb actionID "" then "" else legID +:+ "_" +:+ action +:+ "_" +:+ actionID.

(** [applyInflightActionToLeg]; lineage shadows do not nest, so one level of
    fuel is enough. *)
Definition applyInflightActionToLeg (leg : Transaction) (action : string) (amount : option Z) (actionID : string)
    : M unit :=
  let ref := inflightActionReference (t_TransactionID leg) action actionID in
  let! _ := if String.eqb action InflightActionVoid then void_inflight 1 (t_TransactionID leg) ref
            else commit_inflight 1 false (t_TransactionID leg) amount ref in
  ret tt.

(** The loop of [RunInflightActionByParent]: the last transient error. *)
Fixpoint run_legs (action : string) (amount : option Z) (actionID : string) (transient : option go_error)
    (legs : list Transaction) : M (option go_error) :=
  match legs with
  | [] => ret transient
  | leg :: rest =>
      let! r := try (applyInflightActionToLeg leg action amount actionID) in
      match r with
      | Ok _ => run_legs action amount actionID transient rest
      | Err e => if isTerminalInflightError e then run_legs action amount actionID transient rest
                 else run_legs action amount actionID (Some e) rest
      end
  end.

(** [RunInflightActionByParent]: whether the task is to be retried, and why. *)
Definition RunInflightActionByParent (parentID action : string) (amount : option Z) (actionID : string)
    : M (bool * option go_error) :=
  let! legs := try (collectInflightLegs parentID) in
  match legs with
  | Err e => ret (true, Some e)
  | Ok [] => ret (false, None)
  | Ok legs =>
      let! transient := run_legs action amount actionID None legs in
      match transient with
      | Some e => ret (true, Some e)
      | None => ret (false, None)
      end
  end.

(** [anyInflightLegRemaining]. *)
Fixpoint anyInflightLegRemaining (legs : list Transaction) : M bool :=
  match legs with
  | [] => ret false
  | leg :: rest =>
      let! left := calculateRemainingAmount leg in
      if negb (left =? 0) then ret true else anyInflightLegRemaining rest
  end.

(** [validateInflightActionAmount]. *)
Definition validateInflightActionAmount (t : Transaction) (action : string) (amount : option Z) : M Transaction :=
  let! _ := if String.eqb action InflightActionCommit
            then reads (fun db => checkPolicyCommit db (t_TransactionID t)) else ret tt in
  let! left := calculateRemainingAmount t in
  let! _ := lift (checkTransactionCommitStatus left) in
  let! _ := match amount with
            | Some _ => if String.eqb action InflightActionCommit
                        then lift (validateRequestedAmount t amount left) else ret tt
            | None => ret tt
            end in
  ret t.

Fixpoint check_policy_legs (legs : list Transaction) : M unit :=
  match legs with
  | [] => ret tt
  | leg :: rest =>
      let! _ := reads (fun db => checkPolicyCommit db (t_TransactionID leg)) in check_policy_legs rest
  end.

(** [preValidateInflightAction]. *)
Definition preValidateInflightAction (id action : string) (amount : option Z) : M Transaction :=
  let! found := try (fetchAndValidateInflightTransaction id) in
  match found with
  | Ok t => validateInflightActionAmount t action amount
  | Err e =>
      if negb (shouldExpandInflightParent e) then fail e
      else
        let! legs := collectInflightLegs id in
        match legs with
        | [] => fail e
        | first :: _ =>
            let! remaining := anyInflightLegRemaining legs in
            if negb remaining then
              fail (errors_New (if String.eqb action InflightActionVoid
                                then "cannot void: transaction already committed"
                                else "cannot commit: transaction already committed"))
            else
              let! _ := if String.eqb action InflightActionCommit then check_policy_legs legs else ret tt in
              ret {| first with t_TransactionID := id |}
        end
  end.

(** [QueueInflightAction]: [enqueue_action] is the outcome of enqueueing the
    payload. *)
Record InflightActionPayload := {
  ip_TransactionID : string; ip_Action : string; ip_PreciseAmount : string; ip_ActionID : string }.
Variable enqueue_action : InflightActionPayload -> result unit.
Definition QueueInflightAction (id : string) (amount : option Z) (action : string) : M Transaction :=
  let! t := preValidateInflightAction id action amount in
  let! actionID := new_id "act" in
  let! _ := lift (enqueue_action {| ip_TransactionID := id; ip_Action := action;
      ip_PreciseAmount := match amount with Some a => itoa a | None => "0" end; ip_ActionID := actionID |}) in
  ret t.

(** ** Bulk updates *)

Inductive BulkInflightAction := BulkInflightVoid | BulkInflightCommit.
Record BulkInflightItem := { bi_TransactionID : string; bi_Amount : option Z }.
Record BulkInflightOutcome := {
  bo_TransactionID : string; bo_Txn : option Transaction; bo_Err : option go_error; bo_Code : string }.

(** One job. *)
Definition bulk_job (action : BulkInflightAction) (item : BulkInflightItem) : M BulkInflightOutcome :=
  let! r := try (match action with
                 | BulkInflightCommit => commit_inflight 1 false (bi_TransactionID item) (bi_Amount item) ""
                 | BulkInflightVoid => void_inflight 1 (bi_TransactionID item) ""
                 end) in
  ret (match r with
       | Ok t => {| bo_TransactionID := bi_TransactionID item; bo_Txn := Some t; bo_Err := None;
                    bo_Code := classifyInflightError None |}
       | Err e => {| bo_TransactionID := bi_TransactionID item; bo_Txn := None; bo_Err := Some e;
                     bo_Code := classifyInflightError (Some e) |}
       end).

(** The workers: [schedule] is the order in which the jobs complete; each
    writes its own slot of the results. *)
Fixpoint bulk_run (action : BulkInflightAction) (items : list BulkInflightItem) (schedule : list nat)
    (results : list (option BulkInflightOutcome)) : M (list (option BulkInflightOutcome)) :=
  match schedule with
  | [] => ret results
  | i :: rest =>
      match items !! i with
      | None => bulk_run action items rest results
      | Some item =>
          let! outcome := bulk_job action item in
          bulk_run action items rest (<[i := Some outcome]> results)
      end
  end.

(** [BulkInflightUpdate]. *)
Definition BulkInflightUpdate (action : BulkInflightAction) (items : list BulkInflightItem) (schedule : list nat)
    : M (list (option BulkInflightOutcome)) :=
  match items with
  | [] => fail (errors_New "transaction_ids cannot be empty")
  | _ => bulk_run action items schedule (replicate (length items) None)
  end.
End Inflight.
