(* ===== verification/Coalesce.v ===== *)
(** * Coalesced batches of queued transactions

    [internal/core/transaction_coalescing.go], the statements of
    [database/transaction_coalescing.go] and the batched writes of
    [database/transaction.go], [balance.go] and [lineage.go]: a worker that
    takes a job from the queue looks for other queued transactions of the same
    pair, source or destination, prepares all of them in memory against one set
    of balance objects, and persists rows, balances and outbox entries in one
    database transaction.  The balance objects are shared: two transactions of
    a batch, and the two sides of one transaction, may point to the same object,
    so they are kept in a heap and every access goes through it.  What the batch
    does not handle falls back to the executor of one transaction.  Hooks after
    the commit, monitors, webhooks and metrics are left out. *)
From stdpp Require Import base option list strings gmap sorting.
From Stdlib Require Import ZArith Lia.
From S2P Require Import Prelude GoFloat Model GoTime Decimal DecimalInstance Amount Balance Policy PolicyStore Store Engine Inflight.
Close Scope Q_scope.
Open Scope Z_scope.
Open Scope engine_scope.

(** ** Balance objects *)

(** [balancesByID]: the objects, by the id they were loaded under. *)
Notation heap := (gmap string Balance) (only parsing).
Definition deref (h : heap) (p : string) : Balance := default zero_balance (h !! p).

Section Objects.
Context {Dops : DecimalOps}.

(** [UpdateBalances] on two objects of the heap, which may be the same. *)
Definition UpdateBalances_at (t : Transaction) (source destination : string) (h : heap)
    : heap * Transaction * result unit :=
  match ApplyPrecisionChecked t with
  | Err e => (h, t, Err e)
  | Ok (amount, t) =>
      let t := {| t with t_PreciseAmount := Some amount |} in
      let '(b, ok) := canProcessTransaction t (deref h source) in
      let h := <[source := b]> h in
      match ok with
      | Err e => (h, t, Err e)
      | Ok _ =>
          let h := alter InitializeBalanceFields source h in
          let h := alter InitializeBalanceFields destination h in
          let h := alter (fun b => computeBalance (addDebit b amount (t_Inflight t)) (t_Inflight t)) source h in
          let h := alter (fun b => computeBalance (addCredit b amount (t_Inflight t)) (t_Inflight t)) destination h in
          (h, t, Ok tt)
      end
  end.

(** [applyTransactionToBalances] on two objects of the heap. *)
Definition commit_at (t : Transaction) (source destination : string) (h : heap) : heap * Transaction * result unit :=
  let '(b, t, r) := CommitInflightDebit (deref h source) t in
  let h := <[source := b]> h in
  match r with
  | Err e => (h, t, Err (wrap "commit inflight debit failed: " e))
  | Ok _ =>
      let '(b, t, r) := CommitInflightCredit (deref h destination) t in
      let h := <[destination := b]> h in
      match r with
      | Err e => (h, t, Err (wrap "commit inflight credit failed: " e))
      | Ok _ => (h, t, Ok tt)
      end
  end.
Definition void_at (t : Transaction) (source destination : string) (h : heap) : heap * Transaction * result unit :=
  let '(b, r) := RollbackInflightDebit (deref h source) (t_PreciseAmount t) in
  let h := <[source := b]> h in
  match r with
  | Err e => (h, t, Err (wrap "void inflight debit failed: " e))
  | Ok _ =>
      let '(b, r) := RollbackInflightCredit (deref h destination) (t_PreciseAmount t) in
      let h := <[destination := b]> h in
      match r with
      | Err e => (h, t, Err (wrap "void inflight credit failed: " e))
      | Ok _ => (h, t, Ok tt)
      end
  end.
Definition applyTransaction_at (t : Transaction) (source destination : string) (h : heap)
    : heap * Transaction * result unit :=
  if String.eqb (t_Status t) StatusCommit || String.eqb (t_Status t) StatusVoid then
    match t_PreciseAmount t with
    | None => (h, t, Err (errors_New "inflight transition amount must be positive"))
    | Some amount =>
        if amount <=? 0 then (h, t, Err (errors_New "inflight transition amount must be positive"))
        else
          let h := alter InitializeBalanceFields destination (alter InitializeBalanceFields source h) in
          if (IDR (deref h source) <? amount) || (ICR (deref h destination) <? amount)
          then (h, t, Err (errors_New "insufficient inflight reservation"))
          else if String.eqb (t_Status t) StatusCommit then commit_at t source destination h
          else void_at t source destination h
    end
  else UpdateBalances_at t source destination h.

(** [processBalances]. *)
Definition processBalances (t : Transaction) (source destination : string) (h : heap)
    : heap * Transaction * result unit :=
  match applyTransaction_at t source destination h with
  | (h, t, Err e) => (h, t, Err (wrap "failed to apply transaction to balances: " e))
  | r => r
  end.

(** A transaction prepared in memory: what is persisted, and the objects. *)
Definition prepared : Type := Transaction * option LineageOutbox.
Definition post_at (t : Transaction) (h : heap) : result (prepared * heap) :=
  let source := t_Source t in
  let destination := t_Destination t in
  let finalized := updateTransactionDetails t (deref h source) (deref h destination) in
  match processBalances finalized source destination h with
  | (_, _, Err e) => Err e
  | (h, t, Ok _) =>
      let '(w, skipPersist) := buildTransactionExecutionWork t (deref h source) (deref h destination) in
      if skipPersist then Err (errors_New "batch coalescing does not support zero-amount transactions")
      else Ok ((w_transaction w, w_outbox w), h)
  end.

(** The same for a list, in order. *)
Fixpoint post_all (ts : list Transaction) (h : heap) : result (list prepared * heap) :=
  match ts with
  | [] => Ok ([], h)
  | t :: rest =>
      let* p := post_at t h in
      let* q := post_all rest p.2 in
      Ok (p.1 :: q.1, q.2)
  end.
End Objects.

(** ** The batched writes *)

Definition maxBalancesPerUpdateChunk : nat := Eval vm_compute in 1000%nat.

(** A nil amount prints as ["<nil>"], which the cast refuses. *)
Definition has_amounts (b : Balance) : bool :=
  match b_Balance b, b_CreditBalance b, b_DebitBalance b,
        b_InflightBalance b, b_InflightCreditBalance b, b_InflightDebitBalance b with
  | Some _, Some _, Some _, Some _, Some _, Some _ => true
  | _, _, _, _, _, _ => false
  end.

(** [WHERE b.balance_id = v.balance_id AND b.version = v.expected_version]. *)
Definition current (db : ledger_db) (b : Balance) : bool :=
  match ld_balances db !! b_BalanceID b with
  | Some row => b_Version row =? b_Version b
  | None => false
  end.

(** The [SET] clause on a row. *)
Definition write_amounts (b row : Balance) : Balance :=
  {| row with
     b_Balance := b_Balance b; b_CreditBalance := b_CreditBalance b; b_DebitBalance := b_DebitBalance b;
     b_InflightBalance := b_InflightBalance b; b_InflightCreditBalance := b_InflightCreditBalance b;
     b_InflightDebitBalance := b_InflightDebitBalance b; b_Currency := b_Currency b;
     b_LedgerID := b_LedgerID b; b_CreatedAt := b_CreatedAt b; b_Version := b_Version row + 1 |}.

(** [updateBalanceChunk]: one statement over the current rows, then the first
    balance it did not find. *)
Definition updateBalanceChunk (db : ledger_db) (chunk : list Balance) : result ledger_db :=
  if negb (forallb has_amounts chunk)
  then Err (NewAPIError ErrInternalServer "Failed to update balance set" None)
  else match List.find (fun b => negb (current db b)) chunk with
  | Some b => Err (NewAPIError ErrConflict ("Optimistic locking failure: balance with ID '"
                +:+ b_BalanceID b +:+ "' may have been updated or deleted by another transaction") None)
  | None => Ok {| db with ld_balances := foldl (fun rows b => alter (write_amounts b) (b_BalanceID b) rows)
                                           (ld_balances db) chunk |}
  end.

(** The distinct balances with an id, in order. *)
Fixpoint unique_balances (seen : list string) (l : list Balance) : list Balance :=
  match l with
  | [] => []
  | b :: rest =>
      if String.eqb (b_BalanceID b) "" || existsb (String.eqb (b_BalanceID b)) seen
      then unique_balances seen rest
      else b :: unique_balances (b_BalanceID b :: seen) rest
  end.

(** The loop over chunks; [fuel] is the number of balances. *)
Fixpoint update_chunks (fuel : nat) (db : ledger_db) (l : list Balance) : result ledger_db :=
  match fuel, l with
  | _, [] => Ok db
  | O, _ => Ok db
  | S fuel', _ =>
      let* db := updateBalanceChunk db (take maxBalancesPerUpdateChunk l) in
      update_chunks fuel' db (drop maxBalancesPerUpdateChunk l)
  end.

(** [updateBalanceSet]. *)
Definition updateBalanceSet (db : ledger_db) (balances : list Balance) : result ledger_db :=
  let l := unique_balances [] balances in update_chunks (length l) db l.

(** [recordTransactionsInTx]: the rows of a COPY, inserted in order; a row the
    server refuses fails the flush. *)
Definition recordTransactionsInTx (db : ledger_db) (ts : list Transaction) : result ledger_db :=
  let* rows := map_res (fun t => match persistNumericColumns t with
    | Err e => Err (NewAPIError ErrInternalServer "Failed to stream transaction copy row" (Some e))
    | Ok cols => Ok (row_of t cols)
    end) ts in
  match fold_res insert_transaction rows db with
  | Err e => Err (NewAPIError ErrInternalServer "Failed to flush transaction copy" (Some e))
  | Ok db => Ok db
  end.

(** [insertLineageOutboxesInTx]: one statement, so any duplicate fails it. *)
Definition insertLineageOutboxesInTx (db : ledger_db) (l : list LineageOutbox) : result ledger_db :=
  match fold_res InsertLineageOutboxInTx l db with
  | Err e => Err (NewAPIError ErrInternalServer "Failed to insert lineage outbox entries" (Some e))
  | Ok db => Ok db
  end.

(** [RecordTransactionsWithBalanceSetAndOutboxes]. *)
Definition RecordTransactionsWithBalanceSetAndOutboxes (db : ledger_db) (ts : list Transaction)
    (balances : list Balance) (outboxes : list LineageOutbox) : result (ledger_db * list Transaction) :=
  let* db := updateBalanceSet db balances in
  let* db := recordTransactionsInTx db ts in
  match insertLineageOutboxesInTx db outboxes with
  | Err e => Err (wrap "failed to insert lineage outboxes: " e)
  | Ok db => Ok (db, ts)
  end.

(** ** Which transactions may be coalesced *)

(** The conditions that [canCoalesceQueuedTransaction] and
    [canCoalesceQueuedOriginal] share, after their first ones. *)
Definition coalescing_conditions (t : Transaction) : bool * string :=
  if negb (feq (t_OverdraftLimit t) fzero) then (false, "capped_overdraft"%string)
  else if negb (String.eqb (t_QueueAction t) "") then (false, "lifecycle_action"%string)
  else if negb (String.eqb (t_Status t) StatusQueued) then (false, "status_not_queued"%string)
  else if t_Atomic t || t_SkipQueue t then
    (false, if t_Atomic t then "atomic_transaction"%string else "skip_queue_enabled"%string)
  else if (0 <? length (t_Sources t))%nat || (0 <? length (t_Destinations t))%nat
  then (false, "split_transaction"%string)
  else if negb (IsZero (t_ScheduledFor t)) then (false, "scheduled_transaction"%string)
  else if String.eqb (t_Source t) "" || String.eqb (t_Destination t) "" || String.eqb (t_Currency t) ""
  then (false, "missing_pair_or_currency"%string)
  else (true, ""%string).

(** [canCoalesceQueuedTransaction]. *)
Definition canCoalesceQueuedTransaction (t : Transaction) : bool * string :=
  if policyMarked t then (false, "policy_admission"%string)
  else if String.eqb (t_ParentTransaction t) "" then (false, "missing_parent_transaction"%string)
  else coalescing_conditions t.

(** [canCoalesceQueuedOriginal]. *)
Definition canCoalesceQueuedOriginal (t : Transaction) : bool * string :=
  if policyMarked t then (false, "policy_admission"%string) else coalescing_conditions t.

Inductive queuedCoalescingScope := ScopePair | ScopeSource | ScopeDestination.

(** [ORDER BY t.created_at ASC LIMIT n]. *)
Definition older (a b : txn_row) : Prop := x_created_at a <= x_created_at b.
#[export] Instance older_dec : RelDecision older.
Proof. intros a b. unfold older. apply _. Defined.

(** The conditions common to the three lookups: queued, in the leader's
    currency, not the leader's own intent, not older than it, without a child. *)
Definition sibling_row (db : ledger_db) (leader : Transaction) (r : txn_row) : bool :=
  is_status "QUEUED" r && String.eqb (x_currency r) (t_Currency leader)
  && negb (String.eqb (x_id r) (t_ParentTransaction leader))
  && (t_CreatedAt leader <=? x_created_at r)
  && negb (existsb (is_parent (x_id r)) (ld_txns db)).
Definition in_scope (scope : queuedCoalescingScope) (leader : Transaction) (r : txn_row) : bool :=
  match scope with
  | ScopePair => String.eqb (x_source r) (t_Source leader) && String.eqb (x_destination r) (t_Destination leader)
  | ScopeSource => String.eqb (x_source r) (t_Source leader)
  | ScopeDestination => String.eqb (x_destination r) (t_Destination leader)
  end.

Definition maxQueuedCoalescingBatchSize : Z := 10000.

Section Batches.
Context {Dops : DecimalOps}.
Variable numeric_float : string -> float64.
Variable GenerateUUIDWithSuffix : string -> nat -> string.
Variable pre_hooks : Transaction -> result unit.
Variable acquire : list string -> result unit.
Variable EnableQueuedChecks : bool.
(** The outcome of listing the hooks of a type. *)
Variable list_hooks : result unit.
(** [Transaction] configuration. *)
Variables (EnableCoalescing DisableBatchReferenceCheck : bool) (BatchSize : Z).

(** [scanQueuedTransactionsForCoalescing] on a row. *)
Definition scan_queued (r : txn_row) : Transaction :=
  let t := scan_transaction numeric_float r in
  snd (ApplyPrecision {| t with t_ScheduledFor := x_scheduled_for r; t_EffectiveDate := x_effective_date r;
         t_Rate := x_rate r; t_OverdraftLimit := x_overdraft_limit r; t_QueueAction := x_queue_action r |}).

(** [loadQueuedTransactionsForCoalescingScope], with the three statements
    [GetQueuedTransactionsForCoalescing], [...ForSourceCoalescing] and
    [...ForDestinationCoalescing]. *)
Definition loadQueuedTransactionsForCoalescingScope (db : ledger_db) (leader : Transaction)
    (scope : queuedCoalescingScope) (limit : Z) : list Transaction :=
  scan_queued <$> take (Z.to_nat limit) (merge_sort older
    (filter (fun r => sibling_row db leader r && in_scope scope leader r = true) (ld_txns db))).

(** [queuedCoalescingBatchSize]. *)
Definition queuedCoalescingBatchSize (force : bool) : Z :=
  if negb force && negb EnableCoalescing then 0
  else if BatchSize <=? 1 then BatchSize
  else if maxQueuedCoalescingBatchSize <? BatchSize then maxQueuedCoalescingBatchSize
  else BatchSize.

(** The queue copies of the eligible siblings. *)
Fixpoint copy_siblings (siblings : list Transaction) : M (list Transaction) :=
  match siblings with
  | [] => ret []
  | s :: rest =>
      if fst (canCoalesceQueuedOriginal s) then
        let! q := createQueueCopy GenerateUUIDWithSuffix s (t_Reference s) in
        let! qs := copy_siblings rest in ret (q :: qs)
      else copy_siblings rest
  end.

(** [buildQueuedCoalescingBatchForScope]. *)
Definition buildQueuedCoalescingBatchForScope (leader : Transaction) (scope : queuedCoalescingScope)
    (batchSize : Z) : M (list Transaction) :=
  let! siblings := reads (fun db => Ok (loadQueuedTransactionsForCoalescingScope db leader scope (batchSize - 1))) in
  let! copies := copy_siblings siblings in
  ret (leader :: copies).

(** [buildQueuedCoalescingBatch]: the first scope with a sibling. *)
Fixpoint build_in_scopes (leader : Transaction) (batchSize : Z) (scopes : list queuedCoalescingScope)
    : M (list Transaction) :=
  match scopes with
  | [] => ret []
  | scope :: rest =>
      let! batch := buildQueuedCoalescingBatchForScope leader scope batchSize in
      if (2 <=? length batch)%nat then ret batch else build_in_scopes leader batchSize rest
  end.
Definition buildQueuedCoalescingBatch (leader : Transaction) (batchSize : Z) : M (list Transaction) :=
  build_in_scopes leader batchSize [ScopePair; ScopeSource; ScopeDestination].

(** ** Preparing and persisting a batch *)

(** [validateQueuedBatchCurrencies]. *)
Definition validateQueuedBatchCurrencies (ts : list Transaction) : result unit :=
  match ts with
  | [] => Ok tt
  | t :: rest => if forallb (fun t' => String.eqb (t_Currency t') (t_Currency t)) rest then Ok tt
                 else Err (errors_New "coalescing batch contains multiple currencies")
  end.

(** [collectQueuedCoalescingBalanceIDs]. *)
Definition collectQueuedCoalescingBalanceIDs (ts : list Transaction) : list string :=
  merge_sort string_le (remove_dups
    (filter (fun id => id <> ""%string) (mjoin ((fun t => [t_Source t; t_Destination t]) <$> ts)))).

(** [GetBalancesByIDsLite]. *)
Definition GetBalancesByIDsLite (db : ledger_db) (ids : list string) : heap :=
  scan_balance <$> filter (fun kv => kv.1 ∈ ids) (ld_balances db).

(** [loadBalancesForQueuedBatch]: the objects, and the ids in order. *)
Definition loadBalancesForQueuedBatch (db : ledger_db) (ids : list string) : result heap :=
  let* objects :=
    if EnableQueuedChecks then
      fold_res (fun (h : heap) id => let* b := GetBalanceByID db id true in Ok (<[id := b]> h)) ids ∅
    else Ok (GetBalancesByIDsLite db ids) in
  match List.find (fun id => negb (bool_decide (is_Some (objects !! id)))) ids with
  | Some id => Err (errors_New ("failed to load balance " +:+ id +:+ " for coalesced batch"))
  | None => Ok objects
  end.

(** [coalescingBalancesForTransaction]: both objects are there. *)
Definition coalescingBalancesForTransaction (h : heap) (t : Transaction) : result unit :=
  match h !! t_Source t with
  | None => Err (errors_New ("missing source balance " +:+ t_Source t +:+ " for coalesced transaction"))
  | Some _ =>
    match h !! t_Destination t with
    | None => Err (errors_New ("missing destination balance " +:+ t_Destination t +:+ " for coalesced transaction"))
    | Some _ => Ok tt
    end
  end.

(** [getQueuedBatchExistingReferences] with [GetExistingTransactionReferences],
    under [queuedBatchReferenceSets]. *)
Definition queuedBatchReferenceSets (db : ledger_db) (ts : list Transaction) : gset string * gset string :=
  if DisableBatchReferenceCheck then (∅, ∅)
  else
    let prefetched : gset string := list_to_set (filter (fun r => r <> ""%string) (t_Reference <$> ts)) in
    (prefetched, filter (fun r => TransactionExistsByRef db r = true) prefetched).

(** [validateQueuedBatchTransactionReference]: the references of the batch so
    far. *)
Definition reference_used (t : Transaction) : go_error :=
  errors_New ("reference " +:+ t_Reference t +:+ " has already been used").
Definition validateQueuedBatchTransactionReference (t : Transaction) (sets : gset string * gset string)
    (batchReferences : gset string) : M (gset string) :=
  if String.eqb (t_Reference t) "" then fail (errors_New "reference is required")
  else if bool_decide (t_Reference t ∈ batchReferences) then fail (reference_used t)
  else if bool_decide (t_Reference t ∈ sets.2) then fail (reference_used t)
  else if (size sets.1 =? 0)%nat || negb (bool_decide (t_Reference t ∈ sets.1))
  then let! _ := validateTxn t in ret ({[t_Reference t]} ∪ batchReferences)
  else ret ({[t_Reference t]} ∪ batchReferences).

(** [prepareQueuedBatchTransaction]. *)
Definition prepareQueuedBatchTransaction (t : Transaction) (h : heap) (sets : gset string * gset string)
    (batchReferences : gset string) : M (prepared * heap * gset string) :=
  let! _ := lift (coalescingBalancesForTransaction h t) in
  let! _ := with_context "batch pre-transaction hook failed" (lift (pre_hooks t)) in
  let! refs := with_context "batch transaction validation failed"
                 (validateQueuedBatchTransactionReference t sets batchReferences) in
  let! p := lift (post_at t h) in
  ret (p, refs).

(** The loop over a batch.  The metadata map of a transaction and of what is
    persisted for it is one object; the transactions are returned as the loop
    leaves them. *)
Definition share_metadata (t persisted : Transaction) : Transaction :=
  {| t with t_MetaData := t_MetaData persisted |}.
Fixpoint prepare_batch (ts : list Transaction) (h : heap) (sets : gset string * gset string) (refs : gset string)
    : M (list Transaction * result (list prepared * heap)) :=
  match ts with
  | [] => ret ([], Ok ([], h))
  | t :: rest =>
      let! r := try (prepareQueuedBatchTransaction t h sets refs) in
      match r with
      | Err e => ret (t :: rest, Err e)
      | Ok (p, h, refs) =>
          let! q := prepare_batch rest h sets refs in
          ret (share_metadata t p.1 :: q.1, let* w := q.2 in Ok (p :: w.1, w.2))
      end
  end.

(** [persistQueuedTransactionBatchLocked]: the leader as it is left, and the
    outcome. *)
Definition persistQueuedTransactionBatchLocked (leader : Transaction) (siblings : list Transaction)
    (ids : list string) : M (Transaction * result unit) :=
  let ts := leader :: siblings in
  let! objects := with_context "failed to load balances for coalesced batch"
                    (reads (fun db => loadBalancesForQueuedBatch db ids)) in
  let! _ := with_context "failed to list pre-transaction hooks for coalesced batch" (lift list_hooks) in
  let! sets := reads (fun db => Ok (queuedBatchReferenceSets db ts)) in
  let! q := prepare_batch ts objects sets ∅ in
  let lead := default leader (head q.1) in
  match q.2 with
  | Err e => ret (lead, Err e)
  | Ok (works, objects) =>
      let! r := try (with_context "failed to persist coalesced transaction batch" (atomically (fun db =>
        RecordTransactionsWithBalanceSetAndOutboxes db (fst <$> works) (deref objects <$> ids) (omap snd works)))) in
      ret (lead, let* _ := r in Ok tt)
  end.

(** [persistQueuedTransactionBatch]. *)
Definition persistQueuedTransactionBatch (leader : Transaction) (siblings : list Transaction)
    : M (Transaction * result unit) :=
  let! _ := lift (validateQueuedBatchCurrencies (leader :: siblings)) in
  let ids := collectQueuedCoalescingBalanceIDs (leader :: siblings) in
  let! _ := with_context "failed to acquire batch lock" (lift (acquire ids)) in
  persistQueuedTransactionBatchLocked leader siblings ids.

(** [tryRecordQueuedTransactionBatch]: whether the batch was recorded, and the
    leader as it is left.  No error is returned: the caller goes on with the
    leader alone. *)
Definition tryRecordQueuedTransactionBatch (t : Transaction) (force : bool) : M (bool * Transaction) :=
  if negb (fst (canCoalesceQueuedTransaction t)) then ret (false, t)
  else
    let batchSize := queuedCoalescingBatchSize force in
    if batchSize <? 2 then ret (false, t)
    else
      let! batch := buildQueuedCoalescingBatch t batchSize in
      match batch with
      | leader :: ((_ :: _) as siblings) =>
          let! r := try (persistQueuedTransactionBatch leader siblings) in
          ret (match r with
               | Err _ => (false, t)
               | Ok (lead, Err _) => (false, lead)
               | Ok (lead, Ok _) => (true, lead)
               end)
      | _ => ret (false, t)
      end.

(** ** The planner *)

Inductive execution_mode := ModeSingle | ModeQueuedBatch | ModeHotQueuedBatch.

(** [planTransactionExecution] when queued batching is allowed. *)
Definition planTransactionExecution (hotLane : bool) : execution_mode :=
  if hotLane then ModeHotQueuedBatch else ModeQueuedBatch.

(** [executeTransactionPlan] in every mode. *)
Variable now : Z.
Definition execute_plan (mode : execution_mode) (t : Transaction) (viaQueue : bool) : M (execution_mode * Transaction) :=
  let! t := verifyPolicyExecution t in
  let single t := let! r := recordTransactionSingle GenerateUUIDWithSuffix pre_hooks acquire EnableQueuedChecks now t viaQueue in
                  ret (ModeSingle, r) in
  let batch force t :=
    let! h := tryRecordQueuedTransactionBatch t force in
    if h.1 then ret (if force then ModeHotQueuedBatch else ModeQueuedBatch, h.2)
    else let! r := executeTransactionPlan GenerateUUIDWithSuffix pre_hooks acquire EnableQueuedChecks now h.2 true in
         ret (ModeSingle, r) in
  if policyMarked t then single t
  else match mode with
  | ModeSingle => single t
  | ModeQueuedBatch => batch false t
  | ModeHotQueuedBatch => batch true t
  end.
End Batches.
