(* ===== verification/Queue.v ===== *)
(** * Queueing, splitting and refunding

    [internal/core/transaction_queue.go], [transaction_refunds.go], the
    admission wrappers of [internal/core/policy.go], [SplitTransactionPrecise]
    of [model/transaction.go] and the worker entry point of
    [transaction_execution.go]: the front door of the ledger.  The asynq queue
    is a parameter (the outcome of enqueueing), the request context is a record
    with the principal, the internal mark and the refund admission.  The legs of
    a split share their metadata map in the source; here each carries its own
    copy, and a key the source writes to the shared map after the split is
    written to every copy.  The worker entry point here is the one of a job
    that is not coalesced; [Worker] has it with the batches of [Coalesce]. *)
From stdpp Require Import base option list strings gmap sorting.
From Stdlib Require Import ZArith Lia SpecFloat.
From S2P Require Import Prelude GoFloat Model GoTime Sha256 Decimal Amount Balance Distribution Policy PolicyStore Store Engine Inflight.
Close Scope Q_scope.
Open Scope Z_scope.
Open Scope engine_scope.

(** [strings.ToUpper] on ASCII. *)
Fixpoint ToUpper (s : string) : string :=
  match s with
  | EmptyString => EmptyString
  | String c r =>
      let n := Ascii.N_of_ascii c in
      String (if ((97 <=? n) && (n <=? 122))%N then Ascii.ascii_of_N (n - 32) else c) (ToUpper r)
  end.

(** ** Preparing a transaction *)

(** [setTransactionStatus]; the zero time is 0. *)
Definition setTransactionStatus (t : Transaction) : Transaction :=
  if negb (t_ScheduledFor t =? 0) then {| t with t_Status := StatusScheduled |}
  else if String.eqb (t_Status t) "" then {| t with t_Status := StatusQueued |}
  else t.

(** [updateSplitTransactions]. *)
Fixpoint number_legs (parentID originalRef : string) (i : Z) (legs : list Transaction) : list Transaction :=
  match legs with
  | [] => []
  | leg :: rest =>
      {| leg with t_ParentTransaction := parentID; t_ParentKind := "group";
         t_Reference := originalRef +:+ "_" +:+ itoa i |} :: number_legs parentID originalRef (i + 1) rest
  end.
Definition updateSplitTransactions (legs : list Transaction) (parentID originalRef : string) : list Transaction :=
  number_legs parentID originalRef 1 legs.

(** The context of a request: the principal, [policy.Internal], and the
    admission made for a refund. *)
Record context := {
  cx_principal : Principal; cx_internal : bool;
  cx_refund : option (option PolicyAdmission * list Transaction) }.
Definition Internal (cx : context) : context := {| cx with cx_internal := true |}.

(** [clearCallerPolicyMetadata]. *)
Definition clearCallerPolicyMetadata (cx : context) (t : Transaction) : Transaction :=
  if cx_internal cx then t
  else {| t with t_MetaData := (fun m => delete "policy_approval"%string (delete "policy_admission_id"%string m)) <$> t_MetaData t |}.

(** ** Refund errors *)

(** [errTransactionAlreadyRefunded] and its test. *)
Definition errTransactionAlreadyRefunded (id : string) : go_error :=
  GoError ("transaction " +:+ id +:+ " has already been refunded") ["errTransactionAlreadyRefunded"%string].
Definition isTransactionAlreadyRefundedError (e : go_error) : bool := errors_Is e "errTransactionAlreadyRefunded".

(** The error of a batch: one leg's error as itself, several joined by
    [errors.Join], which [Unwrap]s to the list. *)
Inductive batch_error := One (e : go_error) | Joined (es : list go_error).

(** [allRefundBatchErrorsAreAlreadyRefunded], with [unwrapRefundBatchErrors]. *)
Definition allRefundBatchErrorsAreAlreadyRefunded (err : batch_error) : bool :=
  match err with
  | One e => isTransactionAlreadyRefundedError e
  | Joined [] => false
  | Joined es => forallb isTransactionAlreadyRefundedError es
  end.

(** [nonSkippableRefundBatchErrors]. *)
Definition nonSkippableRefundBatchErrors (err : batch_error) : option batch_error :=
  match err with
  | One e => if isTransactionAlreadyRefundedError e then None else Some err
  | Joined es =>
      match filter (fun e => isTransactionAlreadyRefundedError e = false) es with
      | [] => None
      | [e] => Some (One e)
      | fatal => Some (Joined fatal)
      end
  end.

(** [reconcileRefundBatchResults]. *)
Definition reconcileRefundBatchResults (applied : list Transaction) (err : option batch_error)
    : list Transaction * option batch_error :=
  match err with
  | None => (applied, None)
  | Some e =>
      if negb (length applied =? 0)%nat && allRefundBatchErrorsAreAlreadyRefunded e then (applied, None)
      else match nonSkippableRefundBatchErrors e with
           | Some fatal => (applied, Some fatal)
           | None => (applied, Some e)
           end
  end.

(** The combined error of [ProcessTransactionInBatches]. *)
Definition join_errors (es : list go_error) : option batch_error :=
  match es with [] => None | [e] => Some (One e) | _ => Some (Joined es) end.

(** [RefundOptions]. *)
Record RefundOptions := { ro_SkipQueue : bool; ro_Description : string; ro_MetaData : gmap string json }.

(** [prepareRefundTransaction]; [id] is the generated id. *)
Definition prepareRefundTransaction (original : Transaction) (opts : RefundOptions) (id : string) : Transaction :=
  let md := if decide (ro_MetaData opts = ∅) then t_MetaData original
            else Some (ro_MetaData opts ∪ default ∅ (t_MetaData original)) in
  {| original with
     t_TransactionID := id; t_Reference := refund_reference (t_TransactionID original);
     t_ParentTransaction := t_TransactionID original; t_ParentKind := "economic";
     t_Source := t_Destination original; t_Destination := t_Source original;
     t_AllowOverdraft := true; t_SkipQueue := ro_SkipQueue opts;
     t_Description := if String.eqb (ro_Description opts) "" then t_Description original else ro_Description opts;
     t_MetaData := delete "inflight"%string <$> md;
     t_Status := ""; t_Inflight := false; t_QueueAction := ""; t_OverdraftLimit := fzero;
     t_ScheduledFor := 0; t_InflightExpiryDate := 0; t_InflightCommitDate := 0 |}.

Section Queue.
Context {Dops : DecimalOps}.
Variable numeric_float : string -> float64.
Variable GenerateUUIDWithSuffix : string -> nat -> string.
Variable pre_hooks : Transaction -> result unit.
Variable acquire : list string -> result unit.
Variable EnableQueuedChecks : bool.
Variable now : Z.
Variable GetTransactionFromQueue : string -> result (option Transaction).
Variable enqueue : Transaction -> result unit.
(** The delayed tasks for the expiry and the automatic commit of a hold. *)
Variables (queue_expiry queue_commit : Transaction -> result unit).
(** [encoding/json.Marshal] on legs and on references. *)
Variable json_legs : list PolicyLeg -> string.
Variable json_refs : list string -> string.
(** The hot-pair manager: absent, or the lane of a pair; an error gives the
    normal lane. *)
Variable resolve_lane : option (string -> string -> string -> string).
(** [Config().Transaction.BatchSize]. *)
Variable BatchSize : Z.

#[local] Notation new_id := (new_id GenerateUUIDWithSuffix).
#[local] Notation pair := (getSourceAndDestination GenerateUUIDWithSuffix EnableQueuedChecks now).
#[local] Notation execute := (executeTransactionPlan GenerateUUIDWithSuffix pre_hooks acquire EnableQueuedChecks now).

(** [setTransactionMetadata]. *)
Definition flag (b : bool) (k : string) (m : metadata) : metadata := if b then md_set m k (JBool true) else m.
Definition setTransactionMetadata (t : Transaction) : M Transaction :=
  let t := {| t with t_CreatedAt := now;
              t_EffectiveDate := match t_EffectiveDate t with Some d => Some d | None => Some now end |} in
  let t := {| t with t_Hash := HashTxn t |} in
  let '(amount, t) := ApplyPrecision t in
  let t := {| t with t_PreciseAmount := Some amount |} in
  let! id := if String.eqb (t_TransactionID t) "" then new_id "txn" else ret (t_TransactionID t) in
  let md := Some (default ∅ (t_MetaData t)) in
  ret {| t with t_TransactionID := id;
         t_MetaData := flag (t_AllowOverdraft t) "allow_overdraft"
                         (flag (t_Atomic t) "atomic" (flag (t_Inflight t) "inflight" md)) |}.

(** [SplitTransactionPrecise]: the parent with the ids of its legs, and the
    legs. *)
Definition note_leg (identifier id : string) (ds : list Model.Distribution) : list Model.Distribution :=
  (fun d => if String.eqb (d_Identifier d) identifier then {| d with d_TransactionID := id |} else d) <$> ds.
Definition split_legs (amounts : gmap string Z) : list Model.Distribution -> Z -> Transaction -> list Transaction
    -> M (Transaction * list Transaction) :=
  fix loop ds counter t acc :=
    match ds with
    | [] => ret (t, acc)
    | d :: rest =>
        match amounts !! d_Identifier d with
        | None => loop rest counter t acc
        | Some amount =>
            let! id := new_id "txn" in
            let leg := convertPreciseToDecimal {| t with t_TransactionID := id; t_PreciseAmount := Some amount |} in
            let leg := {| leg with t_Hash := HashTxn leg |} in
            let by_source := negb (length (t_Sources t) =? 0)%nat in
            let by_destination := negb by_source && negb (length (t_Destinations t) =? 0)%nat in
            let leg := {| leg with t_Sources := []; t_Destinations := []; t_ParentTransaction := t_TransactionID t;
                          t_Source := if by_source then d_Identifier d else t_Source leg;
                          t_Destination := if by_destination then d_Identifier d else t_Destination leg;
                          t_Reference := t_Reference t +:+ "-" +:+ itoa counter |} in
            let t := {| t with
              t_Sources := if by_source then note_leg (d_Identifier d) id (t_Sources t) else t_Sources t;
              t_Destinations := if by_destination then note_leg (d_Identifier d) id (t_Destinations t)
                                else t_Destinations t |} in
            loop rest (counter + 1) t (acc ++ [leg])
        end
    end.
Definition SplitTransactionPrecise (t : Transaction) : M (Transaction * list Transaction) :=
  let ds := if negb (length (t_Sources t) =? 0)%nat then t_Sources t else t_Destinations t in
  let! _ := lift (ValidatePrecision (t_Precision t)) in
  if fle (t_Precision t) fzero || fle (f_of_Z (2 ^ 63)) (t_Precision t)
  then fail (errors_New "split precision must be a positive int64 scale")
  else
    let! amounts := lift (CalculateDistributionsPrecise (t_PreciseAmount t) ds (ftruncZ (t_Precision t))) in
    split_legs amounts ds 1 t [].

(** [handleSplitTransactions]. *)
Definition handleSplitTransactions (t : Transaction) : M (Transaction * list Transaction) :=
  with_context "failed to split transaction"
    (let! r := SplitTransactionPrecise t in
     ret (r.1, (fun leg : Transaction => {| leg with t_ParentKind := "group" |}) <$> r.2)).

(** ** Admissions *)

(** [effectiveKeyPolicy]. *)
Definition effectiveKeyPolicy (cx : context) : M (option KeyPolicy) :=
  let p := cx_principal cx in
  if pr_Master p || String.eqb (pr_APIKeyID p) "" || cx_internal cx then ret None
  else reads (fun db => GetKeyPolicy (ld_policy db) (pr_APIKeyID p)).

(** [policyLeg]: the transaction with its resolved legs, and its policy leg. *)
Definition policyLeg (t : Transaction) : M (Transaction * PolicyLeg) :=
  let! sd := pair t in
  let t := {| t with t_Source := b_BalanceID sd.1; t_Destination := b_BalanceID sd.2 |} in
  let t := match t_PreciseAmount t with
           | Some _ => t
           | None => let '(n, t') := ApplyPrecision t in {| t' with t_PreciseAmount := Some n |}
           end in
  match t_PreciseAmount t with
  | Some n =>
      if n <? 0 then fail ErrDenied
      else ret (t, {| pl_TransactionID := t_TransactionID t; pl_Reference := t_Reference t; pl_Source := t_Source t;
                      pl_Destination := t_Destination t; pl_SourceLedger := b_LedgerID sd.1;
                      pl_DestinationLedger := b_LedgerID sd.2; pl_Currency := t_Currency t;
                      pl_Precision := t_Precision t; pl_Amount := itoa n |})
  | None => fail ErrDenied
  end.
Fixpoint policy_legs (txns : list Transaction) : M (list Transaction * list PolicyLeg) :=
  match txns with
  | [] => ret ([], [])
  | t :: rest =>
      let! p := policyLeg t in
      let! ps := policy_legs rest in
      ret (p.1 :: ps.1, p.2 :: ps.2)
  end.

(** [admitPolicyTransactions]. *)
Definition admitPolicyTransactions (cx : context) (identity : string) (txns : list Transaction)
    : M (list Transaction * option PolicyAdmission) :=
  let! tl := policy_legs txns in
  let! id := new_id "adm" in
  let! a := atomically (fun db =>
    let* r := Admit json_legs (ld_policy db) now id (cx_principal cx) (cx_internal cx) identity tl.2 in
    Ok ({| db with ld_policy := r.1 |}, r.2)) in
  match a with
  | None => ret (tl.1, None)
  | Some adm =>
      let id_of ref := foldl (fun id leg => if String.eqb (pl_Reference leg) ref then pl_TransactionID leg else id)
                         ""%string (pa_Legs adm) in
      ret ((fun t : Transaction => Apply (Some adm) {| t with t_TransactionID := id_of (t_Reference t) |}) <$> tl.1, a)
  end.

Fixpoint verify_legs (legs : list Transaction) : M (list Transaction) :=
  match legs with
  | [] => ret []
  | leg :: rest =>
      let! leg := verifyPolicyExecution leg in
      let! rest := verify_legs rest in
      ret (leg :: rest)
  end.

(** [admitQueuedPolicy]: the context to go on with, the transaction and its
    legs as the admission marks them. *)
Definition admitQueuedPolicy (cx : context) (t : Transaction) (split : list Transaction)
    : M (context * Transaction * list Transaction) :=
  let t := match cx_refund cx with Some (Some adm, _) => Apply (Some adm) t | _ => t end in
  let! p := effectiveKeyPolicy cx in
  let legs := match split with [] => [t] | _ => updateSplitTransactions split (t_TransactionID t) (t_Reference t) end in
  let back legs := match split with [] => (default t (head legs), []) | _ => (t, legs) end in
  match p with
  | None =>
      if policyMarked t then let! legs := verify_legs legs in ret (cx, (back legs).1, (back legs).2)
      else ret (cx, t, split)
  | Some _ =>
      let! r := admitPolicyTransactions cx (t_Reference t) legs in
      ret (Internal cx, Apply r.2 (back r.1).1, (back r.1).2)
  end.

(** [failPolicyTransactions]. *)
Fixpoint failPolicyTransactions (txns : list Transaction) : M unit :=
  match txns with
  | [] => ret tt
  | t :: rest =>
      let! _ := if negb (policyMarked t) then ret tt
                else
                  let rejected := snd (ApplyPrecision {| t with t_Status := StatusRejected; t_Atomic := false |}) in
                  let! r := try (atomically (fun db => RecordTransaction db rejected)) in
                  match r with
                  | Ok _ => releasePolicyCapacity (t_TransactionID t)
                  | Err _ => ret tt
                  end in
      failPolicyTransactions rest
  end.

(** [failPolicyBulk] on one transaction. *)
Fixpoint fail_legs (legs : list Transaction) : M unit :=
  match legs with
  | [] => ret tt
  | leg :: rest =>
      let! r := try (verifyPolicyExecution leg) in
      let! _ := match r with Ok leg => failPolicyTransactions [leg] | Err _ => ret tt end in
      fail_legs rest
  end.
Definition failPolicyBulk (t : Transaction) : M unit :=
  if negb (policyMarked t) then ret tt
  else if (length (t_Sources t) =? 0)%nat && (length (t_Destinations t) =? 0)%nat then failPolicyTransactions [t]
  else
    let! r := try (handleSplitTransactions t) in
    match r with
    | Err _ => ret tt
    | Ok (t, split) => fail_legs (updateSplitTransactions split (t_TransactionID t) (t_Reference t))
    end.

(** [admitDirectPolicy]. *)
Definition admitDirectPolicy (cx : context) (t : Transaction) : M (context * Transaction) :=
  let t := clearCallerPolicyMetadata cx t in
  let! p := effectiveKeyPolicy cx in
  match p with
  | None => ret (cx, t)
  | Some _ =>
      let! _ := lift (ValidateAmount t) in
      let! t := setTransactionMetadata t in
      let t := setTransactionStatus t in
      if negb ((length (t_Sources t) =? 0)%nat && (length (t_Destinations t) =? 0)%nat)
      then fail (errors_New "direct policy recording requires resolved legs; use QueueTransaction for splits")
      else
        let! r := admitPolicyTransactions cx (t_Reference t) [t] in
        ret (Internal cx, default t (head r.1))
  end.

(** [RecordTransaction] of the core. *)
Definition core_RecordTransaction (cx : context) (t : Transaction) : M Transaction :=
  let! ct := admitDirectPolicy cx t in
  let t := ct.2 in
  let! r := try (execute t false) in
  match r with
  | Ok t' => ret t'
  | Err e =>
      let! _ := if policyMarked t && negb (String.eqb (t_Status t) StatusCommit) && negb (String.eqb (t_Status t) StatusVoid)
                then failPolicyTransactions [t] else ret tt in
      fail e
  end.

(** ** Queueing *)

Definition LaneNormal : string := "normal".
(** [AssignQueueLane]. *)
Definition AssignQueueLane (t : Transaction) : Transaction :=
  let md := Some (default ∅ (t_MetaData t)) in
  let '(lane, md) :=
    match resolve_lane with
    | Some lane_of =>
        if String.eqb (t_Source t) "" || String.eqb (t_Destination t) "" || String.eqb (t_Currency t) ""
        then (LaneNormal, md)
        else (lane_of (t_Source t) (t_Destination t) (t_Currency t),
              md_set md "queue_pair_key" (JStr (t_Source t +:+ "|" +:+ t_Destination t +:+ "|" +:+ ToUpper (t_Currency t))))
    | None => (LaneNormal, md)
    end in
  {| t with t_QueueLane := lane; t_MetaData := md_set md "queue_lane" (JStr lane) |}.

(** [prepareTransactionForQueue]. *)
Definition prepareTransactionForQueue (t : Transaction) : M Transaction :=
  let t := setTransactionStatus t in
  let! t := setTransactionMetadata t in
  let! sd := with_context "failed to get source/destination balances" (pair t) in
  ret (AssignQueueLane {| t with t_Source := b_BalanceID sd.1; t_Destination := b_BalanceID sd.2 |}).

(** Persist the intent and copy it for the queue. *)
Definition persist_intent (t : Transaction) (ref : string) : M (Transaction * Transaction) :=
  let! t := with_context "failed to persist original transaction" (atomically (fun db => RecordTransaction db t)) in
  let! q := createQueueCopy GenerateUUIDWithSuffix t ref in
  ret (t, q).

(** [processSingleTransaction]. *)
Definition processSingleTransaction (t : Transaction) (originalRef : string) : M (Transaction * list Transaction) :=
  let! t := if (length (t_Sources t) =? 0)%nat && (length (t_Destinations t) =? 0)%nat
            then prepareTransactionForQueue t else ret t in
  let! p := persist_intent t originalRef in
  ret (p.1, [p.2]).

(** [processSplitTransactions]. *)
Fixpoint queue_legs (i : Z) (legs : list Transaction) : M (list Transaction) :=
  match legs with
  | [] => ret []
  | leg :: rest =>
      let! leg := with_context ("failed to prepare split transaction " +:+ itoa i) (prepareTransactionForQueue leg) in
      let! p := persist_intent leg (t_Reference leg) in
      let! qs := queue_legs (i + 1) rest in
      ret (p.2 :: qs)
  end.
Definition processSplitTransactions (legs : list Transaction) (originalTxnID originalRef : string)
    : M (list Transaction) :=
  queue_legs 0 (updateSplitTransactions legs originalTxnID originalRef).

(** The synchronous loop of [processTxns]: [rollback] undoes an atomic batch. *)
Fixpoint record_legs (rollback : bool -> M unit) (cx : context) (i : Z) (legs : list Transaction) : M (list Transaction) :=
  match legs with
  | [] => ret []
  | leg :: rest =>
      let! r := try (core_RecordTransaction cx leg) in
      match r with
      | Err e =>
          let! _ := if t_Atomic leg then rollback (t_Inflight leg) else ret tt in
          fail (wrap ("failed to record split transaction " +:+ itoa i +:+ ": ") e)
      | Ok t =>
          let! ts := record_legs rollback cx (i + 1) rest in
          ret (t :: ts)
      end
  end.

(** [processTxns]: the transaction as it is left, and what is to be queued. *)
Definition processTxns (rollback : bool -> M unit) (cx : context) (t : Transaction) (split : list Transaction)
    (originalTxnID originalRef : string) : M (Transaction * list Transaction) :=
  if t_SkipQueue t then
    match split with
    | [] => let! r := core_RecordTransaction cx t in ret (r, [r])
    | _ => let! rs := record_legs rollback cx 0 split in ret (t, rs)
    end
  else match split with
    | [] => processSingleTransaction t originalRef
    | _ => let! qs := processSplitTransactions split originalTxnID originalRef in ret (t, qs)
    end.

(** [enqueueTransactions]. *)
Fixpoint enqueue_all (txns : list Transaction) : result unit :=
  match txns with
  | [] => Ok tt
  | t :: rest => let* _ := enqueue t in enqueue_all rest
  end.
Definition enqueueTransactions (original : Transaction) (split : list Transaction) : result unit :=
  enqueue_all (match split with [] => [original] | _ => split end).

(** [QueueTransaction]; [rollback] is [handleAsyncBulkTransactionFailure] on
    the batch of an atomic split. *)
Definition set_queued_parent (id : string) (t : Transaction) : Transaction :=
  {| t with t_QueuedParent := id; t_MetaData := md_set (t_MetaData t) "QUEUED_PARENT_TRANSACTION" (JStr id) |}.
Definition note_queued_parent (id : string) (t : Transaction) : Transaction :=
  {| t with t_MetaData := md_set (t_MetaData t) "QUEUED_PARENT_TRANSACTION" (JStr id) |}.
Definition queue_with (rollback : string -> bool -> M unit) (cx : context) (t : Transaction) : M Transaction :=
  let t := clearCallerPolicyMetadata cx t in
  let originalRef := t_Reference t in
  let! _ := lift (ValidateAmount t) in
  let! t := setTransactionMetadata t in
  let t := setTransactionStatus t in
  let id0 := t_TransactionID t in
  let! ts := if (length (t_Sources t) =? 0)%nat && (length (t_Destinations t) =? 0)%nat then ret (t, [])
             else handleSplitTransactions t in
  let! admitted := admitQueuedPolicy cx ts.1 ts.2 in
  let cx := admitted.1.1 in
  let t := admitted.1.2 in
  let split := admitted.2 in
  let originalTxnID := if policyMarked t then t_TransactionID t else id0 in
  let! t :=
    if t_SkipQueue t then
      let! r := try (processTxns (rollback originalTxnID) cx t split originalTxnID originalRef) in
      match r with
      | Err e =>
          let! _ := if policyMarked t
                    then failPolicyTransactions (match split with [] => [t] | _ => split end) else ret tt in
          fail e
      | Ok (t, _) => ret {| t with t_Status := if t_Inflight t then StatusInflight else StatusApplied |}
      end
    else
      let bulk := Contains (t_ParentTransaction t) "bulk" in
      let parent := if bulk then t_ParentTransaction t else originalTxnID in
      let t := set_queued_parent parent t in
      let! r := try (processTxns (rollback originalTxnID) cx t (note_queued_parent parent <$> split) originalTxnID originalRef) in
      match r with
      | Err e => let! _ := failPolicyBulk t in fail e
      | Ok (t, qs) => let! _ := lift (enqueueTransactions t qs) in ret t
      end in
  let! _ := if negb (t_InflightExpiryDate t =? 0)
            then with_context "failed to queue inflight expiry" (lift (queue_expiry t)) else ret tt in
  let! _ := if negb (t_InflightCommitDate t =? 0)
            then with_context "failed to queue inflight commit" (lift (queue_commit t)) else ret tt in
  ret t.

(** ** Batches and refunds *)

(** [ProcessTransactionInBatches] with one worker that handles each page
    before the next one is fetched; the transactions and the errors. *)
Fixpoint run_jobs (worker : Transaction -> M Transaction) (acc : list Transaction * list go_error)
    (jobs : list Transaction) : M (list Transaction * list go_error) :=
  match jobs with
  | [] => ret acc
  | job :: rest =>
      let! r := try (worker job) in
      run_jobs worker (match r with Ok t => (acc.1 ++ [t], acc.2) | Err e => (acc.1, acc.2 ++ [e]) end) rest
  end.
Fixpoint process_pages (fuel : nat) (page : Z -> M (list Transaction)) (worker : Transaction -> M Transaction)
    (offset : Z) (acc : list Transaction * list go_error) : M (list Transaction * list go_error) :=
  match fuel with
  | O => ret acc
  | S fuel' =>
      let! jobs := page offset in
      match jobs with
      | [] => ret acc
      | _ => let! acc := run_jobs worker acc jobs in
             process_pages fuel' page worker (offset + Z.of_nat (length jobs)) acc
      end
  end.
(** A page starts with at most as many handled rows as the earlier pages
    inserted, so twice the number of rows bounds the pages. *)
Definition ProcessTransactionInBatches (page : Z -> M (list Transaction)) (worker : Transaction -> M Transaction)
    : M (list Transaction * option batch_error) :=
  fun db => (let! r := process_pages (2 * length (ld_txns db) + 2) page worker 0 ([], []) in
             ret (r.1, join_errors r.2)) db.

(** [getOriginalTransactionForRefund]: a missing row is looked up in the queue. *)
Definition getOriginalTransactionForRefund (id : string) : M Transaction :=
  let! found := try (reads (fun db => GetTransaction numeric_float db id)) in
  match found with
  | Ok t => ret t
  | Err e =>
      if errors_Is e "sql.ErrNoRows" || Contains (err_msg e) ("Transaction with ID '" +:+ id +:+ "' not found") then
        match GetTransactionFromQueue id with
        | Err _ => fail (wrap ("transaction " +:+ id +:+ " not found: ") e)
        | Ok None => fail (errors_New ("transaction " +:+ id +:+ " not found"))
        | Ok (Some t) => ret t
        end
      else fail (wrap ("failed to get transaction " +:+ id +:+ " from DB: ") e)
  end.

(** [validateTransactionForRefund]. *)
Definition validateTransactionForRefund (t : Transaction) : M unit :=
  if negb (String.eqb (t_Status t) StatusApplied)
  then fail (errors_New ("transaction " +:+ t_TransactionID t +:+ " cannot be refunded in status "
                         +:+ t_Status t +:+ " (only APPLIED)"))
  else
    let! refunded := reads (fun db => Ok (IsTransactionRefunded db t)) in
    if refunded then fail (errTransactionAlreadyRefunded (t_TransactionID t)) else ret tt.

(** [RefundTransactionWithOptions], over the queueing handler. *)
Definition refund_with (queue : context -> Transaction -> M Transaction) (cx : context) (id : string)
    (opts : RefundOptions) : M Transaction :=
  let! _ := with_context "failed to acquire lock for refund" (lift (acquire ["refund:" +:+ id])) in
  let! original := getOriginalTransactionForRefund id in
  let! _ := validateTransactionForRefund original in
  let! txnID := new_id "txn" in
  let refund := prepareRefundTransaction original opts txnID in
  let! r := try (queue cx refund) in
  match r with
  | Ok t => ret t
  | Err e =>
      if match pq_in_chain e with Some tag => String.eqb tag "pq:23505:refund_claims_pkey" | None => false end
      then fail (errTransactionAlreadyRefunded (t_TransactionID original))
      else fail (wrap ("failed to queue refund transaction " +:+ txnID +:+ ": ") e)
  end.

(** [admitRefundPolicy]: the pages of one hundred, the refunds of what is not
    refunded yet, admitted together. *)
Fixpoint refund_candidates (cx : context) (opts : RefundOptions) (originals : list Transaction) : M (list Transaction) :=
  match originals with
  | [] => ret []
  | original :: rest =>
      let! r := try (validateTransactionForRefund original) in
      match r with
      | Err e => if isTransactionAlreadyRefundedError e then refund_candidates cx opts rest else fail e
      | Ok _ =>
          let! id := new_id "txn" in
          let! refund := setTransactionMetadata (clearCallerPolicyMetadata cx (prepareRefundTransaction original opts id)) in
          let! refunds := refund_candidates cx opts rest in
          ret (refund :: refunds)
      end
  end.
Fixpoint refund_pages (fuel : nat) (cx : context) (parent : string) (opts : RefundOptions) (offset : Z) : M (list Transaction) :=
  match fuel with
  | O => ret []
  | S fuel' =>
      let! originals := reads (fun db => Ok (GetRefundableTransactionsByParentID numeric_float db parent 100 offset)) in
      let! refunds := refund_candidates cx opts originals in
      if Z.of_nat (length originals) <? 100 then ret refunds
      else let! more := refund_pages fuel' cx parent opts (offset + 100) in ret (refunds ++ more)
  end.
Definition by_reference (a b : Transaction) : Prop := string_le (t_Reference a) (t_Reference b).
#[local] Instance by_reference_dec : RelDecision by_reference.
Proof. intros a b. unfold by_reference. apply _. Defined.
Definition admitRefundPolicy (cx : context) (parent : string) (opts : RefundOptions) : M context :=
  let! p := effectiveKeyPolicy cx in
  match p with
  | None => ret cx
  | Some _ =>
      let! txns := fun db => refund_pages (S (length (ld_txns db))) cx parent opts 0 db in
      match txns with
      | [] => ret cx
      | _ =>
          let txns := merge_sort by_reference txns in
          let identity := "refund:" +:+ parent +:+ ":" +:+ sha_hex (json_refs (t_Reference <$> txns)) in
          let! r := admitPolicyTransactions cx identity txns in
          ret {| cx with cx_internal := true; cx_refund := Some (r.2, r.1) |}
      end
  end.

(** [failPolicyRefund]. *)
Definition failPolicyRefund (cx : context) : M unit :=
  match cx_refund cx with Some (_, txns) => failPolicyTransactions txns | None => ret tt end.

(** [ProcessRefundsInBatches]. *)
Definition refunds_with (queue : context -> Transaction -> M Transaction) (cx : context) (parent : string)
    (opts : RefundOptions) : M (list Transaction * option batch_error) :=
  let! cx := admitRefundPolicy cx parent opts in
  let! r := ProcessTransactionInBatches
    (fun offset => reads (fun db => Ok (GetRefundableTransactionsByParentID numeric_float db parent BatchSize offset)))
    (fun original => refund_with queue cx (t_TransactionID original) opts) in
  let result := reconcileRefundBatchResults r.1 r.2 in
  let! _ := match result.2 with Some _ => failPolicyRefund cx | None => ret tt end in
  ret result.

(** [VoidWorker] on one job. *)
Definition void_worker (original : Transaction) : M Transaction :=
  if negb (IsInflightTransaction original) then fail (errors_New "transaction is not in inflight status")
  else void_inflight numeric_float GenerateUUIDWithSuffix pre_hooks acquire EnableQueuedChecks now
         GetTransactionFromQueue 1 (t_TransactionID original) "".

(** [rollbackBatchTransactions]. *)
Definition rollback_with (queue : context -> Transaction -> M Transaction) (cx : context) (batchID : string)
    (inflight : bool) : M (list Transaction * option batch_error) :=
  if inflight
  then ProcessTransactionInBatches
         (fun offset => reads (fun db => Ok (GetInflightTransactionsByParentID numeric_float db batchID BatchSize offset)))
         void_worker
  else refunds_with queue cx batchID {| ro_SkipQueue := false; ro_Description := ""; ro_MetaData := ∅ |}.

(** [QueueTransaction]: the rollback of an atomic split queues refunds, which
    are not split themselves, so a [fuel] of one is enough. *)
Fixpoint QueueTransaction (fuel : nat) (cx : context) (t : Transaction) : M Transaction :=
  queue_with (fun batchID inflight =>
    match fuel with
    | O => ret tt
    | S fuel' => let! _ := try (rollback_with (QueueTransaction fuel') cx batchID inflight) in ret tt
    end) cx t.

(** [RefundTransactionWithOptions] and [ProcessRefundsInBatches]. *)
Definition RefundTransactionWithOptions (cx : context) (id : string) (opts : RefundOptions) : M Transaction :=
  refund_with (QueueTransaction 1) cx id opts.
Definition ProcessRefundsInBatches (cx : context) (parent : string) (opts : RefundOptions)
    : M (list Transaction * option batch_error) :=
  refunds_with (QueueTransaction 1) cx parent opts.

(** ** The queue worker *)

(** [verifyQueuedPolicy]. *)
Definition verifyQueuedPolicy (t : Transaction) : M Transaction :=
  if String.eqb (t_Status t) StatusCommit || String.eqb (t_QueueAction t) StatusCommit then
    let! _ := reads (fun db => checkPolicyCommit db (t_ParentTransaction t)) in ret t
  else
    let! a := reads (fun db => verifyPolicyLeg db t) in ret (Apply a t).

(** The execution controls of the intent, applied to its queue copy. *)
Definition restore_controls (intent t : Transaction) : Transaction :=
  if String.eqb (t_Status intent) StatusQueued || String.eqb (t_Status intent) StatusScheduled then
    let t' := apply_controls (execution_controls intent) t in
    {| t' with t_ParentKind := t_ParentKind t; t_OverdraftLimit := t_OverdraftLimit intent;
       t_QueueAction := t_QueueAction intent;
       t_Inflight := if String.eqb (t_QueueAction intent) StatusCommit then false else t_Inflight t' |}
  else t.

(** [processQueuedTransaction] when the job is not coalesced. *)
Definition process_job_single (t : Transaction) : M Transaction :=
  let! t := if negb (String.eqb (t_ParentTransaction t) "") && negb (String.eqb (t_ParentKind t) "group")
            then let! intent := with_context "read queued execution controls"
                                  (reads (fun db => GetTransaction numeric_float db (t_ParentTransaction t))) in
                 ret (restore_controls intent t)
            else ret t in
  let! t := verifyQueuedPolicy t in
  let! t := verifyPolicyExecution t in
  if policyMarked t
  then recordTransactionSingle GenerateUUIDWithSuffix pre_hooks acquire EnableQueuedChecks now t true
  else execute t true.

(** ** Approvals *)

(** [DecidePolicyApproval] of the core: the decision, then the holds. *)
Fixpoint settle_holds (id : string) (approve : bool) (holds : list string) : M unit :=
  match holds with
  | [] => ret tt
  | hold :: rest =>
      let! r := try (if approve
        then commit_inflight numeric_float GenerateUUIDWithSuffix pre_hooks acquire EnableQueuedChecks now
               GetTransactionFromQueue enqueue 1 false hold (Some 0) ("policy_approve_" +:+ id +:+ "_" +:+ hold)
        else void_inflight numeric_float GenerateUUIDWithSuffix pre_hooks acquire EnableQueuedChecks now
               GetTransactionFromQueue 1 hold ("policy_reject_" +:+ id +:+ "_" +:+ hold)) in
      match r with
      | Ok _ => settle_holds id approve rest
      | Err e =>
          if approve && String.eqb (classifyInflightError (Some e)) "ALREADY_VOIDED" then fail e
          else if isTerminalInflightError e then settle_holds id approve rest
          else fail e
      end
  end.
Definition decide_and_settle (cx : context) (id : string) (approve : bool) : M PolicyAdmission :=
  let! a := atomically (fun db =>
    let* r := DecidePolicyApproval (ld_policy db) id (cx_principal cx) approve in
    Ok ({| db with ld_policy := r.1 |}, r.2)) in
  let! holds := reads (fun db => Ok (PolicyHoldIDs db id)) in
  match holds with
  | [] => fail (errors_New "approval hold has not been recorded yet; retry this decision")
  | _ => let! _ := settle_holds id approve holds in ret a
  end.

(** ** Bulk requests *)

Record BulkTransactionRequest := {
  br_Transactions : list Transaction; br_Inflight : bool; br_Atomic : bool; br_SkipQueue : bool }.

(** [processBulkTransactions]. *)
Fixpoint processBulkTransactions (cx : context) (batchID : string) (inflight skipQueue : bool) (i : Z)
    (txns : list Transaction) : M unit :=
  match txns with
  | [] => ret tt
  | t :: rest =>
      let t := {| t with t_Inflight := inflight; t_SkipQueue := skipQueue; t_ParentTransaction := batchID;
                  t_ParentKind := "group"; t_MetaData := md_set (t_MetaData t) "sequence" (JNum (f_of_Z (i + 1))) |} in
      let! _ := with_context ("failed to queue transactions[" +:+ itoa i +:+ "] (Reference: " +:+ t_Reference t
                  +:+ ", Source: " +:+ t_Source t +:+ ", Destination: " +:+ t_Destination t +:+ ", Amount: "
                  +:+ Sprintf_2f (t_Amount t) +:+ ")") (QueueTransaction 1 cx t) in
      processBulkTransactions cx batchID inflight skipQueue (i + 1) rest
  end.

(** [admitBulkPolicy]. *)
Fixpoint bulk_legs (txns : list Transaction) : M (list Transaction * list (list Transaction)) :=
  match txns with
  | [] => ret ([], [])
  | t :: rest =>
      let! _ := lift (ValidateAmount t) in
      let! t := setTransactionMetadata t in
      let! ts := if (length (t_Sources t) =? 0)%nat && (length (t_Destinations t) =? 0)%nat then ret (t, [])
                 else let! r := handleSplitTransactions t in
                      ret (r.1, updateSplitTransactions r.2 (t_TransactionID r.1) (t_Reference r.1)) in
      let! more := bulk_legs rest in
      ret (ts.1 :: more.1, ts.2 :: more.2)
  end.
(** A transaction without legs is its own leg; the admission writes its id and
    balances back to it. *)
Fixpoint write_back (txns : list Transaction) (groups : list (list Transaction)) (legs : list Transaction) : list Transaction :=
  match txns, groups with
  | t :: txns, [] :: groups => default t (head legs) :: write_back txns groups (tail legs)
  | t :: txns, g :: groups => t :: write_back txns groups (drop (length g) legs)
  | _, _ => []
  end.
Definition admitBulkPolicy (cx : context) (req : BulkTransactionRequest) : M (context * BulkTransactionRequest) :=
  let! p := effectiveKeyPolicy cx in
  match p with
  | None => ret (cx, req)
  | Some _ =>
      let! tg := bulk_legs (br_Transactions req) in
      let legs := mjoin (zip_with (fun t g => match g with [] => [t] | _ => g end) tg.1 tg.2) in
      let identity := "bulk:" +:+ sha_hex (json_refs (t_Reference <$> tg.1)) in
      let! r := admitPolicyTransactions cx identity legs in
      let txns := (Apply r.2) <$> write_back tg.1 tg.2 r.1 in
      let held := match r.2 with Some a => negb (String.eqb (pa_Decision a) "not_required") | None => false end in
      ret (Internal cx, {| req with br_Transactions := txns; br_Inflight := br_Inflight req || held |})
  end.

Fixpoint fail_bulk (txns : list Transaction) : M unit :=
  match txns with [] => ret tt | t :: rest => let! _ := failPolicyBulk t in fail_bulk rest end.

(** [CreateBulkTransactions], synchronous: the batch id and the status. *)
Definition CreateBulkTransactions (cx : context) (req : BulkTransactionRequest) : M (string * string) :=
  let! admitted := admitBulkPolicy cx req in
  let cx := admitted.1 in
  let req := admitted.2 in
  let! batchID := new_id "bulk" in
  let! r := try (processBulkTransactions cx batchID (br_Inflight req) (br_SkipQueue req) 0 (br_Transactions req)) in
  match r with
  | Ok _ =>
      let status := if br_Inflight req then "inflight"%string else "applied"%string in
      let pending := match br_Transactions req with
                     | t :: _ => match md_get (t_MetaData t) "policy_approval" with
                                Some (JStr s) => String.eqb s "pending" | _ => false end
                     | [] => false
                     end in
      ret (batchID, if pending then "pending_approval"%string else status)
  | Err e =>
      let! _ := fail_bulk (br_Transactions req) in
      let! suffix :=
        if br_Atomic req then
          let! rolled := rollback_with (QueueTransaction 1) cx batchID (br_Inflight req) in
          ret (match rolled.2 with
               | None => ". All transactions in this batch have been "
                         +:+ (if br_Inflight req then "voided" else "refunded") +:+ "."
               | Some _ => ". Failed to roll back all transactions"
               end)
        else ret ". Previous transactions were not rolled back."%string in
      fail (GoError (err_msg e +:+ suffix) (err_is e))
  end.
End Queue.
