(* ===== verification/Split.v ===== *)
(** * The legs of a split

    [SplitTransactionPrecise]: the transactions made from the distributions of
    a request carry its whole amount. *)
From stdpp Require Import base option list strings gmap.
From Stdlib Require Import ZArith Lia.
From S2P Require Import Prelude GoFloat Model Sha256 Decimal DecimalInstance Amount Distribution Store Lifecycle Engine Inflight Queue.
Close Scope Q_scope.
Open Scope Z_scope.

Section Split.
Context {Dops : DecimalOps} {Dlaws : DecimalLaws}.
Variable gen : string -> nat -> string.

(** The distributions a transaction is split over: its sources, else its
    destinations. *)
Definition split_side (t : Transaction) : list Model.Distribution :=
  if negb (length (t_Sources t) =? 0)%nat then t_Sources t else t_Destinations t.

(** The [n]-th leg, for distribution [d] with allocation [amount]. *)
Record is_leg (t : Transaction) (d : Model.Distribution) (n amount : Z) (leg : Transaction) : Prop := {
  leg_amount : t_PreciseAmount leg = Some amount;
  leg_parent : t_ParentTransaction leg = t_TransactionID t;
  leg_reference : t_Reference leg = t_Reference t +:+ "-" +:+ itoa n;
  leg_source : t_Source leg = if negb (length (t_Sources t) =? 0)%nat then d_Identifier d else t_Source t;
  leg_destination : t_Destination leg =
    if negb (length (t_Sources t) =? 0)%nat || (length (t_Destinations t) =? 0)%nat
    then t_Destination t else d_Identifier d;
  leg_simple : t_Sources leg = [] /\ t_Destinations leg = [];
  leg_same : t_Currency leg = t_Currency t /\ t_Precision leg = t_Precision t /\ t_Inflight leg = t_Inflight t /\
             t_Status leg = t_Status t /\ t_MetaData leg = t_MetaData t }.

(** What the loop keeps of the parent: all but the ids noted on its
    distributions. *)
Definition same_parent (t t' : Transaction) : Prop :=
  exists ss ds, length ss = length (t_Sources t) /\ length ds = length (t_Destinations t) /\
    t' = {| t with t_Sources := ss; t_Destinations := ds |}.

Lemma same_parent_refl t : same_parent t t.
Proof. exists (t_Sources t), (t_Destinations t). split_and!; [done|done|by destruct t]. Qed.
Lemma is_leg_parent t t' d n a leg : same_parent t t' -> is_leg t' d n a leg -> is_leg t d n a leg.
Proof. intros (ss & ds & E1 & E2 & ->) []. cbn in *. rewrite E1, E2 in *. by constructor. Qed.
Lemma same_parent_trans t t' t'' : same_parent t t' -> same_parent t' t'' -> same_parent t t''.
Proof.
  intros (ss & ds & E1 & E2 & ->) (ss' & ds' & E3 & E4 & ->). cbn in *. exists ss', ds'.
  split_and!; [congruence|congruence|done].
Qed.
Lemma note_leg_length identifier id ds : length (note_leg identifier id ds) = length ds.
Proof. apply length_fmap. Qed.

(** The state: only ids are drawn. *)
Definition only_ids (db db' : ledger_db) : Prop := exists n, db' = {| db with ld_ids := n |}.

(** One leg per distribution, in order. *)
Inductive legs_of (t : Transaction) (amounts : gmap string Z) : Z -> list Model.Distribution -> list Transaction -> Prop :=
| legs_nil n : legs_of t amounts n [] []
| legs_cons n d ds a leg legs : amounts !! d_Identifier d = Some a -> is_leg t d n a leg ->
    legs_of t amounts (n + 1) ds legs -> legs_of t amounts n (d :: ds) (leg :: legs).

Lemma legs_of_parent t t' amounts n ds legs : same_parent t t' -> legs_of t' amounts n ds legs -> legs_of t amounts n ds legs.
Proof. intros Hp. induction 1; econstructor; eauto using is_leg_parent. Qed.

Lemma split_legs_spec amounts ds : forall n t acc db db' t' legs,
  (forall d, d ∈ ds -> is_Some (amounts !! d_Identifier d)) ->
  split_legs gen amounts ds n t acc db = (db', Ok (t', legs)) ->
  exists new, legs = acc ++ new /\ legs_of t amounts n ds new /\ same_parent t t' /\ only_ids db db'.
Proof.
  induction ds as [|d ds IH]; intros n t acc db db' t' legs Hd H.
  - injection H as <- <- <-. exists []. rewrite app_nil_r.
    split_and!; [done|constructor|apply same_parent_refl|]. exists (ld_ids db). by destruct db.
  - cbn [split_legs] in H. destruct (Hd d ltac:(left)) as [a Ha]. rewrite Ha in H.
    unfold bind, new_id in H. cbv zeta in H. apply IH in H as (new & -> & Hl & Hp & k & ->); [|intros; apply Hd; by right].
    rewrite <- app_assoc. eexists. split; [done|].
    match type of Hl with legs_of ?u _ _ _ _ => assert (same_parent t u) as Hu end.
    { eexists _, _. split; [|split; [|reflexivity]]; repeat case_match; auto using note_leg_length. }
    split_and!; [|by eapply same_parent_trans|by exists k].
    econstructor; [done| |by eapply legs_of_parent].
    constructor; cbn; try done. destruct (length (t_Sources t) =? 0)%nat; [|done]. by destruct (length (t_Destinations t) =? 0)%nat.
Qed.

Lemma legs_of_sum t amounts n ds legs : legs_of t amounts n ds legs ->
  zsum_list (fun leg => default 0 (t_PreciseAmount leg)) legs =
  zsum_list (fun d => default 0 (amounts !! d_Identifier d)) ds.
Proof.
  induction 1 as [|n d ds a leg legs Ha Hleg _ IH]; [done|]. cbn. unfold zsum_list in IH.
  by rewrite Ha, (leg_amount _ _ _ _ _ Hleg), IH.
Qed.

Lemma sum_over_keys (m : gmap string Z) (l : list Model.Distribution) :
  NoDup (d_Identifier <$> l) -> dom m = list_to_set (d_Identifier <$> l) ->
  zsum_list (fun d => default 0 (m !! d_Identifier d)) l = zsum m.
Proof.
  revert m. induction l as [|d l IH]; intros m Hnd Hdom.
  - cbn in Hdom. apply dom_empty_inv_L in Hdom as ->. symmetry. exact zsum_empty.
  - rewrite fmap_cons in Hnd, Hdom. inversion_clear Hnd as [|? ? Hn Hnd'].
    assert (is_Some (m !! d_Identifier d)) as [a Ha] by (apply elem_of_dom; rewrite Hdom; set_solver).
    cbn. rewrite Ha. cbn. rewrite <- (insert_delete_id m (d_Identifier d) a Ha).
    rewrite zsum_insert_None by apply lookup_delete_eq. f_equal. rewrite <- IH.
    + unfold zsum_list. clear IH Hdom Hnd'. induction l as [|d' l IHl]; [done|]. cbn.
      rewrite fmap_cons in Hn. apply not_elem_of_cons in Hn as [Hne Hn]. rewrite IHl by done. f_equal.
      by rewrite insert_delete_id, lookup_delete_ne by done.
    + done.
    + rewrite dom_delete_L, Hdom. cbn. set_solver.
Qed.

(** C15: the legs of a split carry the whole transaction.  When
    [SplitTransactionPrecise] succeeds there is one leg for each distribution,
    in the order of the request, numbered from 1; each moves its non-negative
    allocation between the distribution's account and the other side, as a
    plain transaction under the parent; the amounts of the legs add up to the
    amount of the transaction; and nothing but fresh ids is taken from the
    store. *)
Theorem split_carries_the_amount (t t' : Transaction) (legs : list Transaction) (db db' : ledger_db) :
  SplitTransactionPrecise gen t db = (db', Ok (t', legs)) ->
  exists total amounts,
    t_PreciseAmount t = Some total /\
    legs_of t amounts 1 (split_side t) legs /\
    zsum_list (fun leg => default 0 (t_PreciseAmount leg)) legs = total /\
    (forall i a, amounts !! i = Some a -> 0 <= a) /\
    same_parent t t' /\ only_ids db db'.
Proof.
  unfold SplitTransactionPrecise, lift. cbv zeta. unfold bind at 1.
  destruct (ValidatePrecision (t_Precision t)) as [|e]; [|by intros [=]].
  destruct (_ || _); [by intros [=]|]. unfold bind. fold (split_side t).
  destruct (CalculateDistributionsPrecise _ _ _) as [amounts|e] eqn:E; [|by intros [=]]. intros H.
  destruct (t_PreciseAmount t) as [total|] eqn:Et; [|done].
  destruct (allocations_conserve _ _ _ _ E) as (Hsum & Hnn & Hdom & Hnd).
  apply split_legs_spec in H as (new & -> & Hl & Hp & Hids).
  - exists total, amounts. split_and!; try done. cbn [app]. rewrite (legs_of_sum _ _ _ _ _ Hl).
    by rewrite sum_over_keys.
  - intros d Hd. apply elem_of_dom. rewrite Hdom, elem_of_list_to_set. by apply list_elem_of_fmap_2.
Qed.
End Split.

Module SplitWitness.
Import LifecycleWitness.
#[local] Existing Instance DecimalInstance.dnum_ops.
#[local] Existing Instance DecimalInstance.dnum_laws.
Definition gen (suffix : string) (n : nat) : string := suffix +:+ "_" +:+ itoa (Z.of_nat n).

(** 10.01 over a third, two and what is left. *)
Definition shared : Transaction :=
  {| zero_transaction with t_TransactionID := "txn_p"; t_Reference := "r"; t_Source := "@till"; t_Currency := "USD";
     t_PreciseAmount := Some 1001; t_Precision := f_of_Z 100;
     t_Destinations := [ {| d_Identifier := "@a"; d_Distribution := "33.33%"; d_PreciseDistribution := ""; d_TransactionID := "" |};
                         {| d_Identifier := "@b"; d_Distribution := "2"; d_PreciseDistribution := ""; d_TransactionID := "" |};
                         {| d_Identifier := "@c"; d_Distribution := "left"; d_PreciseDistribution := ""; d_TransactionID := "" |} ] |}.
Definition split : ledger_db * result (Transaction * list Transaction) := SplitTransactionPrecise gen shared empty_db.
Definition parent : Transaction := match snd split with Ok r => r.1 | Err _ => shared end.
Definition legs : list Transaction := match snd split with Ok r => r.2 | Err _ => [] end.

Lemma split_carries_the_amount_witness :
  t_PreciseAmount <$> legs = [Some 333; Some 200; Some 468] /\ t_Destination <$> legs = ["@a"; "@b"; "@c"]%string /\
  exists amounts, legs_of shared amounts 1 (split_side shared) legs.
Proof.
  split; [vm_compute; reflexivity|]. split; [vm_compute; reflexivity|].
  assert (split = (fst split, Ok (parent, legs))) as E by (vm_compute; reflexivity).
  destruct (split_carries_the_amount gen shared parent legs empty_db (fst split) E) as (total & amounts & _ & H & _).
  exists amounts. exact H.
Defined.
End SplitWitness.
