(* ===== verification/Lineage.v ===== *)
(** * Fund lineage

    [internal/core/lineage_*.go] and [database/lineage.go]: which provider's
    money a balance holds.  Each provider of a tracked balance has a shadow
    balance; credits and debits of the tracked balance are repeated, by a worker
    that drains an outbox, as transactions between the shadow and an aggregate
    balance.  A debit is allocated over the providers by a strategy.  The outbox
    is kept in insertion order, which is the order of [created_at]. *)
From stdpp Require Import base option list strings gmap sorting.
From Stdlib Require Import ZArith Lia Ascii.
From S2P Require Import Prelude GoFloat Model Sha256 Decimal Amount Balance Distribution Policy PolicyStore Store Engine Inflight Queue.
Close Scope Q_scope.
Open Scope Z_scope.
Open Scope engine_scope.

(** ** Allocation ([lineage_allocation.go]) *)

Record LineageSource := { ls_BalanceID : string; ls_Balance : Z; ls_CreatedAt : Z }.
Record Allocation := { al_BalanceID : string; al_Amount : Z }.

(** [sequentialAllocation]. *)
Fixpoint take_from (remaining : Z) (sources : list LineageSource) : list Allocation :=
  match sources with
  | [] => []
  | source :: rest =>
      if remaining <=? 0 then []
      else
        let alloc := if remaining <=? ls_Balance source then remaining else ls_Balance source in
        if alloc <=? 0 then take_from remaining rest
        else {| al_BalanceID := ls_BalanceID source; al_Amount := alloc |} :: take_from (remaining - alloc) rest
  end.
Definition sequentialAllocation (sources : list LineageSource) (amount : Z) : list Allocation :=
  if amount <=? 0 then [] else take_from amount sources.

(** [proportionalAllocation]. *)
Fixpoint share_out (effectiveAmount total remaining : Z) (sources : list LineageSource) : list Allocation :=
  match sources with
  | [] => []
  | source :: rest =>
      let alloc := match rest with
                   | [] => remaining
                   | _ => (effectiveAmount * ls_Balance source) / total
                   end in
      let alloc := if ls_Balance source <? alloc then ls_Balance source else alloc in
      if alloc <=? 0 then share_out effectiveAmount total remaining rest
      else {| al_BalanceID := ls_BalanceID source; al_Amount := alloc |}
           :: share_out effectiveAmount total (remaining - alloc) rest
  end.
Definition proportionalAllocation (sources : list LineageSource) (amount : Z) : list Allocation :=
  if amount <=? 0 then []
  else
    let total := zsum_list ls_Balance sources in
    if total =? 0 then []
    else
      let effectiveAmount := if total <? amount then total else amount in
      share_out effectiveAmount total effectiveAmount sources.

(** [calculateAllocation]; [sort.Slice] on equal times may permute, here they
    keep their order. *)
Definition earlier (a b : LineageSource) : Prop := ls_CreatedAt a <= ls_CreatedAt b.
#[export] Instance earlier_dec : RelDecision earlier.
Proof. intros a b. unfold earlier. apply _. Defined.
Definition later (a b : LineageSource) : Prop := ls_CreatedAt b <= ls_CreatedAt a.
#[export] Instance later_dec : RelDecision later.
Proof. intros a b. unfold later. apply _. Defined.
Definition calculateAllocation (sources : list LineageSource) (amount : Z) (strategy : string) : list Allocation :=
  match sources with
  | [] => []
  | _ =>
      if String.eqb strategy "LIFO" then sequentialAllocation (merge_sort later sources) amount
      else if String.eqb strategy "PROPORTIONAL" then proportionalAllocation sources amount
      else sequentialAllocation (merge_sort earlier sources) amount
  end.

(** [findMappingByShadowID]. *)
Definition findMappingByShadowID (mappings : list LineageMapping) (shadowBalanceID : string) : option LineageMapping :=
  find (fun m => String.eqb (lm_ShadowBalanceID m) shadowBalanceID) mappings.

(** [getLineageSources]; [GetBalancesByIDsLite] is the map of the rows found. *)
Definition getLineageSources (db : ledger_db) (mappings : list LineageMapping) : list LineageSource :=
  mappings ≫= fun mapping =>
    match GetBalanceByIDLite db (lm_ShadowBalanceID mapping) with
    | Err _ => []
    | Ok b =>
        match b_DebitBalance b, b_CreditBalance b with
        | Some debit, Some credit =>
            if 0 <? debit then
              if 0 <? debit - credit
              then [{| ls_BalanceID := lm_ShadowBalanceID mapping; ls_Balance := debit - credit;
                       ls_CreatedAt := lm_CreatedAt mapping |}]
              else []
            else []
        | _, _ => []
        end
    end.

(** ** The lineage tables ([database/lineage.go]) *)

(** [UpsertLineageMapping], with the foreign keys of migration 1769343506. *)
Definition upsert_mapping (m : LineageMapping) : list LineageMapping -> list LineageMapping :=
  fix go l :=
    match l with
    | [] => [m]
    | m' :: rest =>
        if String.eqb (lm_BalanceID m') (lm_BalanceID m) && String.eqb (lm_Provider m') (lm_Provider m)
        then {| m' with lm_ShadowBalanceID := lm_ShadowBalanceID m; lm_AggregateBalanceID := lm_AggregateBalanceID m |}
             :: rest
        else m' :: go rest
    end.
Definition UpsertLineageMapping (now : Z) (db : ledger_db) (m : LineageMapping) : result ledger_db :=
  let exists_balance id := match ld_balances db !! id with Some _ => true | None => false end in
  if exists_balance (lm_BalanceID m) && exists_balance (lm_ShadowBalanceID m) && exists_balance (lm_AggregateBalanceID m)
     && match ld_identities db !! lm_IdentityID m with Some _ => true | None => false end
  then Ok {| db with ld_mappings := upsert_mapping {| m with lm_CreatedAt := now |} (ld_mappings db) |}
  else Err (NewAPIError "BAD_REQUEST" "Invalid balance or identity ID" None).

(** [GetLineageMappings] and [GetLineageMappingByProvider]. *)
Definition mapped_before (a b : LineageMapping) : Prop := lm_CreatedAt a <= lm_CreatedAt b.
#[export] Instance mapped_before_dec : RelDecision mapped_before.
Proof. intros a b. unfold mapped_before. apply _. Defined.
Definition GetLineageMappings (db : ledger_db) (balanceID : string) : list LineageMapping :=
  merge_sort mapped_before (filter (fun m => lm_BalanceID m = balanceID) (ld_mappings db)).
Definition GetLineageMappingByProvider (db : ledger_db) (balanceID provider : string) : option LineageMapping :=
  find (fun m => String.eqb (lm_BalanceID m) balanceID && String.eqb (lm_Provider m) provider) (ld_mappings db).

(** [ClaimPendingOutboxEntries]. *)
Definition claimable (now : Z) (e : LineageOutbox) : bool :=
  (String.eqb (lo_Status e) "pending" || String.eqb (lo_Status e) "processing")
  && match lo_LockedUntil e with None => true | Some u => u <? now end
  && (lo_Attempts e <? lo_MaxAttempts e).
Definition claim (until : Z) (e : LineageOutbox) : LineageOutbox :=
  {| e with lo_Status := "processing"; lo_LockedUntil := Some until |}.
Fixpoint claim_first (now until : Z) (n : nat) (l : list LineageOutbox) : list LineageOutbox * list LineageOutbox :=
  match l with
  | [] => ([], [])
  | e :: rest =>
      match n with
      | O => (l, [])
      | S n' =>
          if claimable now e
          then let r := claim_first now until n' rest in (claim until e :: r.1, claim until e :: r.2)
          else let r := claim_first now until n rest in (e :: r.1, r.2)
      end
  end.
Definition ClaimPendingOutboxEntries (now : Z) (batchSize : nat) (lockDuration : Z) (db : ledger_db)
    : ledger_db * list LineageOutbox :=
  let r := claim_first now (now + lockDuration) batchSize (ld_outbox db) in
  ({| db with ld_outbox := r.1 |}, r.2).

(** [MarkOutboxCompleted] and [MarkOutboxFailed]. *)
Definition update_entry (id : Z) (f : LineageOutbox -> LineageOutbox) (db : ledger_db) : ledger_db :=
  {| db with ld_outbox := (fun e => if lo_ID e =? id then f e else e) <$> ld_outbox db |}.
Definition completed (e : LineageOutbox) : LineageOutbox :=
  {| e with lo_Status := "completed"; lo_LockedUntil := None |}.
Definition failed (errMsg : string) (e : LineageOutbox) : LineageOutbox :=
  {| e with lo_Status := if lo_MaxAttempts e <=? lo_Attempts e + 1 then "failed"%string else "pending"%string;
     lo_Attempts := lo_Attempts e + 1; lo_LastError := errMsg; lo_LockedUntil := None |}.
Definition MarkOutboxCompleted (id : Z) (db : ledger_db) : ledger_db := update_entry id completed db.
Definition MarkOutboxFailed (id : Z) (errMsg : string) (db : ledger_db) : ledger_db := update_entry id (failed errMsg) db.

(** [HasPendingCreditOutbox]. *)
Definition HasPendingCreditOutbox (db : ledger_db) (balanceID : string) : bool :=
  existsb (fun e => String.eqb (lo_DestinationBalanceID e) balanceID
                    && (String.eqb (lo_LineageType e) "credit" || String.eqb (lo_LineageType e) "both")
                    && (String.eqb (lo_Status e) "pending" || String.eqb (lo_Status e) "processing")) (ld_outbox db).

(** [GetIdentityByID]. *)
Definition GetIdentityByID (db : ledger_db) (id : string) : result Identity :=
  match ld_identities db !! id with
  | Some i => Ok i
  | None => Err (NewAPIError ErrNotFound ("Identity with ID '" +:+ id +:+ "' not found") None)
  end.

(** [UpdateTransactionMetadata]: merged into the row and its children. *)
Definition UpdateTransactionMetadata (id : string) (md : gmap string json) (db : ledger_db) : ledger_db :=
  {| db with ld_txns := (fun r => if String.eqb (x_id r) id || String.eqb (x_parent r) id
                                  then {| r with x_meta := Some (md ∪ default ∅ (x_meta r)) |} else r) <$> ld_txns db |}.

(** [GetTransactionByRef]: lineage reads its amount. *)
Definition GetTransactionByRef (numeric_float : string -> float64) (db : ledger_db) (reference : string) : result Transaction :=
  match find (fun r => String.eqb (x_reference r) reference) (ld_txns db) with
  | None => Err (NewAPIError ErrNotFound ("Transaction with reference '" +:+ reference +:+ "' not found") None)
  | Some r =>
      let t := scan_transaction numeric_float r in
      Ok {| t with t_Hash := ""; t_EffectiveDate := x_effective_date r; t_Rate := x_rate r;
            t_OverdraftLimit := x_overdraft_limit r; t_QueueAction := x_queue_action r |}
  end.

(** ** Names *)

(** [strings.ReplaceAll(s, " ", "_")]. *)
Fixpoint spaces_to_underscores (s : string) : string :=
  match s with
  | EmptyString => EmptyString
  | String c r => String (if Ascii.eqb c " " then "_"%char else c) (spaces_to_underscores r)
  end.

(** [getIdentityIdentifier]. *)
Definition getIdentityIdentifier (i : Identity) : string :=
  let with_id namePart := namePart +:+ "_" +:+ String.substring 0 8 (id_IdentityID i) in
  if negb (String.eqb (id_FirstName i) "") && negb (String.eqb (id_LastName i) "")
  then with_id (ToLower (id_FirstName i +:+ "_" +:+ id_LastName i))
  else if negb (String.eqb (id_OrganizationName i) "")
  then with_id (ToLower (spaces_to_underscores (id_OrganizationName i)))
  else id_IdentityID i.

(** [releaseReference] and [receiveReference]. *)
Definition releaseReference (parentRef provider : string) : string := parentRef +:+ "_release_" +:+ provider.
Definition receiveReference (parentRef provider : string) : string := parentRef +:+ "_receive_" +:+ provider.

(** [buildFundAllocationList]; a JSON number is read back as a [float64]. *)
Definition buildFundAllocationList (allocations : list Allocation) (mappings : list LineageMapping) : list json :=
  allocations ≫= fun alloc =>
    match findMappingByShadowID mappings (al_BalanceID alloc) with
    | None => []
    | Some m => [JObj [("provider"%string, JStr (lm_Provider m)); ("amount"%string, JNum (f_of_Z (al_Amount alloc)))]]
    end.

Section Lineage.
Context {Dops : DecimalOps}.
Variable numeric_float : string -> float64.
Variable GenerateUUIDWithSuffix : string -> nat -> string.
Variable pre_hooks : Transaction -> result unit.
Variable acquire : list string -> result unit.
Variable EnableQueuedChecks : bool.
Variable now : Z.
Variable GetTransactionFromQueue : string -> result (option Transaction).
Variable enqueue : Transaction -> result unit.
(** [QueueTransaction] in the context of the worker. *)
Variable queue : Transaction -> M Transaction.

#[local] Notation indicated := (getOrCreateBalanceByIndicator GenerateUUIDWithSuffix EnableQueuedChecks now).

(** The shadow and the aggregate balance of an identity for a provider:
    [getOrCreateLineageBalances] and [getOrCreateDestinationLineageBalances],
    which differ in their messages. *)
Definition lineage_balances (msg_identity msg_shadow msg_aggregate : string) (identityID provider currency : string)
    : M (Balance * Balance) :=
  let! identity := with_context msg_identity (reads (fun db => GetIdentityByID db identityID)) in
  let identifier := getIdentityIdentifier identity in
  let! shadow := with_context msg_shadow (indicated ("@" +:+ provider +:+ "_" +:+ identifier +:+ "_lineage") currency) in
  let! aggregate := with_context msg_aggregate (indicated ("@" +:+ identifier +:+ "_lineage") currency) in
  ret (shadow, aggregate).
Definition getOrCreateLineageBalances (identityID provider currency : string) : M (Balance * Balance) :=
  lineage_balances ("failed to get identity " +:+ identityID) "failed to get/create shadow balance"
    "failed to get/create aggregate balance" identityID provider currency.
Definition getOrCreateDestinationLineageBalances (provider : string) (destination : Balance) : M (Balance * Balance) :=
  lineage_balances "failed to get destination identity" "failed to create destination shadow balance"
    "failed to create destination aggregate balance" (b_IdentityID destination) provider (b_Currency destination).

(** [acquireLineageLocks]. *)
Definition acquireLineageLocks (balanceIDs : list string) : M unit :=
  with_context "failed to acquire lineage locks" (lift (acquire ((fun id => "lineage:" +:+ id) <$> balanceIDs))).

Definition upsert (m : LineageMapping) : M unit :=
  atomically (fun db => let* db' := UpsertLineageMapping now db m in Ok (db', tt)).

(** The fields every shadow transaction takes over from its parent. *)
Definition shadow_txn (t : Transaction) (source destination : string) (amount : option Z) (currency reference description : string)
    (md : list (string * json)) (overdraft : bool) : Transaction :=
  {| zero_transaction with t_Source := source; t_Destination := destination; t_PreciseAmount := amount;
     t_Currency := currency; t_Precision := t_Precision t; t_Reference := reference; t_Description := description;
     t_ShadowFor := t_TransactionID t;
     t_MetaData := Some (list_to_map (("_shadow_for"%string, JStr (t_TransactionID t)) :: md));
     t_AllowOverdraft := overdraft; t_SkipQueue := true; t_Inflight := t_Inflight t |}.

(** [queueShadowCreditTransaction]. *)
Definition queueShadowCreditTransaction (t : Transaction) (dest : Balance) (provider : string) (shadow aggregate : Balance)
    (identityID : string) : M unit :=
  let s := shadow_txn t (b_BalanceID shadow) (b_BalanceID aggregate) (t_PreciseAmount t) (b_Currency dest)
    (t_Reference t +:+ "_shadow_" +:+ provider) ("Shadow credit from " +:+ provider)
    [("_provider"%string, JStr provider); ("_identity_id"%string, JStr identityID);
     ("_lineage_type"%string, JStr "credit"); ("_main_balance"%string, JStr (b_BalanceID dest))] true in
  let! _ := with_context "failed to queue shadow credit transaction" (queue {| s with t_Amount := t_Amount t |}) in
  ret tt.

(** [processLineageCredit]; a failed mapping is only logged. *)
Definition processLineageCredit (t : Transaction) (dest : Balance) (provider : string) : M unit :=
  if String.eqb (b_IdentityID dest) ""
  then fail (errors_New ("destination balance " +:+ b_BalanceID dest +:+ " has no identity_id for lineage tracking"))
  else
    let! sa := getOrCreateLineageBalances (b_IdentityID dest) provider (t_Currency t) in
    let! _ := acquireLineageLocks [b_BalanceID sa.1; b_BalanceID sa.2] in
    let! _ := queueShadowCreditTransaction t dest provider sa.1 sa.2 (b_IdentityID dest) in
    let! _ := try (with_context "failed to upsert lineage mapping"
      (upsert {| lm_BalanceID := b_BalanceID dest; lm_Provider := provider; lm_ShadowBalanceID := b_BalanceID sa.1;
                 lm_AggregateBalanceID := b_BalanceID sa.2; lm_IdentityID := b_IdentityID dest; lm_CreatedAt := 0 |})) in
    ret tt.

(** [remainingDebitAmount]. *)
Fixpoint released (t : Transaction) (mappings : list LineageMapping) : M Z :=
  match mappings with
  | [] => ret 0
  | m :: rest =>
      let ref := releaseReference (t_Reference t) (lm_Provider m) in
      let! n := reads (fun db =>
        if TransactionExistsByRef db ref then
          match GetTransactionByRef numeric_float db ref with
          | Ok prior => Ok (default 0 (t_PreciseAmount prior))
          | Err e => Err (wrap ("failed to load prior release " +:+ ref +:+ ": ") e)
          end
        else Ok 0) in
      let! more := released t rest in
      ret (n + more)
  end.
Definition remainingDebitAmount (t : Transaction) (mappings : list LineageMapping) : M Z :=
  let! n := released t mappings in ret (default 0 (t_PreciseAmount t) - n).

(** [prepareDestinationLineageBalances]: the pair of each provider. *)
Fixpoint prepareDestinationLineageBalances (mappings : list LineageMapping) (destination : Balance)
    : M (gmap string (Balance * Balance)) :=
  match mappings with
  | [] => ret ∅
  | m :: rest =>
      let! sa := with_context ("failed to prepare destination lineage for provider " +:+ lm_Provider m)
                   (getOrCreateDestinationLineageBalances (lm_Provider m) destination) in
      let! more := prepareDestinationLineageBalances rest destination in
      ret (match more !! lm_Provider m with Some _ => more | None => <[lm_Provider m := sa]> more end)
  end.

(** [getSourceAggregateBalance]. *)
Definition getSourceAggregateBalance (source : Balance) : M Balance :=
  let! identity := with_context "failed to get source identity" (reads (fun db => GetIdentityByID db (b_IdentityID source))) in
  with_context "failed to get source aggregate balance"
    (indicated ("@" +:+ getIdentityIdentifier identity +:+ "_lineage") (b_Currency source)).

(** [queueReleaseTransaction]. *)
Definition queueReleaseTransaction (t : Transaction) (alloc : Allocation) (m : LineageMapping) (source sourceAgg : Balance) : M unit :=
  let! _ := queue (shadow_txn t (b_BalanceID sourceAgg) (al_BalanceID alloc) (Some (al_Amount alloc)) (b_Currency source)
    (releaseReference (t_Reference t) (lm_Provider m)) ("Release " +:+ lm_Provider m +:+ " funds")
    [("_provider"%string, JStr (lm_Provider m)); ("_lineage_type"%string, JStr "release");
     ("_main_balance"%string, JStr (b_BalanceID source)); ("_allocation"%string, JStr (b_AllocationStrategy source))] false) in
  ret tt.

(** [queueReceiveTransaction]. *)
Definition queueReceiveTransaction (t : Transaction) (alloc : Allocation) (m : LineageMapping)
    (source destination shadow aggregate : Balance) : M unit :=
  let! _ := queue (shadow_txn t (b_BalanceID shadow) (b_BalanceID aggregate) (Some (al_Amount alloc)) (b_Currency destination)
    (receiveReference (t_Reference t) (lm_Provider m)) ("Receive " +:+ lm_Provider m +:+ " funds")
    [("_provider"%string, JStr (lm_Provider m)); ("_lineage_type"%string, JStr "receive");
     ("_main_balance"%string, JStr (b_BalanceID destination)); ("_from_balance"%string, JStr (b_BalanceID source))] true) in
  ret tt.

(** A balance that tracks lineage and belongs to an identity. *)
Definition tracked (b : option Balance) : option Balance :=
  match b with
  | Some b => if b_TrackFundLineage b && negb (String.eqb (b_IdentityID b) "") then Some b else None
  | None => None
  end.

(** [processDestinationLineage]. *)
Definition processDestinationLineage (t : Transaction) (alloc : Allocation) (m : LineageMapping) (source : Balance)
    (destination : option Balance) (prepared : gmap string (Balance * Balance)) : M unit :=
  match tracked destination, prepared !! lm_Provider m with
  | Some dest, Some sa =>
      let! _ := with_context "failed to queue receive transaction" (queueReceiveTransaction t alloc m source dest sa.1 sa.2) in
      with_context "failed to upsert destination lineage mapping"
        (upsert {| lm_BalanceID := b_BalanceID dest; lm_Provider := lm_Provider m; lm_ShadowBalanceID := b_BalanceID sa.1;
                   lm_AggregateBalanceID := b_BalanceID sa.2; lm_IdentityID := b_IdentityID dest; lm_CreatedAt := 0 |})
  | _, _ => ret tt
  end.

(** [processAllocations]. *)
Fixpoint processAllocations (t : Transaction) (mappings : list LineageMapping) (source : Balance) (destination : option Balance)
    (sourceAgg : Balance) (prepared : gmap string (Balance * Balance)) (allocations : list Allocation) : M unit :=
  match allocations with
  | [] => ret tt
  | alloc :: rest =>
      let! _ :=
        match (if al_Amount alloc =? 0 then None else findMappingByShadowID mappings (al_BalanceID alloc)) with
        | None => ret tt
        | Some m =>
            let! exists_ref := reads (fun db => Ok (TransactionExistsByRef db (releaseReference (t_Reference t) (lm_Provider m)))) in
            if exists_ref then ret tt
            else
              let! _ := with_context "failed to queue release transaction" (queueReleaseTransaction t alloc m source sourceAgg) in
              with_context "failed to process destination lineage"
                (processDestinationLineage t alloc m source destination prepared)
        end in
      processAllocations t mappings source destination sourceAgg prepared rest
  end.

(** [updateFundAllocationMetadata]; its error is only logged. *)
Definition updateFundAllocationMetadata (t : Transaction) (allocations : list Allocation) (mappings : list LineageMapping) : M unit :=
  match buildFundAllocationList allocations mappings with
  | [] => ret tt
  | l => fun db => (UpdateTransactionMetadata (t_TransactionID t) {["LEDGERFORGE_FUND_ALLOCATION"%string := JArr l]} db, Ok tt)
  end.

(** [processLineageDebit]. *)
Definition processLineageDebit (t : Transaction) (source : Balance) (destination : option Balance) : M unit :=
  let! mappings := reads (fun db => Ok (GetLineageMappings db (b_BalanceID source))) in
  match mappings with
  | [] =>
      let! pending := reads (fun db => Ok (HasPendingCreditOutbox db (b_BalanceID source))) in
      if pending then fail (errors_New ("pending credit outbox entries exist for balance " +:+ b_BalanceID source
                                        +:+ ", retry later"))
      else ret tt
  | m0 :: _ =>
      let! prepared :=
        match tracked destination with
        | None => ret ∅
        | Some dest =>
            let! r := try (prepareDestinationLineageBalances mappings dest) in
            ret (match r with Ok p => p | Err _ => ∅ end)
        end in
      let keys := (lm_ShadowBalanceID <$> mappings) ++ [lm_AggregateBalanceID m0]
                  ++ ((map_to_list prepared).*2 ≫= fun sa => [b_BalanceID sa.1; b_BalanceID sa.2]) in
      let! _ := acquireLineageLocks keys in
      let! sources := reads (fun db => Ok (getLineageSources db mappings)) in
      let! remaining := remainingDebitAmount t mappings in
      if remaining <=? 0 then ret tt
      else
        let allocations := calculateAllocation sources remaining (b_AllocationStrategy source) in
        let! sourceAgg := getSourceAggregateBalance source in
        let! _ := processAllocations t mappings source destination sourceAgg prepared allocations in
        updateFundAllocationMetadata t allocations mappings
  end.

(** [validateLineageProvider]. *)
Definition validateLineageProvider (provider : string) (source : option Balance) : M string :=
  if String.eqb provider "" then ret ""%string
  else match source with
       | Some b =>
           if b_TrackFundLineage b then
             let! m := reads (fun db => Ok (GetLineageMappingByProvider db (b_BalanceID b) provider)) in
             ret (match m with Some _ => provider | None => ""%string end)
           else ret provider
       | None => ret provider
       end.

(** [processLineage]: the credit, then the debit. *)
Definition processLineage (t : Transaction) (source destination : option Balance) : M unit :=
  let! provider := with_context "lineage provider validation failed" (validateLineageProvider (getLineageProvider t) source) in
  let! _ := match destination with
            | Some dest =>
                if negb (String.eqb provider "") && b_TrackFundLineage dest
                then with_context "lineage credit processing failed" (processLineageCredit t dest provider) else ret tt
            | None => ret tt
            end in
  match source with
  | Some src =>
      if b_TrackFundLineage src
      then with_context "lineage debit processing failed" (processLineageDebit t src destination) else ret tt
  | None => ret tt
  end.

(** [ProcessLineageFromOutbox]; a shadow is not a hold with shadows of its own,
    so a fuel of one is enough for its settlement. *)
Definition ProcessLineageFromOutbox (entry : LineageOutbox) : M unit :=
  let shadow verb act :=
    match lo_Payload entry with
    | ShadowPayload parent =>
        if String.eqb parent "" then fail (errors_New "parent_transaction_id missing in shadow work payload")
        else with_context ("failed to " +:+ verb +:+ " shadow transactions") (process_shadows verb act parent)
    | LineagePayload _ => fail (errors_New "parent_transaction_id missing in shadow work payload")
    end in
  if String.eqb (lo_LineageType entry) "shadow_commit" then
    shadow "commit"%string (fun s n => commit_inflight numeric_float GenerateUUIDWithSuffix pre_hooks acquire EnableQueuedChecks
      now GetTransactionFromQueue enqueue 1 false s (Some n) "")
  else if String.eqb (lo_LineageType entry) "shadow_void" then
    shadow "void"%string (fun s _ => void_inflight numeric_float GenerateUUIDWithSuffix pre_hooks acquire EnableQueuedChecks
      now GetTransactionFromQueue 1 s "")
  else
    let! t := with_context "failed to get transaction" (reads (fun db => GetTransaction numeric_float db (lo_TransactionID entry))) in
    let t := {| t with t_Inflight := lo_Inflight entry |} in
    let fetch id := if String.eqb id "" then ret None
                    else let! r := try (reads (fun db => GetBalanceByIDLite db id)) in
                         ret (match r with Ok b => Some b | Err _ => None end) in
    let! source := fetch (lo_SourceBalanceID entry) in
    let! destination := fetch (lo_DestinationBalanceID entry) in
    processLineage t source destination.

(** [processBatch] of the worker. *)
Fixpoint process_entries (entries : list LineageOutbox) (db : ledger_db) : ledger_db :=
  match entries with
  | [] => db
  | e :: rest =>
      let r := ProcessLineageFromOutbox e db in
      process_entries rest
        (match snd r with
         | Ok _ => MarkOutboxCompleted (lo_ID e) (fst r)
         | Err err => MarkOutboxFailed (lo_ID e) (err_msg err) (fst r)
         end)
  end.
Definition processBatch (batchSize : nat) (lockDuration : Z) (db : ledger_db) : ledger_db :=
  let r := ClaimPendingOutboxEntries now batchSize lockDuration db in process_entries r.2 r.1.

(** ** Queries ([lineage_queries.go]) *)

Record ProviderBreakdown := {
  pb_Provider : string; pb_Amount : Z; pb_Available : Z; pb_Spent : Z; pb_BalanceID : string }.
Record BalanceLineage := {
  bl_BalanceID : string; bl_TotalWithLineage : Z; bl_AggregateBalanceID : string; bl_Providers : list ProviderBreakdown }.

(** [calculateProviderBreakdown]. *)
Definition calculateProviderBreakdown (db : ledger_db) (m : LineageMapping) : result ProviderBreakdown :=
  let* shadow := GetBalanceByIDLite db (lm_ShadowBalanceID m) in
  let debit := default 0 (b_DebitBalance shadow) in
  let credit := default 0 (b_CreditBalance shadow) in
  Ok {| pb_Provider := lm_Provider m; pb_Amount := debit; pb_Available := debit - credit; pb_Spent := credit;
        pb_BalanceID := lm_ShadowBalanceID m |}.

(** [GetBalanceLineage]. *)
Definition GetBalanceLineage (db : ledger_db) (balanceID : string) : result BalanceLineage :=
  match GetBalanceByID db balanceID false with
  | Err e => Err (wrap "failed to get balance: " e)
  | Ok b =>
      if negb (b_TrackFundLineage b)
      then Err (errors_New ("balance " +:+ balanceID +:+ " does not have fund lineage tracking enabled"))
      else
        let add l m :=
          match calculateProviderBreakdown db m with
          | Err _ => l
          | Ok p => {| bl_BalanceID := bl_BalanceID l; bl_TotalWithLineage := bl_TotalWithLineage l + pb_Available p;
                       bl_AggregateBalanceID := if String.eqb (bl_AggregateBalanceID l) "" then lm_AggregateBalanceID m
                                                else bl_AggregateBalanceID l;
                       bl_Providers := bl_Providers l ++ [p] |}
          end in
        Ok (foldl add {| bl_BalanceID := balanceID; bl_TotalWithLineage := 0; bl_AggregateBalanceID := ""; bl_Providers := [] |}
              (GetLineageMappings db balanceID))
  end.
End Lineage.

(** ** What an allocation does *)

(** An allocation draws on a source. *)
Definition draws (s : LineageSource) (a : Allocation) : Prop :=
  al_BalanceID a = ls_BalanceID s /\ 0 < al_Amount a <= ls_Balance s.
Definition funded (sources : list LineageSource) : Prop := Forall (fun s => 0 < ls_Balance s) sources.

#[local] Notation allocated := (zsum_list al_Amount).
#[local] Notation available := (zsum_list ls_Balance).

Lemma zsum_list_cons {A} (f : A -> Z) a l : zsum_list f (a :: l) = f a + zsum_list f l.
Proof. done. Qed.

Lemma available_nonneg sources : funded sources -> 0 <= available sources.
Proof.
  intros H. apply zsum_list_nonneg. intros s Hs. unfold funded in H. rewrite Forall_forall in H. apply H in Hs. lia.
Qed.

(** The sources are used up one after another. *)
Record in_order (sources used : list LineageSource) (allocs : list Allocation) : Prop := {
  io_prefix : used `prefix_of` sources;
  io_draws : Forall2 draws used allocs;
  io_exhausted : forall i s a, used !! i = Some s -> allocs !! i = Some a -> (S i < length allocs)%nat ->
    al_Amount a = ls_Balance s }.

Lemma take_from_spec sources : forall remaining, funded sources -> 0 <= remaining ->
  exists used, in_order sources used (take_from remaining sources) /\
    allocated (take_from remaining sources) = Z.min remaining (available sources).
Proof.
  induction sources as [|s rest IH]; intros r Hf Hr.
  - exists []. split; [by split; [|constructor|]|]. cbn. lia.
  - inversion_clear Hf as [|? ? Hs Hrest]. pose proof (available_nonneg _ Hrest) as Ha. cbn [take_from].
    rewrite zsum_list_cons. destruct (Z.leb_spec r 0).
    { exists []. split; [split; [apply prefix_nil|constructor|done]|]. cbn. lia. }
    set (alloc := if r <=? ls_Balance s then r else ls_Balance s).
    assert (0 < alloc <= ls_Balance s /\ alloc <= r /\ (alloc < r -> alloc = ls_Balance s)) as (H1 & H2 & H3)
      by (unfold alloc; destruct (Z.leb_spec r (ls_Balance s)); lia).
    destruct (Z.leb_spec alloc 0); [lia|].
    destruct (IH (r - alloc) Hrest ltac:(lia)) as (used & [P1 P2 P3] & Hsum).
    exists (s :: used). split; [split|].
    + by apply prefix_cons.
    + constructor; [done|exact P2].
    + intros [|i] s' a Hs' Ha' Hi; cbn in Hs', Ha', Hi; [|eapply P3; eauto; lia].
      injection Hs' as <-. injection Ha' as <-. cbn. apply H3. destruct (decide (alloc = r)) as [E|]; [|lia].
      rewrite E, Z.sub_diag in Hi. destruct rest; cbn in Hi; lia.
    + rewrite zsum_list_cons, Hsum. cbn [al_Amount]. lia.
Qed.

(** Shares: what is left over stays below the number of sources shared out. *)
Lemma share_out_spec E T sources : 0 < T -> 0 <= E <= T -> forall remaining j, sources <> [] -> funded sources ->
  0 <= j -> E * available sources <= T * remaining <= E * available sources + j * (T - 1) ->
  exists used, used `sublist_of` sources /\ Forall2 draws used (share_out E T remaining sources) /\
    allocated (share_out E T remaining sources) <= remaining /\
    remaining - allocated (share_out E T remaining sources) <= Z.max 0 (j + Z.of_nat (length sources) - 2).
Proof.
  intros HT HE. induction sources as [|s rest IH]; intros r j Hne Hf Hj Hr; [done|].
  inversion_clear Hf as [|? ? Hs Hrest]. rewrite zsum_list_cons in Hr. cbn [share_out].
  destruct rest as [|s2 rest].
  - cbn in Hr |- *. assert (0 <= r) by nia.
    destruct (Z.ltb_spec (ls_Balance s) r) as [Hlt|Hge].
    + destruct (Z.leb_spec (ls_Balance s) 0); [lia|]. exists [s]. cbn.
      split; [done|]. split; [by repeat constructor; cbn; lia|]. assert (r - ls_Balance s < j) by nia. lia.
    + destruct (Z.leb_spec r 0).
      * exists []. cbn. split; [by constructor|]. split; [constructor|]. lia.
      * exists [s]. cbn. split; [done|]. split; [by repeat constructor; cbn; lia|]. lia.
  - set (alloc := E * ls_Balance s / T).
    assert (T * alloc <= E * ls_Balance s < T * alloc + T) as Ha.
    { unfold alloc. pose proof (Z.mul_div_le (E * ls_Balance s) T HT).
      pose proof (Z.mul_succ_div_gt (E * ls_Balance s) T HT). lia. }
    assert (0 <= alloc <= ls_Balance s) as Hb by nia.
    destruct (Z.ltb_spec (ls_Balance s) alloc); [lia|].
    destruct (IH (r - alloc) (j + 1)) as (used & H1 & H2 & H3 & H4); [done|done|lia|nia|].
    assert (j + 1 + Z.of_nat (length (s2 :: rest)) - 2 = j + Z.of_nat (length (s :: s2 :: rest)) - 2) as El by (cbn; lia).
    rewrite El in H4. clear IH El. destruct (Z.leb_spec alloc 0) as [H0|H0].
    + replace alloc with 0 in * by lia. rewrite Z.sub_0_r in *. exists used. split; [by constructor|]. done.
    + exists (s :: used). split; [by constructor|]. split; [constructor; [done|exact H2]|].
      rewrite zsum_list_cons. cbn [al_Amount]. revert H3 H4. generalize (share_out E T (r - alloc) (s2 :: rest)). lia.
Qed.

Lemma sequential_spec sources amount order : funded sources -> order ≡ₚ sources -> exists used,
  in_order order used (sequentialAllocation order amount) /\
  allocated (sequentialAllocation order amount) = Z.min (Z.max 0 amount) (available sources).
Proof.
  intros Hf Ho. assert (available order = available sources) as <- by (by rewrite Ho).
  assert (funded order) as Hfo by (unfold funded; by rewrite Ho). pose proof (available_nonneg _ Hfo).
  unfold sequentialAllocation. destruct (Z.leb_spec amount 0).
  - exists []. split; [split; [apply prefix_nil|constructor|done]|]. change (allocated []) with 0. lia.
  - rewrite Z.max_r by lia. apply take_from_spec; [done|lia].
Qed.

(** C17: an allocation stays within the funds.  Whatever the strategy, each
    source is drawn on at most once, for a positive amount it holds, and the
    total exceeds neither the debit nor what is available.  FIFO and LIFO use
    up the sources in the order of time and allocate the whole debit, or all
    that is available.  PROPORTIONAL may leave a remainder unallocated although
    the sources hold it, because the last source is capped at its balance; the
    remainder is at most the number of sources less two. *)
Theorem allocation_within_funds (sources : list LineageSource) (amount : Z) (strategy : string) :
  funded sources ->
  let allocs := calculateAllocation sources amount strategy in
  let due := Z.min (Z.max 0 amount) (available sources) in
  (exists used, used ⊆+ sources /\ Forall2 draws used allocs) /\
  allocated allocs <= due /\
  (strategy <> "PROPORTIONAL"%string -> allocated allocs = due /\
     exists order used, order ≡ₚ sources /\ in_order order used allocs /\
       if String.eqb strategy "LIFO" then Sorted later order else Sorted earlier order) /\
  (strategy = "PROPORTIONAL"%string -> due - allocated allocs <= Z.max 0 (Z.of_nat (length sources) - 2)).
Proof.
  intros Hf. cbv zeta. pose proof (available_nonneg _ Hf) as Ha.
  assert (Hseq := fun order => sequential_spec sources amount order Hf).
  destruct (decide (sources = [])) as [->|Hne].
  { cbn. split; [by exists []|]. split; [lia|]. split; [|lia]. intros _. split; [lia|].
    exists [], []. split; [done|]. split; [by split; [|constructor|]|]. by destruct (String.eqb _ _); constructor. }
  replace (calculateAllocation sources amount strategy) with
    (if String.eqb strategy "LIFO" then sequentialAllocation (merge_sort later sources) amount
     else if String.eqb strategy "PROPORTIONAL" then proportionalAllocation sources amount
     else sequentialAllocation (merge_sort earlier sources) amount) by (by destruct sources).
  assert (forall R (RD : RelDecision R) (TO : Total R), let order := merge_sort R sources in
    order ≡ₚ sources /\ Sorted R order) as Hsort.
  { intros R RD TO. split; [exact (merge_sort_Permutation R sources)|exact (Sorted_merge_sort R sources)]. }
  destruct (String.eqb strategy "LIFO") eqn:E1; [|destruct (String.eqb strategy "PROPORTIONAL") eqn:E2]; zbool.
  - destruct (Hsort later _) as [Hp Hs]; [intros a b; unfold later; lia|]. destruct (Hseq _ Hp) as (used & Hu & Hsum).
    split; [|split; [lia|split; [|subst; discriminate]]].
    + exists used. split; [|apply (io_draws _ _ _ Hu)]. rewrite <- Hp. destruct (io_prefix _ _ _ Hu) as [k ->]. by apply submseteq_inserts_r.
    + intros _. split; [done|]. by exists (merge_sort later sources), used.
  - unfold proportionalAllocation. destruct (Z.leb_spec amount 0).
    { cbn. split; [exists []; split; [apply submseteq_nil_l|constructor]|]. split; [lia|]. split; [done|lia]. }
    assert (0 < available sources) as HT.
    { destruct Hf as [|s l Hs Hl]; [done|]. pose proof (available_nonneg _ Hl). rewrite zsum_list_cons. lia. }
    destruct (Z.eqb_spec (available sources) 0); [lia|]. set (E := if available sources <? amount then _ else _).
    assert (E = Z.min (Z.max 0 amount) (available sources)) as HE
      by (unfold E; destruct (Z.ltb_spec (available sources) amount); lia).
    clearbody E. assert (E * available sources <= available sources * E <= E * available sources + 0 * (available sources - 1))
      as Hshare by lia.
    destruct (share_out_spec E (available sources) sources HT ltac:(lia) E 0 Hne Hf ltac:(lia) Hshare)
      as (used & H1 & H2 & H3 & H4).
    split; [|split; [lia|split; [done|lia]]]. exists used. split; [by apply sublist_submseteq|done].
  - destruct (Hsort earlier _) as [Hp Hs]; [intros a b; unfold earlier; lia|]. destruct (Hseq _ Hp) as (used & Hu & Hsum).
    split; [|split; [lia|split; [|done]]].
    + exists used. split; [|apply (io_draws _ _ _ Hu)]. rewrite <- Hp. destruct (io_prefix _ _ _ Hu) as [k ->]. by apply submseteq_inserts_r.
    + intros _. split; [done|]. by exists (merge_sort earlier sources), used.
Qed.

Module AllocationWitness.
Definition provider (id : string) (b at_ : Z) : LineageSource :=
  {| ls_BalanceID := id; ls_Balance := b; ls_CreatedAt := at_ |}.
Definition three : list LineageSource := [provider "a" 10 1; provider "b" 10 2; provider "c" 10 3].

(** A debit of 29 over three providers with 10 each: LIFO allocates it,
    PROPORTIONAL only 28 of it, although 30 are available. *)
Lemma allocation_within_funds_witness :
  al_Amount <$> calculateAllocation three 29 "LIFO" = [10; 10; 9] /\
  al_Amount <$> calculateAllocation three 29 "PROPORTIONAL" = [9; 9; 10] /\
  29 - zsum_list al_Amount (calculateAllocation three 29 "PROPORTIONAL") <= 1.
Proof.
  split; [vm_compute; reflexivity|]. split; [vm_compute; reflexivity|].
  assert (funded three) as Hf by (repeat constructor).
  destruct (allocation_within_funds three 29 "PROPORTIONAL" Hf) as (_ & _ & _ & H). exact (H eq_refl).
Defined.
End AllocationWitness.
