(* ===== verification/Actions.v ===== *)
(** * Actions on holds

    The loops around the commit and void handlers: paging over the legs of a
    parent, the retry of a queued action, the bulk update, and which errors of
    the store the handlers recognise. *)
From stdpp Require Import base option list strings gmap sorting.
From Stdlib Require Import ZArith Lia.
From S2P Require Import Prelude GoFloat Model Decimal DecimalInstance Amount Balance Policy PolicyStore Store Lifecycle Engine Inflight.
Close Scope Q_scope.
Open Scope Z_scope.

(** ** Paging *)

#[local] Existing Instance newer_dec.

(** The legs of a parent, before they are cut into pages. *)
Definition leg_rows (db : ledger_db) (parentID : string) : list txn_row :=
  match inflight_rows db parentID with
  | [] => queued_inflight_rows db parentID
  | rows => rows
  end.
Definition leg_of (numeric_float : string -> float64) (r : txn_row) : Transaction :=
  let t := scan_transaction numeric_float r in
  {| t with t_ScheduledFor := x_scheduled_for r; t_EffectiveDate := x_effective_date r |}.

Lemma leg_rows_length db parentID : (length (leg_rows db parentID) <= length (ld_txns db))%nat.
Proof.
  unfold leg_rows. pose proof (length_filter (fun r => is_status "INFLIGHT" r = true /\
    (x_id r = parentID \/ x_parent r = parentID \/ ec_QueuedParent (x_controls r) = parentID)) (ld_txns db)) as H1.
  fold (inflight_rows db parentID) in H1. destruct (inflight_rows db parentID); [|done].
  unfold queued_inflight_rows. apply length_filter.
Qed.

Section Paging.
Variables (numeric_float : string -> float64) (BatchSize : Z).

Lemma batch_size_pos : 0 < batch_size BatchSize.
Proof. unfold batch_size. destruct (BatchSize <=? 0) eqn:E; zbool; lia. Qed.

Lemma collect_from_spec fuel db parentID offset :
  0 <= offset <= Z.of_nat (length (leg_rows db parentID)) ->
  (length (leg_rows db parentID) < fuel + Z.to_nat offset)%nat ->
  collect_from numeric_float BatchSize fuel db parentID offset =
  Some (leg_of numeric_float <$> drop (Z.to_nat offset) (merge_sort newer (leg_rows db parentID))).
Proof.
  pose proof batch_size_pos as Hb. set (sorted := merge_sort newer (leg_rows db parentID)).
  assert (length sorted = length (leg_rows db parentID)) as Hlen
    by (unfold sorted; by rewrite merge_sort_Permutation).
  revert offset. induction fuel as [|fuel IH]; intros offset Ho Hf; [lia|]. cbn [collect_from].
  change (GetInflightTransactionsByParentID numeric_float db parentID (batch_size BatchSize) offset)
    with (leg_of numeric_float <$> take (Z.to_nat (batch_size BatchSize)) (drop (Z.to_nat offset) sorted)).
  rewrite length_fmap, length_take, length_drop, Hlen.
  destruct (_ <? _) eqn:E; zbool.
  - f_equal. f_equal. apply take_ge. rewrite length_drop, Hlen. lia.
  - rewrite IH by lia. cbn. rewrite <- fmap_app. f_equal. f_equal.
    rewrite Z2Nat.inj_add by lia. rewrite <- drop_drop. apply take_drop.
Qed.

(** Paging over the legs of a parent ends and misses nothing.  For every
    batch size, configured or not, the loop of [collectInflightLegs] returns
    after finitely many pages with each leg of the parent exactly once. *)
Theorem collectInflightLegs_complete (db : ledger_db) (parentID : string) :
  exists legs, collectInflightLegs numeric_float BatchSize parentID db = (db, Ok legs) /\
    legs ≡ₚ leg_of numeric_float <$> leg_rows db parentID.
Proof.
  exists (leg_of numeric_float <$> merge_sort newer (leg_rows db parentID)).
  unfold collectInflightLegs, reads. rewrite collect_from_spec.
  - split; [done|]. by rewrite merge_sort_Permutation.
  - lia.
  - pose proof (leg_rows_length db parentID). cbn. lia.
Qed.
End Paging.

(** ** What the handlers leave of the transactions *)

(** The handler inserts no transaction. *)
Definition keeps {A} (m : M A) : Prop := forall db, ld_txns (fst (m db)) = ld_txns db.

Lemma keeps_ret {A} (a : A) : keeps (ret a).
Proof. done. Qed.
Lemma keeps_fail {A} e : keeps (@fail A e).
Proof. done. Qed.
Lemma keeps_lift {A} (r : result A) : keeps (lift r).
Proof. done. Qed.
Lemma keeps_reads {A} (f : ledger_db -> result A) : keeps (reads f).
Proof. done. Qed.
Lemma keeps_bind {A B} (m : M A) (f : A -> M B) : keeps m -> (forall a, keeps (f a)) -> keeps (bind m f).
Proof. intros Hm Hf db. specialize (Hm db). unfold bind. destruct (m db) as [db' [a|e]]; [|done]. by rewrite Hf. Qed.
Lemma keeps_with_context {A} msg (m : M A) : keeps m -> keeps (with_context msg m).
Proof. intros Hm db. specialize (Hm db). unfold with_context. by destruct (m db) as [db' []]. Qed.
Lemma keeps_try {A} (m : M A) : keeps m -> keeps (try m).
Proof. intros Hm db. specialize (Hm db). unfold try. by destruct (m db). Qed.

Create HintDb keeps.
#[export] Hint Resolve keeps_ret keeps_fail keeps_lift keeps_reads keeps_bind keeps_with_context keeps_try : keeps.

(** A bind that ends in an error ended before its last part, or in it. *)
Lemma bind_errs {A B} (m : M A) (f : A -> M B) db :
  keeps m -> (forall a db', m db = (db', Ok a) -> ld_txns db' = ld_txns db -> exists db2 e, f a db' = (db2, Err e) /\ ld_txns db2 = ld_txns db) ->
  exists db2 e, bind m f db = (db2, Err e) /\ ld_txns db2 = ld_txns db.
Proof.
  intros Hm Hf. specialize (Hm db). unfold bind. destruct (m db) as [db' [a|e]] eqn:E; cbn in Hm; [|by eauto].
  by apply Hf.
Qed.

Lemma context_errs {A} msg (m : M A) db P :
  (exists db2 e, m db = (db2, Err e) /\ P db2) -> exists db2 e, with_context msg m db = (db2, Err e) /\ P db2.
Proof. intros (db2 & e & H & HP). unfold with_context. rewrite H. eauto. Qed.

Section Retry.
Context {Dops : DecimalOps}.
Variables (numeric_float : string -> float64) (gen : string -> nat -> string).
Variables (pre_hooks : Transaction -> result unit) (acquire : list string -> result unit).
Variables (EnableQueuedChecks : bool) (now : Z).
Variables (GetTransactionFromQueue : string -> result (option Transaction)) (enqueue : Transaction -> result unit).

Lemma keeps_getOrCreate i c : keeps (getOrCreateBalanceByIndicator gen EnableQueuedChecks now i c).
Proof.
  assert (forall b, keeps (with_queued EnableQueuedChecks b)) as Hq
    by (intros b; unfold with_queued; destruct EnableQueuedChecks; auto with keeps).
  unfold getOrCreateBalanceByIndicator. apply keeps_bind; [auto with keeps|]. intros [b|e]; [done|].
  apply keeps_bind.
  - apply keeps_try. intros db. unfold CreateBalance. repeat case_match; done.
  - intros [b|e']; [auto with keeps|]. destruct (isAlreadyExists e'); auto with keeps.
Qed.

Lemma keeps_resolve t : keeps (resolveBalanceIDs gen EnableQueuedChecks now t).
Proof.
  assert (forall side name c, keeps (resolve_id gen EnableQueuedChecks now side name c)) as H.
  { intros. unfold resolve_id. destruct (HasPrefix _ _); [|auto with keeps].
    apply keeps_with_context, keeps_bind; [apply keeps_getOrCreate|auto with keeps]. }
  unfold resolveBalanceIDs. auto with keeps.
Qed.

Lemma verify_keeps_reference t db db' t' :
  verifyPolicyExecution t db = (db', Ok t') -> t_Reference t' = t_Reference t.
Proof.
  unfold verifyPolicyExecution. destruct (policyMarked t); cbn [negb]; [|by intros [= _ <-]].
  destruct (String.eqb _ StatusCommit).
  { unfold bind, reads. destruct (checkPolicyCommit _ _); [by intros [= _ <-]|done]. }
  destruct (String.eqb _ StatusVoid); [by intros [= _ <-]|]. unfold bind, reads.
  destruct (verifyPolicyLeg db t) as [[a|]|]; [|done..]. intros [= _ <-]. cbn.
  by destruct (String.eqb (pa_Decision a) _).
Qed.

Lemma keeps_verify t : keeps (verifyPolicyExecution t).
Proof.
  unfold verifyPolicyExecution. destruct (negb _); [auto with keeps|]. destruct (String.eqb _ _); [auto with keeps|].
  destruct (String.eqb _ _); [auto with keeps|]. apply keeps_bind; [auto with keeps|]. intros []; auto with keeps.
Qed.

(** A reference that is taken is refused before anything is written. *)
Lemma single_taken t viaQueue db : TransactionExistsByRef db (t_Reference t) = true ->
  exists db2 e, recordTransactionSingle gen pre_hooks acquire EnableQueuedChecks now t viaQueue db = (db2, Err e) /\
    ld_txns db2 = ld_txns db.
Proof.
  intros Href. unfold recordTransactionSingle. apply bind_errs; [apply keeps_with_context, keeps_resolve|].
  intros ids db2 _ E2. rewrite <- E2. apply bind_errs; [auto with keeps|]. intros [] db3 _ E3. rewrite <- E3.
  unfold record_locked. apply bind_errs; [auto with keeps|]. intros [] db4 _ E4. rewrite <- E4.
  unfold validateAndPrepareTransaction, validateTxn.
  assert (TransactionExistsByRef db4 (t_Reference t) = true) as H4.
  { unfold TransactionExistsByRef in *. by rewrite E4, E3, E2. }
  unfold bind at 1 2, with_context at 1, reads. cbn [t_Reference]. rewrite H4. eauto.
Qed.
Lemma record_taken t viaQueue db : TransactionExistsByRef db (t_Reference t) = true ->
  exists db2 e, executeTransactionPlan gen pre_hooks acquire EnableQueuedChecks now t viaQueue db = (db2, Err e) /\
    ld_txns db2 = ld_txns db.
Proof.
  intros Href. unfold executeTransactionPlan.
  apply bind_errs; [apply keeps_verify|]. intros t1 db1 H1 E1. apply verify_keeps_reference in H1 as Ht.
  rewrite <- E1. apply single_taken. unfold TransactionExistsByRef in *. by rewrite E1, Ht.
Qed.

Lemma keeps_new_id suffix : keeps (new_id gen suffix).
Proof. done. Qed.
Lemma keeps_fetch id : keeps (fetchAndValidateInflightTransaction numeric_float GetTransactionFromQueue id).
Proof.
  unfold fetchAndValidateInflightTransaction. apply keeps_bind; [auto with keeps|]. intros found. apply keeps_bind.
  - destruct found; [auto with keeps|]. destruct (is_ErrNoRows _); [|auto with keeps].
    destruct (GetTransactionFromQueue id) as [[]|]; auto with keeps.
  - intros t. destruct (negb _); [auto with keeps|]. apply keeps_bind; [auto with keeps|]. intros []; auto with keeps.
Qed.

Lemma ApplyPrecision_reference t : t_Reference (snd (ApplyPrecision t)) = t_Reference t.
Proof.
  unfold ApplyPrecision, applyPrecisionLogic. destruct (validateMonetaryFields t); [|done].
  destruct (feq (t_Precision t) fzero); cbn; by repeat case_match.
Qed.

(** A child row whose reference is taken. *)
Lemma finalize_taken ref msg (build : string -> string -> Transaction) db :
  String.eqb ref "" = false -> TransactionExistsByRef db ref = true ->
  (forall id, t_Reference (build id ref) = ref) ->
  exists db2 e, bind (new_id gen "txn") (fun id => bind (child_reference gen ref) (fun r =>
    with_context msg (RecordTransaction_int gen pre_hooks acquire EnableQueuedChecks now (build id r)))) db = (db2, Err e) /\
    ld_txns db2 = ld_txns db.
Proof.
  intros Hne Href Hb. apply bind_errs; [apply keeps_new_id|]. intros id db1 _ E1. rewrite <- E1.
  unfold bind, child_reference. rewrite Hne. apply context_errs, record_taken. rewrite Hb.
  unfold TransactionExistsByRef in *. by rewrite E1.
Qed.

Lemma bind_first_errs {A B} (m : M A) (f : A -> M B) db :
  (exists d e, m db = (d, Err e) /\ ld_txns d = ld_txns db) -> exists d e, bind m f db = (d, Err e) /\ ld_txns d = ld_txns db.
Proof. intros (d & e & H & E). unfold bind. rewrite H. eauto. Qed.

(** A retried action is applied once.  Once a leg was committed or voided
    under the deterministic reference of an action, applying the same action
    to it again is an error on every path and inserts no transaction, whatever
    the locks, hooks and policies answer. *)
Theorem inflight_retry_idempotent (leg : Transaction) (action actionID : string) (amount : option Z) (db : ledger_db) :
  actionID <> ""%string ->
  TransactionExistsByRef db (inflightActionReference (t_TransactionID leg) action actionID) = true ->
  exists db2 e, applyInflightActionToLeg numeric_float gen pre_hooks acquire EnableQueuedChecks now
      GetTransactionFromQueue enqueue leg action amount actionID db = (db2, Err e) /\
    ld_txns db2 = ld_txns db.
Proof.
  intros Hid Href. unfold applyInflightActionToLeg. cbv zeta.
  set (ref := inflightActionReference _ _ _) in *.
  assert (String.eqb ref "" = false) as Hne.
  { subst ref. unfold inflightActionReference. apply String.eqb_neq in Hid as ->.
    apply String.eqb_neq. by destruct (t_TransactionID leg). }
  assert (forall d, ld_txns d = ld_txns db -> TransactionExistsByRef d ref = true) as Href'.
  { intros d E. unfold TransactionExistsByRef in *. by rewrite E. }
  apply bind_first_errs. destruct (String.eqb action InflightActionVoid); cbn [void_inflight commit_inflight].
  - apply bind_errs; [auto with keeps|]. intros [] db1 _ E1. rewrite <- E1.
    apply bind_errs; [apply keeps_fetch|]. intros t db2 _ E2. rewrite <- E2.
    apply bind_errs; [apply keeps_reads|]. intros left db3 _ E3. rewrite <- E3.
    destruct (left <=? 0); [unfold fail; eauto|]. apply bind_first_errs, finalize_taken; [done| |].
    + apply Href'. congruence.
    + intros id. by rewrite ApplyPrecision_reference.
  - apply bind_errs; [auto with keeps|]. intros [] db1 _ E1. rewrite <- E1.
    apply bind_errs; [apply keeps_fetch|]. intros t db2 _ E2. rewrite <- E2.
    apply bind_errs; [unfold validateAndUpdateAmount, calculateRemainingAmount; auto 10 with keeps|].
    intros t' db3 _ E3. rewrite <- E3.
    apply bind_first_errs, (finalize_taken _ _ (fun id r => child_of now _ id r)); [done| |done].
    apply Href'. congruence.
Qed.

(** The queue is never consulted for a hold.  [GetTransaction] reports a
    missing row as an API error that does not compare equal to
    [sql.ErrNoRows], so what waits in the queue has no influence on
    [fetchAndValidateInflightTransaction]. *)
Theorem queue_fallback_unreachable (queue1 queue2 : string -> result (option Transaction)) (id : string) (db : ledger_db) :
  fetchAndValidateInflightTransaction numeric_float queue1 id db =
  fetchAndValidateInflightTransaction numeric_float queue2 id db.
Proof.
  unfold fetchAndValidateInflightTransaction, bind, try, reads, GetTransaction.
  destruct (find_txn db id); [done|]. unfold is_ErrNoRows.
  rewrite bool_decide_eq_false_2; [done|]. unfold txn_not_found, NewAPIError, sentinel. intros [= H].
Qed.

(** A reference taken by a concurrent insert is not recognised.  The
    error of [recordTransactionInTx] hides the driver's error, so that
    [IsDuplicateReferenceError] and [isTerminalInflightError] are false of
    every error it returns, the unique violation of the reference included. *)
Theorem insert_error_not_duplicate (db : ledger_db) (t : Transaction) (e : go_error) :
  recordTransactionInTx db t = Err e ->
  IsDuplicateReferenceError e = false /\ isTerminalInflightError e = false.
Proof.
  unfold recordTransactionInTx. intros H.
  assert (e = NewAPIError ErrInternalServer "Failed to record transaction" None) as ->.
  { destruct (persistNumericColumns t); [destruct (insert_transaction _ _)|]; by simplify_eq. }
  split; vm_compute; reflexivity.
Qed.
End Retry.

(** ** Bulk updates *)

Section Bulk.
Context {Dops : DecimalOps}.
Variables (numeric_float : string -> float64) (gen : string -> nat -> string).
Variables (pre_hooks : Transaction -> result unit) (acquire : list string -> result unit).
Variables (EnableQueuedChecks : bool) (now : Z).
Variables (GetTransactionFromQueue : string -> result (option Transaction)) (enqueue : Transaction -> result unit).

#[local] Notation job := (bulk_job numeric_float gen pre_hooks acquire EnableQueuedChecks now GetTransactionFromQueue enqueue).
#[local] Notation bulk := (bulk_run numeric_float gen pre_hooks acquire EnableQueuedChecks now GetTransactionFromQueue enqueue).

(** The outcome of an item. *)
Definition outcome_of (item : BulkInflightItem) (o : BulkInflightOutcome) : Prop :=
  bo_TransactionID o = bi_TransactionID item /\
  match bo_Err o with
  | None => is_Some (bo_Txn o) /\ bo_Code o = ""%string
  | Some e => bo_Txn o = None /\ bo_Code o = classifyInflightError (Some e) /\ bo_Code o <> ""%string
  end.

Lemma classify_nonempty e : classifyInflightError (Some e) <> ""%string.
Proof. unfold classifyInflightError. by repeat case_match. Qed.

Lemma bulk_job_outcome action item db :
  exists db' o, job action item db = (db', Ok o) /\ outcome_of item o.
Proof.
  unfold bulk_job, bind, try, ret. match goal with |- context [let '(_, _) := ?m db in _] => destruct (m db) as [db' [t|e]] end;
    eexists _, _; (split; [reflexivity|]); split; cbn; auto.
  split_and!; try done. apply classify_nonempty.
Qed.

Lemma bulk_run_spec action items schedule results db :
  length results = length items ->
  exists db' rs, bulk action items schedule results db = (db', Ok rs) /\ length rs = length items /\
    forall i, match items !! i with
      | Some item => if decide (i ∈ schedule) then exists o, rs !! i = Some (Some o) /\ outcome_of item o
                     else rs !! i = results !! i
      | None => True
      end.
Proof.
  revert results db. induction schedule as [|j schedule IH]; intros results db Hlen; cbn [bulk_run].
  { exists db, results. split_and!; [done..|]. intros i. destruct (items !! i); [|done].
    rewrite decide_False; [done|apply not_elem_of_nil]. }
  destruct (items !! j) as [item|] eqn:Ej.
  - destruct (bulk_job_outcome action item db) as (db1 & o & Hj & Ho).
    destruct (IH (<[j := Some o]> results) db1) as (db2 & rs & Hr & Hl & Hi); [by rewrite length_insert|].
    exists db2, rs. split; [unfold bind; by rewrite Hj|]. split; [done|]. intros i. specialize (Hi i).
    destruct (items !! i) as [item'|] eqn:Ei; [|done].
    destruct (decide (i ∈ schedule)) as [Hin|Hnin].
    { rewrite decide_True; [done|by right]. }
    destruct (decide (i = j)) as [->|Hne].
    + rewrite decide_True by left. simplify_eq. exists o. split; [|done]. rewrite Hi. apply list_lookup_insert_eq.
      rewrite Hlen. by eapply lookup_lt_Some.
    + rewrite decide_False by (rewrite elem_of_cons; tauto). rewrite Hi. by apply list_lookup_insert_ne.
  - destruct (IH results db Hlen) as (db2 & rs & Hr & Hl & Hi). exists db2, rs. split_and!; [done..|].
    intros i. specialize (Hi i). destruct (items !! i) eqn:Ei; [|done].
    destruct (decide (i ∈ schedule)).
    + rewrite decide_True; [done|by right].
    + rewrite decide_False; [done|]. rewrite elem_of_cons. intros [->|?]; [congruence|done].
Qed.

(** A bulk update answers every item in its place.  Whatever the order in
    which the workers complete the jobs, an update of a non-empty list
    succeeds with one outcome per item, at the index of the item, carrying the
    item's id; its code is empty exactly when the item succeeded. *)
Theorem BulkInflightUpdate_in_order (action : BulkInflightAction) (items : list BulkInflightItem)
    (schedule : list nat) (db : ledger_db) :
  items <> [] -> schedule ≡ₚ seq 0 (length items) ->
  exists db' rs,
    BulkInflightUpdate numeric_float gen pre_hooks acquire EnableQueuedChecks now GetTransactionFromQueue enqueue
      action items schedule db = (db', Ok rs) /\ length rs = length items /\
    forall i item, items !! i = Some item -> exists o, rs !! i = Some (Some o) /\ outcome_of item o.
Proof.
  intros Hne Hperm. unfold BulkInflightUpdate. destruct items as [|it items]; [done|].
  destruct (bulk_run_spec action (it :: items) schedule (replicate (length (it :: items)) None) db) as (db' & rs & H1 & H2 & H3);
    [apply length_replicate|].
  exists db', rs. split_and!; [done..|]. intros i item Hi. specialize (H3 i). rewrite Hi in H3.
  rewrite decide_True in H3; [done|]. rewrite Hperm. apply elem_of_seq. apply lookup_lt_Some in Hi. lia.
Qed.
End Bulk.

(** ** Witnesses *)
Module ActionsWitness.
Import LifecycleWitness.
#[local] Existing Instance DecimalInstance.dnum_ops.

Definition gen (suffix : string) (n : nat) : string := suffix +:+ "_" +:+ itoa (Z.of_nat n).
Definition yes {A} (a : A) : result unit := Ok tt.
Definition no_queue (id : string) : result (option Transaction) := Ok None.
Definition to_float (s : string) : float64 := fzero.
Definition held : ledger_db :=
  insert_all empty_db [row "h" "" "r1" "a" "b" "INFLIGHT" "" 100; row "c" "h" "h_commit_act1" "a" "b" "APPLIED" "COMMIT" 60].
Definition leg : Transaction := {| zero_transaction with t_TransactionID := "h" |}.

Lemma inflight_retry_idempotent_witness :
  exists db2 e, applyInflightActionToLeg to_float gen yes yes false 7 no_queue yes leg "commit" (Some 10) "act1" held
    = (db2, Err e) /\ ld_txns db2 = ld_txns held.
Proof.
  apply (inflight_retry_idempotent to_float gen yes yes false 7 no_queue yes leg "commit" "act1" (Some 10) held).
  - discriminate.
  - vm_compute. reflexivity.
Defined.

Lemma insert_error_not_duplicate_witness :
  IsDuplicateReferenceError (NewAPIError ErrInternalServer "Failed to record transaction" None) = false.
Proof.
  apply (insert_error_not_duplicate held
    {| zero_transaction with t_TransactionID := "z"; t_Reference := "r1"; t_AmountString := "1"; t_PreciseAmount := Some 1 |}).
  vm_compute. reflexivity.
Defined.

Definition two_items : list BulkInflightItem :=
  [{| bi_TransactionID := "h"; bi_Amount := Some 5 |}; {| bi_TransactionID := "nope"; bi_Amount := Some 1 |}].

Lemma BulkInflightUpdate_in_order_witness :
  exists db' rs, BulkInflightUpdate to_float gen yes yes false 7 no_queue yes BulkInflightCommit two_items [1; 0]%nat held
    = (db', Ok rs) /\ length rs = 2%nat.
Proof.
  destruct (BulkInflightUpdate_in_order to_float gen yes yes false 7 no_queue yes BulkInflightCommit two_items [1; 0]%nat held)
    as (db' & rs & H & Hl & _).
  - discriminate.
  - apply perm_swap.
  - exists db', rs. split; [exact H|exact Hl].
Defined.
End ActionsWitness.
