(* ===== verification/Effect.v ===== *)
(** * The effect of a transaction on the balances

    What a row of the transactions table does to the totals of the balances it
    names, the journal of a balance as the sum of these effects, and that
    applying a transaction to its two balances moves them by the effect of the
    row it is stored as. *)
From stdpp Require Import base option list strings gmap.
From Stdlib Require Import ZArith Lia.
From S2P Require Import Prelude GoFloat Model Decimal DecimalInstance Amount Balance Policy PolicyStore Store Lifecycle Engine Inflight.
Close Scope Q_scope.
Open Scope Z_scope.

(** ** The effect of a row *)

Inductive kind := Hold | Release | Settle | Direct | Intent.
#[export] Instance kind_eq_dec : EqDecision kind.
Proof. solve_decision. Defined.

(** What the status and action of a row say about its effect. *)
Definition kind_of (status action : string) : kind :=
  if String.eqb status "INFLIGHT" then Hold
  else if String.eqb status "VOID" then Release
  else if String.eqb status "QUEUED" || String.eqb status "REJECTED" || String.eqb status "SCHEDULED"
  then Intent
  else if String.eqb action "COMMIT" then Settle
  else Direct.
Definition row_kind (r : txn_row) : kind := kind_of (x_status r) (x_queue_action r).

Definition acc_zero : account := Account 0 0 0 0.
Definition acc_add (a b : account) : account :=
  Account (a_cr a + a_cr b) (a_dr a + a_dr b) (a_icr a + a_icr b) (a_idr a + a_idr b).

(** On the source and on the destination of a row of amount [n]. *)
Definition source_effect (k : kind) (n : Z) : account :=
  match k with
  | Hold => Account 0 0 0 n | Release => Account 0 0 0 (- n)
  | Settle => Account 0 n 0 (- n) | Direct => Account 0 n 0 0 | Intent => acc_zero
  end.
Definition destination_effect (k : kind) (n : Z) : account :=
  match k with
  | Hold => Account 0 0 n 0 | Release => Account 0 0 (- n) 0
  | Settle => Account n 0 (- n) 0 | Direct => Account n 0 0 0 | Intent => acc_zero
  end.
Definition effect_on (id : string) (r : txn_row) : account :=
  acc_add (if String.eqb (x_source r) id then source_effect (row_kind r) (x_precise r) else acc_zero)
          (if String.eqb (x_destination r) id then destination_effect (row_kind r) (x_precise r) else acc_zero).

(** What the journal says of a balance. *)
Definition journal (rows : list txn_row) (id : string) : account :=
  foldr (fun r a => acc_add (effect_on id r) a) acc_zero rows.

Ltac account_eq := unfold acc_add, acc_zero, source_effect, destination_effect; cbn [a_cr a_dr a_icr a_idr]; f_equal; lia.

Lemma acc_add_zero_l a : acc_add acc_zero a = a.
Proof. destruct a. account_eq. Qed.
Lemma acc_add_zero_r a : acc_add a acc_zero = a.
Proof. destruct a. account_eq. Qed.
Lemma acc_add_assoc a b c : acc_add a (acc_add b c) = acc_add (acc_add a b) c.
Proof. account_eq. Qed.

Lemma journal_app l1 l2 id : journal (l1 ++ l2) id = acc_add (journal l1 id) (journal l2 id).
Proof.
  induction l1 as [|r l1 IH]; cbn [journal foldr app]; [by rewrite acc_add_zero_l|].
  unfold journal in IH. by rewrite IH, acc_add_assoc.
Qed.

Lemma journal_snoc l r id : journal (l ++ [r]) id = acc_add (journal l id) (effect_on id r).
Proof. rewrite journal_app. cbn. by rewrite acc_add_zero_r. Qed.

Lemma journal_none l id :
  (forall r, r ∈ l -> row_kind r <> Intent -> x_source r <> id /\ x_destination r <> id) ->
  journal l id = acc_zero.
Proof.
  induction l as [|r l IH]; intros H; [done|]. cbn [journal foldr].
  fold (journal l id). rewrite IH by (intros r' Hr'; apply H; by right). rewrite acc_add_zero_r.
  specialize (H r ltac:(left)). unfold effect_on. destruct (row_kind r) eqn:E.
  5: { cbn. by repeat case_match. }
  all: destruct H as [H1 H2]; [done|]; apply String.eqb_neq in H1 as ->; apply String.eqb_neq in H2 as ->; done.
Qed.

(** A change of metadata does not change the journal. *)
Lemma journal_with_meta f l id : journal (with_meta f <$> l) id = journal l id.
Proof. induction l as [|r l IH]; [done|]. rewrite fmap_cons. cbn. unfold journal in IH. by rewrite IH. Qed.

(** ** Readings and versions *)

(** The six amounts agree. *)
Definition same_money (a b : Balance) : Prop :=
  b_Balance a = b_Balance b /\ b_CreditBalance a = b_CreditBalance b /\
  b_DebitBalance a = b_DebitBalance b /\ b_InflightBalance a = b_InflightBalance b /\
  b_InflightCreditBalance a = b_InflightCreditBalance b /\
  b_InflightDebitBalance a = b_InflightDebitBalance b.

Lemma same_money_view a b : same_money a b -> view a = view b /\ (coherent a <-> coherent b) /\ (nonneg a <-> nonneg b).
Proof.
  intros (E1 & E2 & E3 & E4 & E5 & E6). unfold view, coherent, nonneg, BAL, CR, DR, IBAL, ICR, IDR.
  by rewrite E1, E2, E3, E4, E5, E6.
Qed.

#[export] Instance same_money_equiv : Equivalence same_money.
Proof.
  split; unfold same_money.
  - intros a. done.
  - intros a b H. intuition congruence.
  - intros a b c H1 H2. intuition congruence.
Qed.

(** [s] was read from a row of [db]. *)
Definition reading (db : ledger_db) (s : Balance) : Prop :=
  exists b, ld_balances db !! b_BalanceID s = Some b /\ same_money b s /\ b_Version s = b_Version b.

(** From [db0] to a later [db]: no balance is lost, versions grow, and an
    equal version means equal amounts. *)
Definition versions_le (db0 db : ledger_db) : Prop :=
  forall id b0, ld_balances db0 !! id = Some b0 ->
    exists b, ld_balances db !! id = Some b /\ b_Version b0 <= b_Version b /\
      (b_Version b0 = b_Version b -> same_money b b0).

Lemma versions_le_refl db : versions_le db db.
Proof. intros id b Hb. exists b. by split_and!. Qed.

Lemma versions_le_trans db1 db2 db3 : versions_le db1 db2 -> versions_le db2 db3 -> versions_le db1 db3.
Proof.
  intros H12 H23 id b1 Hb1. destruct (H12 id b1 Hb1) as (b2 & Hb2 & V2 & M2).
  destruct (H23 id b2 Hb2) as (b3 & Hb3 & V3 & M3). exists b3. split; [done|]. split; [lia|].
  intros E. rewrite M3 by lia. apply M2. lia.
Qed.

Record journal_ok (db : ledger_db) : Prop := {
  j_balance : forall id b, ld_balances db !! id = Some b ->
    b_BalanceID b = id /\ coherent b /\ nonneg b /\ view b = journal (ld_txns db) id;
  j_known : forall r, r ∈ ld_txns db -> row_kind r <> Intent ->
    is_Some (ld_balances db !! x_source r) /\ is_Some (ld_balances db !! x_destination r) }.

(** ** What applying a transaction does to its two balances *)

Lemma ApplyPrecision_of_positive `{!DecimalOps} t n :
  t_PreciseAmount t = Some n -> 0 < n ->
  (fst (ApplyPrecision t) = 0 \/ fst (ApplyPrecision t) = n) /\
  t_PreciseAmount (snd (ApplyPrecision t)) = Some n /\ same_but_amount t (snd (ApplyPrecision t)).
Proof.
  intros Hp Hn. destruct (validateMonetaryFields t) as [[]|e] eqn:Hv.
  - rewrite (ApplyPrecision_valid t Hv), Hp. destruct (0 <? n) eqn:E; zbool; [|lia].
    split; [by right|]. split; done.
  - unfold ApplyPrecision. rewrite Hv. cbn [fst snd]. split; [by left|]. split; [done|].
    unfold same_but_amount. by destruct t.
Qed.

(** The kind of row a transaction is stored as. *)
Definition stored_status (t : Transaction) : string :=
  if t_Inflight t then StatusInflight else applicableStatus (t_Status t).
Definition txn_kind (t : Transaction) : kind := kind_of (stored_status t) (t_QueueAction t).

(** A transaction the executor is given: a commit carries the commit action
    and nothing else does, and a commit or void is not itself a hold. *)
Definition well_formed (t : Transaction) : Prop :=
  (t_Status t = StatusCommit -> t_QueueAction t = StatusCommit /\ t_Inflight t = false) /\
  (t_Status t = StatusVoid -> t_Inflight t = false) /\
  (t_Status t <> StatusCommit -> t_Status t <> StatusVoid -> t_QueueAction t <> StatusCommit).

(** The step on one balance: its totals change by [e], the columns stay
    coherent and non-negative, nothing else changes. *)
Definition moves (e : account) (b b' : Balance) : Prop :=
  view b' = acc_add (view b) e /\ same_but_money b b' /\ (coherent b -> coherent b') /\ (nonneg b -> nonneg b').

Lemma moves_implements f e b b' :
  implements f b b' -> f (view b) = acc_add (view b) e ->
  (nonneg b -> 0 <= a_cr (acc_add (view b) e) /\ 0 <= a_dr (acc_add (view b) e) /\
               0 <= a_icr (acc_add (view b) e) /\ 0 <= a_idr (acc_add (view b) e)) ->
  moves e b b'.
Proof.
  intros (V & S & C) Hf Hn. rewrite Hf in V. split_and!; try done. intros Hnb.
  specialize (Hn Hnb). rewrite <- V in Hn. exact Hn.
Qed.

Section Apply.
Context {Dops : DecimalOps} {Dlaws : DecimalLaws}.

Lemma apply_commit t s d t1 s1 d1 n :
  CommitInflightDebit (InitializeBalanceFields s) t = (s1, t1, Ok tt) ->
  forall t2, CommitInflightCredit (InitializeBalanceFields d) t1 = (d1, t2, Ok tt) ->
  t_PreciseAmount t = Some n -> 0 < n ->
  moves (source_effect Settle n) s s1 /\ moves (destination_effect Settle n) d d1 /\
  t_PreciseAmount t2 = Some n /\ same_but_amount t t2.
Proof.
  intros HD t2 HC Hp Hn.
  destruct (ApplyPrecision_of_positive t n Hp Hn) as (A1 & A2 & A3).
  pose proof (CommitInflightDebit_spec (InitializeBalanceFields s) t) as SD. rewrite HD in SD.
  cbn [is_ok] in SD. destruct SD as (E1 & D1 & D2 & _). subst t1. specialize (D2 eq_refl).
  apply proj1 in D1. specialize (D1 eq_refl).
  assert (fst (ApplyPrecision t) = n) as En by lia. rewrite En in D1, D2. clear A1.
  destruct (ApplyPrecision_of_positive _ n A2 Hn) as (B1 & B2 & B3).
  pose proof (CommitInflightCredit_spec (InitializeBalanceFields d) (snd (ApplyPrecision t))) as SC. rewrite HC in SC.
  cbn [is_ok] in SC. destruct SC as (E2 & C1 & C2 & _). subst t2. specialize (C2 eq_refl).
  apply proj1 in C1. specialize (C1 eq_refl).
  assert (fst (ApplyPrecision (snd (ApplyPrecision t))) = n) as En2 by lia. rewrite En2 in C1, C2.
  split; [|split; [|split; [done|]]].
  - eapply moves_implements.
    + eapply implements_trans; [apply Initialize_implements|exact D2].
    + unfold settle_debit, source_effect. destruct (view s). account_eq.
    + change (IDR (InitializeBalanceFields s)) with (IDR s) in D1. unfold nonneg. cbn. lia.
  - eapply moves_implements.
    + eapply implements_trans; [apply Initialize_implements|exact C2].
    + unfold settle_credit, destination_effect. destruct (view d). account_eq.
    + change (ICR (InitializeBalanceFields d)) with (ICR d) in C1. unfold nonneg. cbn. lia.
  - unfold same_but_amount in *. rewrite B3, A3. done.
Qed.

Lemma apply_void s d s1 d1 amount :
  RollbackInflightDebit (InitializeBalanceFields s) amount = (s1, Ok tt) ->
  RollbackInflightCredit (InitializeBalanceFields d) amount = (d1, Ok tt) ->
  exists n, amount = Some n /\ 0 < n /\
  moves (source_effect Release n) s s1 /\ moves (destination_effect Release n) d d1.
Proof.
  intros HD HC. pose proof (RollbackInflightDebit_spec (InitializeBalanceFields s) amount) as SD.
  pose proof (RollbackInflightCredit_spec (InitializeBalanceFields d) amount) as SC.
  rewrite HD in SD. rewrite HC in SC. destruct SD as (n & -> & D1 & D2), SC as (n2 & [= <-] & C1 & C2).
  exists n. split; [done|]. split; [lia|]. split.
  - eapply moves_implements.
    + eapply implements_trans; [apply Initialize_implements|exact D2].
    + unfold release_debit, source_effect. destruct (view s). account_eq.
    + change (IDR (InitializeBalanceFields s)) with (IDR s) in D1. unfold nonneg. cbn. lia.
  - eapply moves_implements.
    + eapply implements_trans; [apply Initialize_implements|exact C2].
    + unfold release_credit, destination_effect. destruct (view d). account_eq.
    + change (ICR (InitializeBalanceFields d)) with (ICR d) in C1. unfold nonneg. cbn. lia.
Qed.

Lemma apply_direct t s d t1 s1 d1 :
  UpdateBalances t s d = (t1, s1, d1, Ok tt) ->
  exists n, t_PreciseAmount t1 = Some n /\ 0 < n /\ same_but_amount t t1 /\
  let k := if t_Inflight t then Hold else Direct in
  moves (source_effect k n) s s1 /\ moves (destination_effect k n) d d1.
Proof.
  intros H. pose proof (UpdateBalances_spec t s d) as S. rewrite H in S.
  destruct S as (n & Hn & Hp & Hs & _ & _ & D & C). exists n. do 3 (split; [done|]). cbv zeta. split.
  - eapply moves_implements; [exact D| |].
    + unfold debit. destruct (view s), (t_Inflight t); account_eq.
    + unfold nonneg. destruct (t_Inflight t); cbn; lia.
  - eapply moves_implements; [exact C| |].
    + unfold credit. destruct (view d), (t_Inflight t); account_eq.
    + unfold nonneg. destruct (t_Inflight t); cbn; lia.
Qed.

(** Applying a transaction moves one positive amount on both balances, by the
    effect of the kind of row it is stored as. *)
Lemma apply_moves t s d t1 s1 d1 :
  well_formed t -> applyTransactionToBalances t s d = Ok (t1, s1, d1) ->
  exists n, t_PreciseAmount t1 = Some n /\ 0 < n /\ same_but_amount t t1 /\ txn_kind t <> Intent /\
  moves (source_effect (txn_kind t) n) s s1 /\ moves (destination_effect (txn_kind t) n) d d1.
Proof.
  intros (W1 & W2 & W3) H. unfold applyTransactionToBalances in H.
  destruct (String.eqb (t_Status t) StatusCommit) eqn:EC; [|destruct (String.eqb (t_Status t) StatusVoid) eqn:EV];
    cbn [orb] in H; apply res_bind_Ok in H as ([] & Hg & H).
  - apply String.eqb_eq in EC. destruct (W1 EC) as [Wq Wi].
    destruct (t_PreciseAmount t) as [n|] eqn:Hp; [|done]. destruct (n <=? 0) eqn:En; [done|]. clear Hg. zbool.
    destruct (CommitInflightDebit _ t) as [[s2 t2] [[]|]] eqn:HD; [|done].
    destruct (CommitInflightCredit _ t2) as [[d2 t3] [[]|]] eqn:HC; [|done].
    apply Ok_inj in H. simplify_eq.
    destruct (apply_commit t s d t2 s1 d1 n HD t1 HC Hp En) as (M1 & M2 & M3 & M4).
    assert (txn_kind t = Settle) as -> by (unfold txn_kind, stored_status; by rewrite EC, Wi, Wq).
    exists n. by split_and!.
  - apply String.eqb_eq in EV. specialize (W2 EV). clear Hg.
    destruct (RollbackInflightDebit _ _) as [s2 [[]|]] eqn:HD; [|done].
    destruct (RollbackInflightCredit _ _) as [d2 [[]|]] eqn:HC; [|done].
    apply Ok_inj in H. simplify_eq.
    destruct (apply_void s d s1 d1 _ HD HC) as (n & Hp & Hn & M1 & M2).
    assert (txn_kind t1 = Release) as -> by (unfold txn_kind, stored_status; by rewrite EV, W2).
    exists n. split_and!; try done. unfold same_but_amount. by destruct t1.
  - apply String.eqb_neq in EC, EV. clear Hg.
    destruct (UpdateBalances t s d) as [[[t2 s2] d2] [[]|]] eqn:HU; [|done].
    apply Ok_inj in H. simplify_eq. specialize (W3 EC EV).
    destruct (apply_direct t s d t1 s1 d1 HU) as (n & Hp & Hn & Hs & M). cbv zeta in M.
    assert (txn_kind t = if t_Inflight t then Hold else Direct) as ->.
    { unfold txn_kind, stored_status. destruct (t_Inflight t); [done|].
      unfold kind_of, applicableStatus.
      repeat match goal with |- context [if String.eqb (t_Status t) ?x then _ else _] =>
        destruct (String.eqb (t_Status t) x) eqn:? end; zbool; try done; cbn; apply String.eqb_neq in W3; unfold StatusCommit in W3; by rewrite W3. }
    exists n. destruct M as [M1 M2]. split_and!; try done. by destruct (t_Inflight t).
Qed.
End Apply.
