(* ===== verification/Batch.v ===== *)
(** * What a coalesced batch does

    Preparing a batch in memory moves every balance object by the effects of
    the rows of the batch, whichever objects its transactions share; the batched
    update replaces the rows of the balances at the versions they were read at;
    the rows and outbox entries are appended. *)
From stdpp Require Import base option list strings gmap sorting.
From Stdlib Require Import ZArith Lia.
From S2P Require Import Prelude GoFloat Model Decimal DecimalInstance Amount Balance Policy PolicyStore Store Lifecycle Engine Inflight Coalesce Effect.
Close Scope Q_scope.
Open Scope Z_scope.

(** ** Moves *)

Lemma moves_refl b : moves acc_zero b b.
Proof. split; [by rewrite acc_add_zero_r|]. split; [|done]. apply implements_refl. Qed.

Lemma moves_trans e1 e2 b1 b2 b3 : moves e1 b1 b2 -> moves e2 b2 b3 -> moves (acc_add e1 e2) b1 b3.
Proof.
  intros (V1 & S1 & C1 & N1) (V2 & S2 & C2 & N2). split; [by rewrite V2, V1, acc_add_assoc|].
  split; [|split; auto]. unfold same_but_money in *. rewrite S2, S1. done.
Qed.

Lemma moves_init b : moves acc_zero b (InitializeBalanceFields b).
Proof.
  eapply moves_implements; [apply Initialize_implements|by rewrite acc_add_zero_r|].
  rewrite acc_add_zero_r. done.
Qed.

Definition posting_kind (inflight : bool) : kind := if inflight then Hold else Direct.

Lemma moves_debit b n inflight : 0 <= n ->
  moves (source_effect (posting_kind inflight) n) b (computeBalance (addDebit b n inflight) inflight).
Proof.
  intros Hn. eapply moves_implements; [apply debit_implements| |].
  - unfold debit, posting_kind. destruct (view b), inflight; account_eq.
  - unfold nonneg, posting_kind. destruct inflight; cbn; lia.
Qed.
Lemma moves_credit b n inflight : 0 <= n ->
  moves (destination_effect (posting_kind inflight) n) b (computeBalance (addCredit b n inflight) inflight).
Proof.
  intros Hn. eapply moves_implements; [apply credit_implements| |].
  - unfold credit, posting_kind. destruct (view b), inflight; account_eq.
  - unfold nonneg, posting_kind. destruct inflight; cbn; lia.
Qed.

(** Each object of the heap moved by its effect. *)
Definition heap_moves (e : string -> account) (h h' : heap) : Prop :=
  forall p, option_Forall2 (moves (e p)) (h !! p) (h' !! p).

Lemma heap_moves_trans e1 e2 h1 h2 h3 :
  heap_moves e1 h1 h2 -> heap_moves e2 h2 h3 -> heap_moves (fun p => acc_add (e1 p) (e2 p)) h1 h3.
Proof.
  intros H1 H2 p. specialize (H1 p). specialize (H2 p). destruct H1 as [b1 b2 M1|].
  - inversion H2; subst. constructor. by eapply moves_trans.
  - inversion H2. constructor.
Qed.
Lemma heap_moves_ext e1 e2 h h' : (forall p, e1 p = e2 p) -> heap_moves e1 h h' -> heap_moves e2 h h'.
Proof. intros E H p. rewrite <- E. apply H. Qed.

(** One object changed. *)
Definition only (p : string) (e : account) (q : string) : account := if String.eqb p q then e else acc_zero.

Lemma heap_moves_alter f p e h : (forall b, moves e b (f b)) -> heap_moves (only p e) h (alter f p h).
Proof.
  intros Hf q. rewrite lookup_alter. unfold only. destruct (decide (p = q)) as [<-|Hne].
  - rewrite String.eqb_refl. destruct (h !! p); cbn; by constructor.
  - apply String.eqb_neq in Hne as ->. destruct (h !! q); constructor. apply moves_refl.
Qed.
Lemma heap_moves_insert p b b' e h : h !! p = Some b -> moves e b b' -> heap_moves (only p e) h (<[p := b']> h).
Proof.
  intros Hp Hm q. unfold only. destruct (decide (p = q)) as [<-|Hne].
  - rewrite String.eqb_refl, Hp, lookup_insert_eq. by constructor.
  - rewrite lookup_insert_ne by done. apply String.eqb_neq in Hne as ->. destruct (h !! q); constructor. apply moves_refl.
Qed.

Section Prepare.
Context {Dops : DecimalOps} {Dlaws : DecimalLaws}.

Lemma canProcess_moves t b b' r : canProcessTransaction t b = (b', r) -> moves acc_zero b b'.
Proof.
  unfold canProcessTransaction. destruct (_ && _); [intros [= <- <-]; apply moves_refl|].
  intros H. assert (b' = InitializeBalanceFields b) as -> by (repeat case_match; congruence). apply moves_init.
Qed.

Lemma UpdateBalances_at_moves t s d h h' t' b :
  h !! s = Some b -> UpdateBalances_at t s d h = (h', t', Ok tt) ->
  exists n, 0 < n /\ t_PreciseAmount t' = Some n /\ same_but_amount t t' /\
  heap_moves (fun p => acc_add (only s (source_effect (posting_kind (t_Inflight t)) n) p)
                               (only d (destination_effect (posting_kind (t_Inflight t)) n) p)) h h'.
Proof.
  intros Hs. unfold UpdateBalances_at. destruct (ApplyPrecisionChecked t) as [[n t1]|] eqn:HA; [|done].
  assert (0 < n /\ same_but_amount t t1) as [Hn Hsame].
  { destruct (ApplyPrecisionChecked_spec _ _ _ HA) as (H1 & _ & _ & _ & H2 & _). done. }
  assert (t_Inflight t1 = t_Inflight t) as Hi by (by rewrite Hsame).
  unfold deref. rewrite Hs. cbn [default from_option id].
  destruct (canProcessTransaction {| t1 with t_PreciseAmount := Some n |} b) as [b1 [[]|]] eqn:Hc; [|done].
  intros [= <- <-]. exists n. split; [done|]. split; [done|]. split; [by rewrite Hsame|]. cbn [t_Inflight]. rewrite Hi.
  eapply heap_moves_ext; [|eapply heap_moves_trans; [eapply heap_moves_trans; [eapply heap_moves_trans; [eapply heap_moves_trans|]|]|]].
  2: eapply heap_moves_insert; [exact Hs|by eapply canProcess_moves].
  2: apply heap_moves_alter, moves_init.
  2: apply heap_moves_alter, moves_init.
  2: apply heap_moves_alter; intros; apply (moves_debit _ n (t_Inflight t)); lia.
  2: apply heap_moves_alter; intros; apply (moves_credit _ n (t_Inflight t)); lia.
  intros p. cbn beta. unfold only. by destruct (String.eqb s p), (String.eqb d p); rewrite ?acc_add_zero_l, ?acc_add_zero_r.
Qed.

(** The row that is inserted for a prepared transaction, but for its metadata. *)
Definition planned (t : Transaction) : txn_row := row_of t (t_AmountString t, default 0 (t_PreciseAmount t)).

(** What makes a transaction eligible, as far as its effect goes. *)
Definition eligible (t : Transaction) : Prop := t_Status t = StatusQueued /\ t_QueueAction t = ""%string.

Lemma eligible_conditions t : fst (coalescing_conditions t) = true -> eligible t.
Proof.
  unfold coalescing_conditions, eligible. intros H. repeat (case_match; [done|]). zbool. done.
Qed.

(** Where a prepared transaction comes from: only its amounts, its final
    status and its metadata differ from the queue copy. *)
Record prepared_from (t p : Transaction) (n : Z) : Prop := {
  pf_amount : t_PreciseAmount p = Some n;
  pf_positive : 0 < n;
  pf_source : t_Source p = t_Source t;
  pf_destination : t_Destination p = t_Destination t;
  pf_reference : t_Reference p = t_Reference t;
  pf_id : t_TransactionID p = t_TransactionID t;
  pf_parent : t_ParentTransaction p = t_ParentTransaction t;
  pf_kind : kind_of (t_Status p) (t_QueueAction p) = posting_kind (t_Inflight t) }.

Lemma post_at_moves t h p h' :
  eligible t -> (forall q b, h !! q = Some b -> b_BalanceID b = q) ->
  is_Some (h !! t_Source t) -> is_Some (h !! t_Destination t) ->
  post_at t h = Ok (p, h') ->
  (exists n, prepared_from t p.1 n) /\ heap_moves (fun q => effect_on q (planned p.1)) h h'.
Proof.
  intros [Hst Hqa] Hid [bs Hs] [bd Hd]. unfold post_at, deref. rewrite Hs, Hd. cbn [default from_option id].
  pose proof (Hid _ _ Hs) as Is. pose proof (Hid _ _ Hd) as Id.
  set (f := updateTransactionDetails t bs bd). unfold processBalances, applyTransaction_at.
  assert (t_Status f = if t_Inflight t then StatusInflight else StatusApplied) as Hf by (subst f; cbn; by rewrite Hst).
  assert (String.eqb (t_Status f) StatusCommit || String.eqb (t_Status f) StatusVoid = false) as ->
    by (rewrite Hf; by destruct (t_Inflight t)).
  destruct (UpdateBalances_at f (t_Source t) (t_Destination t) h) as [[h1 t1] [[]|]] eqn:HU; [|done].
  destruct (UpdateBalances_at_moves _ _ _ _ _ _ _ Hs HU) as (n & Hn & Hp & Hsame & Hm).
  assert (forall q e1 b, h1 !! q = Some e1 -> h !! q = Some b -> b_BalanceID e1 = q) as Hid1.
  { intros q e1 b H1 H2. specialize (Hm q). rewrite H1, H2 in Hm. inversion Hm as [? ? (_ & Sm & _)|]; subst.
    rewrite Sm. cbn. by apply Hid. }
  pose proof (Hm (t_Source t)) as Ms. pose proof (Hm (t_Destination t)) as Md.
  rewrite Hs in Ms. rewrite Hd in Md. inversion Ms as [? s1 _ E1 E2|]. inversion Md as [? d1 _ E3 E4|]. subst.
  symmetry in E2, E4. pose proof (Hid1 _ _ _ E2 Hs) as Is1. pose proof (Hid1 _ _ _ E4 Hd) as Id1.
  cbn [default from_option id]. unfold buildTransactionExecutionWork.
  set (u := updateTransactionDetails t1 s1 d1).
  assert (t_PreciseAmount u = Some n) as Hu by (by subst u). rewrite Hu.
  destruct (n =? 0) eqn:E0; zbool; [lia|]. cbn [w_transaction w_outbox]. intros H. apply Ok_inj in H as [= <- <-]. cbn [fst].
  set (c := clearTerminalInflightMetadata u).
  assert (t_Inflight f = t_Inflight t /\ t_Status t1 = t_Status f /\ t_Inflight t1 = t_Inflight t /\ t_QueueAction t1 = t_QueueAction t)
    as (If & St1 & In1 & Qa1) by (by rewrite Hsame).
  assert (t_Status u = if t_Inflight t then StatusInflight else StatusApplied) as Hus.
  { subst u. cbn. rewrite St1, In1, Hf. by destruct (t_Inflight t). }
  assert (t_PreciseAmount c = Some n /\ t_Source c = t_Source t /\ t_Destination c = t_Destination t /\ t_Reference c = t_Reference t /\
    t_TransactionID c = t_TransactionID t /\ t_ParentTransaction c = t_ParentTransaction t /\
    t_Status c = t_Status u /\ t_QueueAction c = t_QueueAction t) as (C1 & C2 & C3 & C4 & C5 & C6 & C7 & C8).
  { subst c. unfold clearTerminalInflightMetadata. destruct (String.eqb (t_Status u) StatusInflight);
      subst u; cbn; rewrite ?Is1, ?Id1, ?Qa1; split_and!; try done; by rewrite Hsame. }
  assert (kind_of (t_Status c) (t_QueueAction c) = posting_kind (t_Inflight t)) as Hk.
  { rewrite C7, C8, Hus, Hqa. by destruct (t_Inflight t). }
  split; [exists n; by split|].
  eapply heap_moves_ext; [|exact Hm]. intros q. unfold effect_on, row_kind, planned, only. cbn.
  rewrite C1, C2, C3, Hk. cbn [default from_option id]. by destruct (String.eqb (t_Source t) q), (String.eqb (t_Destination t) q).
Qed.

Lemma heap_moves_ids e h h' : heap_moves e h h' ->
  (forall q b, h !! q = Some b -> b_BalanceID b = q) -> forall q b, h' !! q = Some b -> b_BalanceID b = q.
Proof.
  intros Hm Hid q b Hq. specialize (Hm q). rewrite Hq in Hm. inversion Hm as [b0 ? (_ & Sm & _) E|]; subst.
  rewrite Sm. cbn. by apply Hid.
Qed.
Lemma heap_moves_dom e h h' q : heap_moves e h h' -> is_Some (h !! q) <-> is_Some (h' !! q).
Proof.
  intros Hm. specialize (Hm q). destruct Hm; split; intros [? ?]; eauto; done.
Qed.

(** A batch moves every object by the effects of its rows. *)
Lemma post_all_moves ts h ps h' :
  Forall eligible ts -> (forall q b, h !! q = Some b -> b_BalanceID b = q) ->
  Forall (fun t => is_Some (h !! t_Source t) /\ is_Some (h !! t_Destination t)) ts ->
  post_all ts h = Ok (ps, h') ->
  Forall2 (fun t p => exists n, prepared_from t p.1 n) ts ps /\
  heap_moves (journal ((fun p => planned p.1) <$> ps)) h h'.
Proof.
  revert h ps. induction ts as [|t ts IH]; intros h ps He Hid Hin H; cbn [post_all] in H.
  { apply Ok_inj in H as [= <- <-]. split; [constructor|]. intros q. cbn. destruct (h !! q); constructor. apply moves_refl. }
  apply Forall_cons in He as [He Hes]. apply Forall_cons in Hin as [[Hs Hd] Hins].
  apply res_bind_Ok in H as ([p h1] & Hp & H). apply res_bind_Ok in H as ([qs h2] & Hq & H).
  apply Ok_inj in H as [= <- <-]. cbn [fst snd] in *.
  destruct (post_at_moves t h p h1 He Hid Hs Hd Hp) as [Hfrom Hm].
  destruct (IH h1 qs Hes) as [Hfs Hms]; [by eapply heap_moves_ids|..|done|].
  { eapply Forall_impl; [exact Hins|]. intros t' [H1 H2]. by rewrite <- !(heap_moves_dom _ _ _ _ Hm). }
  split; [by constructor|]. rewrite fmap_cons. eapply heap_moves_ext; [|by eapply heap_moves_trans].
  intros q. done.
Qed.
End Prepare.

(** ** The batched update *)

Definition write_all (rows : gmap string Balance) (l : list Balance) : gmap string Balance :=
  foldl (fun rows b => alter (write_amounts b) (b_BalanceID b) rows) rows l.

Lemma write_all_other rows l id : id ∉ b_BalanceID <$> l -> write_all rows l !! id = rows !! id.
Proof.
  revert rows. induction l as [|b l IH]; intros rows; [done|]. rewrite fmap_cons, not_elem_of_cons. intros [Hne Hn].
  cbn [write_all foldl]. unfold write_all in IH. rewrite IH by done. by rewrite lookup_alter_ne.
Qed.
Lemma write_all_lookup rows l b : NoDup (b_BalanceID <$> l) -> b ∈ l ->
  write_all rows l !! b_BalanceID b = write_amounts b <$> rows !! b_BalanceID b.
Proof.
  revert rows. induction l as [|b0 l IH]; intros rows Hnd Hb; [by apply not_elem_of_nil in Hb|].
  rewrite fmap_cons in Hnd. apply NoDup_cons in Hnd as [Hn Hnd]. cbn [write_all foldl].
  apply elem_of_cons in Hb as [->|Hb].
  - fold (write_all (alter (write_amounts b0) (b_BalanceID b0) rows) l). rewrite write_all_other by done. apply lookup_alter_eq.
  - specialize (IH (alter (write_amounts b0) (b_BalanceID b0) rows) Hnd Hb). unfold write_all in IH. rewrite IH.
    rewrite lookup_alter_ne; [done|]. intros E. apply Hn. rewrite E. by apply list_elem_of_fmap_2.
Qed.

(** [db'] is [db] with the balances of [l] written, all of which were current. *)
Record set_updated (db : ledger_db) (l : list Balance) (db' : ledger_db) : Prop := {
  su_amounts : forall b, b ∈ l -> has_amounts b = true;
  su_current : forall b, b ∈ l -> current db b = true;
  su_db : db' = {| db with ld_balances := write_all (ld_balances db) l |} }.

Lemma chunk_updated db l db' : updateBalanceChunk db l = Ok db' -> set_updated db l db'.
Proof.
  unfold updateBalanceChunk. destruct (forallb has_amounts l) eqn:E1; cbn [negb]; [|done].
  destruct (List.find _ l) eqn:E2; [done|]. intros H. apply Ok_inj in H as <-. split; [..|done].
  - intros b Hb. rewrite forallb_forall in E1. by apply E1, list_elem_of_In.
  - intros b Hb%list_elem_of_In. pose proof (List.find_none _ _ E2 b Hb) as H. cbn beta in H. by destruct (current db b).
Qed.

Lemma set_updated_app db l1 l2 db1 db2 : NoDup (b_BalanceID <$> l1 ++ l2) ->
  set_updated db l1 db1 -> set_updated db1 l2 db2 -> set_updated db (l1 ++ l2) db2.
Proof.
  rewrite fmap_app. intros (_ & Hdisj & _)%NoDup_app [A1 C1 ->] [A2 C2 ->]. split.
  - intros b. rewrite elem_of_app. naive_solver.
  - intros b [Hb|Hb]%elem_of_app; [by apply C1|]. specialize (C2 b Hb). unfold current in *. cbn [ld_balances] in C2.
    rewrite write_all_other in C2; [done|]. intros Hin. eapply Hdisj; [exact Hin|]. by apply list_elem_of_fmap_2.
  - unfold write_all. cbn. by rewrite foldl_app.
Qed.

Lemma set_updated_nil db : set_updated db [] db.
Proof. split; [by intros ? ?%not_elem_of_nil..|]. by destruct db. Qed.

Lemma chunks_updated fuel db l db' : (length l <= fuel)%nat -> NoDup (b_BalanceID <$> l) ->
  update_chunks fuel db l = Ok db' -> set_updated db l db'.
Proof.
  revert db l. induction fuel as [|fuel IH]; intros db l Hl Hnd H.
  { destruct l; [|cbn in Hl; lia]. apply Ok_inj in H as <-. apply set_updated_nil. }
  destruct l as [|b l]; [apply Ok_inj in H as <-; apply set_updated_nil|].
  cbn [update_chunks] in H. apply res_bind_Ok in H as (db1 & H1 & H). apply chunk_updated in H1.
  pose proof (take_drop maxBalancesPerUpdateChunk (b :: l)) as E. rewrite <- E in Hnd |- *.
  eapply set_updated_app; [done|exact H1|]. apply IH; [| |done].
  - rewrite length_drop. assert (1 <= maxBalancesPerUpdateChunk)%nat by (apply Nat.leb_le; reflexivity). cbn [length] in *. lia.
  - rewrite fmap_app in Hnd. by apply NoDup_app in Hnd as (_ & _ & ?).
Qed.

Lemma unique_balances_id seen l : (forall b, b ∈ l -> b_BalanceID b <> ""%string /\ b_BalanceID b ∉ seen) ->
  NoDup (b_BalanceID <$> l) -> unique_balances seen l = l.
Proof.
  revert seen. induction l as [|b l IH]; intros seen Hl Hnd; [done|]. rewrite fmap_cons in Hnd.
  apply NoDup_cons in Hnd as [Hn Hnd]. destruct (Hl b ltac:(left)) as [H1 H2]. cbn [unique_balances].
  apply String.eqb_neq in H1 as ->. cbn [orb]. destruct (existsb _ seen) eqn:E.
  { apply existsb_exists in E as (x & Hx & E). apply String.eqb_eq in E as <-. by apply list_elem_of_In in Hx. }
  f_equal. apply IH; [|done]. intros b' Hb'. destruct (Hl b' ltac:(by right)) as [H3 H4]. split; [done|].
  rewrite not_elem_of_cons. split; [|done]. intros E'. apply Hn. rewrite <- E'. by apply list_elem_of_fmap_2.
Qed.

Lemma updateBalanceSet_updated db l db' : Forall (fun b => b_BalanceID b <> ""%string) l -> NoDup (b_BalanceID <$> l) ->
  updateBalanceSet db l = Ok db' -> set_updated db l db'.
Proof.
  intros Hne Hnd. unfold updateBalanceSet. rewrite unique_balances_id; [by apply chunks_updated|..|done].
  intros b Hb. rewrite Forall_forall in Hne. split; [by apply Hne|apply not_elem_of_nil].
Qed.

(** The objects of a heap, written under their own ids. *)
Lemma object_ids (h : gmap string Balance) (ids : list string) : (forall q, q ∈ ids -> b_BalanceID (deref h q) = q) -> b_BalanceID <$> (deref h <$> ids) = ids.
Proof.
  intros Hid. rewrite <- list_fmap_compose. transitivity (id <$> ids); [|by rewrite list_fmap_id].
  apply list_fmap_ext. intros i q Hq. apply Hid. by eapply list_elem_of_lookup_2.
Qed.
Lemma objects_updated db (h : gmap string Balance) (ids : list string) db' :
  NoDup ids -> ""%string ∉ ids -> (forall q, q ∈ ids -> b_BalanceID (deref h q) = q) ->
  updateBalanceSet db (deref h <$> ids) = Ok db' -> set_updated db (deref h <$> ids) db'.
Proof.
  intros Hnd Hne Hid. apply updateBalanceSet_updated; [|by rewrite object_ids].
  apply Forall_fmap, Forall_forall. intros q Hq. cbn. rewrite Hid by done. by intros ->.
Qed.
Lemma object_written rows (h : gmap string Balance) (ids : list string) q :
  NoDup ids -> (forall q, q ∈ ids -> b_BalanceID (deref h q) = q) -> q ∈ ids ->
  write_all rows (deref h <$> ids) !! q = write_amounts (deref h q) <$> rows !! q.
Proof.
  intros Hnd Hid Hq. pose proof (write_all_lookup rows (deref h <$> ids) (deref h q)) as W.
  rewrite object_ids, Hid in W by done. by apply W, list_elem_of_fmap_2.
Qed.

(** ** The rows of a batch *)

(** The rows as planned, but for their metadata, which a trigger may extend. *)
Definition journal_rows : list txn_row -> list txn_row -> Prop :=
  Forall2 (fun r r' => exists m, r' = {| r with x_meta := m |}).

Lemma journal_rows_from rows rows' r' : journal_rows rows rows' -> r' ∈ rows' ->
  exists r, r ∈ rows /\ x_source r' = x_source r /\ x_destination r' = x_destination r.
Proof.
  intros H [i Hi]%list_elem_of_lookup. destruct (Forall2_lookup_r _ _ _ _ _ H Hi) as (r & Hr & m & ->).
  exists r. split; [by eapply list_elem_of_lookup_2|done].
Qed.

Lemma insert_all_inserted rows db db' : fold_res insert_transaction rows db = Ok db' ->
  exists rows', journal_rows rows rows' /\
    ld_txns db' = ld_txns db ++ rows' /\ ld_balances db' = ld_balances db /\ ld_outbox db' = ld_outbox db.
Proof.
  revert db. induction rows as [|r rows IH]; intros db H; cbn [fold_res] in H.
  { apply Ok_inj in H as <-. exists []. rewrite app_nil_r. by split_and!; [constructor|..]. }
  apply res_bind_Ok in H as (db1 & H1 & H). apply insert_inserted in H1 as [row Hi].
  destruct (IH db1 H) as (rows' & F & E1 & E2 & E3). exists (row :: rows').
  rewrite E1, E2, E3, (ins_txns _ _ _ _ Hi), (ins_balances _ _ _ _ Hi), (ins_outbox _ _ _ _ Hi), <- app_assoc.
  split_and!; try done. constructor; [|done]. apply (ins_row _ _ _ _ Hi).
Qed.

Lemma journal_same_but_meta rows rows' id :
  journal_rows rows rows' -> journal rows' id = journal rows id.
Proof. induction 1 as [|r r' rows rows' [m ->] _ IH]; [done|]. cbn. unfold journal in IH. by rewrite IH. Qed.

Lemma record_all_rows ts db db' : recordTransactionsInTx db ts = Ok db' ->
  Forall (fun t => is_ok (persistNumericColumns t) = true) ts /\ fold_res insert_transaction (planned <$> ts) db = Ok db'.
Proof.
  unfold recordTransactionsInTx. intros H. apply res_bind_Ok in H as (rows & Hr & H).
  assert (Forall (fun t => is_ok (persistNumericColumns t) = true) ts /\ rows = planned <$> ts) as [Hf ->].
  { clear H. revert rows Hr. induction ts as [|t ts IH]; intros rows Hr; cbn [map_res] in Hr.
    { by apply Ok_inj in Hr as <-. }
    apply res_bind_Ok in Hr as (r & H1 & Hr). apply res_bind_Ok in Hr as (rs & H2 & Hr). apply Ok_inj in Hr as <-.
    destruct (IH rs H2) as [Hf ->]. unfold persistNumericColumns in H1. destruct (String.eqb (t_AmountString t) "") eqn:Ea; [done|].
    destruct (t_PreciseAmount t) as [n|] eqn:En; [|done]. apply Ok_inj in H1 as <-.
    split; [constructor; [unfold persistNumericColumns; by rewrite Ea, En|done]|]. rewrite fmap_cons. f_equal. unfold planned. by rewrite En. }
  split; [done|]. by destruct (fold_res _ _ _); [apply Ok_inj in H as <-|].
Qed.
