(* ===== verification/Journal.v ===== *)
(** * The ledger equals its journal

    The transactions table is the journal of the ledger: every balance is the
    sum of the effects of the rows that name it.  The invariant is proved over
    runs of the store in which postings are prepared on balances that were read
    at any earlier moment, so it does not rely on the Redis locks: what makes
    it hold is the version check of [updateBalance].  The handlers of the
    executor are then shown to perform such runs. *)
From stdpp Require Import base option list strings gmap.
From Stdlib Require Import ZArith Lia.
From S2P Require Import Prelude GoFloat Model Decimal DecimalInstance Amount Balance Policy PolicyStore Store Lifecycle Engine Inflight Coalesce Effect Batch.
Close Scope Q_scope.
Open Scope Z_scope.

(** ** The version check *)

(** What a successful [updateBalance] did. *)
Record updated (db : ledger_db) (b : Balance) (db' : ledger_db) (row row' : Balance) : Prop := {
  up_row : ld_balances db !! b_BalanceID b = Some row;
  up_version : b_Version row = b_Version b;
  up_balances : ld_balances db' = <[b_BalanceID b := row']> (ld_balances db);
  up_money : same_money row' b;
  up_next : b_Version row' = b_Version row + 1;
  up_id : b_BalanceID row' = b_BalanceID row;
  up_txns : ld_txns db' = ld_txns db;
  up_outbox : ld_outbox db' = ld_outbox db }.

Lemma updateBalance_updated db b db' b' :
  updateBalance db b = Ok (db', b') -> exists row row', updated db b db' row row'.
Proof.
  unfold updateBalance.
  destruct (b_Balance b) eqn:E1; [|done]. destruct (b_CreditBalance b) eqn:E2; [|done].
  destruct (b_DebitBalance b) eqn:E3; [|done]. destruct (b_InflightBalance b) eqn:E4; [|done].
  destruct (b_InflightCreditBalance b) eqn:E5; [|done]. destruct (b_InflightDebitBalance b) eqn:E6; [|done].
  destruct (ld_balances db !! b_BalanceID b) as [row|] eqn:Er; [|done].
  destruct (negb _) eqn:Ev; [done|]. intros [= <- <-]. zbool. eexists row, _.
  split; try reflexivity; done.
Qed.

(** *** The outbox *)

(** Ids count the entries. *)
Definition numbered (l : list LineageOutbox) : Prop := forall i e, l !! i = Some e -> lo_ID e = Z.of_nat i + 1.
(** Entries are only added, with the next ids. *)
Definition outbox_grows (l l' : list LineageOutbox) : Prop := l `prefix_of` l' /\ (numbered l -> numbered l').
#[export] Instance outbox_grows_preorder : PreOrder outbox_grows.
Proof.
  split; unfold outbox_grows; [done|]. intros a b c [H1 H2] [H3 H4]. split; [by transitivity b|auto].
Qed.

Lemma insert_outbox_grows db o db' : InsertLineageOutboxInTx db o = Ok db' -> outbox_grows (ld_outbox db) (ld_outbox db').
Proof.
  unfold InsertLineageOutboxInTx. destruct (existsb _ _); [done|]. intros [= <-]. split; [by apply prefix_app_r|].
  intros Hn i e. cbn. rewrite lookup_app_Some. intros [H|[Hl H]]; [by apply Hn|].
  apply list_lookup_singleton_Some in H as [Hi <-]. cbn. lia.
Qed.

(** The two updates and the insert of a posting. *)
Lemma posting_inv db t s d o db' t' :
  RecordTransactionWithBalancesAndOutbox db t s d o = Ok (db', t') ->
  exists db1 db2 srow srow' drow drow' n row db3,
    updated db s db1 srow srow' /\ updated db1 d db2 drow drow' /\
    t_PreciseAmount t = Some n /\ inserted db2 (row_of t (t_AmountString t, n)) db3 row /\
    ld_balances db' = ld_balances db3 /\ ld_txns db' = ld_txns db3 /\ outbox_grows (ld_outbox db3) (ld_outbox db').
Proof.
  unfold RecordTransactionWithBalancesAndOutbox, RecordTransactionWithBalances. intros H.
  apply res_bind_Ok in H as ([db3 t3] & H & Ho). apply res_bind_Ok in H as ([db1 s1] & H1 & H).
  apply res_bind_Ok in H as ([db2 d1] & H2 & H). apply res_bind_Ok in H as (db4 & H & E).
  apply Ok_inj in E as [= -> ->]. cbn [fst] in H2, H.
  apply updateBalance_updated in H1 as (srow & srow' & H1). apply updateBalance_updated in H2 as (drow & drow' & H2).
  unfold recordTransactionInTx, persistNumericColumns in H. destruct (String.eqb (t_AmountString t3) ""); [done|].
  destruct (t_PreciseAmount t3) as [n|] eqn:En; [|done].
  destruct (insert_transaction _ _) as [db5|] eqn:Ei; [|done]. apply Ok_inj in H as ->.
  apply insert_inserted in Ei as [row Ei].
  exists db1, db2, srow, srow', drow, drow', n, row, db3.
  destruct o as [o|]; [|apply Ok_inj in Ho as [= -> ->]; by split_and!].
  cbn [fst] in Ho. destruct (InsertLineageOutboxInTx db3 o) as [db6|] eqn:Eo; [|done].
  apply Ok_inj in Ho as [= <- <-]. pose proof (insert_outbox_grows _ _ _ Eo) as Hg.
  unfold InsertLineageOutboxInTx in Eo. destruct (existsb _ _); [done|]. apply Ok_inj in Eo as <-. by split_and!.
Qed.

Lemma posting_outbox db t s d o db' t' :
  RecordTransactionWithBalancesAndOutbox db t s d o = Ok (db', t') -> outbox_grows (ld_outbox db) (ld_outbox db').
Proof.
  intros (db1 & db2 & ? & ? & ? & ? & ? & ? & db3 & U1 & U2 & _ & Hins & _ & _ & Ho)%posting_inv.
  by rewrite (ins_outbox _ _ _ _ Hins), (up_outbox _ _ _ _ _ U2), (up_outbox _ _ _ _ _ U1) in Ho.
Qed.

(** Two rows of distinct balances replaced by their moved values, and the
    journal row that says so. *)
Lemma journal_post db db' s d srow srow' drow drow' row n :
  journal_ok db -> ld_balances db !! b_BalanceID s = Some srow -> ld_balances db !! b_BalanceID d = Some drow ->
  b_BalanceID s <> b_BalanceID d ->
  ld_balances db' = <[b_BalanceID d := drow']> (<[b_BalanceID s := srow']> (ld_balances db)) ->
  ld_txns db' = ld_txns db ++ [row] ->
  x_source row = b_BalanceID s -> x_destination row = b_BalanceID d -> x_precise row = n ->
  b_BalanceID srow' = b_BalanceID s -> coherent srow' -> nonneg srow' ->
  view srow' = acc_add (view srow) (source_effect (row_kind row) n) ->
  b_BalanceID drow' = b_BalanceID d -> coherent drow' -> nonneg drow' ->
  view drow' = acc_add (view drow) (destination_effect (row_kind row) n) ->
  b_Version srow' = b_Version srow + 1 -> b_Version drow' = b_Version drow + 1 ->
  journal_ok db' /\ versions_le db db'.
Proof.
  intros Hok S0 D0 Hne Hb Ht R1 R2 R3 S1 S2 S3 S4 D1 D2 D3 D4 VS VD.
  pose proof (j_balance _ Hok _ _ S0) as (_ & _ & _ & Sj). pose proof (j_balance _ Hok _ _ D0) as (_ & _ & _ & Dj).
  assert (forall id b, ld_balances db' !! id = Some b ->
    (id = b_BalanceID d /\ b = drow') \/ (id = b_BalanceID s /\ b = srow') \/
    (id <> b_BalanceID d /\ id <> b_BalanceID s /\ ld_balances db !! id = Some b)) as Hcases.
  { intros id b. rewrite Hb, !lookup_insert_Some. naive_solver. }
  split.
  - split.
    + intros id b Hl. rewrite Ht, journal_snoc. unfold effect_on. rewrite R1, R2, R3.
      destruct (Hcases id b Hl) as [[-> ->]|[[-> ->]|(N1 & N2 & Hold)]].
      * rewrite (proj2 (String.eqb_neq _ _) Hne), String.eqb_refl, acc_add_zero_l. by rewrite <- Dj.
      * assert (b_BalanceID d <> b_BalanceID s) as Hne' by done.
        rewrite (proj2 (String.eqb_neq _ _) Hne'), String.eqb_refl, acc_add_zero_r. by rewrite <- Sj.
      * rewrite (proj2 (String.eqb_neq _ _) (not_eq_sym N1)), (proj2 (String.eqb_neq _ _) (not_eq_sym N2)).
        rewrite !acc_add_zero_r. by apply j_balance.
    + assert (forall i, is_Some (ld_balances db !! i) -> is_Some (ld_balances db' !! i)) as Hmono.
      { intros i Hi. rewrite Hb, !lookup_insert_is_Some'. auto. }
      intros r. rewrite Ht, elem_of_app, list_elem_of_singleton. intros [Hr| ->] Hk.
      * destruct (j_known _ Hok r Hr Hk). auto.
      * rewrite R1, R2. split; apply Hmono; eauto.
  - intros id b0 H0. rewrite Hb. destruct (decide (id = b_BalanceID d)) as [->|N1].
    { exists drow'. rewrite lookup_insert_eq. simplify_eq. split_and!; [done|lia|lia]. }
    destruct (decide (id = b_BalanceID s)) as [->|N2].
    { exists srow'. rewrite lookup_insert_ne, lookup_insert_eq by done. simplify_eq. split_and!; [done|lia|lia]. }
    exists b0. rewrite !lookup_insert_ne by done. by split_and!.
Qed.

(** ** Runs of the store *)

(** [s] was read at some moment of the run. *)
Definition known (trace : list ledger_db) (s : Balance) : Prop :=
  exists p, p ∈ trace /\ reading p s.

(** Two stores with the same money: only metadata, the outbox, the policy
    tables, the claims or the id counter differ. *)
Definition quiet (db db' : ledger_db) : Prop :=
  (exists f, ld_txns db' = with_meta f <$> ld_txns db) /\
  (forall id, option_Forall2 (fun b b' => same_money b' b /\ b_Version b' = b_Version b /\
                                          b_BalanceID b' = b_BalanceID b)
     (ld_balances db !! id) (ld_balances db' !! id)).

Section Runs.
Context {Dops : DecimalOps} {Dlaws : DecimalLaws}.
Variable GenerateUUIDWithSuffix : string -> nat -> string.

(** One committed database transaction, in a run whose states are [trace]. *)
Inductive ledger_step (trace : list ledger_db) (db db' : ledger_db) : Prop :=
| step_post t s d t1 s1 d1 w t2 :
    well_formed t -> known trace s -> known trace d ->
    applyTransactionToBalances t s d = Ok (t1, s1, d1) ->
    buildTransactionExecutionWork t1 s1 d1 = (w, false) ->
    RecordTransactionWithBalancesAndOutbox db (w_transaction w) (w_sourceBalance w)
      (w_destinationBalance w) (w_outbox w) = Ok (db', t2) ->
    ledger_step trace db db'
| step_intent t t2 :
    kind_of (t_Status t) (t_QueueAction t) = Intent ->
    RecordTransaction db t = Ok (db', t2) ->
    ledger_step trace db db'
| step_batch ids h h' ts ps r :
    NoDup ids -> ""%string ∉ ids -> (forall q, q ∈ ids -> is_Some (h !! q)) ->
    (forall q b, h !! q = Some b -> b_BalanceID b = q /\ known trace b) ->
    Forall eligible ts -> Forall (fun t => t_Source t ∈ ids /\ t_Destination t ∈ ids) ts ->
    post_all ts h = Ok (ps, h') ->
    RecordTransactionsWithBalanceSetAndOutboxes db (fst <$> ps) (deref h' <$> ids) (omap snd ps) = Ok (db', r) ->
    ledger_step trace db db'
| step_create now b :
    same_money (InitializeBalanceFields b) (InitializeBalanceFields zero_balance) ->
    db' = fst (CreateBalance GenerateUUIDWithSuffix db now b) ->
    ledger_step trace db db'
| step_quiet : quiet db db' -> ledger_step trace db db'.

(** The states of a run, the latest first. *)
Inductive run : list ledger_db -> Prop :=
| run_start db : ld_txns db = [] -> ld_balances db = ∅ -> run [db]
| run_step db past db' :
    run (db :: past) -> ledger_step (db :: past) db db' -> run (db' :: db :: past).

(** *** One posting *)

Lemma known_current trace db s row v :
  (forall p, p ∈ trace -> versions_le p db) -> known trace s ->
  ld_balances db !! b_BalanceID s = Some row -> b_Version row = v ->
  b_Version s <= v /\ (b_Version s = v -> same_money row s).
Proof.
  intros Hle (p & Hp & b & Hb & Hm & Hv) Hrow <-.
  destruct (Hle p Hp _ _ Hb) as (row2 & Hrow2 & Hge & Heq). simplify_eq. rewrite Hv. split; [done|].
  intros E. rewrite (Heq E). exact Hm.
Qed.

(** The updated row after [moves]. *)
Lemma updated_moves db db' s s1 row row' e :
  updated db s1 db' row row' -> moves e s s1 -> same_money row s ->
  b_BalanceID row = b_BalanceID s -> coherent row -> nonneg row ->
  b_BalanceID row' = b_BalanceID s /\ coherent row' /\ nonneg row' /\ view row' = acc_add (view row) e.
Proof.
  intros Hu (Mv & Ms & Mc & Mn) Hm Hid Hc Hn.
  destruct (same_money_view _ _ Hm) as (Ev & Ec & En).
  destruct (same_money_view _ _ (up_money _ _ _ _ _ Hu)) as (Ev' & Ec' & En').
  rewrite (up_id _ _ _ _ _ Hu), Hid, Ev', Mv, Ev. split; [done|]. tauto.
Qed.

Lemma same_but_money_id b b' : same_but_money b b' -> b_BalanceID b' = b_BalanceID b /\ b_Version b' = b_Version b.
Proof. intros ->. done. Qed.

(** The row a posting inserts. *)
Lemma work_row t s d t1 s1 d1 w n :
  same_but_amount t t1 -> same_but_money s s1 -> same_but_money d d1 -> t_PreciseAmount t1 = Some n ->
  buildTransactionExecutionWork t1 s1 d1 = (w, false) ->
  w_sourceBalance w = s1 /\ w_destinationBalance w = d1 /\ t_PreciseAmount (w_transaction w) = Some n /\
  t_Source (w_transaction w) = b_BalanceID s /\ t_Destination (w_transaction w) = b_BalanceID d /\
  kind_of (t_Status (w_transaction w)) (t_QueueAction (w_transaction w)) = txn_kind t.
Proof.
  intros Ht [Hs _]%same_but_money_id [Hd _]%same_but_money_id Hn. unfold buildTransactionExecutionWork.
  destruct (match t_PreciseAmount _ with Some _ => _ | None => _ end); [done|]. intros [= <-].
  cbn [w_transaction w_sourceBalance w_destinationBalance]. unfold clearTerminalInflightMetadata, txn_kind, stored_status.
  set (u := updateTransactionDetails t1 s1 d1).
  assert (t_PreciseAmount u = Some n /\ t_Source u = b_BalanceID s /\ t_Destination u = b_BalanceID d /\
    kind_of (t_Status u) (t_QueueAction u) = kind_of (if t_Inflight t then StatusInflight else applicableStatus (t_Status t)) (t_QueueAction t)) as (U1 & U2 & U3 & U4).
  { subst u. unfold updateTransactionDetails. cbn. rewrite Hs, Hd. split_and!; try done. by rewrite Ht. }
  by destruct (String.eqb (t_Status u) StatusInflight); split_and!.
Qed.

Lemma post_step trace db db' t s d t1 s1 d1 w t2 :
  (forall p, p ∈ trace -> versions_le p db) -> journal_ok db ->
  well_formed t -> known trace s -> known trace d ->
  applyTransactionToBalances t s d = Ok (t1, s1, d1) ->
  buildTransactionExecutionWork t1 s1 d1 = (w, false) ->
  RecordTransactionWithBalancesAndOutbox db (w_transaction w) (w_sourceBalance w)
    (w_destinationBalance w) (w_outbox w) = Ok (db', t2) ->
  journal_ok db' /\ versions_le db db'.
Proof.
  intros Hle Hok Hwf Hs Hd Happ Hw Hrec.
  destruct (apply_moves t s d t1 s1 d1 Hwf Happ) as (n & Hn & Hpos & Hsame & Hkind & Ms & Md).
  destruct (work_row t s d t1 s1 d1 w n Hsame (proj1 (proj2 Ms)) (proj1 (proj2 Md)) Hn Hw)
    as (W1 & W2 & W3 & W4 & W5 & W6). rewrite W1, W2 in Hrec.
  destruct (same_but_money_id _ _ (proj1 (proj2 Ms))) as [Is Vs].
  destruct (same_but_money_id _ _ (proj1 (proj2 Md))) as [Id Vd].
  apply posting_inv in Hrec as (db1 & db2 & srow & srow' & drow & drow' & n' & row & db3 & U1 & U2 & Hn' & Hins & Hb & Ht & _).
  assert (n' = n) as -> by congruence.
  pose proof (up_row _ _ _ _ _ U1) as S0. pose proof (up_row _ _ _ _ _ U2) as D0.
  rewrite Is in S0. rewrite Id in D0. rewrite (up_balances _ _ _ _ _ U1), Is in D0.
  destruct (known_current _ _ _ _ _ Hle Hs S0 eq_refl) as [_ Smoney].
  rewrite (up_version _ _ _ _ _ U1), Vs in Smoney. specialize (Smoney eq_refl).
  (* the two balances differ, or the second update would find a newer version *)
  assert (b_BalanceID s <> b_BalanceID d) as Hne.
  { intros E. rewrite <- E, lookup_insert_eq in D0. simplify_eq. rewrite E in S0.
    destruct (known_current _ _ _ _ _ Hle Hd S0 eq_refl) as [Hv _].
    pose proof (up_next _ _ _ _ _ U1). pose proof (up_version _ _ _ _ _ U2). lia. }
  rewrite lookup_insert_ne in D0 by done.
  destruct (known_current _ _ _ _ _ Hle Hd D0 eq_refl) as [_ Dmoney].
  rewrite (up_version _ _ _ _ _ U2), Vd in Dmoney. specialize (Dmoney eq_refl).
  destruct (j_balance _ Hok _ _ S0) as (Sid & Sc & Sn & Sj), (j_balance _ Hok _ _ D0) as (Did & Dc & Dn & Dj).
  destruct (updated_moves _ _ _ _ _ _ _ U1 Ms Smoney Sid Sc Sn) as (S1 & S2 & S3 & S4).
  destruct (updated_moves _ _ _ _ _ _ _ U2 Md Dmoney Did Dc Dn) as (D1 & D2 & D3 & D4).
  assert (ld_balances db' = <[b_BalanceID d := drow']> (<[b_BalanceID s := srow']> (ld_balances db))) as Hbal.
  { rewrite Hb, (ins_balances _ _ _ _ Hins), (up_balances _ _ _ _ _ U2), (up_balances _ _ _ _ _ U1). by rewrite Is, Id. }
  assert (ld_txns db' = ld_txns db ++ [row]) as Htx.
  { by rewrite Ht, (ins_txns _ _ _ _ Hins), (up_txns _ _ _ _ _ U2), (up_txns _ _ _ _ _ U1). }
  destruct (ins_row _ _ _ _ Hins) as [m Hrow].
  assert (row_kind row = txn_kind t /\ x_source row = b_BalanceID s /\ x_destination row = b_BalanceID d /\ x_precise row = n)
    as (R1 & R2 & R3 & R4) by (by rewrite Hrow).
  apply (journal_post db db' s d srow srow' drow drow' row n Hok); try done; try (rewrite ?R1; done).
  - apply (up_next _ _ _ _ _ U1).
  - apply (up_next _ _ _ _ _ U2).
Qed.

(** *** A batch *)

Lemma outboxes_grow l db db' : insertLineageOutboxesInTx db l = Ok db' ->
  ld_txns db' = ld_txns db /\ ld_balances db' = ld_balances db /\ outbox_grows (ld_outbox db) (ld_outbox db').
Proof.
  unfold insertLineageOutboxesInTx. destruct (fold_res _ l db) as [db1|] eqn:E; [|done]. intros H. apply Ok_inj in H as ->.
  apply (fold_res_inv (fun d => ld_txns d = ld_txns db /\ ld_balances d = ld_balances db /\ outbox_grows (ld_outbox db) (ld_outbox d)) _ _ _ _ ltac:(done)) in E; [done|].
  intros o d1 d2 _ (H1 & H2 & H3) Ho. pose proof (insert_outbox_grows _ _ _ Ho) as Hg.
  unfold InsertLineageOutboxInTx in Ho. destruct (existsb _ _); [done|]. apply Ok_inj in Ho as <-.
  split_and!; [done|done|by transitivity (ld_outbox d1)].
Qed.

(** What a recorded batch leaves. *)
Lemma batch_inv db ts ids (h' : gmap string Balance) outboxes db' r :
  NoDup ids -> ""%string ∉ ids -> (forall q, q ∈ ids -> b_BalanceID (deref h' q) = q) ->
  RecordTransactionsWithBalanceSetAndOutboxes db ts (deref h' <$> ids) outboxes = Ok (db', r) ->
  exists rows, journal_rows (planned <$> ts) rows /\ ld_txns db' = ld_txns db ++ rows /\
    (forall q, q ∈ ids -> exists row, ld_balances db !! q = Some row /\ b_Version row = b_Version (deref h' q) /\
       ld_balances db' !! q = Some (write_amounts (deref h' q) row)) /\
    (forall q, q ∉ ids -> ld_balances db' !! q = ld_balances db !! q) /\
    outbox_grows (ld_outbox db) (ld_outbox db').
Proof.
  intros Hnd Hne Hid H. unfold RecordTransactionsWithBalanceSetAndOutboxes in H.
  apply res_bind_Ok in H as (db1 & H1 & H). apply res_bind_Ok in H as (db2 & H2 & H).
  destruct (insertLineageOutboxesInTx db2 outboxes) as [db3|] eqn:H3; [|done]. apply Ok_inj in H as [= -> _].
  apply objects_updated in H1 as [_ Hc ->]; [|done..].
  apply record_all_rows in H2 as [_ H2]. apply insert_all_inserted in H2 as (rows & F & E1 & E2 & E3).
  apply outboxes_grow in H3 as (G1 & G2 & G3). rewrite E3 in G3. exists rows. rewrite G1, G2, E1, E2. cbn [ld_balances ld_txns ld_outbox] in *.
  split_and!; try done.
  - intros q Hq. assert (deref h' q ∈ deref h' <$> ids) as Hin by (by apply list_elem_of_fmap_2).
    specialize (Hc _ Hin). unfold current in Hc. rewrite Hid in Hc by done. destruct (ld_balances db !! q) as [row|] eqn:Er; [|done].
    exists row. zbool. split_and!; try done. by rewrite object_written, Er.
  - intros q Hq. apply write_all_other. by rewrite object_ids.
Qed.

Lemma batch_step trace db db' ids h h' ts ps r :
  (forall p, p ∈ trace -> versions_le p db) -> journal_ok db ->
  NoDup ids -> ""%string ∉ ids -> (forall q, q ∈ ids -> is_Some (h !! q)) ->
  (forall q b, h !! q = Some b -> b_BalanceID b = q /\ known trace b) ->
  Forall eligible ts -> Forall (fun t => t_Source t ∈ ids /\ t_Destination t ∈ ids) ts ->
  post_all ts h = Ok (ps, h') ->
  RecordTransactionsWithBalanceSetAndOutboxes db (fst <$> ps) (deref h' <$> ids) (omap snd ps) = Ok (db', r) ->
  journal_ok db' /\ versions_le db db'.
Proof.
  intros Hle Hok Hnd Hne Hin Hkn Hel Hts Hpost Hrec.
  destruct (post_all_moves ts h ps h' Hel ltac:(by apply Hkn)) as [Hfrom Hm]; [|done|].
  { eapply Forall_impl; [exact Hts|]. intros t [H1 H2]. split; by apply Hin. }
  assert (forall q, q ∈ ids -> exists b b', h !! q = Some b /\ h' !! q = Some b' /\ deref h' q = b' /\
    moves (journal (planned <$> (fst <$> ps)) q) b b') as Hobj.
  { intros q Hq. destruct (Hin q Hq) as [b Hb]. pose proof (Hm q) as Hmq. rewrite Hb in Hmq.
    inversion Hmq as [? b' M E1 E2|]; subst. exists b, b'. unfold deref. rewrite <- E2. split_and!; try done.
    by rewrite <- list_fmap_compose. }
  destruct (batch_inv _ _ _ _ _ _ _ Hnd Hne ltac:(intros q Hq; destruct (Hobj q Hq) as (b & b' & Hb & _ & -> & _ & S & _); rewrite S; cbn; by apply Hkn) Hrec)
    as (rows & F & Htx & Hbal & Hoth & _).
  assert (forall r, r ∈ rows -> x_source r ∈ ids /\ x_destination r ∈ ids) as Hrows.
  { intros row Hrow. eapply journal_rows_from in Hrow as (p & Hp & E1 & E2); [|exact F]. rewrite E1, E2.
    apply list_elem_of_fmap in Hp as (u & -> & Hp). apply list_elem_of_fmap in Hp as (pr & -> & Hp).
    apply list_elem_of_lookup in Hp as [i Hp].
    destruct (Forall2_lookup_r _ _ _ _ _ Hfrom Hp) as (t & Ht & n & Hf). rewrite Forall_lookup in Hts.
    cbn. rewrite (pf_source _ _ _ Hf), (pf_destination _ _ _ Hf). by eapply Hts. }
  split; [split|].
  - intros q b Hq. rewrite Htx, journal_app. destruct (decide (q ∈ ids)) as [Hi|Hi].
    + destruct (Hobj q Hi) as (b0 & b1 & H0 & H1 & E & (Mv & Ms & Mc & Mn)). destruct (Hbal q Hi) as (row & R1 & R2 & R3).
      rewrite R3 in Hq. injection Hq as <-. rewrite E in *. destruct (Hkn q b0 H0) as [I0 K0].
      destruct (same_but_money_id _ _ Ms) as [_ V1]. rewrite <- I0 in R1 at 1.
      destruct (known_current _ _ _ _ _ Hle K0 R1 eq_refl) as [_ Hsm]. specialize (Hsm ltac:(congruence)). rewrite I0 in R1.
      destruct (j_balance _ Hok _ _ R1) as (J1 & J2 & J3 & J4). destruct (same_money_view _ _ Hsm) as (V & C & N).
      assert (same_money (write_amounts b1 row) b1) as Hw by done. destruct (same_money_view _ _ Hw) as (V' & C' & N').
      rewrite V', Mv, <- V, J4, (journal_same_but_meta _ _ _ F). split_and!; [done|tauto|tauto|done].
    + rewrite Hoth in Hq by done. rewrite (journal_none rows), acc_add_zero_r; [by apply j_balance|].
      intros row Hr _. destruct (Hrows row Hr) as [H1 H2]. split; intros E; by rewrite E in *.
  - assert (forall i, is_Some (ld_balances db !! i) -> is_Some (ld_balances db' !! i)) as Hmono.
    { intros i Hi. destruct (decide (i ∈ ids)) as [Hii|Hii]; [|by rewrite Hoth].
      destruct (Hbal i Hii) as (? & _ & _ & ->). eauto. }
    intros row. rewrite Htx, elem_of_app. intros [Hr|Hr] Hk; [destruct (j_known _ Hok row Hr Hk); auto|].
    destruct (Hrows row Hr) as [H1 H2]. split; apply Hmono; [destruct (Hbal _ H1) as (? & -> & _)|destruct (Hbal _ H2) as (? & -> & _)]; eauto.
  - intros i b0 H0. destruct (decide (i ∈ ids)) as [Hi|Hi]; [|exists b0; rewrite Hoth by done; by split_and!].
    destruct (Hbal i Hi) as (row & R1 & R2 & R3). rewrite R1 in H0. injection H0 as ->. eexists. split; [exact R3|]. cbn. lia.
Qed.

(** *** The other steps *)

Lemma intent_step db db' t t2 :
  journal_ok db -> kind_of (t_Status t) (t_QueueAction t) = Intent ->
  RecordTransaction db t = Ok (db', t2) -> journal_ok db' /\ versions_le db db'.
Proof.
  intros Hok Hk H. unfold RecordTransaction in H. apply res_bind_Ok in H as (db1 & H & E).
  apply Ok_inj in E as [= -> ->]. unfold recordTransactionInTx in H.
  destruct (persistNumericColumns t2) as [cols|]; [|done].
  destruct (insert_transaction _ _) as [db1|] eqn:Ei; [|done]. apply Ok_inj in H as ->.
  apply insert_inserted in Ei as [row Hi]. pose proof (ins_balances _ _ _ _ Hi) as Hb.
  pose proof (ins_txns _ _ _ _ Hi) as Ht. destruct (ins_row _ _ _ _ Hi) as [m Hrow].
  assert (row_kind row = Intent) as Hi' by (by rewrite Hrow). split.
  - split.
    + intros id b. rewrite Hb, Ht, journal_snoc. intros Hl. destruct (j_balance _ Hok _ _ Hl) as (J1 & J2 & J3 & J4).
      split_and!; try done. rewrite J4. unfold effect_on. rewrite Hi'. cbn [source_effect destination_effect].
      destruct (String.eqb (x_source row) id), (String.eqb (x_destination row) id); by rewrite !acc_add_zero_r.
    + intros r. rewrite Hb, Ht, elem_of_app, list_elem_of_singleton. intros [Hr| ->] Hne; [|done].
      by apply (j_known _ Hok).
  - intros id b0 Hl. exists b0. rewrite Hb. by split_and!.
Qed.

Lemma create_step db now b :
  journal_ok db -> same_money (InitializeBalanceFields b) (InitializeBalanceFields zero_balance) ->
  journal_ok (fst (CreateBalance GenerateUUIDWithSuffix db now b)) /\
  versions_le db (fst (CreateBalance GenerateUUIDWithSuffix db now b)).
Proof.
  intros Hok (Z1 & Z2 & Z3 & _). cbn in Z1, Z2, Z3.
  assert (forall db', ld_txns db' = ld_txns db -> ld_balances db' = ld_balances db -> journal_ok db' /\ versions_le db db') as Hsame.
  { intros db' E1 E2. split.
    - split; rewrite E1, E2; apply Hok.
    - intros id b0 Hl. exists b0. rewrite E2. by split_and!. }
  unfold CreateBalance. cbn [ld_balances]. set (id := GenerateUUIDWithSuffix "bln" (ld_ids db)).
  destruct (ld_balances db !! id) eqn:Hfresh; [by apply Hsame|].
  destruct (_ && _); [by apply Hsame|]. cbn [fst]. clear Hsame. split.
  - split; cbn [ld_balances ld_txns].
    + intros i b'. rewrite lookup_insert_Some. intros [[<- <-]|[_ Hl]]; [|by apply Hok].
      split; [done|]. unfold coherent, nonneg, view, BAL, CR, DR, IBAL, ICR, IDR. cbn.
      injection Z1 as ->. injection Z2 as ->. injection Z3 as ->. split_and!; try done.
      symmetry. apply journal_none. intros r Hr Hk. destruct (j_known _ Hok r Hr Hk) as [[x Hx] [y Hy]].
      split; intros E; rewrite E in *; congruence.
    + intros r Hr Hk. rewrite !lookup_insert_is_Some'. destruct (j_known _ Hok r Hr Hk). auto.
  - intros i b0 Hl. exists b0. cbn [ld_balances]. rewrite lookup_insert_ne by congruence. by split_and!.
Qed.

Lemma quiet_step db db' : journal_ok db -> quiet db db' -> journal_ok db' /\ versions_le db db'.
Proof.
  intros Hok [[f Hf] Hb]. split.
  - split.
    + intros id b' Hl. specialize (Hb id). rewrite Hl in Hb. inversion Hb as [b ? (M & V & I) Hl0|]; subst.
      rewrite Hf, journal_with_meta. destruct (j_balance _ Hok id b (eq_sym Hl0)) as (J1 & J2 & J3 & J4).
      destruct (same_money_view _ _ M) as (E1 & E2 & E3). rewrite E1, I. tauto.
    + intros r. rewrite Hf, list_elem_of_fmap. intros (r0 & -> & Hr) Hk.
      destruct (j_known _ Hok r0 Hr Hk) as [H1 H2]. cbn.
      split; [destruct H1 as [b H1]; specialize (Hb (x_source r0))|destruct H2 as [b H2]; specialize (Hb (x_destination r0))];
        simplify_option_eq; match goal with H : ld_balances db !! _ = Some _ |- _ => rewrite H in Hb end; inversion Hb; eauto.
  - intros id b Hl. specialize (Hb id). rewrite Hl in Hb. inversion Hb as [? b' (M & V & I) Hl0 Hl'|]; subst.
    exists b'. split_and!; [done|lia|done].
Qed.

Lemma step_journal trace db db' :
  (forall p, p ∈ trace -> versions_le p db) -> journal_ok db -> ledger_step trace db db' ->
  journal_ok db' /\ versions_le db db'.
Proof.
  intros Hle Hok Hstep. destruct Hstep as [t s d t1 s1 d1 w t2 Hw Hs Hd Ha Hb Hr|t t2 Hk Hr|ids h h' ts ps r H1 H2 H3 H4 H5 H6 H7 H8|now b Hz ->|Hq].
  - exact (post_step _ _ _ _ _ _ _ _ _ _ _ Hle Hok Hw Hs Hd Ha Hb Hr).
  - exact (intent_step _ _ _ _ Hok Hk Hr).
  - exact (batch_step _ _ _ _ _ _ _ _ _ Hle Hok H1 H2 H3 H4 H5 H6 H7 H8).
  - by apply create_step.
  - by apply quiet_step.
Qed.

(** In a run the ledger is its journal, and every earlier state is behind. *)
Lemma run_journal db past : run (db :: past) ->
  journal_ok db /\ forall p, p ∈ db :: past -> versions_le p db.
Proof.
  remember (db :: past) as tr eqn:E. intros H. revert db past E.
  induction H as [db0 H1 H2|db0 past0 db1 H IH Hs]; intros db past [= <- <-].
  - split; [split|].
    + intros id b. by rewrite H2, lookup_empty.
    + intros r. rewrite H1. by intros ?%not_elem_of_nil.
    + intros p Hp%list_elem_of_singleton. subst. apply versions_le_refl.
  - destruct (IH _ _ eq_refl) as [Hok Hle]. destruct (step_journal _ _ _ Hle Hok Hs) as [Hok' Hle'].
    split; [done|]. intros p [-> |Hp]%elem_of_cons; [apply versions_le_refl|].
    eapply versions_le_trans; [by apply Hle|done].
Qed.

(** *** The journal only grows *)

(** Rows are appended; of a row that is there only the metadata may change. *)
Definition rows_grow (db db' : ledger_db) : Prop :=
  exists f rows, ld_txns db' = (with_meta f <$> ld_txns db) ++ rows.

Lemma with_meta_id (l : list txn_row) : with_meta x_meta <$> l = l.
Proof. induction l as [|[] l IH]; [done|]. rewrite fmap_cons, IH. done. Qed.

#[export] Instance rows_grow_preorder : PreOrder rows_grow.
Proof.
  split.
  - intros db. exists x_meta, []. by rewrite with_meta_id, app_nil_r.
  - intros a b c (f & r1 & E1) (g & r2 & E2). exists (fun r => g (with_meta f r)), ((with_meta g <$> r1) ++ r2).
    by rewrite E2, E1, fmap_app, <- list_fmap_compose, app_assoc.
Qed.

Lemma rows_grow_app db db' (rows : list txn_row) : ld_txns db' = ld_txns db ++ rows -> rows_grow db db'.
Proof. intros E. exists x_meta, rows. by rewrite with_meta_id. Qed.

Lemma recorded_rows db t db' t' : RecordTransaction db t = Ok (db', t') -> rows_grow db db'.
Proof.
  unfold RecordTransaction, recordTransactionInTx. intros H. apply res_bind_Ok in H as (db1 & H & E).
  apply Ok_inj in E as [= <- _]. destruct (persistNumericColumns t); [|done].
  destruct (insert_transaction _ _) as [db2|] eqn:Ei; [|done]. apply Ok_inj in H as <-.
  apply insert_inserted in Ei as [row Ei]. eapply rows_grow_app, (ins_txns _ _ _ _ Ei).
Qed.

Lemma update_set_rows db l db1 : updateBalanceSet db l = Ok db1 -> ld_txns db1 = ld_txns db.
Proof.
  unfold updateBalanceSet. generalize (length (unique_balances [] l)) as fuel. generalize (unique_balances [] l) as bs. clear.
  intros bs fuel. revert db bs. induction fuel as [|fuel IH]; intros db bs H; destruct bs as [|b bs]; [by apply Ok_inj in H as <-..|].
  cbn [update_chunks] in H. apply res_bind_Ok in H as (db2 & H2 & H). rewrite (IH _ _ H). apply chunk_updated in H2. by rewrite (su_db _ _ _ H2).
Qed.

Lemma batch_rows db ts l outboxes db' r :
  RecordTransactionsWithBalanceSetAndOutboxes db ts l outboxes = Ok (db', r) -> rows_grow db db'.
Proof.
  intros H. unfold RecordTransactionsWithBalanceSetAndOutboxes in H. apply res_bind_Ok in H as (db1 & H1 & H).
  apply res_bind_Ok in H as (db2 & H2 & H). destruct (insertLineageOutboxesInTx db2 outboxes) as [db3|] eqn:H3; [|done].
  apply Ok_inj in H as [= -> _]. apply record_all_rows in H2 as [_ H2]. apply insert_all_inserted in H2 as (rows & _ & E & _).
  apply outboxes_grow in H3 as (G & _). apply (rows_grow_app _ _ rows). by rewrite G, E, (update_set_rows _ _ _ H1).
Qed.

Lemma step_rows trace db db' : ledger_step trace db db' -> rows_grow db db'.
Proof.
  intros [t s d t1 s1 d1 w t2 Hw Hs Hd Ha Hb Hr|t t2 Hk Hr|ids h h' ts ps r _ _ _ _ _ _ _ H|now b Hz ->|[[f Hq] _]].
  - apply posting_inv in Hr as (db1 & db2 & ? & ? & ? & ? & ? & row & db3 & U1 & U2 & _ & Hins & _ & Ht & _).
    apply (rows_grow_app _ _ [row]). by rewrite Ht, (ins_txns _ _ _ _ Hins), (up_txns _ _ _ _ _ U2), (up_txns _ _ _ _ _ U1).
  - by eapply recorded_rows.
  - by eapply batch_rows.
  - apply (rows_grow_app _ _ []). rewrite app_nil_r. unfold CreateBalance. cbv zeta. by repeat case_match.
  - exists f, []. by rewrite app_nil_r.
Qed.

Lemma run_rows db past p : run (db :: past) -> p ∈ db :: past -> rows_grow p db.
Proof.
  remember (db :: past) as tr eqn:E. intros H. revert db past E.
  induction H as [db0 H1 H2|db0 past0 db1 H IH Hs]; intros db past [= <- <-]; rewrite elem_of_cons; intros [->|Hp]; try done.
  - by apply not_elem_of_nil in Hp.
  - transitivity db0; [by apply (IH db0 past0)|by eapply step_rows].
Qed.

(** C9: the journal is append-only.  At any two moments of a run, the later
    journal is the earlier one with rows added at its end: no row is removed or
    reordered, and of a stored row only the metadata can change - its id,
    parent, reference, accounts, amounts, currency, status, times, hash and
    execution controls are fixed when it is inserted. *)
Theorem journal_is_append_only (db : ledger_db) (past : list ledger_db) (p : ledger_db) (i : nat) (r : txn_row) :
  run (db :: past) -> p ∈ db :: past -> ld_txns p !! i = Some r ->
  exists m, ld_txns db !! i = Some {| r with x_meta := m |}.
Proof.
  intros Hr Hp Hi. destruct (run_rows db past p Hr Hp) as (f & rows & E). exists (f r).
  rewrite E, lookup_app_l by (rewrite length_fmap; by eapply lookup_lt_Some). by rewrite list_lookup_fmap, Hi.
Qed.

(** C1: the ledger equals its journal.  At every moment of a run - any
    interleaving of postings, intents, balance creations and updates of
    anything but money, in which a posting may have been computed from
    balances read at any earlier moment - each balance is coherent, has no
    negative total, and its credit, debit and inflight totals are exactly the
    sums of the effects of the transactions that name it. *)
Theorem ledger_equals_journal (db : ledger_db) (past : list ledger_db) (id : string) (b : Balance) :
  run (db :: past) -> ld_balances db !! id = Some b ->
  b_BalanceID b = id /\ coherent b /\ nonneg b /\ view b = journal (ld_txns db) id.
Proof. intros [Hok _]%run_journal. apply Hok. Qed.

(** *** Conservation *)

Lemma zsum_pick (ids : list string) x c : NoDup ids -> x ∈ ids ->
  zsum_list (fun id => if String.eqb x id then c else 0) ids = c.
Proof.
  induction ids as [|i ids IH]; intros Hnd Hx; [by apply not_elem_of_nil in Hx|].
  apply NoDup_cons in Hnd as [Hi Hnd]. cbn [zsum_list foldr].
  destruct (decide (x = i)) as [->|Hne].
  - rewrite String.eqb_refl. assert (zsum_list (fun id => if String.eqb i id then c else 0) ids = 0) as E; [|unfold zsum_list in E; lia].
    clear IH Hnd Hx. induction ids as [|j ids IH]; [done|]. cbn [zsum_list foldr].
    apply not_elem_of_cons in Hi as [Hij Hi]. apply String.eqb_neq in Hij as ->. by apply IH.
  - apply elem_of_cons in Hx as [?|Hx]; [done|]. apply String.eqb_neq in Hne as ->. by apply IH.
Qed.

Lemma zsum_list_add {A} (f g h : A -> Z) l : (forall a, f a = g a + h a) -> zsum_list f l = zsum_list g l + zsum_list h l.
Proof. intros E. induction l as [|a l IH]; [done|]. cbn [zsum_list foldr]. unfold zsum_list in IH. rewrite IH, E. lia. Qed.

(** A total over the balances of what is additive in the account. *)
Record additive (p : account -> Z) : Prop := {
  add_zero : p acc_zero = 0;
  add_add : forall a b, p (acc_add a b) = p a + p b }.

Lemma zsum_list_zero {A} (f : A -> Z) l : (forall a, a ∈ l -> f a = 0) -> zsum_list f l = 0.
Proof.
  induction l as [|a l IH]; intros H; [done|]. cbn [zsum_list foldr]. fold (zsum_list f l).
  rewrite IH, H; [done|left|]. intros b Hb. apply H. by right.
Qed.

Lemma row_total p ids r : additive p -> NoDup ids ->
  (forall n k, p (source_effect k n) + p (destination_effect k n) = 0) ->
  (row_kind r <> Intent -> x_source r ∈ ids /\ x_destination r ∈ ids) ->
  zsum_list (fun id => p (effect_on id r)) ids = 0.
Proof.
  intros [Hz Ha] Hnd Hbal Hk. destruct (decide (row_kind r = Intent)) as [E|E].
  { apply zsum_list_zero. intros id _. unfold effect_on. rewrite E. cbn [source_effect destination_effect].
    repeat case_match; by rewrite acc_add_zero_r. }
  destruct (Hk E) as [Hs Hd].
  rewrite (zsum_list_add _ (fun id => if String.eqb (x_source r) id then p (source_effect (row_kind r) (x_precise r)) else 0)
    (fun id => if String.eqb (x_destination r) id then p (destination_effect (row_kind r) (x_precise r)) else 0)).
  - rewrite !zsum_pick by done. apply Hbal.
  - intros id. unfold effect_on. rewrite Ha. by destruct (String.eqb (x_source r) id), (String.eqb (x_destination r) id); rewrite ?Hz.
Qed.

Lemma journal_total p ids rows : additive p -> NoDup ids ->
  (forall n k, p (source_effect k n) + p (destination_effect k n) = 0) ->
  (forall r, r ∈ rows -> row_kind r <> Intent -> x_source r ∈ ids /\ x_destination r ∈ ids) ->
  zsum_list (fun id => p (journal rows id)) ids = 0.
Proof.
  intros Hp Hnd Hbal. induction rows as [|r rows IH]; intros Hk.
  { apply zsum_list_zero. intros id _. apply Hp. }
  rewrite (zsum_list_add _ (fun id => p (effect_on id r)) (fun id => p (journal rows id))) by (intros; apply Hp).
  rewrite row_total, IH; try done; [by intros; apply Hk; [right|]|by apply Hk; left].
Qed.

Lemma balances_total p f db : additive p -> journal_ok db ->
  (forall n k, p (source_effect k n) + p (destination_effect k n) = 0) ->
  (forall b, coherent b -> f b = p (view b)) -> zsum (f <$> ld_balances db) = 0.
Proof.
  intros Hp Hok Hbal Hf. rewrite zsum_fmap.
  rewrite <- (journal_total p (fst <$> map_to_list (ld_balances db)) (ld_txns db) Hp); [|apply NoDup_fst_map_to_list|done|].
  - assert (forall l, (forall e, e ∈ l -> ld_balances db !! e.1 = Some e.2) ->
      zsum_list (fun e => f e.2) l = zsum_list (fun id => p (journal (ld_txns db) id)) (fst <$> l)) as H.
    { induction l as [|e l IH]; intros He; [done|]. rewrite fmap_cons. cbn [zsum_list foldr].
      fold (zsum_list (fun e : string * Balance => f e.2) l).
      fold (zsum_list (fun id => p (journal (ld_txns db) id)) (fst <$> l)).
      rewrite IH by (intros e' He'; apply He; by right).
      destruct (j_balance _ Hok e.1 e.2 (He e ltac:(left))) as (_ & Hc & _ & Hv). by rewrite Hf, Hv. }
    apply H. intros [i b]. apply elem_of_map_to_list.
  - intros r Hr Hk. destruct (j_known _ Hok r Hr Hk) as [[b1 H1] [b2 H2]].
    split; apply list_elem_of_fmap; [exists (x_source r, b1)|exists (x_destination r, b2)];
      (split; [done|by apply elem_of_map_to_list]).
Qed.

(** C2: money is conserved.  At every moment of a run the balances of the
    ledger sum to zero, and so do their inflight balances: what leaves one
    balance reaches another. *)
Theorem money_is_conserved (db : ledger_db) (past : list ledger_db) :
  run (db :: past) ->
  zsum (BAL <$> ld_balances db) = 0 /\ zsum (IBAL <$> ld_balances db) = 0.
Proof.
  intros [Hok _]%run_journal. split.
  - apply (balances_total (fun a => a_cr a - a_dr a)); try done.
    + split; [done|]. intros a b. cbn. lia.
    + intros n []; cbn; lia.
    + intros b [Hc _]. exact Hc.
  - apply (balances_total (fun a => a_icr a - a_idr a)); try done.
    + split; [done|]. intros a b. cbn. lia.
    + intros n []; cbn; lia.
    + intros b [_ Hc]. exact Hc.
Qed.
End Runs.
