(* ===== verification/Refine.v ===== *)
(** * The handlers refine the runs

    [Journal] states what a run of the store is and proves the ledger's
    invariant over all of them.  Here the handlers of the executor - recording
    a transaction, committing and voiding a hold, with their lineage shadows -
    are shown to change the store by steps of such a run and by nothing else,
    on every path, errors included.  [wp] is the weakest precondition of a
    handler in that sense: from a run, the state it leaves is the head of a
    longer run. *)
From stdpp Require Import base option list strings gmap.
From Stdlib Require Import ZArith Lia.
From S2P Require Import Prelude GoFloat Model Decimal DecimalInstance Amount Balance Policy PolicyStore Store Lifecycle Engine Inflight Effect Journal.
Close Scope Q_scope.
Open Scope Z_scope.

Section Wp.
Context {Dops : DecimalOps} {Dlaws : DecimalLaws}.
Variable gen : string -> nat -> string.

Definition wp {A} (m : M A) (Q : list ledger_db -> A -> Prop) (trace : list ledger_db) : Prop :=
  forall db past, trace = db :: past -> run gen trace ->
  exists past', run gen (fst (m db) :: past') /\ trace `suffix_of` fst (m db) :: past' /\
    outbox_grows (ld_outbox db) (ld_outbox (fst (m db))) /\
    match snd (m db) with Ok a => Q (fst (m db) :: past') a | Err _ => True end.

Lemma wp_mono {A} (m : M A) Q Q' trace :
  wp m Q trace -> (forall tr a, trace `suffix_of` tr -> Q tr a -> Q' tr a) -> wp m Q' trace.
Proof.
  intros H HQ db past E Hr. destruct (H db past E Hr) as (past' & H1 & H2 & Ho & H3).
  exists past'. do 3 (split; [done|]). destruct (snd (m db)); [|done]. by apply HQ.
Qed.

Lemma wp_pure {A} (m : M A) (r : result A) Q trace :
  (forall db, m db = (db, r)) -> (forall a, r = Ok a -> Q trace a) -> wp m Q trace.
Proof.
  intros Hm HQ db past -> Hr. rewrite Hm. exists past. do 3 (split; [done|]). cbn.
  destruct r; [by apply HQ|done].
Qed.
Lemma wp_ret {A} (a : A) (Q : list ledger_db -> A -> Prop) trace : Q trace a -> wp (ret a) Q trace.
Proof. intros H. apply (wp_pure _ (Ok a)); [done|]. by intros ? [= <-]. Qed.
Lemma wp_fail {A} e (Q : list ledger_db -> A -> Prop) trace : wp (fail e) Q trace.
Proof. by apply (wp_pure _ (Err e)). Qed.
Lemma wp_lift {A} (r : result A) (Q : list ledger_db -> A -> Prop) trace :
  (forall a, r = Ok a -> Q trace a) -> wp (lift r) Q trace.
Proof. by apply wp_pure. Qed.

Lemma wp_reads {A} (f : ledger_db -> result A) (Q : list ledger_db -> A -> Prop) trace :
  (forall db past a, trace = db :: past -> run gen trace -> f db = Ok a -> Q trace a) -> wp (reads f) Q trace.
Proof.
  intros HQ db past -> Hr. exists past. do 3 (split; [done|]). cbn.
  destruct (f db) eqn:E; [by eapply HQ|done].
Qed.

Lemma wp_bind {A B} (m : M A) (f : A -> M B) (Q : list ledger_db -> B -> Prop) trace :
  wp m (fun tr a => wp (f a) Q tr) trace -> wp (bind m f) Q trace.
Proof.
  intros H db past E Hr. destruct (H db past E Hr) as (past' & H1 & H2 & Ho & H3). unfold bind.
  destruct (m db) as [db' [a|e]]; cbn in *; [|by exists past'].
  destruct (H3 db' past' eq_refl H1) as (past2 & G1 & G2 & Go & G3). exists past2. split; [done|].
  split; [by transitivity (db' :: past')|]. split; [by transitivity (ld_outbox db')|done].
Qed.

(** A bind whose first part only has to keep the run. *)
Lemma wp_seq {A B} (m : M A) (f : A -> M B) (P : list ledger_db -> A -> Prop) (Q : list ledger_db -> B -> Prop) trace :
  wp m P trace -> (forall tr a, trace `suffix_of` tr -> P tr a -> wp (f a) Q tr) -> wp (bind m f) Q trace.
Proof. intros H HQ. apply wp_bind. by eapply wp_mono. Qed.

(** One step of the run. *)
Lemma wp_step {A} (m : M A) Q trace :
  (forall db past, trace = db :: past -> run gen trace ->
     (fst (m db) = db \/ ledger_step gen trace db (fst (m db)) /\ outbox_grows (ld_outbox db) (ld_outbox (fst (m db)))) /\
     match snd (m db) with
     | Ok a => Q (fst (m db) :: trace) a /\ (fst (m db) = db -> Q trace a)
     | Err _ => True
     end) -> wp m Q trace.
Proof.
  intros H db past E Hr. subst trace. destruct (H db past eq_refl Hr) as [[E|[Hs Ho]] HQ].
  - exists past. rewrite E in *. do 3 (split; [done|]). destruct (snd (m db)); [|done]. by apply HQ.
  - exists (db :: past). split; [by apply run_step|]. split; [by exists [fst (m db)]|]. split; [done|].
    destruct (snd (m db)); [|done]. by apply HQ.
Qed.

Lemma wp_atomically {A} (f : ledger_db -> result (ledger_db * A)) (Q : list ledger_db -> A -> Prop) trace :
  (forall db db' a, f db = Ok (db', a) -> ledger_step gen trace db db' /\
     outbox_grows (ld_outbox db) (ld_outbox db') /\ forall tr, trace `suffix_of` tr -> Q tr a) ->
  wp (atomically f) Q trace.
Proof.
  intros H. apply wp_step. intros db past -> Hr. unfold atomically.
  destruct (f db) as [[db' a]|e] eqn:E; cbn; [|by split; [left|]].
  destruct (H db db' a E) as (Hs & Ho & HQ). split; [by right|]. split; [|intros _]; apply HQ; [by exists [db']|done].
Qed.

Lemma wp_with_context {A} msg (m : M A) Q trace : wp m Q trace -> wp (with_context msg m) Q trace.
Proof.
  intros H db past E Hr. destruct (H db past E Hr) as (past' & H1 & H2 & Ho & H3). exists past'. unfold with_context.
  destruct (m db) as [db' [a|e]]; cbn in *; done.
Qed.

Lemma wp_try {A} (m : M A) Q trace :
  wp m Q trace -> wp (try m) (fun tr r => match r with Ok a => Q tr a | Err _ => True end) trace.
Proof.
  intros H db past E Hr. destruct (H db past E Hr) as (past' & H1 & H2 & Ho & H3). exists past'. unfold try.
  destruct (m db) as [db' [a|e]]; cbn in *; done.
Qed.

(** Nothing is claimed of the result. *)
Definition any {A} : list ledger_db -> A -> Prop := fun _ _ => True.
Lemma wp_any_reads {A} (f : ledger_db -> result A) trace : wp (reads f) any trace.
Proof. by apply wp_reads. Qed.

Lemma known_mono tr tr' s : tr `suffix_of` tr' -> known tr s -> known tr' s.
Proof. intros [k ->] (p & Hp & Hr). exists p. split; [apply elem_of_app; by right|done]. Qed.

(** ** Balances read by the executor *)

Lemma scan_reading db id row b : journal_ok db -> ld_balances db !! id = Some row ->
  same_money row b -> b_BalanceID b = b_BalanceID row -> b_Version b = b_Version row -> reading db b.
Proof.
  intros Hok Hl Hm Hi Hv. exists row. destruct (j_balance _ Hok id row Hl) as (E & _). rewrite Hi, E. done.
Qed.

Lemma GetBalanceByIDLite_reading db id b : journal_ok db -> GetBalanceByIDLite db id = Ok b -> reading db b.
Proof.
  unfold GetBalanceByIDLite. intros Hok. destruct (ld_balances db !! id) as [row|] eqn:E; [|done].
  intros [= <-]. by eapply scan_reading.
Qed.

Lemma GetBalanceByID_reading db id q b : journal_ok db -> GetBalanceByID db id q = Ok b -> reading db b.
Proof.
  unfold GetBalanceByID. intros Hok H. apply res_bind_Ok in H as (b0 & Hb & H).
  apply GetBalanceByIDLite_reading in Hb as (row & R1 & R2 & R3); [|done].
  destruct q; apply Ok_inj in H as <-; by exists row.
Qed.

Lemma GetBalanceByIndicator_reading db i c b : journal_ok db -> GetBalanceByIndicator db i c = Ok b -> reading db b.
Proof.
  unfold GetBalanceByIndicator, find_indicator. intros Hok. destruct (head _) as [row|] eqn:E; [|done].
  intros [= <-]. apply head_Some_elem_of in E. apply list_elem_of_filter in E as [_ E].
  apply list_elem_of_fmap in E as ([id row'] & -> & E). apply elem_of_map_to_list in E. cbn.
  eapply scan_reading; [exact Hok|exact E|done..].
Qed.

Lemma wp_reads_known (f : ledger_db -> result Balance) trace :
  (forall db b, journal_ok db -> f db = Ok b -> reading db b) -> wp (reads f) known trace.
Proof.
  intros H. apply wp_reads. intros db past b -> Hr Hb. exists db. split; [left|].
  apply H; [|done]. by apply (run_journal gen db past).
Qed.
#[local] Hint Resolve GetBalanceByIDLite_reading GetBalanceByID_reading GetBalanceByIndicator_reading : ledger.
Ltac known_read := apply wp_reads_known; cbv beta; intros; eauto with ledger.

Section Executor.
Variables (pre_hooks : Transaction -> result unit) (acquire : list string -> result unit).
Variables (EnableQueuedChecks : bool) (now : Z).

Lemma wp_with_queued b trace : known trace b -> wp (with_queued EnableQueuedChecks b) known trace.
Proof. intros H. unfold with_queued. destruct EnableQueuedChecks; [known_read|by apply wp_ret]. Qed.

Lemma wp_create i l c trace :
  let fresh := {| zero_balance with b_Indicator := i; b_LedgerID := l; b_Currency := c |} in
  wp (fun db => CreateBalance gen db now fresh) any trace.
Proof.
  intros fresh. apply wp_step. intros db past -> Hr. split; [|by destruct (snd _)].
  right. split; [by eapply (step_create gen _ _ _ now fresh)|].
  unfold CreateBalance. cbv zeta. by repeat case_match.
Qed.

Lemma wp_getOrCreate indicator currency trace :
  wp (getOrCreateBalanceByIndicator gen EnableQueuedChecks now indicator currency) known trace.
Proof.
  unfold getOrCreateBalanceByIndicator.
  assert (forall tr, wp (bind (reads (fun db => GetBalanceByIndicator db indicator currency))
    (fun b => with_queued EnableQueuedChecks b)) known tr) as Hread.
  { intros tr. eapply wp_seq; [known_read|]. intros tr' b _ Hb. by apply wp_with_queued. }
  eapply wp_seq; [apply wp_try; known_read|]. intros tr [b|e] _ Hb; [by apply wp_with_queued|].
  eapply wp_seq; [apply wp_try, wp_create|]. intros tr' [b|e'] _ _; [done|].
  destruct (isAlreadyExists e'); [done|apply wp_fail].
Qed.

Lemma wp_resolveBalanceIDs t trace : wp (resolveBalanceIDs gen EnableQueuedChecks now t) any trace.
Proof.
  assert (forall side name c tr, wp (resolve_id gen EnableQueuedChecks now side name c) any tr) as H.
  { intros. unfold resolve_id. destruct (HasPrefix _ _); [|by apply wp_ret]. apply wp_with_context.
    eapply wp_seq; [apply wp_getOrCreate|]. intros. by apply wp_ret. }
  unfold resolveBalanceIDs. eapply wp_seq; [apply H|]. intros. eapply wp_seq; [apply H|]. intros. by apply wp_ret.
Qed.

Lemma wp_getSourceAndDestination t trace :
  wp (getSourceAndDestination gen EnableQueuedChecks now t) (fun tr sd => known tr sd.1 /\ known tr sd.2) trace.
Proof.
  assert (forall name c tr, wp (get_balance gen EnableQueuedChecks now name c) known tr) as H.
  { intros. unfold get_balance. destruct (HasPrefix _ _); [apply wp_getOrCreate|].
    destruct EnableQueuedChecks; known_read. }
  unfold getSourceAndDestination. eapply wp_seq; [apply H|]. intros tr s _ Hs.
  eapply wp_seq; [apply H|]. intros tr' d Hsuf Hd. apply wp_ret. split; [by eapply known_mono|done].
Qed.

(** ** Recording *)

(** Only the status, the commit action and the inflight mark matter. *)
Lemma well_formed_transfer t t' :
  t_Status t' = t_Status t -> t_QueueAction t' = t_QueueAction t ->
  (t_Status t = StatusCommit \/ t_Status t = StatusVoid -> t_Inflight t' = t_Inflight t) ->
  well_formed t -> well_formed t'.
Proof.
  intros E1 E2 E3 (W1 & W2 & W3). unfold well_formed. rewrite E1, E2. split; [|split; [|done]].
  - intros H. rewrite E3 by auto. by apply W1.
  - intros H. rewrite E3 by auto. by apply W2.
Qed.

Lemma wp_verifyPolicyExecution t trace : well_formed t ->
  wp (verifyPolicyExecution t) (fun _ t' => well_formed t') trace.
Proof.
  intros Hw. unfold verifyPolicyExecution. destruct (policyMarked t); cbn [negb]; [|by apply wp_ret].
  destruct (String.eqb (t_Status t) StatusCommit) eqn:E1.
  { eapply wp_seq; [apply wp_any_reads|]. intros. by apply wp_ret. }
  destruct (String.eqb (t_Status t) StatusVoid) eqn:E2; [by apply wp_ret|]. zbool.
  eapply wp_seq; [apply wp_any_reads|]. intros tr [a|] _ _; [|apply wp_fail]. apply wp_ret.
  eapply well_formed_transfer; [..|exact Hw].
  - cbn. by destruct (String.eqb (pa_Decision a) _).
  - cbn. by destruct (String.eqb (pa_Decision a) _).
  - intros [?|?]; done.
Qed.

Lemma ApplyPrecision_keeps t : t_Status (snd (ApplyPrecision t)) = t_Status t /\
  t_QueueAction (snd (ApplyPrecision t)) = t_QueueAction t /\ t_Inflight (snd (ApplyPrecision t)) = t_Inflight t.
Proof.
  unfold ApplyPrecision, applyPrecisionLogic. destruct (validateMonetaryFields t); [|done].
  destruct (feq (t_Precision t) fzero); cbn; by repeat case_match.
Qed.

Lemma quiet_refl db db' : ld_txns db' = ld_txns db -> ld_balances db' = ld_balances db -> quiet db db'.
Proof.
  intros E1 E2. split.
  - exists x_meta. rewrite E1. clear. induction (ld_txns db) as [|r l IH]; [done|].
    rewrite fmap_cons, <- IH. by destruct r.
  - intros id. rewrite E2. destruct (ld_balances db !! id); by constructor.
Qed.

Lemma wp_releasePolicyCapacity id trace : wp (releasePolicyCapacity id) any trace.
Proof.
  apply wp_step. intros db past -> Hr. split; [|by destruct (snd _)]. unfold releasePolicyCapacity, ReleasePolicyLeg.
  cbn [fst]. destruct (policyReference db id) as [[r b]|]; [|by left].
  destruct (_ <=? 0); [by left|]. destruct (release_unused _ _ _ _) as [p|]; [|by left].
  right. split; [by apply step_quiet, quiet_refl|done].
Qed.

Lemma record_outbox db t db' t' : RecordTransaction db t = Ok (db', t') -> ld_outbox db' = ld_outbox db.
Proof.
  unfold RecordTransaction, recordTransactionInTx. intros H. apply res_bind_Ok in H as (db1 & H & E).
  apply Ok_inj in E as [= <- _]. destruct (persistNumericColumns t); [|done].
  destruct (insert_transaction _ _) as [db2|] eqn:Ei; [|done]. apply Ok_inj in H as <-.
  apply insert_inserted in Ei as [row Ei]. apply (ins_outbox _ _ _ _ Ei).
Qed.

Lemma wp_intent t trace : kind_of (t_Status t) (t_QueueAction t) = Intent ->
  wp (atomically (fun db => RecordTransaction db t)) (fun _ t' => t' = t) trace.
Proof.
  intros Hk. apply wp_atomically. intros db db' t' H. split; [by eapply step_intent|].
  split; [by rewrite (record_outbox _ _ _ _ H)|]. intros _ _.
  unfold RecordTransaction in H. apply res_bind_Ok in H as (? & _ & H). by apply Ok_inj in H as [= _ <-].
Qed.

Lemma wp_reject t reason trace : wp (RejectTransaction t reason) any trace.
Proof.
  unfold RejectTransaction. eapply wp_seq.
  { apply wp_intent. by destruct (ApplyPrecision_keeps {| t with t_Status := StatusRejected;
      t_MetaData := md_set (t_MetaData t) "ledgerforge_rejection_reason" (JStr reason) |}) as (-> & _). }
  intros tr t' _ ->. eapply wp_seq.
  { instantiate (1 := any). destruct (policyMarked _); [apply wp_releasePolicyCapacity|by apply wp_ret]. }
  intros. destruct (t_Atomic _); [|by apply wp_ret]. destruct (String.eqb _ _); [apply wp_fail|by apply wp_ret].
Qed.

Lemma wp_zero t viaQueue trace : wp (handleZeroAmountTransaction t viaQueue) any trace.
Proof.
  unfold handleZeroAmountTransaction. destruct viaQueue; [|by apply wp_ret].
  eapply wp_seq; [apply wp_reject|]. intros. by apply wp_ret.
Qed.

Lemma wp_post t s d applied w trace : well_formed t -> known trace s -> known trace d ->
  applyTransactionToBalances t s d = Ok applied ->
  buildTransactionExecutionWork applied.1.1 applied.1.2 applied.2 = (w, false) ->
  wp (persistSingleTransactionExecutionWork w) any trace.
Proof.
  intros Hw Hs Hd Ha Hb. destruct applied as [[t1 s1] d1]. apply wp_with_context, wp_atomically.
  intros db db' t2 H. split; [|split; [by eapply posting_outbox|done]]. by eapply (step_post gen _ _ _ t s d t1 s1 d1 w t2).
Qed.

Lemma wp_record_locked t viaQueue trace : well_formed t ->
  wp (record_locked gen pre_hooks EnableQueuedChecks now t viaQueue) any trace.
Proof.
  intros Hw. unfold record_locked, validateAndPrepareTransaction.
  eapply wp_seq; [by apply (wp_lift _ any)|]. intros tr [] _ _.
  eapply wp_seq with (P := fun tr tsd => well_formed tsd.1.1 /\ known tr tsd.1.2 /\ known tr tsd.2).
  { eapply wp_seq; [apply wp_with_context, wp_any_reads|]. intros tr1 [] _ _.
    eapply wp_seq; [apply wp_with_context, wp_getSourceAndDestination|]. intros tr2 [s d] _ [Hs Hd].
    by apply wp_ret. }
  intros tr1 [[t1 s] d] _ (Hw1 & Hs & Hd). cbn [fst snd] in *.
  destruct (isZeroPreciseAmount t1); [apply wp_zero|].
  eapply wp_seq; [by apply wp_verifyPolicyExecution|]. intros tr2 t2 Hsuf Hw2.
  eapply wp_seq; [apply wp_with_context, (wp_lift _ (fun _ a => applyTransactionToBalances t2 s d = Ok a)); auto|].
  intros tr3 applied Hsuf3 Ha. destruct (buildTransactionExecutionWork _ _ _) as [w []] eqn:Eb; [apply wp_zero|].
  eapply (wp_post t2 s d applied); try done; (eapply known_mono; [|done]); by transitivity tr2.
Qed.

Lemma wp_record t viaQueue trace : well_formed t ->
  wp (recordTransactionSingle gen pre_hooks acquire EnableQueuedChecks now t viaQueue) any trace.
Proof.
  intros Hw. unfold recordTransactionSingle.
  eapply wp_seq; [apply wp_with_context, wp_resolveBalanceIDs|]. intros tr ids _ _.
  eapply wp_seq; [apply wp_with_context; by apply (wp_lift _ any)|]. intros tr1 [] _ _.
  by apply wp_record_locked.
Qed.

Lemma wp_execute t viaQueue trace : well_formed t ->
  wp (executeTransactionPlan gen pre_hooks acquire EnableQueuedChecks now t viaQueue) any trace.
Proof.
  intros Hw. unfold executeTransactionPlan.
  eapply wp_seq; [by apply wp_verifyPolicyExecution|]. intros tr t' _ Hw'. by apply wp_record.
Qed.

(** ** Commits and voids *)

Variable numeric_float : string -> float64.
Variable GetTransactionFromQueue : string -> result (option Transaction).
Variable enqueue : Transaction -> result unit.

Lemma wp_new_id suffix trace : wp (new_id gen suffix) any trace.
Proof.
  apply wp_step. intros db past -> Hr. split; [|done]. right. split; [by apply step_quiet, quiet_refl|done].
Qed.

Lemma wp_child_reference reference trace : wp (child_reference gen reference) any trace.
Proof. unfold child_reference. destruct (String.eqb _ _); [apply wp_new_id|by apply wp_ret]. Qed.

Lemma wp_fetch id trace :
  wp (fetchAndValidateInflightTransaction numeric_float GetTransactionFromQueue id) any trace.
Proof.
  unfold fetchAndValidateInflightTransaction. eapply wp_seq; [apply wp_try, wp_any_reads|]. intros tr found _ _.
  eapply wp_seq.
  { instantiate (1 := any). destruct found; [by apply wp_ret|]. destruct (is_ErrNoRows _); [|apply wp_fail].
    destruct (GetTransactionFromQueue id) as [[]|]; [by apply wp_ret|apply wp_fail..]. }
  intros tr1 t _ _. destruct (negb _); [apply wp_fail|].
  eapply wp_seq; [apply wp_any_reads|]. intros tr2 [] _ _; [apply wp_fail|by apply wp_ret].
Qed.

Lemma wp_validateAndUpdateAmount t amount trace : wp (validateAndUpdateAmount t amount) any trace.
Proof.
  unfold validateAndUpdateAmount. eapply wp_seq; [apply wp_any_reads|]. intros. eapply wp_seq; [apply wp_any_reads|].
  intros. eapply wp_seq; [by apply (wp_lift _ any)|]. intros. eapply wp_seq; [by apply (wp_lift _ any)|].
  intros. by apply wp_ret.
Qed.

Lemma well_formed_commit t : t_Status t = StatusCommit -> t_QueueAction t = StatusCommit -> t_Inflight t = false ->
  well_formed t.
Proof. intros E1 E2 E3. unfold well_formed. rewrite E1, E2, E3. done. Qed.
Lemma well_formed_void t : t_Status t = StatusVoid -> t_Inflight t = false -> well_formed t.
Proof. intros E1 E3. unfold well_formed. rewrite E1, E3. done. Qed.

Lemma wp_finalizeCommitment t withQueue reference trace :
  wp (finalizeCommitment gen pre_hooks acquire EnableQueuedChecks now enqueue t withQueue reference) any trace.
Proof.
  unfold finalizeCommitment. eapply wp_seq; [apply wp_new_id|]. intros tr id _ _.
  eapply wp_seq; [apply wp_child_reference|]. intros tr1 ref _ _. destruct withQueue.
  - eapply wp_seq.
    { apply wp_with_context, wp_intent. match goal with |- kind_of (t_Status (snd (ApplyPrecision ?u))) _ = _ =>
        by destruct (ApplyPrecision_keeps u) as (-> & _) end. }
    intros tr2 persisted _ _. unfold createQueueCopy. eapply wp_seq.
    { eapply wp_seq; [apply wp_new_id|]. intros. by apply (wp_ret _ any). }
    intros. eapply wp_seq; [apply wp_with_context; by apply (wp_lift _ any)|]. intros. by apply wp_ret.
  - apply wp_with_context, wp_execute. by apply well_formed_commit.
Qed.

Lemma wp_finalizeVoid t amountLeft reference trace :
  wp (finalizeVoidTransaction gen pre_hooks acquire EnableQueuedChecks now t amountLeft reference) any trace.
Proof.
  unfold finalizeVoidTransaction. eapply wp_seq; [apply wp_new_id|]. intros tr id _ _.
  eapply wp_seq; [apply wp_child_reference|]. intros tr1 ref _ _. apply wp_with_context, wp_execute.
  match goal with |- well_formed (snd (ApplyPrecision ?u)) => destruct (ApplyPrecision_keeps u) as (E1 & _ & E3) end.
  by apply well_formed_void; [rewrite E1|rewrite E3].
Qed.

Lemma wp_outbox f trace :
  (forall db db', f db = Ok db' -> ld_txns db' = ld_txns db /\ ld_balances db' = ld_balances db /\
     outbox_grows (ld_outbox db) (ld_outbox db')) ->
  wp (atomically (fun db => let* db' := f db in Ok (db', tt))) any trace.
Proof.
  intros H. apply wp_atomically. intros db db' [] E. apply res_bind_Ok in E as (db1 & E1 & E).
  apply Ok_inj in E as [= ->]. destruct (H _ _ E1) as (E2 & E3 & E4).
  split; [by apply step_quiet, quiet_refl|done].
Qed.

Lemma wp_queueShadowWork verb kind act parent t trace :
  (forall s n tr, wp (act s n) any tr) -> wp (queueShadowWork verb kind act parent t) any trace.
Proof.
  intros Hact. unfold queueShadowWork. eapply wp_seq; [apply wp_any_reads|]. intros tr [] _ _; [|by apply wp_ret].
  cbn [negb]. eapply wp_seq.
  - apply wp_try. instantiate (1 := any). unfold process_shadows. eapply wp_seq; [apply wp_any_reads|].
    intros tr1 shadows _ _. eapply wp_seq with (P := any).
    + generalize (@nil string) as failed. revert tr1. induction shadows as [|s rest IH]; intros tr1 failed; [by apply wp_ret|].
      cbn [run_shadows]. eapply wp_seq; [|intros; apply IH]. instantiate (1 := any). unfold run_shadow.
      eapply wp_seq; [apply wp_try, Hact|]. intros tr2 [] _ _; [by apply wp_ret|].
      destruct (_ || _); by apply wp_ret.
    + intros tr2 [] _ _; [by apply wp_ret|apply wp_fail].
  - intros tr1 [] _ _; [by apply wp_ret|]. eapply wp_seq; [|by intros; apply wp_ret]. apply wp_try, wp_outbox.
    intros db db' H. pose proof (insert_outbox_grows _ _ _ H) as Hg.
    unfold InsertLineageOutboxInTx in H. destruct (existsb _ _); [done|]. apply Ok_inj in H as <-. done.
Qed.

Lemma wp_commit fuel withQueue id amount reference trace :
  wp (commit_inflight numeric_float gen pre_hooks acquire EnableQueuedChecks now GetTransactionFromQueue enqueue
        fuel withQueue id amount reference) any trace.
Proof.
  revert withQueue id amount reference trace. induction fuel as [|fuel IH]; intros; cbn [commit_inflight];
    (eapply wp_seq; [apply wp_with_context; by apply (wp_lift _ any)|]; intros tr1 [] _ _;
     eapply wp_seq; [apply wp_fetch|]; intros tr2 t _ _;
     eapply wp_seq; [apply wp_validateAndUpdateAmount|]; intros tr3 t' _ _;
     eapply wp_seq; [apply wp_finalizeCommitment|]; intros tr4 c _ _;
     eapply wp_seq; [|by intros; apply wp_ret]); [by apply (wp_ret _ any)|].
  apply wp_queueShadowWork. intros. apply IH.
Qed.

Lemma wp_void fuel id reference trace :
  wp (void_inflight numeric_float gen pre_hooks acquire EnableQueuedChecks now GetTransactionFromQueue
        fuel id reference) any trace.
Proof.
  revert id reference trace. induction fuel as [|fuel IH]; intros; cbn [void_inflight];
    (eapply wp_seq; [apply wp_with_context; by apply (wp_lift _ any)|]; intros tr1 [] _ _;
     eapply wp_seq; [apply wp_fetch|]; intros tr2 t _ _;
     eapply wp_seq; [apply wp_any_reads|]; intros tr3 left _ _;
     destruct (left <=? 0); [apply wp_fail|];
     eapply wp_seq; [apply wp_finalizeVoid|]; intros tr4 c _ _;
     eapply wp_seq; [|intros; eapply wp_seq; [apply wp_releasePolicyCapacity|by intros; apply wp_ret]]);
    [by apply (wp_ret _ any)|].
  apply wp_queueShadowWork. intros. apply IH.
Qed.

Variable BatchSize : Z.

Lemma wp_applyToLeg leg action amount actionID trace :
  wp (applyInflightActionToLeg numeric_float gen pre_hooks acquire EnableQueuedChecks now GetTransactionFromQueue
        enqueue leg action amount actionID) any trace.
Proof.
  unfold applyInflightActionToLeg. eapply wp_seq; [|by intros; apply wp_ret]. instantiate (1 := any).
  destruct (String.eqb _ _); [apply wp_void|apply wp_commit].
Qed.

Lemma wp_runByParent parent action amount actionID trace :
  wp (RunInflightActionByParent numeric_float gen pre_hooks acquire EnableQueuedChecks now GetTransactionFromQueue
        enqueue BatchSize parent action amount actionID) any trace.
Proof.
  unfold RunInflightActionByParent. eapply wp_seq; [apply wp_try, wp_any_reads|].
  intros tr [legs|e] _ _; [|by apply wp_ret]. destruct legs as [|leg legs]; [by apply wp_ret|].
  eapply wp_seq with (P := any); [|intros tr1 [] _ _; by apply wp_ret].
  generalize (@None go_error) as transient. generalize (leg :: legs) as l. clear leg legs. intros l. revert tr.
  induction l as [|leg l IH]; intros tr transient; cbn [run_legs]; [by apply wp_ret|].
  eapply wp_seq; [apply wp_try, wp_applyToLeg|]. intros tr1 [] _ _; [apply IH|].
  destruct (isTerminalInflightError _); apply IH.
Qed.

Lemma wp_bulk action items schedule trace :
  wp (BulkInflightUpdate numeric_float gen pre_hooks acquire EnableQueuedChecks now GetTransactionFromQueue
        enqueue action items schedule) any trace.
Proof.
  unfold BulkInflightUpdate. destruct items as [|it items]; [apply wp_fail|].
  generalize (replicate (length (it :: items)) (@None BulkInflightOutcome)) as rs.
  revert trace. induction schedule as [|i schedule IH]; intros trace rs; cbn [bulk_run]; [by apply wp_ret|].
  destruct (_ !! i); [|apply IH]. eapply wp_seq; [|intros; apply IH]. instantiate (1 := any). unfold bulk_job.
  eapply wp_seq; [|by intros; apply wp_ret]. apply wp_try. instantiate (1 := any).
  destruct action; [apply wp_void|apply wp_commit].
Qed.

(** C3: the handlers refine the runs.  Recording a transaction, committing a
    hold (directly or through the queue), voiding it, lineage shadows
    included, the queued action on all the legs of a parent and the bulk update
    change the store only by steps of a run: from any state of a run, the
    state the handler leaves - on success, or on any error - is the head of a
    longer run. *)
Theorem handlers_refine_runs (db : ledger_db) (past : list ledger_db) (t : Transaction) (viaQueue withQueue : bool)
    (id reference action actionID : string) (amount : option Z) (fuel : nat)
    (bulk : BulkInflightAction) (items : list BulkInflightItem) (schedule : list nat) :
  run gen (db :: past) -> well_formed t ->
  let extends db' := exists past', run gen (db' :: past') /\ db :: past `suffix_of` db' :: past' in
  extends (fst (executeTransactionPlan gen pre_hooks acquire EnableQueuedChecks now t viaQueue db)) /\
  extends (fst (commit_inflight numeric_float gen pre_hooks acquire EnableQueuedChecks now
                  GetTransactionFromQueue enqueue fuel withQueue id amount reference db)) /\
  extends (fst (void_inflight numeric_float gen pre_hooks acquire EnableQueuedChecks now
                  GetTransactionFromQueue fuel id reference db)) /\
  extends (fst (RunInflightActionByParent numeric_float gen pre_hooks acquire EnableQueuedChecks now
                  GetTransactionFromQueue enqueue BatchSize id action amount actionID db)) /\
  extends (fst (BulkInflightUpdate numeric_float gen pre_hooks acquire EnableQueuedChecks now
                  GetTransactionFromQueue enqueue bulk items schedule db)).
Proof.
  intros Hr Hw extends.
  assert (forall A (m : M A), wp m any (db :: past) -> extends (fst (m db))) as H.
  { intros A m Hm. destruct (Hm db past eq_refl Hr) as (past' & H1 & H2 & _). by exists past'. }
  split_and!; apply H; [by apply wp_execute|apply wp_commit|apply wp_void|apply wp_runByParent|apply wp_bulk].
Qed.
End Executor.
End Wp.

(** ** Handlers of which nothing is claimed but the run *)

Section Rules.
Context {Dops : DecimalOps} {Dlaws : DecimalLaws}.
Variable gen : string -> nat -> string.
#[local] Notation wp := (wp gen).
(** Every result satisfies [P]. *)
#[local] Notation returns m P := (forall trace, wp m (fun _ => P) trace).
#[local] Notation safe m := (forall trace, wp m any trace).

Lemma wp_then {A B} (m : M A) (f : A -> M B) (P : A -> Prop) (Q : list ledger_db -> B -> Prop) trace :
  returns m P -> (forall a tr, P a -> wp (f a) Q tr) -> wp (bind m f) Q trace.
Proof. intros Hm Hf. eapply wp_seq; [apply Hm|]. intros tr a _ Ha. by apply Hf. Qed.
Lemma safe_then {A B} (m : M A) (f : A -> M B) (Q : list ledger_db -> B -> Prop) trace :
  safe m -> (forall a tr, wp (f a) Q tr) -> wp (bind m f) Q trace.
Proof. intros Hm Hf. eapply wp_seq; [apply Hm|]. intros tr a _ _. apply Hf. Qed.
Lemma safe_of {A} (m : M A) (P : list ledger_db -> A -> Prop) trace : wp m P trace -> wp m any trace.
Proof. intros H. by eapply wp_mono. Qed.
Lemma safe_try {A} (m : M A) trace : wp m any trace -> wp (try m) any trace.
Proof. intros H. eapply safe_of, wp_try, H. Qed.
Lemma safe_lift {A} (r : result A) trace : wp (lift r) any trace.
Proof. by apply wp_lift. Qed.
Lemma safe_ret {A} (a : A) trace : wp (ret a) any trace.
Proof. by apply wp_ret. Qed.
Lemma wp_ret_of {A} (P : A -> Prop) (a : A) trace : P a -> wp (ret a) (fun _ => P) trace.
Proof. intros H. by apply wp_ret. Qed.

(** The policy tables only. *)
Lemma safe_policy {A} (f : policy_db -> result (policy_db * A)) trace :
  wp (atomically (fun db => let* r := f (ld_policy db) in Ok ({| db with ld_policy := r.1 |}, r.2))) any trace.
Proof.
  apply wp_atomically. intros db db' a E. apply res_bind_Ok in E as (r & _ & E). apply Ok_inj in E as [= <- <-].
  split; [|done]. by apply step_quiet, quiet_refl.
Qed.

End Rules.

(** Walks over the control structure of a handler; what it calls is in [front]. *)
Create HintDb front.
Ltac walk_step :=
  lazymatch goal with
  | |- wp _ (ret _) any _ => apply safe_ret
  | |- wp _ (fail _) _ _ => apply wp_fail
  | |- wp _ (lift _) any _ => apply safe_lift
  | |- wp _ (reads _) any _ => apply wp_any_reads
  | |- wp _ (try _) any _ => apply safe_try
  | |- wp _ (with_context _ _) _ _ => apply wp_with_context
  | |- wp _ (bind _ _) any _ => apply safe_then; [intros ?|intros ? ?]
  | |- wp _ (match ?x with _ => _ end) any _ => destruct x
  end.
Ltac walk := repeat (first [solve [eauto with front] | walk_step]); cbv zeta.

(** ** A run of the handlers *)
Module RefineWitness.
Import LifecycleWitness.
#[local] Existing Instance DecimalInstance.dnum_ops.

Definition gen (suffix : string) (n : nat) : string := suffix +:+ "_" +:+ itoa (Z.of_nat n).
Definition ok_hooks (t : Transaction) : result unit := Ok tt.
Definition ok_locks (keys : list string) : result unit := Ok tt.
Definition no_queue (id : string) : result (option Transaction) := Ok None.
Definition to_float (s : string) : float64 := fzero.

(** A hold of 100 from an overdraft account. *)
Definition pay : Transaction :=
  {| zero_transaction with t_TransactionID := "txn_1"; t_Reference := "ref_1"; t_Source := "@world";
     t_Destination := "@alice"; t_Currency := "USD"; t_Status := "QUEUED"; t_Inflight := true;
     t_AllowOverdraft := true; t_PreciseAmount := Some 100; t_Precision := f_of_Z 100;
     t_AmountString := "1"; t_Rate := f_of_Z 1 |}.
Definition after_hold := recordTransactionSingle gen ok_hooks ok_locks true 7 pay false empty_db.
Definition after_commit := commit_inflight to_float gen ok_hooks ok_locks true 7 no_queue ok_hooks 1 false "txn_1" (Some 60) "" (fst after_hold).
Definition after_void := void_inflight to_float gen ok_hooks ok_locks true 7 no_queue 1 "txn_1" "" (fst after_commit).

Lemma pay_well_formed : well_formed pay.
Proof. split_and!; intros; discriminate. Qed.
Lemma start : run gen [empty_db].
Proof. by apply run_start. Qed.

(** The run up to the void. *)
Lemma final_run : exists past, run gen (fst after_void :: past).
Proof.
  assert (wp gen (fun db => recordTransactionSingle gen ok_hooks ok_locks true 7 pay false db) any [empty_db]) as H1
    by apply (wp_record gen ok_hooks ok_locks true 7 pay false _ pay_well_formed).
  destruct (H1 _ _ eq_refl start) as (p1 & R1 & _).
  destruct (wp_commit gen ok_hooks ok_locks true 7 to_float no_queue ok_hooks 1 false "txn_1" (Some 60) "" _
    _ _ eq_refl R1) as (p2 & R2 & _).
  destruct (wp_void gen ok_hooks ok_locks true 7 to_float no_queue 1 "txn_1" "" _ _ _ eq_refl R2) as (p3 & R3 & _).
  exists p3. exact R3.
Qed.

Definition alice : Balance := default zero_balance (ld_balances (fst after_void) !! "bln_1"%string).

Lemma ledger_equals_journal_witness :
  view alice = Account 60 0 0 0 /\ view alice = journal (ld_txns (fst after_void)) "bln_1".
Proof.
  destruct final_run as [past Hr]. split; [vm_compute; reflexivity|].
  destruct (ledger_equals_journal gen (fst after_void) past "bln_1" alice Hr) as (_ & _ & _ & H).
  - vm_compute. reflexivity.
  - exact H.
Defined.

Lemma money_is_conserved_witness :
  zsum (BAL <$> ld_balances (fst after_void)) = 0 /\ BAL alice = 60.
Proof.
  destruct final_run as [past Hr]. split; [|vm_compute; reflexivity].
  exact (proj1 (money_is_conserved gen (fst after_void) past Hr)).
Defined.

Lemma handlers_refine_runs_witness :
  let after := executeTransactionPlan gen ok_hooks ok_locks true 7 pay false empty_db in
  is_ok (snd after) = true /\
  exists past', run gen (fst after :: past') /\ [empty_db] `suffix_of` fst after :: past'.
Proof.
  intros after. split; [vm_compute; reflexivity|].
  destruct (handlers_refine_runs gen ok_hooks ok_locks true 7 to_float no_queue ok_hooks 100
    empty_db [] pay false false "txn_1" "" "" "" None 1 BulkInflightVoid [] [] start pay_well_formed) as [H _]. exact H.
Defined.
End RefineWitness.
