(* ===== verification/History.v ===== *)
(** * Balances at a point in time

    [database/balance.go]: the daily snapshots of balances, taken by a database
    function in batches, and the balance at a given instant, computed from the
    latest snapshot before it or from all transactions. *)
From stdpp Require Import base option list sorting strings gmap.
From Stdlib Require Import ZArith Lia.
From S2P Require Import Prelude GoFloat Model Decimal DecimalInstance Amount Balance GoTime Policy PolicyStore Store Lifecycle Engine Inflight Coalesce Effect Batch Journal Refine.
Close Scope Q_scope.
Open Scope Z_scope.

(** ** Snapshots *)

(** A row of [balance_snapshots]. *)
Record balance_snapshot := {
  sn_balance_id : string; sn_ledger_id : string;
  sn_balance : Z; sn_credit_balance : Z; sn_debit_balance : Z;
  sn_inflight_balance : Z; sn_inflight_credit_balance : Z; sn_inflight_debit_balance : Z;
  sn_currency : string; sn_snapshot_time : Z; sn_created_at : Z;
  sn_last_tx_id : option string; sn_meta_data : metadata }.

(** [ORDER BY created_at DESC LIMIT 1]; among rows of one instant the
    database may return any, here the first. *)
Definition latest_of {A} (time : A -> Z) (l : list A) : option A :=
  foldr (fun r best => match best with
    | Some b => if time r <? time b then Some b else Some r
    | None => Some r
    end) None l.

(** The row inserted for a balance at the instant [now]. *)
Definition snapshot_of (db : ledger_db) (now : Z) (b : Balance) : balance_snapshot := {|
  sn_balance_id := b_BalanceID b; sn_ledger_id := b_LedgerID b;
  sn_balance := BAL b; sn_credit_balance := CR b; sn_debit_balance := DR b;
  sn_inflight_balance := IBAL b; sn_inflight_credit_balance := ICR b; sn_inflight_debit_balance := IDR b;
  sn_currency := b_Currency b; sn_snapshot_time := now; sn_created_at := now;
  sn_last_tx_id := x_id <$> latest_of x_created_at
    (filter (fun r => x_source r = b_BalanceID b \/ x_destination r = b_BalanceID b) (ld_txns db));
  sn_meta_data := b_MetaData b |}.

Section Snapshots.
(** The serial column of a balance row, and the offset of the session's time
    zone from UTC, which [DATE_TRUNC] uses. *)
Variable serial : string -> Z.
Variable offset : Z.

Definition row_id (b : Balance) : Z := serial (b_BalanceID b).
Definition id_le (a b : Balance) : Prop := row_id a <= row_id b.
#[export] Instance id_le_dec : RelDecision id_le.
Proof. unfold id_le. solve_decision. Defined.

#[export] Instance id_le_total : Total id_le.
Proof. intros a b. unfold id_le. lia. Qed.
#[export] Instance id_le_trans : Transitive id_le.
Proof. intros a b c. unfold id_le. lia. Qed.

(** The balances table in the order of its serial column. *)
Definition balances_by_id (db : ledger_db) : list Balance := merge_sort id_le (snd <$> map_to_list (ld_balances db)).

(** The balance has a snapshot of the day of [now]. *)
Definition snapshotted (snaps : list balance_snapshot) (now : Z) (b : Balance) : bool :=
  existsb (fun s => String.eqb (sn_balance_id s) (b_BalanceID b)
    && (truncate_day (sn_snapshot_time s + offset) =? truncate_day (now + offset))) snaps.

(** [id > v_last_processed_id]; a comparison with NULL holds of no row. *)
Definition above (last : option Z) (b : Balance) : bool :=
  match last with Some l => l <? row_id b | None => false end.
Definition max_id (l : list Balance) : option Z :=
  foldr (fun b m => Some (match m with Some m => Z.max (row_id b) m | None => row_id b end)) None l.

(** The loop of [take_daily_balance_snapshots_batched]; [None] when the fuel
    runs out. *)
Fixpoint snapshot_batches (fuel : nat) (db : ledger_db) (now : Z) (size : nat) (rows : list Balance)
    (last : option Z) (snaps : list balance_snapshot) (total : Z) : option (list balance_snapshot * Z) :=
  match fuel with
  | O => None
  | S fuel =>
      let batch := take size (filter (fun b => above last b && negb (snapshotted snaps now b)) rows) in
      let snaps := snaps ++ (snapshot_of db now <$> batch) in
      let total := total + Z.of_nat (length batch) in
      let last := max_id (take size (filter (fun b => above last b) rows)) in
      let finished := match last, max_id rows with Some l, Some m => m <=? l | _, _ => false end in
      if Nat.eqb (length batch) 0 || finished then Some (snaps, total)
      else snapshot_batches fuel db now size rows last snaps total
  end.

(** [TakeBalanceSnapshots]: the function's parameter is an [INTEGER], and a
    negative [LIMIT] is an error. *)
Definition TakeBalanceSnapshots (db : ledger_db) (snaps : list balance_snapshot) (now batchSize : Z) : option (result (list balance_snapshot * Z)) :=
  if (batchSize <? 0) || (2147483647 <? batchSize)
  then Some (Err (NewAPIError ErrInternalServer "Failed to take balance snapshots" None))
  else let rows := balances_by_id db in
       Ok <$> snapshot_batches (S (length rows)) db now (Z.to_nat batchSize) rows (Some 0) snaps 0.
End Snapshots.

(** ** The balance at an instant *)

Definition ErrBadRequest : string := "BAD_REQUEST".

(** [validateBalanceTimeParams]. *)
Definition validateBalanceTimeParams (balanceID : string) (targetTime : Z) : result unit :=
  if String.eqb balanceID "" then Err (NewAPIError ErrBadRequest "Balance ID cannot be empty" None)
  else if IsZero targetTime then Err (NewAPIError ErrBadRequest "Target time cannot be zero" None)
  else Ok tt.

(** [getBalanceInfo]. *)
Definition getBalanceInfo (db : ledger_db) (balanceID : string) : result (string * Z) :=
  match ld_balances db !! balanceID with
  | None => Err (NewAPIError ErrBalNotFound ("Balance '" +:+ balanceID +:+ "' not found") None)
  | Some b => Ok (b_Currency b, b_CreatedAt b)
  end.

(** [getMostRecentSnapshot]: the credit and debit totals and the instant. *)
Definition getMostRecentSnapshot (snaps : list balance_snapshot) (balanceID : string) (targetTime : Z) : Z * Z * Z :=
  match latest_of sn_snapshot_time
          (filter (fun s => sn_balance_id s = balanceID /\ sn_snapshot_time s <= targetTime) snaps) with
  | Some s => (sn_credit_balance s, sn_debit_balance s, sn_snapshot_time s)
  | None => (0, 0, 0)
  end.

(** [COALESCE(effective_date, created_at)]. *)
Definition effective_at (r : txn_row) : Z := default (x_created_at r) (x_effective_date r).
Definition effective_le (r r' : txn_row) : Prop := effective_at r <= effective_at r'.
#[export] Instance effective_le_dec : RelDecision effective_le.
Proof. unfold effective_le. solve_decision. Defined.

(** [fetchTransactions]. *)
Definition fetchTransactions (db : ledger_db) (balanceID : string) (startTime targetTime : Z) : list txn_row :=
  merge_sort effective_le (filter (fun r => (x_source r = balanceID \/ x_destination r = balanceID)
    /\ startTime < effective_at r /\ effective_at r <= targetTime /\ x_status r = StatusApplied) (ld_txns db)).

(** [applyTransaction]. *)
Definition applyTransaction (r : txn_row) (balanceID : string) (credit debit : Z) : Z * Z :=
  (if String.eqb (x_destination r) balanceID then credit + x_precise r else credit,
   if String.eqb (x_source r) balanceID then debit + x_precise r else debit).

(** [calculateBalanceFromTransactions]. *)
Definition calculateBalanceFromTransactions (db : ledger_db) (balanceID : string) (startTime targetTime credit debit : Z) : Z * Z :=
  fold_left (fun acc r => applyTransaction r balanceID (fst acc) (snd acc))
    (fetchTransactions db balanceID startTime targetTime) (credit, debit).

(** [Datasource.GetBalanceAtTime]. *)
Definition db_GetBalanceAtTime (db : ledger_db) (snaps : list balance_snapshot) (balanceID : string) (targetTime : Z)
    (fromSource : bool) : result Balance :=
  let* _ := validateBalanceTimeParams balanceID targetTime in
  let* info := getBalanceInfo db balanceID in
  let '(credit, debit, startTime) :=
    if fromSource then (0, 0, 0) else getMostRecentSnapshot snaps balanceID targetTime in
  let '(credit, debit) := calculateBalanceFromTransactions db balanceID startTime targetTime credit debit in
  Ok {| zero_balance with b_BalanceID := balanceID; b_Balance := Some (credit - debit);
        b_CreditBalance := Some credit; b_DebitBalance := Some debit;
        b_Currency := fst info; b_CreatedAt := snd info |}.

(** [LedgerForge.GetBalanceAtTime]. *)
Definition GetBalanceAtTime (db : ledger_db) (snaps : list balance_snapshot) (balanceID : string) (targetTime : Z)
    (fromSource : bool) : result Balance :=
  match db_GetBalanceAtTime db snaps balanceID targetTime fromSource with
  | Err e => Err (wrap "failed to get balance at time: " e)
  | Ok b => Ok b
  end.

(** ** Lists in batches *)

Lemma elem_of_drop_1 {A} (x : A) n l : x ∈ drop n l -> x ∈ l.
Proof. intros Hx. rewrite <- (take_drop n l), elem_of_app. by right. Qed.
Lemma elem_of_take_1 {A} (x : A) n l : x ∈ take n l -> x ∈ l.
Proof. intros Hx. rewrite <- (take_drop n l), elem_of_app. by left. Qed.

Lemma sublist_elem {A} (x : A) k l : k `sublist_of` l -> x ∈ k -> x ∈ l.
Proof. intros Hk Hx. apply (elem_of_submseteq k); [done|by apply sublist_submseteq]. Qed.

(** In a strictly ordered list, what a batch of a sublist leaves behind is
    beyond the batch of the list. *)
Lemma batch_beyond {A} (lt : A -> A -> Prop) (l k : list A) (n : nat) x y :
  StronglySorted lt l -> k `sublist_of` l -> x ∈ drop n k -> y ∈ take n l -> lt y x.
Proof.
  intros Hs Hk. revert n. induction Hk as [|a k l Hk IH|a k l Hk IH]; intros n Hx Hy;
    [rewrite drop_nil in Hx; by apply not_elem_of_nil in Hx|..];
    apply StronglySorted_inv in Hs as [Hs Ha]; rewrite Forall_forall in Ha;
    (destruct n as [|n]; [by apply not_elem_of_nil in Hy|]); cbn [take] in Hy; apply elem_of_cons in Hy as [->|Hy].
  - by apply Ha, (sublist_elem _ k), (elem_of_drop_1 _ n).
  - by apply (IH Hs n).
  - by apply Ha, (sublist_elem _ k), (elem_of_drop_1 _ (S n)).
  - apply (IH Hs (S n)); [done|]. apply elem_of_take in Hy as (i & Hl & Hi). apply elem_of_take. exists i. split; [done|lia].
Qed.

Lemma sorted_sublist {A} (R : A -> A -> Prop) (k l : list A) : StronglySorted R l -> k `sublist_of` l -> StronglySorted R k.
Proof.
  intros Hs Hk. induction Hk as [|a k l Hk IH|a k l Hk IH]; [constructor| |]; apply StronglySorted_inv in Hs as [Hs Ha].
  - constructor; [by apply IH|]. rewrite Forall_forall in *. intros x Hx. by apply Ha, (sublist_elem _ k).
  - by apply IH.
Qed.

Lemma filter_all {A} (P : A -> Prop) `{!forall x, Decision (P x)} (l : list A) : (forall x, x ∈ l -> P x) -> filter P l = l.
Proof.
  induction l as [|x l IH]; intros Hl; [done|]. rewrite filter_cons_True by (apply Hl; left).
  f_equal. apply IH. intros y Hy. apply Hl. by right.
Qed.
Lemma filter_none {A} (P : A -> Prop) `{!forall x, Decision (P x)} (l : list A) : (forall x, x ∈ l -> ~ P x) -> filter P l = [].
Proof.
  induction l as [|x l IH]; intros Hl; [done|]. rewrite filter_cons_False by (apply Hl; left).
  apply IH. intros y Hy. apply Hl. by right.
Qed.
Lemma filter_ext {A} (P Q : A -> Prop) `{!forall x, Decision (P x)} `{!forall x, Decision (Q x)} (l : list A) :
  (forall x, x ∈ l -> P x <-> Q x) -> filter P l = filter Q l.
Proof.
  induction l as [|x l IH]; intros Hl; [done|]. rewrite !filter_cons, IH by (intros y Hy; apply Hl; by right).
  pose proof (Hl x ltac:(left)) as Hx. repeat case_decide; first [done|tauto].
Qed.

Lemma filter_not_taken {A} (P : A -> Prop) `{!forall x, Decision (P x)} (l : list A) (k : nat) :
  NoDup l -> (forall x, x ∈ l -> P x <-> x ∉ take k l) -> filter P l = drop k l.
Proof.
  intros Hn HP. rewrite <- (take_drop k l) in Hn. apply NoDup_app in Hn as (_ & Hd & _).
  rewrite <- (take_drop k l) at 1. rewrite filter_app, filter_none, filter_all; [done| |].
  - intros x Hx. apply HP; [by eapply elem_of_drop_1|]. intros Hin. by apply (Hd x).
  - intros x Hx Hin%HP; [done|by eapply elem_of_take_1].
Qed.

(** ** The batched function is one insert *)

Section SnapshotFacts.
Variable serial : string -> Z.
Variable offset : Z.
Notation row_id := (row_id serial).
Notation balances_by_id := (balances_by_id serial).
Notation snapshotted := (snapshotted offset).
Notation snapshot_batches := (snapshot_batches serial offset).

(** The serial column of a table whose rows are filed under their own id. *)
Record serial_ok (db : ledger_db) : Prop := {
  so_filed : forall id b, ld_balances db !! id = Some b -> b_BalanceID b = id;
  so_pos : forall id, is_Some (ld_balances db !! id) -> 0 < serial id;
  so_inj : forall i j, is_Some (ld_balances db !! i) -> is_Some (ld_balances db !! j) -> serial i = serial j -> i = j }.

(** Rows in strictly increasing order of positive ids, one per balance. *)
Record table (rows : list Balance) : Prop := {
  ta_sorted : StronglySorted (fun a b => row_id a < row_id b) rows;
  ta_pos : forall b, b ∈ rows -> 0 < row_id b;
  ta_nodup : NoDup rows;
  ta_unique : forall a b, a ∈ rows -> b ∈ rows -> b_BalanceID a = b_BalanceID b -> a = b }.

Lemma by_id_elem db b : b ∈ balances_by_id db <-> exists id, ld_balances db !! id = Some b.
Proof.
  unfold History.balances_by_id. rewrite merge_sort_Permutation, list_elem_of_fmap. split.
  - intros ([id b'] & -> & H%elem_of_map_to_list). by exists id.
  - intros [id H]. exists (id, b). split; [done|by apply elem_of_map_to_list].
Qed.

Lemma strictly_sorted (l : list Balance) : StronglySorted (id_le serial) l -> NoDup (row_id <$> l) ->
  StronglySorted (fun a b => row_id a < row_id b) l.
Proof.
  induction l as [|a l IH]; intros Hs Hn; [constructor|]. apply StronglySorted_inv in Hs as [Hs Ha].
  rewrite fmap_cons in Hn. apply NoDup_cons in Hn as [Hni Hn]. constructor; [by apply IH|].
  apply Forall_forall. intros b Hb. rewrite Forall_forall in Ha. specialize (Ha b Hb). unfold id_le in Ha.
  assert (row_id a <> row_id b); [|lia]. intros E. apply Hni. rewrite E. by apply list_elem_of_fmap_2.
Qed.

Lemma by_id_table db : serial_ok db -> table (balances_by_id db).
Proof.
  intros [Hf Hp Hi].
  assert (NoDup (row_id <$> balances_by_id db)) as Hn.
  { unfold History.balances_by_id. rewrite merge_sort_Permutation, <- list_fmap_compose.
    apply NoDup_fmap_2_strong; [|apply NoDup_map_to_list].
    intros [i a] [j b] Ha%elem_of_map_to_list Hb%elem_of_map_to_list. cbn. unfold History.row_id.
    rewrite (Hf i a Ha), (Hf j b Hb). intros E. apply Hi in E as ->; [congruence|by eexists..]. }
  split.
  - apply strictly_sorted; [|done]. apply (StronglySorted_merge_sort _).
  - intros b (id & Hb)%by_id_elem. unfold History.row_id. rewrite (Hf id b Hb). apply Hp. by eexists.
  - by eapply NoDup_fmap_1.
  - intros a b (i & Ha)%by_id_elem (j & Hb)%by_id_elem E. rewrite (Hf i a Ha), (Hf j b Hb) in E. congruence.
Qed.

Section Loop.
Variables (db : ledger_db) (now : Z) (size : nat) (rows : list Balance) (snaps0 : list balance_snapshot).
Hypothesis (Hrows : table rows) (Hsize : (0 < size)%nat).

Definition missing (b : Balance) : bool := negb (snapshotted snaps0 now b).
Definition todo : list Balance := filter (fun b => missing b) rows.
Definition done_to (k : nat) : list balance_snapshot := snaps0 ++ (snapshot_of db now <$> take k todo).

Lemma todo_sublist : todo `sublist_of` rows.
Proof. apply sublist_filter. Qed.

Lemma snapshotted_app l b : b ∈ rows -> (forall a, a ∈ l -> a ∈ rows) ->
  snapshotted (snaps0 ++ (snapshot_of db now <$> l)) now b = true <-> missing b = false \/ b ∈ l.
Proof using Hrows.
  intros Hb Hl. unfold missing, History.snapshotted. rewrite existsb_app, orb_true_iff, negb_false_iff.
  f_equiv. rewrite existsb_exists. split.
  - intros (s & Hs & [E _]%andb_true_iff). apply list_elem_of_In, list_elem_of_fmap in Hs as (a & -> & Ha).
    apply String.eqb_eq in E. cbn in E. by rewrite <- (ta_unique _ Hrows a b (Hl a Ha) Hb E).
  - intros Hin. exists (snapshot_of db now b). rewrite <- list_elem_of_In. split; [by apply list_elem_of_fmap_2|].
    cbn. by rewrite String.eqb_refl, Z.eqb_refl.
Qed.

(** What the next batch is chosen from. *)
Lemma next_batch k l : (forall x, x ∈ drop k todo -> l < row_id x) ->
  filter (fun b => above serial (Some l) b && negb (snapshotted (done_to k) now b)) rows = drop k todo.
Proof using Hrows.
  intros Hl. assert (forall b, b ∈ rows -> snapshotted (done_to k) now b = true <-> missing b = false \/ b ∈ take k todo) as Hd.
  { intros b Hb. apply snapshotted_app; [done|]. intros a Ha. eapply sublist_elem; [apply todo_sublist|by eapply elem_of_take_1]. }
  set (P := fun b => Is_true (above serial (Some l) b && negb (snapshotted (done_to k) now b))).
  transitivity (filter P todo).
  { unfold todo. rewrite list_filter_filter. apply filter_ext. intros b Hb. specialize (Hd b Hb). unfold P.
    destruct (missing b), (snapshotted (done_to k) now b), (above serial (Some l) b); cbn; naive_solver. }
  apply filter_not_taken; [unfold todo; apply NoDup_filter, (ta_nodup _ Hrows)|].
  intros x Hx. pose proof (proj1 (list_elem_of_filter _ _ _) Hx) as [Hm Hr]. specialize (Hd x Hr). unfold P, above. split.
  - intros [_ Hp]%andb_True Hin. rewrite (proj2 Hd) in Hp by (by right). done.
  - intros Hn. apply andb_True. split.
    + apply Is_true_true, Z.ltb_lt, Hl. rewrite <- (take_drop k todo), elem_of_app in Hx. tauto.
    + destruct (snapshotted (done_to k) now x); [|done]. destruct (missing x); [|done]. naive_solver.
Qed.

Lemma max_id_bound l b m : b ∈ l -> max_id serial l = Some m -> row_id b <= m.
Proof.
  revert m. induction l as [|a l IH]; intros m Hb; [by apply not_elem_of_nil in Hb|]. cbn. fold (max_id serial l). intros [= <-].
  apply elem_of_cons in Hb as [->|Hb]; [destruct (max_id serial l); lia|].
  destruct (max_id serial l) as [m|] eqn:E; [specialize (IH m Hb eq_refl); lia|].
  destruct l; [by apply not_elem_of_nil in Hb|done].
Qed.
Lemma max_id_None l : max_id serial l = None -> l = [].
Proof. by destruct l. Qed.
Lemma max_id_elem l m : max_id serial l = Some m -> exists b, b ∈ l /\ row_id b = m.
Proof.
  revert m. induction l as [|a l IH]; intros m; [done|]. cbn. fold (max_id serial l). intros [= <-].
  destruct (max_id serial l) as [m|]; [|exists a; split; [left|done]].
  destruct (IH m eq_refl) as (b & Hb & E). destruct (Z.max_spec (row_id a) m) as [[_ ->]|[_ ->]].
  - exists b. split; [by right|done].
  - exists a. split; [left|done].
Qed.

Lemma rest_sublist k l : (forall x, x ∈ drop k todo -> l < row_id x) ->
  drop k todo `sublist_of` filter (fun b => above serial (Some l) b) rows.
Proof using Hrows db.
  intros Hl. rewrite <- (next_batch k l Hl), (filter_ext _ (fun b => negb (snapshotted (done_to k) now b) /\ above serial (Some l) b)).
  - rewrite <- list_filter_filter. apply sublist_filter.
  - intros b _. rewrite andb_True. tauto.
Qed.

(** Rows left for later batches are beyond the last id of this one. *)
Lemma last_below k l m x : (forall y, y ∈ drop k todo -> l < row_id y) ->
  max_id serial (take size (filter (fun b => above serial (Some l) b) rows)) = Some m ->
  x ∈ drop (k + size) todo -> m < row_id x.
Proof using Hrows db.
  intros Hl (b & Hb & <-)%max_id_elem Hx. rewrite <- drop_drop in Hx.
  refine (batch_beyond (fun a b => row_id a < row_id b) _ _ _ _ _ _ _ Hx Hb).
  - eapply sorted_sublist; [apply (ta_sorted _ Hrows)|apply sublist_filter].
  - by apply rest_sublist.
Qed.

Lemma snapshot_loop fuel k l total : (length (drop k todo) < fuel)%nat -> (forall x, x ∈ drop k todo -> l < row_id x) ->
  snapshot_batches fuel db now size rows (Some l) (done_to k) total =
  Some (snaps0 ++ (snapshot_of db now <$> todo), total + Z.of_nat (length (drop k todo))).
Proof using Hrows Hsize.
  revert k l total. induction fuel as [|fuel IH]; intros k l total Hf Hl; [lia|]. cbn [History.snapshot_batches].
  rewrite (next_batch k l Hl). unfold done_to. rewrite <- app_assoc, <- fmap_app, take_take_drop. fold (done_to (k + size)).
  assert (drop (k + size) todo = [] -> done_to (k + size) = snaps0 ++ (snapshot_of db now <$> todo)
    /\ length (take size (drop k todo)) = length (drop k todo)) as Hend.
  { intros E. pose proof (f_equal length E) as El. rewrite length_drop in El. cbn in El.
    unfold done_to. rewrite take_ge, length_take, length_drop by lia. split; [done|lia]. }
  destruct (Nat.eqb_spec (length (take size (drop k todo))) 0) as [E0|E0]; cbn [orb].
  { rewrite length_take in E0. destruct Hend as [-> ->]; [|done]. apply length_zero_iff_nil. rewrite length_drop. rewrite length_drop in E0. lia. }
  destruct (max_id serial (take size (filter _ rows))) as [m|] eqn:Em.
  - pose proof (fun x => last_below k l m x Hl Em) as Hm. destruct (max_id serial rows) as [mx|] eqn:Ex.
    + destruct (mx <=? m) eqn:Eb; zbool.
      * destruct Hend as [-> ->]; [|done]. destruct (drop (k + size) todo) as [|x r] eqn:Ed; [done|].
        specialize (Hm x ltac:(left)). assert (x ∈ rows) as Hx.
        { eapply sublist_elem; [apply todo_sublist|]. eapply elem_of_drop_1. rewrite Ed. left. }
        pose proof (max_id_bound _ _ _ Hx Ex). lia.
      * rewrite (IH (k + size)%nat m) by (try done; rewrite length_drop in *; rewrite length_take in E0; rewrite length_drop in E0; lia).
        f_equal. f_equal. rewrite length_take, !length_drop. lia.
    + exfalso. apply max_id_elem in Em as (b & Hb & _). apply elem_of_take_1, list_elem_of_filter in Hb as [_ Hb].
      by apply max_id_None in Ex as Er; rewrite Er in Hb; apply not_elem_of_nil in Hb.
  - exfalso. destruct (take size (filter (fun b => above serial (Some l) b) rows)) as [|b r] eqn:Et; [|done].
    apply E0. pose proof (sublist_length _ _ (rest_sublist k l Hl)) as Hsub.
    apply (f_equal length) in Et. rewrite length_take in Et |- *. cbn [length] in Et. lia.
Qed.
End Loop.

(** C11: taking the daily snapshots in batches is one insert.  For every batch
    size the loop of the database function ends, and it inserts, in the order
    of the table, a snapshot of exactly the balances that have none of the day
    of the call, with their totals at that moment, and answers how many; after
    it every balance has one, so that a second call on that day, with any batch
    size, inserts nothing. *)
Theorem snapshots_are_one_insert (db : ledger_db) (snaps : list balance_snapshot) (now size size' : Z) :
  serial_ok db -> 0 < size <= 2147483647 -> 0 < size' <= 2147483647 ->
  let new := filter (fun b => negb (snapshotted snaps now b)) (balances_by_id db) in
  let snaps' := snaps ++ (snapshot_of db now <$> new) in
  TakeBalanceSnapshots serial offset db snaps now size = Some (Ok (snaps', Z.of_nat (length new))) /\
  (forall id b, ld_balances db !! id = Some b -> snapshotted snaps' now b = true) /\
  TakeBalanceSnapshots serial offset db snaps' now size' = Some (Ok (snaps', 0)).
Proof.
  intros Hs Hsize Hsize' new snaps'. pose proof (by_id_table db Hs) as Ht.
  assert (forall sn n, 0 < n <= 2147483647 -> TakeBalanceSnapshots serial offset db sn now n =
    Some (Ok (sn ++ (snapshot_of db now <$> todo now (balances_by_id db) sn), Z.of_nat (length (todo now (balances_by_id db) sn))))) as Hall.
  { intros sn n Hn. unfold TakeBalanceSnapshots. replace (n <? 0) with false by (symmetry; apply Z.ltb_ge; lia).
    replace (2147483647 <? n) with false by (symmetry; apply Z.ltb_ge; lia). cbn [orb].
    pose proof (snapshot_loop db now (Z.to_nat n) (balances_by_id db) sn Ht ltac:(lia) (S (length (balances_by_id db))) 0%nat 0 0) as Hl.
    unfold done_to in Hl. cbn [take drop] in Hl. rewrite app_nil_r in Hl. rewrite Hl; [done| |].
    - apply Nat.lt_succ_r, sublist_length, todo_sublist.
    - intros x Hx. apply (ta_pos _ Ht). eapply sublist_elem; [apply todo_sublist|done]. }
  assert (forall b, b ∈ balances_by_id db -> snapshotted snaps' now b = true) as Hcov.
  { intros b Hb. apply (snapshotted_app db now (balances_by_id db) snaps Ht); [done|by intros a [_ ?]%list_elem_of_filter|].
    destruct (missing now snaps b) eqn:E; [right|by left]. apply list_elem_of_filter. split; [|done]. unfold missing in E. by rewrite E. }
  split_and!; [by apply Hall| |].
  - intros id b Hb. apply Hcov, by_id_elem. by exists id.
  - rewrite Hall by done. unfold todo. rewrite filter_none; [by rewrite fmap_nil, app_nil_r|].
    intros b Hb. unfold missing. rewrite (Hcov b Hb). by intros [].
Qed.
End SnapshotFacts.

(** ** Balances at an instant are sums of the journal *)

#[export] Instance effective_le_total : Total effective_le.
Proof. intros a b. unfold effective_le. lia. Qed.

(** The rows a reading of [id] sums: applied, and effective in a range. *)
Definition counted (lo hi : Z) (r : txn_row) : Prop :=
  lo < effective_at r /\ effective_at r <= hi /\ x_status r = StatusApplied.
#[export] Instance counted_dec lo hi r : Decision (counted lo hi r).
Proof. unfold counted. apply _. Defined.

Definition names (id : string) (r : txn_row) : Prop := x_source r = id \/ x_destination r = id.
#[export] Instance names_dec id r : Decision (names id r).
Proof. unfold names. apply _. Defined.

Lemma journal_Permutation l l' id : l ≡ₚ l' -> journal l id = journal l' id.
Proof.
  induction 1 as [|r l l' _ IH|r r' l|l1 l2 l3 _ IH1 _ IH2]; [done| | |congruence].
  - cbn. unfold journal in IH. by rewrite IH.
  - cbn. rewrite !acc_add_assoc. f_equal. account_eq.
Qed.

Lemma effect_unnamed id r : ~ names id r -> effect_on id r = acc_zero.
Proof.
  intros Hn. unfold effect_on. destruct (String.eqb_spec (x_source r) id), (String.eqb_spec (x_destination r) id); unfold names in Hn; [tauto..|done].
Qed.

Lemma journal_named l id : journal (filter (names id) l) id = journal l id.
Proof.
  induction l as [|r l IH]; [done|]. rewrite filter_cons. case_decide as Hn; cbn; unfold journal in IH; rewrite <- IH; [done|].
  by rewrite effect_unnamed, acc_add_zero_l.
Qed.

(** An applied row moves the credit of its destination and the debit of its
    source. *)
Lemma applied_effect id r c d : x_status r = StatusApplied ->
  applyTransaction r id c d = (c + a_cr (effect_on id r), d + a_dr (effect_on id r)).
Proof.
  intros E. assert (row_kind r = if String.eqb (x_queue_action r) "COMMIT" then Settle else Direct) as Hk
    by (unfold row_kind; rewrite E; reflexivity).
  unfold applyTransaction, effect_on. rewrite Hk. destruct (String.eqb (x_queue_action r) "COMMIT"), (String.eqb (x_source r) id), (String.eqb (x_destination r) id); cbn; f_equal; lia.
Qed.

Lemma calculate_sums db id lo hi c d :
  let sums := journal (filter (counted lo hi) (ld_txns db)) id in
  calculateBalanceFromTransactions db id lo hi c d = (c + a_cr sums, d + a_dr sums).
Proof.
  cbv zeta. rewrite <- journal_named, list_filter_filter.
  unfold calculateBalanceFromTransactions, fetchTransactions. set (l := merge_sort effective_le _).
  rewrite <- (journal_Permutation l) by (unfold l; rewrite merge_sort_Permutation; by apply reflexive_eq, filter_ext).
  assert (Forall (fun r => x_status r = StatusApplied) l) as Hl.
  { apply Forall_forall. intros r Hr. unfold l in Hr. rewrite merge_sort_Permutation in Hr. apply list_elem_of_filter in Hr. tauto. }
  clearbody l. revert c d. induction Hl as [|r l Hr _ IH]; intros c d; [cbn; f_equal; lia|].
  change (journal (r :: l) id) with (acc_add (effect_on id r) (journal l id)).
  cbn [fold_left fst snd]. rewrite (applied_effect id r c d Hr), IH. cbn [acc_add a_cr a_dr]. f_equal; lia.
Qed.

(** The totals that are not inflight, and the rows that move them. *)
Definition settled (a : account) : Z * Z := (a_cr a, a_dr a).
Definition moves_money (r : txn_row) : Prop := row_kind r = Direct \/ row_kind r = Settle.

Lemma settled_add a b a' b' : settled a = settled a' -> settled b = settled b' -> settled (acc_add a b) = settled (acc_add a' b').
Proof. unfold settled. cbn. intros [= -> ->] [= -> ->]. done. Qed.

Lemma idle_effect id r : ~ moves_money r -> settled (effect_on id r) = (0, 0).
Proof.
  unfold moves_money, settled, effect_on. intros Hn. destruct (row_kind r); [..|tauto|]; try tauto; by repeat case_match.
Qed.

(** Only the rows that name the balance and move money matter to a reading. *)
Lemma journal_agree (P Q : txn_row -> Prop) `{!forall r, Decision (P r)} `{!forall r, Decision (Q r)} id l :
  (forall r, r ∈ l -> names id r -> moves_money r -> P r <-> Q r) ->
  settled (journal (filter P l) id) = settled (journal (filter Q l) id).
Proof.
  induction l as [|r l IH]; intros Hl; [done|].
  specialize (IH (fun x Hx => Hl x (list_elem_of_further _ _ _ Hx))). specialize (Hl r ltac:(left)). rewrite !filter_cons.
  assert ((P r <-> Q r) \/ settled (effect_on id r) = settled acc_zero) as [HPQ|Hz].
  { destruct (decide (names id r)); [|right; by rewrite effect_unnamed].
    destruct (decide (row_kind r = Direct \/ row_kind r = Settle)) as [Hm|Hm]; [left; by apply Hl|right; by apply idle_effect]. }
  - repeat case_decide; [|tauto..|done]. by apply settled_add.
  - assert (forall m, settled (journal (r :: m) id) = settled (journal m id)) as Hskip.
    { intros m. change (journal (r :: m) id) with (acc_add (effect_on id r) (journal m id)).
      rewrite (settled_add _ _ acc_zero (journal m id) Hz eq_refl). by rewrite acc_add_zero_l. }
    repeat case_decide; by rewrite ?Hskip.
Qed.

Lemma latest_elem {A} (time : A -> Z) l s : latest_of time l = Some s -> s ∈ l.
Proof.
  revert s. induction l as [|a l IH]; intros s; [done|]. cbn. fold (latest_of time l).
  destruct (latest_of time l) as [b|]; [|intros [= ->]; left].
  case_match; intros [= ->]; [right; by apply IH|left].
Qed.

Section History.
Context {Dops : DecimalOps} {Dlaws : DecimalLaws}.
Variable GenerateUUIDWithSuffix : string -> nat -> string.
Notation run := (run GenerateUUIDWithSuffix).

Lemma run_before db past p : run (db :: past) -> p ∈ db :: past -> exists past', run (p :: past').
Proof.
  remember (db :: past) as tr eqn:E. intros H. revert db past E.
  induction H as [db0 H1 H2|db0 past0 db1 H IH Hs]; intros db past [= <- <-]; rewrite elem_of_cons; intros [->|Hp].
  - exists []. by constructor.
  - by apply not_elem_of_nil in Hp.
  - eexists. by econstructor.
  - by apply (IH db0 past0).
Qed.

(** A snapshot of [id] taken at a moment [p] of the run, with the dates in
    order: what had moved money by then was effective by then, what moved money
    later is effective later. *)
Record in_order (db p : ledger_db) (id : string) (s : balance_snapshot) : Prop := {
  io_taken : exists b, ld_balances p !! id = Some b /\ s = snapshot_of p (sn_snapshot_time s) b;
  io_time : 0 < sn_snapshot_time s;
  io_before : forall r, r ∈ ld_txns p -> names id r -> moves_money r -> counted 0 (sn_snapshot_time s) r;
  io_after : forall r, r ∈ drop (length (ld_txns p)) (ld_txns db) -> names id r -> moves_money r ->
    sn_snapshot_time s < effective_at r }.

Lemma whole_journal id l : settled (journal l id) = settled (journal (filter (fun _ => True) l) id).
Proof. by rewrite filter_all. Qed.
Lemma nothing_counted id l : settled (journal (filter (fun _ => False) l) id) = (0, 0).
Proof. by rewrite filter_none by tauto. Qed.

(** The snapshot and the rows since it make up the rows from the start. *)
Lemma snapshot_sums db past p id s T : run (db :: past) -> p ∈ db :: past -> in_order db p id s -> sn_snapshot_time s <= T ->
  (sn_credit_balance s + a_cr (journal (filter (counted (sn_snapshot_time s) T) (ld_txns db)) id),
   sn_debit_balance s + a_dr (journal (filter (counted (sn_snapshot_time s) T) (ld_txns db)) id)) =
  settled (journal (filter (counted 0 T) (ld_txns db)) id).
Proof.
  intros Hr Hp [(b & Hb & Es) Ht Hbef Haft] HT.
  destruct (run_rows _ db past p Hr Hp) as (f & rows & E). destruct (run_before db past p Hr Hp) as [past' Hr'].
  destruct (j_balance _ (proj1 (run_journal _ p past' Hr')) id b Hb) as (_ & _ & _ & Ev).
  rewrite E in Haft |- *. rewrite drop_app_length' in Haft by (by rewrite length_fmap). set (t0 := sn_snapshot_time s) in *.
  assert (forall r, r ∈ with_meta f <$> ld_txns p -> names id r -> moves_money r -> counted 0 t0 r) as Hbef'.
  { intros r (r0 & -> & Hr0)%list_elem_of_fmap. by apply (Hbef r0). }
  rewrite !filter_app, !journal_app. unfold settled. cbn [acc_add a_cr a_dr].
  opose proof (journal_agree (counted t0 T) (fun _ => False) id (with_meta f <$> ld_txns p) _) as E1.
  { intros r Hr0 Hn Hm. specialize (Hbef' r Hr0 Hn Hm). unfold counted in *. intuition lia. }
  opose proof (journal_agree (counted 0 T) (fun _ => True) id (with_meta f <$> ld_txns p) _) as E2.
  { intros r Hr0 Hn Hm. specialize (Hbef' r Hr0 Hn Hm). unfold counted in *. intuition lia. }
  opose proof (journal_agree (counted t0 T) (counted 0 T) id rows _) as E3.
  { intros r Hr0 Hn Hm. specialize (Haft r Hr0 Hn Hm). unfold counted in *. intuition lia. }
  rewrite nothing_counted in E1. rewrite <- whole_journal, journal_with_meta, <- Ev in E2.
  injection E1 as -> ->. injection E2 as -> ->. injection E3 as -> ->. rewrite Es. done.
Qed.

(** C10: a balance at an instant is what the journal says of it.  At every
    moment of a run, reading a balance at an instant succeeds, and its credit
    and debit are the sums of the applied transactions that name it and are
    effective by then - from the latest snapshot as from the source, provided
    that the snapshots of the balance up to the instant were taken during the
    run with the dates in order.  Once everything that moved its money is
    effective the reading is the stored balance. *)
Theorem balance_at_time_is_the_journal (db : ledger_db) (past : list ledger_db) (snaps : list balance_snapshot)
    (id : string) (b : Balance) (T : Z) :
  run (db :: past) -> ld_balances db !! id = Some b -> id <> ""%string -> T <> 0 ->
  (forall s, s ∈ snaps -> sn_balance_id s = id -> sn_snapshot_time s <= T ->
     exists p, p ∈ db :: past /\ in_order db p id s) ->
  forall fromSource, exists r, GetBalanceAtTime db snaps id T fromSource = Ok r /\
    settled (view r) = settled (journal (filter (counted 0 T) (ld_txns db)) id) /\
    BAL r = CR r - DR r /\ b_Currency r = b_Currency b /\ b_CreatedAt r = b_CreatedAt b /\
    ((forall x, x ∈ ld_txns db -> names id x -> moves_money x -> counted 0 T x) ->
     CR r = CR b /\ DR r = DR b /\ BAL r = BAL b).
Proof.
  intros Hr Hb Hid HT Hs fromSource.
  destruct (j_balance _ (proj1 (run_journal _ db past Hr)) id b Hb) as (_ & Hc & _ & Ev).
  assert (forall c d t, (if fromSource then (0, 0, 0) else getMostRecentSnapshot snaps id T) = (c, d, t) ->
    calculateBalanceFromTransactions db id t T c d = settled (journal (filter (counted 0 T) (ld_txns db)) id)) as Hcalc.
  { intros c d t E. rewrite calculate_sums. destruct fromSource; [by injection E as <- <- <-|].
    unfold getMostRecentSnapshot in E. destruct (latest_of _ _) as [s|] eqn:El; [|by injection E as <- <- <-].
    injection E as <- <- <-. apply latest_elem, list_elem_of_filter in El as [[E1 E2] Hin].
    destruct (Hs s Hin E1 E2) as (p & Hp & Ho). by apply (snapshot_sums db past p). }
  unfold GetBalanceAtTime, db_GetBalanceAtTime, validateBalanceTimeParams, getBalanceInfo, IsZero.
  apply String.eqb_neq in Hid. apply Z.eqb_neq in HT. rewrite Hid, HT, Hb. cbn [res_bind].
  destruct (if fromSource then _ else _) as [[c d] t]. specialize (Hcalc c d t eq_refl).
  destruct (calculateBalanceFromTransactions db id t T c d) as [cr dr]. eexists. split; [done|].
  split_and!; [exact Hcalc|done..|]. intros Hall.
  opose proof (journal_agree (counted 0 T) (fun _ => True) id (ld_txns db) _) as E; [intros x ? ? ?; split; [done|auto]|].
  rewrite <- whole_journal, <- Ev in E. rewrite E in Hcalc. injection Hcalc as -> ->. unfold coherent in Hc. split_and!; try done. cbn. lia.
Qed.
End History.

(** ** On concrete inputs *)

Module HistoryWitness.
Import LifecycleWitness RefineWitness.
#[local] Existing Instance DecimalInstance.dnum_ops.

(** A direct payment of 100, with an effective date of its own or not. *)
Definition transfer (now : Z) (id : string) (eff : option Z) : Transaction :=
  let p := pay in
  {| p with t_TransactionID := id; t_Reference := id; t_Inflight := false; t_CreatedAt := now; t_EffectiveDate := eff |}.
Definition paid (now : Z) (id : string) (eff : option Z) (db : ledger_db) : ledger_db :=
  fst (recordTransactionSingle gen ok_hooks ok_locks true now (transfer now id eff) false db).

(** Paid at 7 and at 20, with the day's snapshots taken at 10. *)
Definition db1 : ledger_db := paid 7 "t1" None empty_db.
Definition db2 : ledger_db := paid 20 "t2" None db1.
Definition serial (id : string) : Z := if String.eqb id "bln_0" then 1 else 2.
Definition taken_at (now : Z) (db : ledger_db) : list balance_snapshot :=
  match TakeBalanceSnapshots serial 0 db [] now 1 with Some (Ok (l, _)) => l | _ => [] end.
Definition snaps : list balance_snapshot := taken_at 10 db1.
Definition reading_of (db : ledger_db) (snaps : list balance_snapshot) (T : Z) (fromSource : bool) : option Z :=
  match GetBalanceAtTime db snaps "bln_1" T fromSource with Ok r => b_CreditBalance r | Err _ => None end.

Lemma transfer_well_formed now id eff : well_formed (transfer now id eff).
Proof. split_and!; intros; discriminate. Qed.

Lemma paid_run now id eff db past : run gen (db :: past) ->
  exists past', run gen (paid now id eff db :: past') /\ db ∈ paid now id eff db :: past'.
Proof.
  intros Hr. destruct (wp_record gen ok_hooks ok_locks true now (transfer now id eff) false (db :: past) (transfer_well_formed now id eff)
    db past eq_refl Hr) as (p & Hp & Hsuf & _). exists p. split; [done|].
  destruct Hsuf as [l E]. unfold paid. rewrite E. apply elem_of_app. right. left.
Qed.

Lemma balances_of_db1 id b : ld_balances db1 !! id = Some b -> (id = "bln_0" \/ id = "bln_1")%string /\ b_BalanceID b = id.
Proof.
  intros H%elem_of_map_to_list.
  assert ((fun x => (x.1, b_BalanceID x.2)) <$> map_to_list (ld_balances db1) = [("bln_1", "bln_1"); ("bln_0", "bln_0")]%string) as E
    by (vm_compute; reflexivity).
  apply (list_elem_of_fmap_2 (fun x => (x.1, b_BalanceID x.2))) in H. rewrite E in H. clear E. cbn in H.
  rewrite !elem_of_cons in H. destruct H as [[= -> ->]|[[= -> ->]|H%not_elem_of_nil]]; auto; done.
Qed.

Lemma snapshots_are_one_insert_witness :
  TakeBalanceSnapshots serial 0 db1 [] 10 1 = Some (Ok (snaps, 2)) /\ TakeBalanceSnapshots serial 0 db1 snaps 10 5 = Some (Ok (snaps, 0)).
Proof.
  destruct (snapshots_are_one_insert serial 0 db1 [] 10 1 5) as (H1 & _ & H2).
  - split.
    + intros id b Hb. apply (proj2 (balances_of_db1 id b Hb)).
    + intros id [b Hb]. destruct (proj1 (balances_of_db1 id b Hb)) as [-> | ->]; reflexivity.
    + intros i j [b Hb] [b' Hb']. destruct (proj1 (balances_of_db1 i b Hb)) as [-> | ->], (proj1 (balances_of_db1 j b' Hb')) as [-> | ->];
        intros E; first [reflexivity|discriminate E].
  - lia.
  - lia.
  - split; [vm_compute; reflexivity|]. unfold snaps, taken_at. rewrite H1. exact H2.
Defined.

Lemma in_order_db2 s : s ∈ snaps -> sn_balance_id s = "bln_1"%string -> in_order db2 db1 "bln_1" s.
Proof.
  assert (snaps = [snapshot_of db1 10 (default zero_balance (ld_balances db1 !! "bln_0"));
                   snapshot_of db1 10 (default zero_balance (ld_balances db1 !! "bln_1"))]%string) as -> by (vm_compute; reflexivity).
  rewrite !elem_of_cons. intros [->|[->|H%not_elem_of_nil]] E; [vm_compute in E; discriminate| |done]. split.
  - exists (default zero_balance (ld_balances db1 !! "bln_1"%string)). split; vm_compute; reflexivity.
  - done.
  - assert (Forall (counted 0 10) (ld_txns db1)) as Hf by (apply (bool_decide_unpack _); vm_compute; exact I).
    intros r Hr _ _. rewrite Forall_forall in Hf. by apply Hf.
  - assert (Forall (fun r => 10 < effective_at r) (drop (length (ld_txns db1)) (ld_txns db2))) as Hf
      by (apply (bool_decide_unpack _); vm_compute; exact I).
    intros r Hr _ _. rewrite Forall_forall in Hf. by apply Hf.
Qed.

Lemma balance_at_time_is_the_journal_witness : exists r,
  GetBalanceAtTime db2 snaps "bln_1" 15 false = Ok r /\
  settled (view r) = settled (journal (filter (counted 0 15) (ld_txns db2)) "bln_1").
Proof.
  destruct (paid_run 7 "t1" None empty_db [] start) as (p1 & R1 & _). destruct (paid_run 20 "t2" None db1 p1 R1) as (p2 & R2 & Hin).
  destruct (balance_at_time_is_the_journal gen db2 p2 snaps "bln_1" (default zero_balance (ld_balances db2 !! "bln_1"%string)) 15 R2)
    with (fromSource := false) as (r & E & S & _).
  - vm_compute. reflexivity.
  - discriminate.
  - discriminate.
  - intros s Hs Hid _. exists db1. split; [exact Hin|exact (in_order_db2 s Hs Hid)].
  - exists r. split; [exact E|exact S].
Defined.

End HistoryWitness.
