(* ===== verification/FrontDoor.v ===== *)
(** * The front door refines the runs

    [Refine] treats the executor and the settlement of holds.  Here the
    handlers a client reaches first - queueing, splitting, direct recording,
    refunds, bulk requests with their rollback, approvals - and the queue
    worker are shown to change the store only by steps of a run as well.  What
    a client submits is a transaction with no status or a queued one; that is
    carried through preparation, splitting and policy admission, so every row
    the front door writes is an intent, a rejection or a posting of the
    executor. *)
From stdpp Require Import base option list strings gmap sorting.
From Stdlib Require Import ZArith Lia.
From S2P Require Import Prelude GoFloat Model Sha256 Decimal DecimalInstance Amount Balance Distribution Policy PolicyStore Store Lifecycle Engine Inflight Queue Effect Journal Refine.
Close Scope Q_scope.
Open Scope Z_scope.

(** ** What is submitted *)

(** A transaction of a client: no status yet, or one that waits. *)
Definition submitted (t : Transaction) : Prop :=
  (t_Status t = ""%string \/ t_Status t = StatusQueued \/ t_Status t = StatusScheduled) /\
  t_QueueAction t <> StatusCommit.

(** After [setTransactionStatus]. *)
Definition waiting (t : Transaction) : Prop :=
  (t_Status t = StatusQueued \/ t_Status t = StatusScheduled) /\ t_QueueAction t <> StatusCommit.

(** The status and the action are those of [t]. *)
Definition same_stage (t t' : Transaction) : Prop :=
  t_Status t' = t_Status t /\ t_QueueAction t' = t_QueueAction t.
#[export] Instance same_stage_preorder : PreOrder same_stage.
Proof. split; unfold same_stage; [done|]. intros a b c [-> ->] [-> ->]. done. Qed.

Lemma submitted_stage t t' : same_stage t t' -> submitted t -> submitted t'.
Proof. unfold submitted. by intros [-> ->]. Qed.
Lemma waiting_stage t t' : same_stage t t' -> waiting t -> waiting t'.
Proof. unfold waiting. by intros [-> ->]. Qed.
Lemma waiting_Forall_stage (ts ts' : list Transaction) :
  Forall2 same_stage ts ts' -> Forall waiting ts -> Forall waiting ts'.
Proof. induction 1; inversion_clear 1; constructor; eauto using waiting_stage. Qed.

Lemma waiting_status t : submitted t -> waiting (setTransactionStatus t).
Proof.
  intros [H Ha]. unfold setTransactionStatus, waiting. destruct (negb _); cbn; [split; [by right|done]|].
  destruct (String.eqb (t_Status t) "") eqn:E; cbn; [split; [by left|done]|]. zbool. by destruct H.
Qed.
Lemma waiting_submitted t : waiting t -> submitted t.
Proof. intros [[H|H] Ha]; split; auto. Qed.
Lemma waiting_well_formed t : waiting t -> well_formed t.
Proof. intros [[H|H] Ha]; unfold well_formed; rewrite H; split_and!; done. Qed.
Lemma waiting_intent t : waiting t -> kind_of (t_Status t) (t_QueueAction t) = Intent.
Proof. by intros [[-> | ->] _]. Qed.

(** *** Pure steps keep the stage *)

Lemma stage_Apply a t : same_stage t (Apply a t).
Proof. destruct a as [a|]; [|done]. unfold Apply. cbv zeta. by destruct (String.eqb _ _). Qed.
Lemma stage_clear cx t : same_stage t (clearCallerPolicyMetadata cx t).
Proof. unfold clearCallerPolicyMetadata. by destruct (cx_internal cx). Qed.
Lemma stage_updateSplit legs parentID ref : Forall2 same_stage legs (updateSplitTransactions legs parentID ref).
Proof.
  unfold updateSplitTransactions. generalize 1. induction legs as [|leg legs IH]; intros i; cbn; constructor; [done|apply IH].
Qed.
Lemma stage_fmap (f : Transaction -> Transaction) ts :
  (forall t, same_stage t (f t)) -> Forall2 same_stage ts (f <$> ts).
Proof. intros Hf. induction ts; cbn; constructor; auto. Qed.
Lemma stage_lane (lane : option (string -> string -> string -> string)) t : same_stage t (AssignQueueLane lane t).
Proof. unfold AssignQueueLane. by destruct lane; [destruct (_ || _)|]. Qed.

Section FrontDoor.
Context {Dops : DecimalOps} {Dlaws : DecimalLaws}.
Variable gen : string -> nat -> string.
Variable numeric_float : string -> float64.
Variable pre_hooks : Transaction -> result unit.
Variable acquire : list string -> result unit.
Variable EnableQueuedChecks : bool.
Variable now : Z.
Variable GetTransactionFromQueue : string -> result (option Transaction).
Variable enqueue queue_expiry queue_commit : Transaction -> result unit.
Variable json_legs : list PolicyLeg -> string.
Variable json_refs : list string -> string.
Variable resolve_lane : option (string -> string -> string -> string).
Variable BatchSize : Z.

#[local] Notation wp := (wp gen).
(** Every result satisfies [P]. *)
#[local] Notation returns m P := (forall trace, wp m (fun _ => P) trace).
#[local] Notation safe m := (forall trace, wp m any trace).

(** ** Preparation *)

#[local] Notation new_id := (new_id gen).
Lemma safe_new_id suffix trace : wp (new_id suffix) any trace.
Proof. apply wp_new_id. Qed.
Lemma safe_pair t trace : wp (getSourceAndDestination gen EnableQueuedChecks now t) any trace.
Proof. eapply safe_of, wp_getSourceAndDestination. Qed.
#[local] Hint Resolve safe_new_id safe_pair : front.

Lemma stage_ApplyPrecision t : same_stage t (snd (ApplyPrecision t)).
Proof. destruct (ApplyPrecision_keeps t) as (E1 & E2 & _). by split. Qed.

Lemma stage_metadata t : returns (setTransactionMetadata gen now t) (same_stage t).
Proof.
  intros trace. unfold setTransactionMetadata. cbv zeta.
  match goal with |- context [ApplyPrecision ?u] => set (t1 := u) end.
  assert (same_stage t (snd (ApplyPrecision t1))) as H by (transitivity t1; [done|apply stage_ApplyPrecision]).
  destruct (ApplyPrecision t1) as [amount t2]. cbn in H. apply safe_then; [intros; walk|]. intros id tr.
  apply wp_ret. exact H.
Qed.

Lemma stage_precise t : same_stage t (convertPreciseToDecimal t).
Proof. unfold convertPreciseToDecimal. by repeat case_match. Qed.

Lemma split_legs_stage t0 amounts ds : forall counter t acc, same_stage t0 t -> Forall (same_stage t0) acc ->
  returns (split_legs gen amounts ds counter t acc) (fun r => same_stage t0 r.1 /\ Forall (same_stage t0) r.2).
Proof.
  induction ds as [|d ds IH]; intros counter t acc Ht Hacc trace; cbn [split_legs]; [by apply wp_ret|].
  destruct (amounts !! d_Identifier d) as [amount|]; [|by apply IH].
  apply safe_then; [intros; walk|]. intros id tr. cbv zeta. apply IH; [by transitivity t|].
  apply Forall_app. split; [done|]. constructor; [|done]. transitivity t; [done|].
  set (t' := {| t with t_TransactionID := id; t_PreciseAmount := Some amount |}).
  transitivity t'; [done|]. apply (stage_precise t').
Qed.

Lemma split_stage t :
  returns (handleSplitTransactions gen t) (fun r => same_stage t r.1 /\ Forall (same_stage t) r.2).
Proof.
  intros trace. apply wp_with_context.
  apply (wp_then _ _ _ (fun r : Transaction * list Transaction => same_stage t r.1 /\ Forall (same_stage t) r.2)).
  - intros tr. unfold SplitTransactionPrecise. cbv zeta. apply safe_then; [intros; walk|]. intros _ tr1.
    destruct (_ || _); [apply wp_fail|]. apply safe_then; [intros; walk|]. intros amounts tr2.
    by apply split_legs_stage.
  - intros [t' legs] tr [H1 H2]. apply wp_ret. split; [done|]. cbn in *.
    induction H2; cbn; constructor; [|done]. by etrans.
Qed.
Lemma split_waiting t : waiting t ->
  returns (handleSplitTransactions gen t) (fun r => waiting r.1 /\ Forall waiting r.2).
Proof.
  intros Ht trace. eapply wp_mono; [apply split_stage|]. intros _ r _ [H1 H2].
  split; [by eapply waiting_stage|]. eapply Forall_impl; [exact H2|]. intros leg Hl. by eapply waiting_stage.
Qed.

(** ** Admissions *)

Lemma policyLeg_stage t : returns (policyLeg gen EnableQueuedChecks now t) (fun r => same_stage t r.1).
Proof.
  intros trace. unfold policyLeg. apply safe_then; [intros; walk|]. intros sd tr. cbv zeta.
  set (t1 := {| t with t_Source := b_BalanceID sd.1; t_Destination := b_BalanceID sd.2 |}).
  match goal with |- Refine.wp _ (match t_PreciseAmount ?u with _ => _ end) _ _ => set (t2 := u) end.
  assert (same_stage t t2) as H.
  { transitivity t1; [done|]. unfold t2. destruct (t_PreciseAmount t1); [done|].
    assert (H := stage_ApplyPrecision t1). by destruct (ApplyPrecision t1). }
  clearbody t2. destruct (t_PreciseAmount t2) as [n|]; [|apply wp_fail].
  destruct (n <? 0); [apply wp_fail|]. by apply wp_ret.
Qed.

Lemma policy_legs_stage txns : returns (policy_legs gen EnableQueuedChecks now txns) (fun r => Forall2 same_stage txns r.1).
Proof.
  induction txns as [|t txns IH]; intros trace; cbn [policy_legs]; [apply wp_ret; constructor|].
  eapply wp_then; [apply policyLeg_stage|]. intros p tr Hp.
  eapply wp_then; [apply IH|]. intros ps tr1 Hps. apply wp_ret. by constructor.
Qed.

Lemma admitted_stage cx identity txns :
  returns (admitPolicyTransactions gen EnableQueuedChecks now json_legs cx identity txns)
    (fun r => Forall2 same_stage txns r.1).
Proof.
  intros trace. unfold admitPolicyTransactions. eapply wp_then; [apply policy_legs_stage|]. intros tl tr Htl.
  apply safe_then; [intros; walk|]. intros id tr1.
  apply safe_then.
  { apply (safe_policy _ (fun p => Admit json_legs p now id (cx_principal cx) (cx_internal cx) identity tl.2)). }
  intros [a|] tr2; apply wp_ret; cbn; [|done].
  etrans; [exact Htl|]. apply stage_fmap. intros t.
  match goal with |- same_stage t ?v => change v with
    (Apply (Some a) {| t with t_TransactionID := foldl (fun i leg => if String.eqb (pl_Reference leg) (t_Reference t)
       then pl_TransactionID leg else i) ""%string (pa_Legs a) |}) end.
  etrans; [|apply stage_Apply]. done.
Qed.

Lemma verify_stage t : returns (verifyPolicyExecution t) (same_stage t).
Proof.
  intros trace. unfold verifyPolicyExecution. destruct (negb _); [by apply wp_ret|].
  destruct (String.eqb _ _); [apply safe_then; [intros; walk|]; intros; by apply wp_ret|].
  destruct (String.eqb _ _); [by apply wp_ret|].
  apply safe_then; [intros; walk|]. intros [a|] tr; [|apply wp_fail]. apply wp_ret.
  apply (stage_Apply (Some a) t).
Qed.

Lemma verify_legs_stage legs : returns (verify_legs legs) (Forall2 same_stage legs).
Proof.
  induction legs as [|leg legs IH]; intros trace; cbn [verify_legs]; [apply wp_ret; constructor|].
  eapply wp_then; [apply verify_stage|]. intros l tr Hl. eapply wp_then; [apply IH|]. intros ls tr1 Hls.
  apply wp_ret. by constructor.
Qed.

Lemma safe_effectiveKeyPolicy cx trace : wp (effectiveKeyPolicy cx) any trace.
Proof. unfold effectiveKeyPolicy. cbv zeta. walk. Qed.
#[local] Hint Resolve safe_effectiveKeyPolicy : front.

(** The transaction and the legs after the admission. *)
Lemma back_waiting t (split legs : list Transaction) :
  waiting t -> Forall waiting legs ->
  let r := match split with [] => (default t (head legs), []) | _ => (t, legs) end in
  waiting r.1 /\ Forall waiting r.2.
Proof. intros Ht Hl. destruct split; cbn; [|done]. split; [|done]. by destruct Hl. Qed.

Lemma admitQueued_waiting cx t split : waiting t -> Forall waiting split ->
  returns (admitQueuedPolicy gen EnableQueuedChecks now json_legs cx t split)
    (fun r => waiting r.1.2 /\ Forall waiting r.2).
Proof.
  intros Ht Hs trace. unfold admitQueuedPolicy.
  set (t' := match cx_refund cx with Some (Some adm, _) => Apply (Some adm) t | _ => t end).
  assert (waiting t') as Ht'.
  { unfold t'. destruct (cx_refund cx) as [[[adm|] l]|]; [|done..]. eapply waiting_stage; [apply (stage_Apply (Some adm))|done]. }
  cbv zeta. clearbody t'. apply safe_then; [intros; walk|]. intros p tr.
  set (legs := match split with [] => [t'] | _ => _ end).
  assert (Forall waiting legs) as Hl.
  { unfold legs. destruct split as [|leg rest]; [by constructor|].
    eapply waiting_Forall_stage; [apply stage_updateSplit|done]. }
  destruct p as [p|].
  - eapply wp_then; [apply admitted_stage|]. intros r tr1 Hr. cbn beta in Hr. apply (waiting_Forall_stage _ _ Hr) in Hl.
    destruct (back_waiting t' split r.1 Ht' Hl) as [H1 H2]. apply wp_ret. cbn [fst snd].
    split; [eapply waiting_stage; [apply stage_Apply|done]|done].
  - destruct (policyMarked t'); [|by apply wp_ret]. eapply wp_then; [apply verify_legs_stage|]. intros ls tr1 Hls.
    cbn beta in Hls. apply (waiting_Forall_stage _ _ Hls) in Hl. apply wp_ret. cbn [fst snd].
    exact (back_waiting t' split ls Ht' Hl).
Qed.

(** Rejections of admitted transactions. *)
Lemma safe_failPolicyTransactions txns trace : wp (failPolicyTransactions txns) any trace.
Proof.
  revert trace. induction txns as [|t txns IH]; intros trace; cbn [failPolicyTransactions]; [walk|].
  apply safe_then; [intros tr|intros; apply IH]. destruct (negb _); [walk|]. cbv zeta. apply safe_then.
  - intros tr1. apply safe_try. eapply safe_of, wp_intent.
    match goal with |- kind_of (t_Status (snd (ApplyPrecision ?u))) _ = _ =>
      by destruct (stage_ApplyPrecision u) as (-> & _) end.
  - intros [] tr1; [apply wp_releasePolicyCapacity|walk].
Qed.
#[local] Hint Resolve safe_failPolicyTransactions : front.

Lemma safe_verify t trace : wp (verifyPolicyExecution t) any trace.
Proof. eapply safe_of, verify_stage. Qed.
#[local] Hint Resolve safe_verify : front.

Lemma safe_fail_legs legs trace : wp (fail_legs legs) any trace.
Proof. revert trace. induction legs as [|leg legs IH]; intros; cbn [fail_legs]; walk. Qed.
#[local] Hint Resolve safe_fail_legs : front.

Lemma safe_split t trace : wp (handleSplitTransactions gen t) any trace.
Proof. eapply safe_of, split_stage. Qed.
#[local] Hint Resolve safe_split : front.

Lemma safe_failPolicyBulk t trace : wp (failPolicyBulk gen t) any trace.
Proof. unfold failPolicyBulk. walk. Qed.
#[local] Hint Resolve safe_failPolicyBulk : front.

Lemma admitDirect_well_formed cx t : submitted t ->
  returns (admitDirectPolicy gen EnableQueuedChecks now json_legs cx t) (fun r => submitted r.2).
Proof.
  intros Ht trace. unfold admitDirectPolicy. cbv zeta.
  apply (submitted_stage _ _ (stage_clear cx t)) in Ht. revert Ht. generalize (clearCallerPolicyMetadata cx t).
  clear t. intros t Ht. apply safe_then; [intros; walk|]. intros [p|] tr; [|by apply wp_ret].
  apply safe_then; [intros; walk|]. intros _ tr1. eapply wp_then; [apply stage_metadata|]. intros t1 tr2 H1.
  apply (submitted_stage _ _ H1), waiting_status in Ht. destruct (negb _); [apply wp_fail|].
  eapply wp_then; [apply admitted_stage|]. intros r tr3 Hr. apply wp_ret. cbn in *.
  inversion_clear Hr as [|? ? ? ? Hr1]. cbn. eapply submitted_stage; [exact Hr1|]. by apply waiting_submitted.
Qed.

Lemma submitted_well_formed t : submitted t -> well_formed t.
Proof. intros [[H|[H|H]] Ha]; unfold well_formed; rewrite H; split_and!; done. Qed.

Lemma safe_core_record cx t trace : submitted t ->
  wp (core_RecordTransaction gen pre_hooks acquire EnableQueuedChecks now json_legs cx t) any trace.
Proof.
  intros Ht. unfold core_RecordTransaction. eapply wp_then; [by apply admitDirect_well_formed|].
  intros [cx' t'] tr Ht'. cbn [snd] in *. apply safe_then.
  - intros tr1. apply safe_try, wp_execute, submitted_well_formed, Ht'.
  - intros [] tr1; cbv zeta; walk.
Qed.
#[local] Hint Resolve safe_core_record : front.

(** ** Queueing *)

Lemma prepare_waiting t : submitted t ->
  returns (prepareTransactionForQueue gen EnableQueuedChecks now resolve_lane t) waiting.
Proof.
  intros Ht trace. unfold prepareTransactionForQueue. cbv zeta. apply waiting_status in Ht.
  eapply wp_then; [apply stage_metadata|]. intros t1 tr H1. cbn beta in H1. apply (waiting_stage _ _ H1) in Ht.
  apply safe_then; [intros; walk|]. intros sd tr1. apply wp_ret.
  eapply waiting_stage; [apply stage_lane|]. exact Ht.
Qed.

Lemma safe_persist t ref trace : waiting t -> wp (persist_intent gen t ref) any trace.
Proof.
  intros Ht. unfold persist_intent, createQueueCopy. apply safe_then.
  - intros tr. apply wp_with_context. eapply safe_of, wp_intent. by apply waiting_intent.
  - intros; walk.
Qed.
#[local] Hint Resolve safe_persist : front.

Lemma safe_single t ref trace : waiting t ->
  wp (processSingleTransaction gen EnableQueuedChecks now resolve_lane t ref) any trace.
Proof.
  intros Ht. unfold processSingleTransaction.
  eapply (wp_then _ _ _ waiting).
  - intros tr. destruct (_ && _); [by apply prepare_waiting, waiting_submitted|by apply wp_ret].
  - intros; walk.
Qed.

Lemma safe_queue_legs legs : forall i trace, Forall waiting legs ->
  wp (queue_legs gen EnableQueuedChecks now resolve_lane i legs) any trace.
Proof.
  induction legs as [|leg legs IH]; intros i trace H; cbn [queue_legs]; [walk|].
  inversion_clear H as [|? ? H1 H2]. eapply (wp_then _ _ _ waiting).
  - intros tr. by apply wp_with_context, prepare_waiting, waiting_submitted.
  - intros; walk.
Qed.

Lemma safe_record_legs rollback cx legs : (forall inflight, safe (rollback inflight)) -> forall i trace,
  Forall waiting legs ->
  wp (record_legs gen pre_hooks acquire EnableQueuedChecks now json_legs rollback cx i legs) any trace.
Proof.
  intros Hrb. induction legs as [|leg legs IH]; intros i trace H; cbn [record_legs]; [walk|].
  inversion_clear H as [|? ? H1 H2]. apply waiting_submitted in H1. walk.
Qed.

Lemma safe_processTxns rollback cx t split id ref trace : (forall inflight, safe (rollback inflight)) ->
  waiting t -> Forall waiting split ->
  wp (processTxns gen pre_hooks acquire EnableQueuedChecks now json_legs resolve_lane rollback cx t split id ref) any trace.
Proof.
  intros Hrb Ht Hs. unfold processTxns, processSplitTransactions. destruct (t_SkipQueue t).
  - destruct split as [|leg rest].
    + apply waiting_submitted in Ht. walk.
    + apply safe_then; [intros; by apply safe_record_legs|intros; walk].
  - destruct split as [|leg rest]; [by apply safe_single|]. apply safe_then; [intros|intros; walk].
    apply safe_queue_legs. eapply waiting_Forall_stage; [apply stage_updateSplit|done].
Qed.

Lemma safe_queue_with rollback cx t trace : (forall id inflight, safe (rollback id inflight)) -> submitted t ->
  wp (queue_with gen pre_hooks acquire EnableQueuedChecks now enqueue queue_expiry queue_commit json_legs
        resolve_lane rollback cx t) any trace.
Proof.
  intros Hrb Ht. unfold queue_with. cbv zeta.
  apply (submitted_stage _ _ (stage_clear cx t)) in Ht. generalize (t_Reference (clearCallerPolicyMetadata cx t)).
  revert Ht. generalize (clearCallerPolicyMetadata cx t). clear t. intros t Ht ref.
  apply safe_then; [intros; walk|]. intros _ tr. eapply wp_then; [apply stage_metadata|]. intros t1 tr1 H1.
  apply (submitted_stage _ _ H1), waiting_status in Ht. revert Ht. clear H1. generalize (setTransactionStatus t1).
  clear t t1. intros t Ht.
  apply (wp_then _ _ _ (fun r : Transaction * list Transaction => waiting r.1 /\ Forall waiting r.2)).
  { intros tr2. destruct (_ && _); [by apply wp_ret|by apply split_waiting]. }
  intros [t1 split] tr2 [H1 H2]. cbn [fst snd] in *.
  eapply wp_then; [by apply admitQueued_waiting|]. intros [[cx' t2] legs] tr3 [H3 H4]. cbn [fst snd] in *.
  apply safe_then.
  - intros tr4. destruct (t_SkipQueue t2).
    + apply safe_then; [intros; apply safe_try; by apply safe_processTxns|]. intros [[t3 qs]|e] tr5; walk.
    + apply safe_then.
      * intros tr5. apply safe_try, safe_processTxns; [done|done|].
        eapply waiting_Forall_stage; [apply stage_fmap|exact H4]. done.
      * intros [[t3 qs]|e] tr5; walk.
  - intros; walk.
Qed.

(** ** Batches and refunds *)

Lemma safe_run_jobs worker jobs : (forall job, safe (worker job)) -> forall acc trace, wp (run_jobs worker acc jobs) any trace.
Proof. intros Hw. induction jobs as [|job jobs IH]; intros; cbn [run_jobs]; walk. Qed.
#[local] Hint Resolve safe_run_jobs : front.

Lemma safe_batches page worker trace : (forall offset, safe (page offset)) -> (forall job, safe (worker job)) ->
  wp (ProcessTransactionInBatches page worker) any trace.
Proof.
  intros Hp Hw.
  assert (forall fuel offset acc tr, wp (process_pages fuel page worker offset acc) any tr) as H.
  { induction fuel as [|fuel IH]; intros; cbn [process_pages]; walk. }
  intros db past E Hr.
  assert (wp (bind (process_pages (2 * length (ld_txns db) + 2) page worker 0 ([], []))
                (fun r => ret (r.1, join_errors r.2))) any trace) as G by walk.
  exact (G db past E Hr).
Qed.

Lemma submitted_refund original opts id : submitted (prepareRefundTransaction original opts id).
Proof. split; [by left|done]. Qed.
#[local] Hint Resolve submitted_refund : front.

Section WithQueue.
Variable queue : context -> Transaction -> M Transaction.
Hypothesis queue_safe : forall cx t, submitted t -> safe (queue cx t).
#[local] Hint Resolve queue_safe : front.

Lemma safe_validateRefund t trace : wp (validateTransactionForRefund t) any trace.
Proof. unfold validateTransactionForRefund. walk. Qed.
#[local] Hint Resolve safe_validateRefund : front.

Lemma safe_refund cx id opts trace :
  wp (refund_with numeric_float gen acquire GetTransactionFromQueue queue cx id opts) any trace.
Proof. unfold refund_with, getOriginalTransactionForRefund. walk. Qed.
#[local] Hint Resolve safe_refund : front.

Lemma safe_admitRefund cx parent opts trace :
  wp (admitRefundPolicy numeric_float gen EnableQueuedChecks now json_legs json_refs cx parent opts) any trace.
Proof.
  assert (forall l tr, wp (refund_candidates gen now cx opts l) any tr) as H1.
  { induction l as [|o l IH]; intros; cbn [refund_candidates]; [walk|]. apply safe_then; [intros; walk|].
    intros [] tr1; [|walk]. apply safe_then; [intros; walk|]. intros id tr2.
    apply safe_then; [intros; eapply safe_of, stage_metadata|intros; walk]. }
  assert (forall fuel offset tr, wp (refund_pages numeric_float gen now fuel cx parent opts offset) any tr) as H2.
  { induction fuel as [|fuel IH]; intros; cbn [refund_pages]; walk. }
  unfold admitRefundPolicy. apply safe_then; [intros; walk|]. intros [p|] tr; [|walk].
  apply safe_then.
  { intros tr1 db past E Hr. exact (H2 _ _ tr1 db past E Hr). }
  intros [|t txns] tr1; [walk|]. apply safe_then; [intros; eapply safe_of, admitted_stage|intros; walk].
Qed.
#[local] Hint Resolve safe_admitRefund : front.

Lemma safe_refunds cx parent opts trace :
  wp (refunds_with numeric_float gen acquire EnableQueuedChecks now GetTransactionFromQueue json_legs json_refs
        BatchSize queue cx parent opts) any trace.
Proof.
  unfold refunds_with, failPolicyRefund. apply safe_then; [intros; walk|]. intros cx' tr. apply safe_then.
  { intros. apply safe_batches; intros; walk. }
  intros r tr1. cbv zeta. walk.
Qed.

Lemma safe_rollback cx id inflight trace :
  wp (rollback_with numeric_float gen pre_hooks acquire EnableQueuedChecks now GetTransactionFromQueue json_legs
        json_refs BatchSize queue cx id inflight) any trace.
Proof.
  unfold rollback_with. destruct inflight; [|apply safe_refunds].
  apply safe_batches; intros; [walk|]. unfold void_worker. destruct (negb _); [walk|]. apply wp_void.
Qed.
End WithQueue.
#[local] Hint Resolve safe_rollback : front.

#[local] Notation queue_transaction := (QueueTransaction numeric_float gen pre_hooks acquire EnableQueuedChecks now
  GetTransactionFromQueue enqueue queue_expiry queue_commit json_legs json_refs resolve_lane BatchSize).

Lemma safe_queue fuel : forall cx t trace, submitted t -> wp (queue_transaction fuel cx t) any trace.
Proof.
  induction fuel as [|fuel IH]; intros cx t trace Ht; cbn [QueueTransaction];
    (apply safe_queue_with; [|done]); intros; walk.
Qed.

(** ** The queue worker *)

(** A job of the queue: a transaction that waits, or the commit of a hold; and
    it is a commit exactly when the intent it is a copy of is one. *)
Definition settles (t : Transaction) : Prop :=
  t_Status t = StatusCommit /\ t_QueueAction t = StatusCommit /\ t_Inflight t = false.
Definition queue_job (db : ledger_db) (t : Transaction) : Prop :=
  (waiting t \/ settles t) /\
  forall intent, GetTransaction numeric_float db (t_ParentTransaction t) = Ok intent ->
    t_Status intent = StatusQueued \/ t_Status intent = StatusScheduled ->
    (t_QueueAction intent = StatusCommit <-> t_Status t = StatusCommit).

Lemma restored_job db intent t : queue_job db t ->
  GetTransaction numeric_float db (t_ParentTransaction t) = Ok intent ->
  let t' := restore_controls intent t in waiting t' \/ settles t'.
Proof.
  intros [Hj Hc] Hg. cbn zeta. unfold restore_controls.
  destruct (_ || _) eqn:Ew; [|done].
  assert (t_Status intent = StatusQueued \/ t_Status intent = StatusScheduled) as Ew'.
  { apply orb_true_iff in Ew as [E|E]; apply String.eqb_eq in E; auto. }
  destruct (String.eqb (t_QueueAction intent) StatusCommit) eqn:Ea; zbool.
  - right. destruct (Hc intent Hg Ew') as [H _]. by split_and!; [apply H|..].
  - left. split; [|done]. destruct Hj as [[H _]|[H _]]; [exact H|].
    destruct (Hc intent Hg Ew') as [_ H']. by apply H' in H.
Qed.

Lemma settles_well_formed t : settles t -> well_formed t.
Proof. intros (E1 & E2 & E3). unfold well_formed. by rewrite E1, E2, E3. Qed.

Lemma verifyQueued_job t : waiting t \/ settles t -> returns (verifyQueuedPolicy t) (fun t' => waiting t' \/ settles t').
Proof.
  intros H trace. unfold verifyQueuedPolicy. destruct (_ || _) eqn:E.
  - apply safe_then; [intros; walk|]. intros; by apply wp_ret.
  - apply safe_then; [intros; walk|]. intros a tr. apply wp_ret. destruct H as [H|(H & _)]; [|zbool; congruence].
    left. eapply waiting_stage; [apply stage_Apply|done].
Qed.

Lemma wp_worker db past t : queue_job db t ->
  wp (process_job_single numeric_float gen pre_hooks acquire EnableQueuedChecks now t) any (db :: past).
Proof.
  intros Hj. unfold process_job_single.
  eapply wp_seq with (P := fun _ t' => waiting t' \/ settles t').
  { destruct (_ && _); [|apply wp_ret; apply Hj].
    eapply wp_seq with (P := fun _ intent => GetTransaction numeric_float db (t_ParentTransaction t) = Ok intent).
    - apply wp_with_context, wp_reads. by intros db' past' intent [= <- <-] _.
    - intros tr intent _ Hg. apply wp_ret. by eapply restored_job. }
  intros tr t1 _ H1. eapply wp_then; [by apply verifyQueued_job|]. intros t2 tr1 H2. cbn beta in H2.
  assert (well_formed t2) as Hw by (destruct H2; auto using waiting_well_formed, settles_well_formed).
  eapply wp_seq; [by apply wp_verifyPolicyExecution|]. intros tr2 t3 _ H3. cbn beta in H3.
  destruct (policyMarked t3); [by apply wp_record|by apply wp_execute].
Qed.

(** What [createQueueCopy] puts on the queue is a job. *)
Lemma queue_copy_is_job p ref : waiting p \/ (t_Status p = StatusQueued /\ t_QueueAction p = StatusCommit) ->
  returns (createQueueCopy gen p ref) (fun q => (waiting q \/ settles q) /\
    t_ParentTransaction q = t_TransactionID p /\ (t_QueueAction p = StatusCommit <-> t_Status q = StatusCommit)).
Proof.
  intros H trace. unfold createQueueCopy. apply safe_then; [intros; walk|]. intros id tr. cbv zeta. apply wp_ret.
  destruct (String.eqb (t_QueueAction p) StatusCommit) eqn:E; zbool.
  - split; [by right|]. by split.
  - destruct H as [Hw|[_ Hq]]; [|done]. split_and!; [left; exact Hw|done|]. cbn.
    split; [done|]. destruct Hw as [[-> | ->] _]; done.
Qed.

(** ** Approvals and bulk requests *)

Lemma safe_decide cx id approve trace :
  wp (decide_and_settle numeric_float gen pre_hooks acquire EnableQueuedChecks now GetTransactionFromQueue enqueue
        cx id approve) any trace.
Proof.
  unfold decide_and_settle. apply safe_then.
  { apply (safe_policy _ (fun p => DecidePolicyApproval p id (cx_principal cx) approve)). }
  intros a tr. apply safe_then; [intros; walk|]. intros [|h holds] tr1; [walk|].
  apply safe_then; [|intros; walk]. generalize (h :: holds). clear h holds.
  induction l as [|h l IH]; intros; cbn [settle_holds]; [walk|].
  apply safe_then; [intros|intros; walk]. apply safe_try. destruct approve; [apply wp_commit|apply wp_void].
Qed.

Lemma safe_processBulk cx batchID inflight skipQueue txns : forall i trace, Forall submitted txns ->
  wp (processBulkTransactions numeric_float gen pre_hooks acquire EnableQueuedChecks now GetTransactionFromQueue
        enqueue queue_expiry queue_commit json_legs json_refs resolve_lane BatchSize cx batchID inflight skipQueue i
        txns) any trace.
Proof.
  induction txns as [|t txns IH]; intros i trace H; cbn [processBulkTransactions]; [walk|].
  inversion_clear H as [|? ? H1 H2]. apply safe_then; [intros; apply wp_with_context|intros; by apply IH].
  by apply safe_queue.
Qed.

Lemma bulk_legs_submitted txns : Forall submitted txns ->
  returns (bulk_legs gen now txns) (fun r => Forall submitted r.1 /\ Forall (Forall submitted) r.2).
Proof.
  induction 1 as [|t txns Ht _ IH]; intros trace; cbn [bulk_legs]; [by apply wp_ret|].
  apply safe_then; [intros; walk|]. intros _ tr. eapply wp_then; [apply stage_metadata|]. intros t1 tr1 H1.
  apply (submitted_stage _ _ H1) in Ht. cbn beta in *.
  eapply (wp_then _ _ _ (fun r : Transaction * list Transaction => submitted r.1 /\ Forall submitted r.2)).
  - intros tr2. destruct (_ && _); [by apply wp_ret|]. eapply wp_then; [apply split_stage|].
    intros r tr3 [Hr1 Hr2]. apply wp_ret. split; [by eapply submitted_stage|]. cbn.
    assert (Forall submitted r.2) as H by (eapply Forall_impl; [exact Hr2|]; intros; by eapply submitted_stage).
    clear -H. assert (G := stage_updateSplit r.2 (t_TransactionID r.1) (t_Reference r.1)).
    induction G; [constructor|]. inversion_clear H. constructor; eauto using submitted_stage.
  - intros ts tr2 [Ha Hb]. eapply wp_then; [apply IH|]. intros more tr3 [Hc Hd]. apply wp_ret. split; by constructor.
Qed.

Lemma write_back_submitted txns : forall groups legs, Forall submitted txns -> Forall submitted legs ->
  Forall submitted (write_back txns groups legs).
Proof.
  induction txns as [|t txns IH]; intros groups legs Ht Hl; [done|]. inversion_clear Ht as [|? ? H1 H2].
  destruct groups as [|[|g gs] groups]; cbn [write_back]; constructor; try done.
  - by destruct Hl.
  - apply IH; [done|]. by destruct Hl.
  - apply IH; [done|]. by apply Forall_drop.
Qed.

Lemma groups_submitted ts : forall gs, Forall submitted ts -> Forall (Forall submitted) gs ->
  Forall submitted (mjoin (zip_with (fun (t : Transaction) g => match g with [] => [t] | _ => g end) ts gs)).
Proof.
  induction ts as [|t ts IH]; intros gs Ht Hg; [done|]. inversion_clear Ht as [|? ? H1 H2].
  destruct Hg as [|g gs Hg Hgs]; [done|]. cbn. apply Forall_app. split; [|by apply IH].
  destruct Hg; [by apply Forall_singleton|by constructor].
Qed.

Lemma bulk_admitted cx req : Forall submitted (br_Transactions req) ->
  returns (admitBulkPolicy gen EnableQueuedChecks now json_legs json_refs cx req)
    (fun r => Forall submitted (br_Transactions r.2)).
Proof.
  intros H trace. unfold admitBulkPolicy. apply safe_then; [intros; walk|]. intros [p|] tr; [|by apply wp_ret].
  eapply wp_then; [by apply bulk_legs_submitted|]. intros tg tr1 [H1 H2]. cbn beta zeta.
  eapply wp_then; [apply admitted_stage|]. intros r tr2 Hr. apply wp_ret. cbn [snd br_Transactions].
  apply Forall_fmap. eapply Forall_impl; [apply write_back_submitted; [exact H1|]|].
  - cbn beta in Hr.
    assert (Hm := groups_submitted tg.1 tg.2 H1 H2).
    clear -Hr Hm. induction Hr; [done|]. inversion_clear Hm. constructor; eauto using submitted_stage.
  - intros t Ht. eapply submitted_stage; [apply stage_Apply|done].
Qed.

Lemma safe_bulk cx req trace : Forall submitted (br_Transactions req) ->
  wp (CreateBulkTransactions numeric_float gen pre_hooks acquire EnableQueuedChecks now GetTransactionFromQueue
        enqueue queue_expiry queue_commit json_legs json_refs resolve_lane BatchSize cx req) any trace.
Proof.
  intros H. unfold CreateBulkTransactions. eapply wp_then; [by apply bulk_admitted|]. intros [cx' req'] tr H'.
  cbn [fst snd] in *. apply safe_then; [intros; walk|]. intros batchID tr1. apply safe_then.
  { intros. by apply safe_try, safe_processBulk. }
  intros [] tr2; [walk|]. apply safe_then.
  { generalize (br_Transactions req') as l. induction l as [|t l IH]; intros; cbn [fail_bulk]; walk. }
  intros _ tr3. apply safe_then; [|intros; walk]. intros tr4. destruct (br_Atomic req'); [|walk].
  apply safe_then; [intros; apply safe_rollback; intros; by apply safe_queue|intros; walk].
Qed.

End FrontDoor.

(** ** An order, its refund, and its refund again *)
Module FrontDoorWitness.
Import LifecycleWitness RefineWitness.
#[local] Existing Instance DecimalInstance.dnum_ops.

Definition master : context :=
  {| cx_principal := {| pr_APIKeyID := ""; pr_Master := true; pr_Scopes := [] |}; cx_internal := false; cx_refund := None |}.
Definition legs_text (l : list PolicyLeg) : string := "".
Definition refs_text (l : list string) : string := "".

(** 100 from an overdraft account to alice, through the queue. *)
Definition order : Transaction :=
  {| zero_transaction with t_Reference := "ref_1"; t_Source := "@world"; t_Destination := "@alice";
     t_Currency := "USD"; t_AllowOverdraft := true; t_PreciseAmount := Some 100; t_Precision := f_of_Z 100;
     t_AmountString := "1"; t_Rate := f_of_Z 1 |}.
Definition queued : ledger_db * result Transaction :=
  QueueTransaction to_float gen ok_hooks ok_locks true 7 no_queue ok_hooks ok_hooks ok_hooks legs_text refs_text
    None 100 1 master order empty_db.
Definition intent : Transaction := match snd queued with Ok t => t | Err _ => zero_transaction end.
(** The copy on the queue. *)
Definition job : Transaction :=
  {| intent with t_TransactionID := "txn_3"; t_ParentTransaction := t_TransactionID intent;
     t_ParentKind := "economic"; t_Reference := "ref_1_q" |}.
Definition worked : ledger_db * result Transaction :=
  process_job_single to_float gen ok_hooks ok_locks true 8 job (fst queued).
Definition at_once : RefundOptions := {| ro_SkipQueue := true; ro_Description := ""; ro_MetaData := ∅ |}.
(** [POST /refund-transaction/:id] with [skip_queue], at a given time. *)
Definition refund (now : Z) (db : ledger_db) : ledger_db * result (list Transaction * option batch_error) :=
  ProcessRefundsInBatches to_float gen ok_hooks ok_locks true now no_queue ok_hooks ok_hooks ok_hooks legs_text
    refs_text None 100 master (t_TransactionID intent)
    at_once db.
Definition refunded : ledger_db := fst (refund 9 (fst worked)).

Definition alice_has (db : ledger_db) : option Z :=
  b ← ld_balances db !! "bln_2"%string; b_Balance b.
(** The references of the refunds made, when the request succeeds. *)
Definition made (r : ledger_db * result (list Transaction * option batch_error)) : option (list string) :=
  match snd r with Ok (ts, None) => Some (t_Reference <$> ts) | _ => None end.

Lemma order_submitted : submitted order.
Proof. split; [by left|done]. Qed.
Definition no_bulk : BulkTransactionRequest :=
  {| br_Transactions := []; br_Inflight := false; br_Atomic := false; br_SkipQueue := false |}.
Lemma empty_job : queue_job to_float empty_db intent.
Proof.
  split; [left; split; [left; vm_compute; reflexivity|vm_compute; discriminate]|].
  intros i Hi. exfalso. revert Hi. vm_compute. discriminate.
Qed.
Lemma job_is_job : queue_job to_float (fst queued) job.
Proof.
  split; [left; split; [left; vm_compute; reflexivity|vm_compute; discriminate]|].
  intros i Hi _. assert (t_QueueAction i = ""%string) as ->; [|split; [discriminate|vm_compute; discriminate]].
  revert Hi. vm_compute. intros [= <-]. reflexivity.
Qed.


End FrontDoorWitness.
