(* ===== verification/Worker.v ===== *)
(** * The queue worker

    [processTransaction] of [cmd/ledgerforge/workers.go] and
    [processQueuedTransaction] of [internal/core/transaction_execution.go]: a job
    of the queue is tried as the leader of a coalesced batch, and otherwise
    executed alone; what fails is retried or rejected.  The worker refines the
    runs of the store with its batches, and a job that is delivered again
    changes nothing. *)
From stdpp Require Import base option list strings gmap sorting.
From Stdlib Require Import ZArith Lia.
From S2P Require Import Prelude GoFloat Model Sha256 GoTime Decimal DecimalInstance Amount Balance Distribution Policy PolicyStore Store Lifecycle Engine Inflight Coalesce Queue Split Actions Effect Batch Journal Refine FrontDoor.
Close Scope Q_scope.
Open Scope Z_scope.
Open Scope engine_scope.

Definition LaneHot : string := "hot".

(** What becomes of a job: acknowledged, pushed back for a retry, or given to
    [RejectTransaction] with the reason. *)
Inductive outcome := Done | Retry (e : go_error) | Reject (e : go_error).

(** [IsLockContentionError]; the two lock errors and the cancellations are
    sentinels. *)
Definition IsLockContentionError (e : go_error) : bool :=
  if errors_Is e "redlock.ErrLockHeld" || errors_Is e "redlock.ErrLockWaitTimeout" then true
  else if errors_Is e "context.Canceled" || errors_Is e "context.DeadlineExceeded" then false
  else
    let msg := ToLower (err_msg e) in
    Contains msg "already held" || Contains msg "failed to acquire lock" || Contains msg "failed to acquire batch lock".

Section Worker.
Context {Dops : DecimalOps}.
Variable numeric_float : string -> float64.
Variable gen : string -> nat -> string.
Variable pre_hooks : Transaction -> result unit.
Variable acquire : list string -> result unit.
Variable EnableQueuedChecks : bool.
Variable now : Z.
Variable list_hooks : result unit.
Variables (EnableCoalescing DisableBatchReferenceCheck : bool) (BatchSize : Z).
(** [Queue] configuration, and how often the job was retried. *)
Variables (EnableHotLane InsufficientFundRetries RejectLockContentionImmediately : bool) (MaxRetryAttempts : Z).

#[local] Notation try_batch := (tryRecordQueuedTransactionBatch numeric_float gen pre_hooks acquire EnableQueuedChecks
  list_hooks EnableCoalescing DisableBatchReferenceCheck BatchSize).
#[local] Notation execute_plan := (execute_plan numeric_float gen pre_hooks acquire EnableQueuedChecks
  list_hooks EnableCoalescing DisableBatchReferenceCheck BatchSize now).

(** [processQueuedTransaction]. *)
Definition processQueuedTransaction (t : Transaction) (hotLane : bool) : M (execution_mode * Transaction) :=
  let! p := if negb (String.eqb (t_ParentTransaction t) "") && negb (String.eqb (t_ParentKind t) "group")
            then let! intent := with_context "read queued execution controls"
                                  (reads (fun db => GetTransaction numeric_float db (t_ParentTransaction t))) in
                 let t' := restore_controls intent t in
                 ret (t', if String.eqb (t_Status intent) StatusQueued || String.eqb (t_Status intent) StatusScheduled
                          then String.eqb (t_QueueLane t') LaneHot else hotLane)
            else ret (t, hotLane) in
  let! t := verifyQueuedPolicy p.1 in
  execute_plan (planTransactionExecution p.2) t true.

(** [hasReachedMaxRetryAttempt] and [shouldRejectLockContentionImmediately]. *)
Definition hasReachedMaxRetryAttempt (retryCount : Z) : bool :=
  if MaxRetryAttempts <=? 0 then false else MaxRetryAttempts <=? retryCount.
Definition shouldRejectLockContentionImmediately (e : go_error) : bool :=
  if negb RejectLockContentionImmediately then false else IsLockContentionError e.

(** What [processTransaction] does with an error of the executor. *)
Definition failed_job (retryCount : Z) (e : go_error) : outcome :=
  let msg := ToLower (err_msg e) in
  if IsDuplicateReferenceError e then Done
  else if Contains msg "insufficient funds" then
    if negb InsufficientFundRetries then Reject e
    else if hasReachedMaxRetryAttempt retryCount then Reject e
    else Retry e
  else if Contains msg "transaction exceeds overdraft limit" then Reject e
  else if shouldRejectLockContentionImmediately e then Reject e
  else if hasReachedMaxRetryAttempt retryCount then Reject e
  else Retry e.

(** [processTransaction] on a decoded job; [hot] says that it came from the hot
    queue.  A rejection is returned as a request: [RejectTransaction] records
    the job as the executor leaves it. *)
Definition processTransaction (t : Transaction) (hot : bool) (retryCount : Z) : M outcome :=
  let hotLane := EnableHotLane && hot in
  let! h := try_batch t false in
  let! h := if hotLane then try_batch h.2 true else ret h in
  if h.1 then ret Done
  else
    let! r := try (processQueuedTransaction h.2 hotLane) in
    ret (match r with Ok _ => Done | Err e => failed_job retryCount e end).
End Worker.

(** ** The members of a batch and their balances *)

Definition member (t : Transaction) : Prop :=
  eligible t /\ t_Source t <> ""%string /\ t_Destination t <> ""%string.
Lemma member_conditions t : fst (coalescing_conditions t) = true -> member t.
Proof.
  intros H. split; [by apply eligible_conditions|]. unfold coalescing_conditions in H.
  repeat (case_match; [done|]). zbool. tauto.
Qed.

Lemma collect_spec ts : Forall member ts ->
  let ids := collectQueuedCoalescingBalanceIDs ts in
  NoDup ids /\ ""%string ∉ ids /\ Forall (fun t => t_Source t ∈ ids /\ t_Destination t ∈ ids) ts.
Proof.
  intros Hm ids. assert (forall q, q ∈ ids <-> q <> ""%string /\ exists t, t ∈ ts /\ (q = t_Source t \/ q = t_Destination t)) as Hin.
  { intros q. subst ids. unfold collectQueuedCoalescingBalanceIDs. rewrite merge_sort_Permutation, elem_of_remove_dups, list_elem_of_filter.
    rewrite list_elem_of_join. setoid_rewrite list_elem_of_fmap. split.
    - intros (H1 & l & Hl & t & -> & Ht). split; [done|]. exists t. set_solver.
    - intros (H1 & t & Ht & Hq). split; [done|]. exists [t_Source t; t_Destination t]. split; [set_solver|by exists t]. }
  split; [|split].
  - subst ids. unfold collectQueuedCoalescingBalanceIDs. rewrite merge_sort_Permutation. apply NoDup_remove_dups.
  - rewrite Hin. tauto.
  - apply Forall_forall. intros t Ht. rewrite Forall_forall in Hm. destruct (Hm t Ht) as (_ & H1 & H2).
    rewrite !Hin. split; (split; [done|]); exists t; auto.
Qed.

(** ** Batches are steps of a run *)

Section BatchWp.
Context {Dops : DecimalOps} {Dlaws : DecimalLaws}.
Variable numeric_float : string -> float64.
Variable gen : string -> nat -> string.
Variable pre_hooks : Transaction -> result unit.
Variable acquire : list string -> result unit.
Variables (EnableQueuedChecks : bool) (now : Z) (list_hooks : result unit).
Variables (EnableCoalescing DisableBatchReferenceCheck : bool) (BatchSize : Z).
#[local] Notation wp := (wp gen).

(** Only the metadata differs. *)
Definition same_but_meta (t t' : Transaction) : Prop := t' = {| t with t_MetaData := t_MetaData t' |}.
Lemma same_but_meta_refl t : same_but_meta t t.
Proof. by destruct t. Qed.
Lemma same_but_meta_share t p : same_but_meta t (share_metadata t p).
Proof. done. Qed.

Lemma load_spec db ids h : journal_ok db -> loadBalancesForQueuedBatch EnableQueuedChecks db ids = Ok h ->
  (forall q, q ∈ ids -> is_Some (h !! q)) /\ (forall q b, h !! q = Some b -> b_BalanceID b = q /\ reading db b).
Proof.
  intros Hok H. unfold loadBalancesForQueuedBatch in H. apply res_bind_Ok in H as (objects & Ho & H).
  destruct (List.find _ ids) eqn:Ef; [done|]. apply Ok_inj in H as <-. split.
  { intros q Hq%list_elem_of_In. pose proof (List.find_none _ _ Ef q Hq) as E. cbn beta in E.
    destruct (bool_decide _) eqn:Eb; [by apply bool_decide_eq_true in Eb|done]. }
  destruct EnableQueuedChecks.
  - refine (fold_res_inv (fun h0 : gmap string Balance => forall q b, h0 !! q = Some b -> b_BalanceID b = q /\ reading db b) _ _ _ _ _ _ Ho).
    { intros q b. by rewrite lookup_empty. }
    intros id h1 h2 _ IH Hs. apply res_bind_Ok in Hs as (b & Hb & Hs). apply Ok_inj in Hs as <-.
    intros q b'. rewrite lookup_insert_Some. intros [[<- <-]|[_ ?]]; [|by apply IH].
    pose proof (GetBalanceByID_reading _ _ _ _ Hok Hb) as Hr. split; [|done].
    unfold GetBalanceByID, GetBalanceByIDLite in Hb. destruct (ld_balances db !! id) as [row|] eqn:Er; [|done].
    cbn in Hb. apply Ok_inj in Hb as <-. cbn. by destruct (j_balance _ Hok _ _ Er).
  - apply Ok_inj in Ho as <-. intros q b. unfold GetBalancesByIDsLite. rewrite lookup_fmap_Some.
    intros (row & <- & [Hrow _]%map_lookup_filter_Some). destruct (j_balance _ Hok _ _ Hrow) as (E & _). split; [done|].
    exists row. cbn. by rewrite E.
Qed.

(** The loop reads the store but does not change it, and is the pure one when
    it succeeds. *)
Lemma prepare_batch_spec ts h sets refs db : exists q,
  prepare_batch pre_hooks ts h sets refs db = (db, Ok q) /\ Forall2 same_but_meta ts q.1 /\
  (forall w, q.2 = Ok w -> post_all ts h = Ok w /\ Forall (fun t => pre_hooks t = Ok tt) ts).
Proof.
  assert (forall ts', Forall2 same_but_meta ts' ts') as Hrefl.
  { induction ts'; constructor; [apply same_but_meta_refl|done]. }
  revert h refs. induction ts as [|t ts IH]; intros h refs; cbn [prepare_batch].
  { exists ([], Ok ([], h)). split_and!; [done|constructor|]. intros w H%Ok_inj. subst. by split. }
  assert (exists r, prepareQueuedBatchTransaction pre_hooks t h sets refs db = (db, r) /\
    forall p, r = Ok p -> post_at t h = Ok p.1 /\ pre_hooks t = Ok tt) as (r & Hr & Hp).
  { unfold prepareQueuedBatchTransaction, validateQueuedBatchTransactionReference, validateTxn, bind, with_context, lift, reads, ret, fail.
    destruct (pre_hooks t) as [[]|];
      repeat (case_match; simplify_eq); eexists; (split; [reflexivity|]); intros ? [= <-]; done. }
  unfold bind at 1, try. rewrite Hr. destruct r as [[[p h1] refs1]|e].
  - destruct (Hp _ eq_refl) as [Hp' Hh]. cbn [fst] in Hp'. destruct (IH h1 refs1) as (q & Hq & F & Hw). unfold bind. rewrite Hq.
    eexists. split; [done|]. split; [by constructor|]. cbn [fst snd]. intros w Hw'.
    apply res_bind_Ok in Hw' as (w' & E & Hw'). apply Ok_inj in Hw' as <-. cbn [post_all]. rewrite Hp'. cbn [res_bind fst snd].
    destruct (Hw _ E) as [-> Hf]. split; [done|by constructor].
  - eexists. split; [done|]. split; [apply Hrefl|]. by intros w ?.
Qed.

Lemma wp_persist leader siblings trace : Forall member (leader :: siblings) ->
  wp (persistQueuedTransactionBatch pre_hooks acquire EnableQueuedChecks list_hooks DisableBatchReferenceCheck leader siblings)
    (fun _ r => same_but_meta leader r.1) trace.
Proof.
  intros Hm. unfold persistQueuedTransactionBatch. eapply wp_seq; [by apply wp_lift with (Q := any)|]. intros tr1 _ _ _.
  eapply wp_seq; [by apply wp_with_context, wp_lift with (Q := any)|]. intros tr2 _ _ _.
  destruct (collect_spec _ Hm) as (Hnd & Hne & Hts). set (ids := collectQueuedCoalescingBalanceIDs _) in *.
  unfold persistQueuedTransactionBatchLocked.
  eapply wp_seq with (P := fun tr (h : gmap string Balance) => (forall q, q ∈ ids -> is_Some (h !! q)) /\
    (forall q b, h !! q = Some b -> b_BalanceID b = q /\ known tr b)).
  { apply wp_with_context, wp_reads. intros db past h -> Hr Hl. destruct (run_journal gen db past Hr) as [Hok _].
    destruct (load_spec _ _ _ Hok Hl) as [H1 H2]. split; [done|]. intros q b Hq. destruct (H2 q b Hq) as [I R]. split; [done|].
    exists db. split; [left|done]. }
  intros tr3 h _ [Hin Hkn]. eapply wp_seq; [by apply wp_with_context, wp_lift with (Q := any)|]. intros tr4 _ S4 _.
  eapply wp_seq; [apply wp_any_reads|]. intros tr5 sets S5 _.
  eapply wp_seq with (P := fun _ q => Forall2 same_but_meta (leader :: siblings) q.1 /\
    (forall w, q.2 = Ok w -> post_all (leader :: siblings) h = Ok w)).
  { intros db past -> Hr. destruct (prepare_batch_spec (leader :: siblings) h sets ∅ db) as (q & Hq & F & Hw).
    rewrite Hq. exists past. split_and!; try done. cbn. split; [done|]. intros w E. by apply Hw. }
  intros tr6 q S6 [F Hw]. assert (same_but_meta leader (default leader (head q.1))) as Hlead.
  { inversion F; subst. done. }
  destruct q.2 as [[works h']|e] eqn:Eq; [|by apply wp_ret]. specialize (Hw _ eq_refl).
  eapply wp_seq; [|intros tr7 r _ _; apply wp_ret; exact Hlead].
  apply wp_try with (Q := any), wp_with_context, wp_atomically. intros db db' r H. split; [|split; [|done]].
  - apply (step_batch _ _ _ _ ids h h' (leader :: siblings) works r); try done.
    + intros q0 b Hq. destruct (Hkn q0 b Hq) as [I K]. split; [done|]. eapply known_mono; [|exact K].
      by do 2 (etrans; [eassumption|]).
    + eapply Forall_impl; [exact Hm|]. by intros t [? _].
  - destruct (post_all_moves _ _ _ _ ltac:(eapply Forall_impl; [exact Hm|]; by intros t [? _]) ltac:(by apply Hkn)
      ltac:(eapply Forall_impl; [exact Hts|]; intros t [H1 H2]; split; by apply Hin) Hw) as [_ Hmv].
    assert (forall q0, q0 ∈ ids -> b_BalanceID (deref h' q0) = q0) as Hid.
    { intros q0 Hq0. pose proof (heap_moves_ids _ _ _ Hmv ltac:(by apply Hkn)) as Hids.
      unfold deref. destruct (proj1 (heap_moves_dom _ _ _ q0 Hmv) (Hin q0 Hq0)) as [b Hb]. rewrite Hb. by apply Hids. }
    by destruct (batch_inv _ _ _ _ _ _ _ Hnd Hne Hid H) as (? & _ & _ & _ & _ & ?).
Qed.

#[local] Notation returns m P := (forall trace, wp m (fun _ => P) trace).

Lemma copy_siblings_members l : returns (copy_siblings gen l) (Forall member).
Proof.
  induction l as [|s l IH]; intros trace; cbn [copy_siblings]; [by apply wp_ret|].
  destruct (fst (canCoalesceQueuedOriginal s)) eqn:E; [|apply IH].
  assert (member s) as (He & H1 & H2).
  { unfold canCoalesceQueuedOriginal in E. destruct (policyMarked s); [done|]. by apply member_conditions. }
  apply (wp_then _ _ _ (fun q => member q)).
  - intros tr. unfold createQueueCopy. apply safe_then; [intros tr'; apply safe_new_id|]. intros id tr1. cbv zeta. apply wp_ret.
    destruct He as [He1 He2]. by rewrite He2.
  - intros q tr Hq. apply (wp_then _ _ _ (Forall member)); [apply IH|]. intros qs tr1 Hqs. apply wp_ret. by constructor.
Qed.

Lemma build_members leader size scopes : member leader ->
  returns (build_in_scopes numeric_float gen leader size scopes) (fun batch => batch = [] \/ exists l, batch = leader :: l /\ Forall member l).
Proof.
  intros Hm. induction scopes as [|sc scopes IH]; intros trace; cbn [build_in_scopes]; [by apply wp_ret; left|].
  apply (wp_then _ _ _ (fun batch => exists l, batch = leader :: l /\ Forall member l)).
  - intros tr. unfold buildQueuedCoalescingBatchForScope. apply safe_then; [intros tr'; apply wp_any_reads|]. intros l tr1.
    apply (wp_then _ _ _ (Forall member)); [apply copy_siblings_members|]. intros qs tr2 Hqs. apply wp_ret. by exists qs.
  - intros batch tr Hb. destruct (2 <=? length batch)%nat; [apply wp_ret; by right|apply IH].
Qed.

Lemma wp_try_batch t force :
  returns (tryRecordQueuedTransactionBatch numeric_float gen pre_hooks acquire EnableQueuedChecks list_hooks
    EnableCoalescing DisableBatchReferenceCheck BatchSize t force) (fun r => same_but_meta t r.2).
Proof.
  intros trace. unfold tryRecordQueuedTransactionBatch.
  destruct (fst (canCoalesceQueuedTransaction t)) eqn:E; cbn [negb]; [|apply wp_ret; apply same_but_meta_refl].
  assert (member t) as Hm.
  { unfold canCoalesceQueuedTransaction in E. destruct (policyMarked t); [done|].
    destruct (String.eqb _ ""); [done|]. by apply member_conditions. }
  cbv zeta. destruct (_ <? 2); [apply wp_ret; apply same_but_meta_refl|].
  eapply wp_then; [by apply build_members|]. intros batch tr Hb. cbn beta in Hb.
  destruct batch as [|leader [|s l]]; [apply wp_ret; apply same_but_meta_refl..|].
  destruct Hb as [?|(l' & [= -> <-] & Hl)]; [done|].
  eapply wp_seq; [apply wp_try, wp_persist; by constructor|]. intros tr1 [[lead [[]|]]|] _ Hr; apply wp_ret; try done.
  apply same_but_meta_refl.
Qed.

(** ** The worker *)

Lemma well_formed_meta t t' : same_but_meta t t' -> well_formed t -> well_formed t'.
Proof. intros ->. done. Qed.

Lemma wp_execute_plan mode t viaQueue trace : well_formed t ->
  wp (execute_plan numeric_float gen pre_hooks acquire EnableQueuedChecks list_hooks EnableCoalescing
        DisableBatchReferenceCheck BatchSize now mode t viaQueue) any trace.
Proof.
  intros Hw. unfold execute_plan. eapply wp_seq; [by apply wp_verifyPolicyExecution|]. intros tr t1 _ H1. cbn beta in H1. cbv zeta.
  assert (forall tr0, wp (bind (recordTransactionSingle gen pre_hooks acquire EnableQueuedChecks now t1 viaQueue)
    (fun r => ret (ModeSingle, r))) any tr0) as Hs.
  { intros tr0. eapply wp_seq; [by apply wp_record|]. intros. by apply wp_ret. }
  destruct (policyMarked t1); [apply Hs|]. destruct mode; [apply Hs|..].
  all: eapply wp_then; [apply wp_try_batch|]; intros [handled lead] tr1 Hl; cbn [fst snd] in *;
    (destruct handled; [by apply wp_ret|]); (eapply wp_seq; [apply wp_execute; by eapply well_formed_meta|]);
    intros; by apply wp_ret.
Qed.

Lemma queue_job_meta db t t' : same_but_meta t t' -> queue_job numeric_float db t -> queue_job numeric_float db t'.
Proof. intros ->. done. Qed.

Lemma wp_processQueued db past t hotLane : queue_job numeric_float db t ->
  wp (processQueuedTransaction numeric_float gen pre_hooks acquire EnableQueuedChecks now list_hooks EnableCoalescing
        DisableBatchReferenceCheck BatchSize t hotLane) any (db :: past).
Proof.
  intros Hj. unfold processQueuedTransaction.
  eapply wp_seq with (P := fun _ p => waiting p.1 \/ settles p.1).
  { destruct (_ && _); [|apply wp_ret; apply Hj].
    eapply wp_seq with (P := fun _ intent => GetTransaction numeric_float db (t_ParentTransaction t) = Ok intent).
    - apply wp_with_context, wp_reads. by intros db' past' intent [= <- <-] _.
    - intros tr intent _ Hg. cbv zeta. apply wp_ret. by eapply restored_job. }
  intros tr [t1 hot] _ H1. cbn [fst snd] in *. eapply wp_then; [by apply verifyQueued_job|]. intros t2 tr1 H2. cbn beta in H2.
  apply wp_execute_plan. destruct H2; auto using waiting_well_formed, settles_well_formed.
Qed.

(** A job of the queue whose intent is stored stays one. *)
Lemma find_later db db' id r : rows_grow db db' -> find_txn db id = Some r ->
  exists m, find_txn db' id = Some {| r with x_meta := m |}.
Proof.
  intros (f & rows & E) H. unfold find_txn in *. rewrite E. exists (f r). clear E. revert H.
  induction (ld_txns db) as [|x l IH]; [done|]. cbn. destruct (String.eqb (x_id x) id); [by intros [= ->]|]. apply IH.
Qed.

Lemma job_later db db' t : rows_grow db db' -> is_Some (find_txn db (t_ParentTransaction t)) ->
  queue_job numeric_float db t -> queue_job numeric_float db' t.
Proof.
  intros Hg [r Hr] [Hj Hi]. split; [done|]. intros intent. destruct (find_later _ _ _ _ Hg Hr) as [m Hm].
  unfold GetTransaction in *. rewrite Hm. intros Hg'. apply Ok_inj in Hg' as <-. rewrite Hr in Hi. exact (Hi _ eq_refl).
Qed.

Variables (EnableHotLane InsufficientFundRetries RejectLockContentionImmediately : bool) (MaxRetryAttempts : Z).
#[local] Notation processTransaction := (processTransaction numeric_float gen pre_hooks acquire EnableQueuedChecks now list_hooks
  EnableCoalescing DisableBatchReferenceCheck BatchSize EnableHotLane InsufficientFundRetries RejectLockContentionImmediately
  MaxRetryAttempts).

Lemma wp_processTransaction db past t hot retries :
  queue_job numeric_float db t -> is_Some (find_txn db (t_ParentTransaction t)) ->
  wp (processTransaction t hot retries) any (db :: past).
Proof.
  intros Hj Hs. unfold Worker.processTransaction. eapply wp_seq; [apply wp_try_batch|]. intros tr [h1 t1] S1 E1. cbn [fst snd] in *.
  eapply wp_seq with (P := fun _ r => same_but_meta t r.2).
  { destruct (EnableHotLane && hot); [|by apply wp_ret]. eapply wp_mono; [apply wp_try_batch|]. intros tr2 r _ Er. cbn beta in Er. rewrite Er, E1. done. }
  intros tr2 [h2 t2] S2 E2. cbn [fst snd] in *. destruct h2; [by apply wp_ret|].
  eapply wp_seq; [|intros; by apply wp_ret]. apply safe_try. intros db2 past2 -> Hr.
  assert (db ∈ db2 :: past2) as Hin.
  { assert (db :: past `suffix_of` db2 :: past2) as [k ->] by (etrans; eassumption). apply elem_of_app. right. left. }
  assert (queue_job numeric_float db2 t2) as Hj2.
  { eapply queue_job_meta; [exact E2|]. eapply job_later; [by eapply run_rows|done|done]. }
  exact (wp_processQueued db2 past2 t2 (EnableHotLane && hot) Hj2 db2 past2 eq_refl Hr).
Qed.


(** ** A job that is delivered again *)

Lemma exists_ref_rows db db' ref : ld_txns db' = ld_txns db -> TransactionExistsByRef db' ref = TransactionExistsByRef db ref.
Proof. unfold TransactionExistsByRef. by intros ->. Qed.

Lemma prepare_taken t ts h db : TransactionExistsByRef db (t_Reference t) = true ->
  exists e, prepareQueuedBatchTransaction pre_hooks t h (queuedBatchReferenceSets DisableBatchReferenceCheck db (t :: ts)) ∅ db = (db, Err e).
Proof.
  intros Href. unfold prepareQueuedBatchTransaction, bind, lift, with_context, validateQueuedBatchTransactionReference, queuedBatchReferenceSets.
  destruct (coalescingBalancesForTransaction h t); [|by eexists]. destruct (pre_hooks t); [|by eexists].
  destruct (String.eqb (t_Reference t) "") eqn:Er; [by eexists|]. zbool.
  destruct (bool_decide _) eqn:Eb; [by eexists|]. destruct DisableBatchReferenceCheck.
  - cbn [snd fst]. rewrite bool_decide_false by set_solver. rewrite size_empty. cbn [Nat.eqb orb].
    unfold validateTxn, bind, reads. rewrite Href. by eexists.
  - cbn [snd fst]. rewrite bool_decide_true; [by eexists|]. apply elem_of_filter. split; [done|].
    apply elem_of_list_to_set, list_elem_of_filter. split; [done|]. rewrite fmap_cons. left.
Qed.

Lemma keeps_build leader size scopes : keeps (build_in_scopes numeric_float gen leader size scopes).
Proof.
  assert (forall l, keeps (copy_siblings gen l)) as Hc.
  { induction l as [|s l IH]; cbn [copy_siblings]; [auto with keeps|]. destruct (fst _); [|done].
    apply keeps_bind; [|intros; apply keeps_bind; auto with keeps].
    unfold createQueueCopy. apply keeps_bind; [by intros db|]. intros id. cbv zeta. auto with keeps. }
  induction scopes as [|sc scopes IH]; cbn [build_in_scopes]; [auto with keeps|]. apply keeps_bind.
  - unfold buildQueuedCoalescingBatchForScope. auto with keeps.
  - intros batch. destruct (2 <=? length batch)%nat; auto with keeps.
Qed.

(** A batch is always built, and starts with its leader. *)
Lemma build_leader leader size scopes db : exists db' batch,
  build_in_scopes numeric_float gen leader size scopes db = (db', Ok batch) /\ (batch = [] \/ exists l, batch = leader :: l).
Proof.
  assert (forall l d, exists d' qs, copy_siblings gen l d = (d', Ok qs)) as Hc.
  { induction l as [|s l IH]; intros d; cbn [copy_siblings]; [by eexists _, _|]. destruct (fst _); [|apply IH].
    unfold bind, createQueueCopy, new_id, bind, ret. cbv zeta. destruct (IH {| d with ld_ids := S (ld_ids d) |}) as (d' & qs & ->). by eexists _, _. }
  revert db. induction scopes as [|sc scopes IH]; intros db; cbn [build_in_scopes]; [eexists _, _; split; [done|by left]|].
  unfold buildQueuedCoalescingBatchForScope, bind, reads, ret.
  destruct (Hc (loadQueuedTransactionsForCoalescingScope numeric_float db leader sc (size - 1)) db) as (d' & qs & ->).
  destruct (2 <=? length (leader :: qs))%nat; [|apply IH]. eexists _, _. split; [done|eauto].
Qed.

(** A leader whose reference is taken stops its batch. *)
Lemma batch_taken t force db : TransactionExistsByRef db (t_Reference t) = true ->
  exists db' t', tryRecordQueuedTransactionBatch numeric_float gen pre_hooks acquire EnableQueuedChecks list_hooks
    EnableCoalescing DisableBatchReferenceCheck BatchSize t force db = (db', Ok (false, t')) /\
    ld_txns db' = ld_txns db /\ t_Reference t' = t_Reference t.
Proof.
  intros Href. unfold tryRecordQueuedTransactionBatch. destruct (fst _); cbn [negb]; [|by eexists _, _].
  cbv zeta. destruct (_ <? 2); [by eexists _, _|]. unfold bind at 1, buildQueuedCoalescingBatch.
  pose proof (keeps_build t (queuedCoalescingBatchSize EnableCoalescing BatchSize force) [ScopePair; ScopeSource; ScopeDestination] db) as Hk.
  edestruct build_leader as (db1 & batch & Eb & Hb). rewrite Eb in Hk |- *. cbn [fst] in Hk.
  destruct batch as [|leader [|s l]]; [by eexists _, _..|]. destruct Hb as [?|[l' [= -> _]]]; [done|].
  unfold persistQueuedTransactionBatch, persistQueuedTransactionBatchLocked, bind, try, lift, with_context, reads, ret.
  destruct (validateQueuedBatchCurrencies (t :: s :: l)); [|by eexists _, _].
  set (ids := collectQueuedCoalescingBalanceIDs _). destruct (acquire ids); [|by eexists _, _].
  destruct (loadBalancesForQueuedBatch EnableQueuedChecks db1 ids) as [objects|]; [|by eexists _, _].
  destruct list_hooks; [|by eexists _, _].
  cbn [prepare_batch]. unfold bind, try.
  destruct (prepare_taken t (s :: l) objects db1) as [e He]; [by rewrite (exists_ref_rows db)|].
  rewrite He. cbn. by eexists _, _.
Qed.

Lemma queued_taken t hotLane db : TransactionExistsByRef db (t_Reference t) = true ->
  exists db2 e, processQueuedTransaction numeric_float gen pre_hooks acquire EnableQueuedChecks now list_hooks EnableCoalescing
    DisableBatchReferenceCheck BatchSize t hotLane db = (db2, Err e) /\ ld_txns db2 = ld_txns db.
Proof.
  intros Href. unfold processQueuedTransaction.
  assert (forall (p : M (Transaction * bool)) f, keeps p ->
    (forall r db', p db = (db', Ok r) -> t_Reference r.1 = t_Reference t) ->
    (forall t' hot db1, t_Reference t' = t_Reference t -> ld_txns db1 = ld_txns db -> exists db2 (e : go_error),
       f (t', hot) db1 = (db2, Err e) /\ ld_txns db2 = ld_txns db) ->
    exists db2 e, bind (A := Transaction * bool) (B := execution_mode * Transaction) p f db = (db2, Err e) /\ ld_txns db2 = ld_txns db) as Hstep.
  { intros p f Hk Ht Hf. apply bind_errs; [done|]. intros [t' hot] db1 E1 E2. apply Hf; [|done]. by apply (Ht _ _ E1). }
  apply Hstep.
  - destruct (_ && _); [|auto with keeps]. apply keeps_bind; [auto with keeps|]. intros intent. cbv zeta. auto with keeps.
  - intros r db'. destruct (_ && _); [|by intros [= _ <-]]. unfold bind, with_context, reads, ret.
    destruct (GetTransaction _ db _); [|done]. intros [= _ <-]. unfold restore_controls. cbn [fst]. by case_match.
  - intros t1 hot db1 Ht1 E1. cbn [fst snd]. rewrite <- E1. apply bind_errs.
    + unfold verifyQueuedPolicy. destruct (_ || _); auto with keeps.
    + intros t2 db2 H2 E2. rewrite <- E2.
      assert (t_Reference t2 = t_Reference t) as Ht2.
      { unfold verifyQueuedPolicy, bind, reads, ret in H2. rewrite <- Ht1. destruct (_ || _).
        - destruct (checkPolicyCommit _ _); [|done]. by injection H2 as _ <-.
        - destruct (verifyPolicyLeg _ _) as [[a|]|]; [..|done]; injection H2 as _ <-; cbn; by repeat case_match. }
      unfold execute_plan. apply bind_errs; [apply keeps_verify|]. intros t3 db3 H3 E3. rewrite <- E3.
      apply verify_keeps_reference in H3 as Ht3. cbv zeta.
      assert (TransactionExistsByRef db3 (t_Reference t3) = true) as Href3.
      { rewrite Ht3, Ht2, (exists_ref_rows db2), (exists_ref_rows db1), (exists_ref_rows db); done. }
      assert (forall force, exists db2 e, bind (tryRecordQueuedTransactionBatch numeric_float gen pre_hooks acquire EnableQueuedChecks list_hooks
        EnableCoalescing DisableBatchReferenceCheck BatchSize t3 force) (fun h => if h.1
          then ret (if force then ModeHotQueuedBatch else ModeQueuedBatch, h.2)
          else bind (executeTransactionPlan gen pre_hooks acquire EnableQueuedChecks now h.2 true) (fun r => ret (ModeSingle, r))) db3 = (db2, Err e)
        /\ ld_txns db2 = ld_txns db3) as Hbatch.
      { intros force. destruct (batch_taken t3 force db3 Href3) as (db4 & t4 & H4 & E4 & Ht4). unfold bind at 1. rewrite H4. cbn [fst snd].
        rewrite <- E4. apply bind_first_errs, record_taken. by rewrite Ht4, (exists_ref_rows db3). }
      destruct (policyMarked t3); [by apply bind_first_errs, single_taken|].
      destruct (planTransactionExecution hot); [by apply bind_first_errs, single_taken|apply (Hbatch false)|apply (Hbatch true)].
Qed.

Lemma reject_taken t reason db : TransactionExistsByRef db (t_Reference t) = true ->
  exists e, RejectTransaction t reason db = (db, Err e).
Proof.
  intros Href. unfold RejectTransaction. cbv zeta. set (u := snd (ApplyPrecision _)).
  assert (t_Reference u = t_Reference t) as Hu by (subst u; by rewrite ApplyPrecision_reference).
  unfold bind at 1, atomically, RecordTransaction, recordTransactionInTx.
  destruct (persistNumericColumns u) as [cols|]; [|by eexists]. destruct (insert_transaction db (row_of u cols)) as [db1|] eqn:Ei; [|by eexists].
  apply insert_inserted in Ei as [row Hi]. exfalso. unfold TransactionExistsByRef in Href.
  apply existsb_exists in Href as (r & Hr & E). apply String.eqb_eq in E. apply list_elem_of_In in Hr.
  apply (ins_fresh_ref _ _ _ _ Hi r Hr). cbn. congruence.
Qed.

(** C12: a job is executed at most once.  Delivered again, or after another
    worker coalesced it into its batch, a job whose reference is already in the
    journal inserts no transaction on any path - neither alone nor as the leader
    of a batch of other queued transactions, whatever the locks, hooks and
    policies answer and however often it was retried - and a rejection that the
    worker asks for is refused without a change. *)
Theorem redelivered_job_changes_nothing (db : ledger_db) (job : Transaction) (hot : bool) (retries : Z) :
  TransactionExistsByRef db (t_Reference job) = true ->
  ld_txns (fst (processTransaction job hot retries db)) = ld_txns db /\
  forall t reason, t_Reference t = t_Reference job -> exists e, RejectTransaction t reason db = (db, Err e).
Proof.
  intros Href. split; [|intros t reason E; apply reject_taken; by rewrite E].
  unfold Worker.processTransaction. cbv zeta. destruct (batch_taken job false db Href) as (db1 & t1 & H1 & E1 & R1).
  unfold bind at 1. rewrite H1.
  assert (exists db2 t2, (if EnableHotLane && hot then tryRecordQueuedTransactionBatch numeric_float gen pre_hooks acquire EnableQueuedChecks list_hooks
    EnableCoalescing DisableBatchReferenceCheck BatchSize (false, t1).2 true else ret (false, t1)) db1 = (db2, Ok (false, t2)) /\
    ld_txns db2 = ld_txns db /\ t_Reference t2 = t_Reference job) as (db2 & t2 & H2 & E2 & R2).
  { destruct (EnableHotLane && hot); [|by eexists _, _].
    destruct (batch_taken t1 true db1) as (db2 & t2 & H2 & E2 & R2); [by rewrite R1, (exists_ref_rows db)|].
    exists db2, t2. split; [exact H2|]. by rewrite E2, R2. }
  unfold bind at 1. rewrite H2. cbn [fst snd].
  destruct (queued_taken t2 (EnableHotLane && hot) db2) as (db3 & e & H3 & E3); [by rewrite R2, (exists_ref_rows db)|].
  unfold bind, try. rewrite H3. cbn. congruence.
Qed.
End BatchWp.

(** ** Two orders in one batch, and a transfer to itself *)
Module WorkerWitness.
Import LifecycleWitness RefineWitness FrontDoorWitness.
#[local] Existing Instance DecimalInstance.dnum_ops.

Definition enqueue_order (db : ledger_db) (o : Transaction) : ledger_db * result Transaction :=
  QueueTransaction to_float gen ok_hooks ok_locks true 7 no_queue ok_hooks ok_hooks ok_hooks legs_text refs_text
    None 100 1 master o db.
(** A second order of the same source is queued. *)
Definition order2 : Transaction := {| order with t_Reference := "ref_2"; t_Destination := "@bob" |}.
Definition queued2 : ledger_db * result Transaction := enqueue_order (fst queued) order2.
Definition work (coalescing : bool) (j : Transaction) (db : ledger_db) : ledger_db * result outcome :=
  processTransaction to_float gen ok_hooks ok_locks true 8 (Ok tt) coalescing false 100 false true false 5 j false 0 db.
Definition worked2 : ledger_db * result outcome := work true job (fst queued2).
Definition references (db : ledger_db) : list (string * string) := (fun r => (x_reference r, x_status r)) <$> ld_txns db.

Lemma queued2_run : exists past, run gen (fst queued2 :: past).
Proof.
  pose proof (fun o => safe_queue gen to_float ok_hooks ok_locks true 7 no_queue ok_hooks ok_hooks ok_hooks
      legs_text refs_text None 100 1 master o) as H.
  destruct (H order _ order_submitted _ _ eq_refl start) as (p1 & R1 & _).
  destruct (H order2 _ order_submitted _ _ eq_refl R1) as (p2 & R2 & _). exists p2. exact R2.
Qed.

Lemma job_is_job2 : queue_job to_float (fst queued2) job.
Proof.
  split; [left; split; [left; vm_compute; reflexivity|vm_compute; discriminate]|].
  intros i Hi _. assert (t_QueueAction i = ""%string) as ->; [|split; [discriminate|vm_compute; discriminate]].
  revert Hi. vm_compute. intros [= <-]. reflexivity.
Qed.


(** The job is delivered a second time. *)
Lemma redelivered_job_changes_nothing_witness :
  TransactionExistsByRef (fst worked2) (t_Reference job) = true /\ ld_txns (fst (work true job (fst worked2))) = ld_txns (fst worked2).
Proof.
  split; [vm_compute; reflexivity|].
  exact (proj1 (redelivered_job_changes_nothing to_float gen ok_hooks ok_locks true 8 (Ok tt) true false 100 false true false 5
    (fst worked2) job false 0 eq_refl)).
Defined.

(** The first two orders, still in place with their fields, later in the run. *)
Lemma journal_is_append_only_witness :
  exists past db, run gen (db :: past) /\ exists r m, ld_txns (fst queued2) !! 1%nat = Some r /\ ld_txns db !! 1%nat = Some {| r with x_meta := m |}.
Proof.
  destruct queued2_run as [past Hr].
  assert (is_Some (find_txn (fst queued2) (t_ParentTransaction job))) as Hs by (vm_compute; eexists; reflexivity).
  destruct (wp_processTransaction to_float gen ok_hooks ok_locks true 8 (Ok tt) true false 100 false true false 5
    _ past job false 0 job_is_job2 Hs _ _ eq_refl Hr) as (past' & R & S & _).
  eexists past', _. split; [exact R|].
  assert (exists r, ld_txns (fst queued2) !! 1%nat = Some r) as [r Hi] by (vm_compute; eexists; reflexivity).
  destruct (journal_is_append_only gen _ past' (fst queued2) 1 r R) as [m Hm].
  - destruct S as [k ->]. apply elem_of_app. right. left.
  - exact Hi.
  - exists r, m. split; [exact Hi|exact Hm].
Defined.

(** 10 from alice's balance to alice, named once by its id and once by its
    indicator; queued twice. *)
Definition itself (ref : string) : Transaction :=
  {| order with t_Reference := ref; t_Source := "bln_2"; t_Destination := "@alice"; t_PreciseAmount := Some 10; t_AmountString := "0.1" |}.
Definition queued3 : ledger_db * result Transaction := enqueue_order (fst worked2) (itself "ref_3").
Definition queued4 : ledger_db * result Transaction := enqueue_order (fst queued3) (itself "ref_4").
Definition job3 : Transaction :=
  let i := match snd queued3 with Ok t => t | Err _ => zero_transaction end in
  {| i with t_TransactionID := "txn_9"; t_ParentTransaction := t_TransactionID i; t_ParentKind := "economic"; t_Reference := "ref_3_q" |}.

(** A transfer from a balance to itself is applied when it is coalesced,
    and only then.  The executor of one transaction reads source and destination
    as two objects of one row, so the second update always finds a newer
    version and the transfer can never be applied; in a batch both sides are
    the same object, which is written once, and the worker records the transfer
    as applied. *)
Theorem coalesced_self_transfer :
  t_Source job3 = t_Destination job3 /\
  snd (work true job3 (fst queued4)) = Ok Done /\
  ("ref_3_q", "APPLIED")%string ∈ references (fst (work true job3 (fst queued4))) /\
  (exists e, snd (work false job3 (fst queued4)) = Ok (Retry e) /\
     Contains (err_msg e) "Optimistic locking failure" = true) /\
  references (fst (work false job3 (fst queued4))) = references (fst queued4).
Proof.
  split; [vm_compute; reflexivity|]. split; [vm_compute; reflexivity|]. split.
  { apply (bool_decide_unpack _). vm_compute. exact I. }
  split; [|vm_compute; reflexivity]. eexists. split; vm_compute; reflexivity.
Qed.
End WorkerWitness.
