(* ===== verification/HotPairs.v ===== *)
(** * Hot pairs

    [internal/hotpairs]: a pair of balances whose locks are contended is
    promoted to a queue of its own.  The state of a pair lives in Redis keys
    that expire; the lane of a new transaction is resolved from it and from the
    transactions of the pair that wait in the store. *)
From stdpp Require Import base option list strings gmap.
From Stdlib Require Import ZArith Lia.
From S2P Require Import Prelude GoFloat Model Sha256 GoTime Decimal DecimalInstance Amount Balance Policy PolicyStore Store Lifecycle Engine Inflight Coalesce Queue Worker.
Close Scope Q_scope.
Open Scope Z_scope.

(** ** The manager *)

Inductive State := StateNormal | StatePromoting | StateHot | StateCoolingDown.
#[export] Instance State_eq_dec : EqDecision State.
Proof. solve_decision. Defined.

(** [Config], as [cfg], and [Manager]. *)
Record Config := { cf_Enabled : bool; cf_HotQueueName : string; cf_HotPairTTL : Z; cf_LockContentionThreshold : Z }.
Record Manager := { m_enabled : bool; m_hotQueue : string; m_pairTTL : Z; m_threshold : Z }.

(** [NewManager]; [client] says that there is a Redis client. *)
Definition NewManager (client : bool) (cfg : Config) : Manager := {|
  m_enabled := cf_Enabled cfg && client;
  m_hotQueue := if String.eqb (cf_HotQueueName cfg) "" then "hot_transactions" else cf_HotQueueName cfg;
  m_pairTTL := if cf_HotPairTTL cfg <=? 0 then 300 * second else cf_HotPairTTL cfg;
  m_threshold := if cf_LockContentionThreshold cfg <=? 0 then 3 else cf_LockContentionThreshold cfg |}.

(** [PairKey] and [PairKeyForTransaction]. *)
Definition PairKey (source destination currency : string) : string :=
  source +:+ "|" +:+ destination +:+ "|" +:+ ToUpper currency.
Definition PairKeyForTransaction (t : Transaction) : string :=
  if String.eqb (t_Source t) "" || String.eqb (t_Destination t) "" || String.eqb (t_Currency t) "" then ""
  else PairKey (t_Source t) (t_Destination t) (t_Currency t).

(** The three families of keys, each key with the instant it expires at. *)
Record hot_keys := {
  hk_state : gmap string (State * Z);
  hk_activity : gmap string Z;
  hk_contention : gmap string (Z * Z) }.

(** The errors of the commands that a call sends: of [GET], of [EXISTS], of a
    [SET] or a pipeline, and of the count in the database. *)
Record faults := { f_get : option go_error; f_exists : option go_error; f_exec : option go_error; f_count : option go_error }.
Definition no_faults : faults := {| f_get := None; f_exists := None; f_exec := None; f_count := None |}.

Definition live (now expires : Z) : bool := now <? expires.
Definition stored_state (now : Z) (k : hot_keys) (pair : string) : State :=
  match hk_state k !! pair with Some (s, e) => if live now e then s else StateNormal | None => StateNormal end.

Section Manager.
Variable m : Manager.
Variable f : faults.
Variable now : Z.

Definition stateTTL : Z := m_pairTTL m * 4.

(** [GetState]. *)
Definition GetState (k : hot_keys) (pair : string) : result State :=
  if negb (m_enabled m) then Ok StateNormal
  else match f_get f with Some e => Err e | None => Ok (stored_state now k pair) end.

(** [setState]. *)
Definition setState (k : hot_keys) (pair : string) (s : State) : hot_keys * result unit :=
  match f_exec f with
  | Some e => (k, Err e)
  | None => ({| k with hk_state := <[pair := (s, now + stateTTL)]> (hk_state k) |}, Ok tt)
  end.

(** [ActivateHot], [StartCoolingDown] and [SetNormal]. *)
Definition ActivateHot (k : hot_keys) (pair : string) : hot_keys * result unit :=
  if negb (m_enabled m) then (k, Ok tt)
  else match f_exec f with
  | Some e => (k, Err e)
  | None => ({| k with hk_state := <[pair := (StateHot, now + stateTTL)]> (hk_state k);
                       hk_activity := <[pair := now + m_pairTTL m]> (hk_activity k) |}, Ok tt)
  end.
Definition StartCoolingDown (k : hot_keys) (pair : string) : hot_keys * result unit :=
  if negb (m_enabled m) then (k, Ok tt) else setState k pair StateCoolingDown.
Definition SetNormal (k : hot_keys) (pair : string) : hot_keys * result unit :=
  if negb (m_enabled m) then (k, Ok tt)
  else match f_exec f with
  | Some e => (k, Err e)
  | None => ({| hk_state := delete pair (hk_state k); hk_activity := delete pair (hk_activity k);
                hk_contention := delete pair (hk_contention k) |}, Ok tt)
  end.

(** [HasRecentContention]. *)
Definition HasRecentContention (k : hot_keys) (pair : string) : result bool :=
  if negb (m_enabled m) then Ok false
  else match f_exists f with
  | Some e => Err e
  | None => Ok (match hk_activity k !! pair with Some e => live now e | None => false end)
  end.

(** [Manager.RecordContention]: the count, and whether the pair is promoted. *)
Definition Manager_RecordContention (k : hot_keys) (pair : string) : hot_keys * result (Z * bool) :=
  if negb (m_enabled m) then (k, Ok (0, false))
  else match f_exec f with
  | Some e => (k, Err e)
  | None =>
      let current := match hk_contention k !! pair with Some (n, e) => if live now e then n + 1 else 1 | None => 1 end in
      let k := {| k with hk_contention := <[pair := (current, now + m_pairTTL m)]> (hk_contention k);
                         hk_activity := <[pair := now + m_pairTTL m]> (hk_activity k) |} in
      if current <? m_threshold m then (k, Ok (current, false))
      else match GetState k pair with
      | Err e => (k, Err e)
      | Ok StateNormal => let '(k, r) := setState k pair StatePromoting in
                          (k, let* _ := r in Ok (current, true))
      | Ok s => ({| k with hk_state := <[pair := (s, now + stateTTL)]> (hk_state k) |}, Ok (current, bool_decide (s = StatePromoting)))
      end
  end.

(** [hotpairs.RecordContention]. *)
Definition RecordContention (k : hot_keys) (source destination currency : string) (e : go_error) : hot_keys :=
  if negb (IsLockContentionError e) || negb (m_enabled m) then k
  else if String.eqb source "" || String.eqb destination "" || String.eqb currency "" then k
  else fst (Manager_RecordContention k (PairKey source destination currency)).

(** ** The router *)

(** [CountQueuedTransactionsForPairLane]. *)
Definition in_lane (source destination currency lane : string) (db : ledger_db) (r : txn_row) : bool :=
  is_status "QUEUED" r && String.eqb (x_source r) source && String.eqb (x_destination r) destination
  && String.eqb (x_currency r) currency
  && String.eqb (if String.eqb (ec_QueueLane (x_controls r)) LaneHot then LaneHot else LaneNormal) lane
  && negb (existsb (fun child => String.eqb (x_parent child) (x_id r)) (ld_txns db)).
Definition CountQueuedTransactionsForPairLane (db : ledger_db) (source destination currency lane : string) : Z :=
  Z.of_nat (length (filter (fun r => in_lane source destination currency lane db r) (ld_txns db))).
Definition pendingQueuedTransactionsForPairLane (db : ledger_db) (source destination currency lane : string) : result Z :=
  match f_count f with Some e => Err e | None => Ok (CountQueuedTransactionsForPairLane db source destination currency lane) end.

(** [ResolveQueueLane]. *)
Definition ResolveQueueLane (db : ledger_db) (k : hot_keys) (source destination currency : string) : hot_keys * result string :=
  if negb (m_enabled m) then (k, Ok LaneNormal)
  else
    let pair := PairKey source destination currency in
    let pending lane := pendingQueuedTransactionsForPairLane db source destination currency lane in
    let to_normal := let '(k, r) := SetNormal k pair in (k, let* _ := r in Ok LaneNormal) in
    match GetState k pair with
    | Err e => (k, Err e)
    | Ok StatePromoting =>
        match pending LaneNormal with
        | Err e => (k, Err e)
        | Ok n => if n =? 0 then let '(k, r) := ActivateHot k pair in (k, let* _ := r in Ok LaneHot)
                  else (k, Ok LaneNormal)
        end
    | Ok StateHot =>
        match HasRecentContention k pair with
        | Err e => (k, Err e)
        | Ok true => (k, Ok LaneHot)
        | Ok false =>
            match pending LaneHot with
            | Err e => (k, Err e)
            | Ok n => if 0 <? n then let '(k, r) := StartCoolingDown k pair in (k, let* _ := r in Ok LaneHot)
                      else to_normal
            end
        end
    | Ok StateCoolingDown =>
        match pending LaneHot with
        | Err e => (k, Err e)
        | Ok n => if 0 <? n then (k, Ok LaneHot) else to_normal
        end
    | Ok StateNormal => (k, Ok LaneNormal)
    end.

(** The lane that [AssignQueueLane] gives: an error means the normal lane. *)
Definition assigned_lane (db : ledger_db) (k : hot_keys) (source destination currency : string) : hot_keys * string :=
  let '(k, r) := ResolveQueueLane db k source destination currency in
  (k, match r with Ok lane => lane | Err _ => LaneNormal end).
End Manager.

(** [QueueLaneFromMetadata]. *)
Definition QueueLaneFromMetadata (md : metadata) : string :=
  match md_get md "queue_lane" with
  | Some (JStr lane) => if String.eqb lane LaneHot then LaneHot else LaneNormal
  | _ => LaneNormal
  end.

(** ** The queues *)

(** [hashBalanceID]: 32-bit FNV-1a. *)
Definition hashBalanceID (balanceID : string) : Z :=
  fold_left (fun h c => (Z.lxor h (Z.of_nat (Ascii.nat_of_ascii c)) * 16777619) mod 2 ^ 32)
    (String.list_ascii_of_string balanceID) 2166136261.

(** [transactionQueueName]; with no queue the remainder panics. *)
Definition transactionQueueName (EnableHotLane : bool) (HotQueueName TransactionQueue : string) (NumberOfQueues : Z)
    (t : Transaction) : option string :=
  if EnableHotLane && (match t_MetaData t with Some _ => true | None => false end) && String.eqb (t_QueueLane t) LaneHot
  then Some HotQueueName
  else if NumberOfQueues =? 0 then None
  else Some (TransactionQueue +:+ "_" +:+ itoa (Z.rem (hashBalanceID (t_Source t)) NumberOfQueues + 1)).

(** ** One pair over time *)

Lemma filter_length_mono {A} (P Q : A -> Prop) `{!forall x, Decision (P x)} `{!forall x, Decision (Q x)} (l : list A) :
  (forall x, P x -> Q x) -> (length (filter P l) <= length (filter Q l))%nat.
Proof.
  intros HPQ. induction l as [|x l IH]; [done|]. rewrite !filter_cons. repeat case_decide; cbn [length]; try lia. naive_solver.
Qed.

Section Lanes.
Variable m : Manager.
Variables source destination currency : string.
#[local] Notation pair := (PairKey source destination currency).
#[local] Notation pending db lane := (CountQueuedTransactionsForPairLane db source destination currency lane).

Record hot_system := { hs_now : Z; hs_keys : hot_keys; hs_db : ledger_db }.
Definition pair_state (s : hot_system) : State := stored_state (hs_now s) (hs_keys s) pair.

(** A transaction of the pair is routed and stored; contention is noted; the
    store and the keys change otherwise, without a new transaction of the pair
    and without its state key; time passes, which may expire the state key of
    the pair only when nothing waits in its hot lane. *)
Inductive hot_step (s : hot_system) : hot_system -> Prop :=
| hot_enqueue t k' lane db' t' :
    t_Status t = StatusQueued -> t_Source t = source -> t_Destination t = destination -> t_Currency t = currency ->
    assigned_lane m no_faults (hs_now s) (hs_db s) (hs_keys s) source destination currency = (k', lane) ->
    t_QueueLane t = lane -> RecordTransaction (hs_db s) t = Ok (db', t') ->
    hot_step s {| hs_now := hs_now s; hs_keys := k'; hs_db := db' |}
| hot_contended e :
    hot_step s {| hs_now := hs_now s; hs_db := hs_db s;
                  hs_keys := RecordContention m no_faults (hs_now s) (hs_keys s) source destination currency e |}
| hot_elsewhere k' db' :
    hk_state k' !! pair = hk_state (hs_keys s) !! pair -> (forall lane, pending db' lane <= pending (hs_db s) lane) ->
    hot_step s {| hs_now := hs_now s; hs_keys := k'; hs_db := db' |}
| hot_wait now' :
    hs_now s <= now' ->
    (pair_state s <> StateNormal -> stored_state now' (hs_keys s) pair = StateNormal -> pending (hs_db s) LaneHot = 0) ->
    hot_step s {| hs_now := now'; hs_keys := hs_keys s; hs_db := hs_db s |}.

Inductive hot_reachable : hot_system -> Prop :=
| hot_start s : pair_state s = StateNormal -> pending (hs_db s) LaneHot = 0 -> hot_reachable s
| hot_next s s' : hot_reachable s -> hot_step s s' -> hot_reachable s'.

(** What the state of the pair says about where its transactions wait. *)
Definition lane_of_state (st : State) : string :=
  match st with StateHot | StateCoolingDown => LaneHot | _ => LaneNormal end.
Definition other_lane (lane : string) : string := if String.eqb lane LaneHot then LaneNormal else LaneHot.
Definition lanes_ok (s : hot_system) : Prop := pending (hs_db s) (other_lane (lane_of_state (pair_state s))) = 0.

Lemma pending_nonneg db lane : 0 <= pending db lane.
Proof. unfold CountQueuedTransactionsForPairLane. lia. Qed.

(** A stored transaction adds to its own lane only. *)
Lemma pending_recorded db t db' t' lane : RecordTransaction db t = Ok (db', t') ->
  t_QueueLane t = other_lane lane -> lane = LaneHot \/ lane = LaneNormal -> pending db' lane <= pending db lane.
Proof.
  unfold RecordTransaction, recordTransactionInTx. intros H Hlane Hl. apply res_bind_Ok in H as (db1 & H & E).
  apply Ok_inj in E as [= <- _]. destruct (persistNumericColumns t) as [cols|]; [|done].
  destruct (insert_transaction _ _) as [db2|] eqn:Ei; [|done]. apply Ok_inj in H as <-.
  apply insert_inserted in Ei as [row Hi]. pose proof (ins_txns _ _ _ _ Hi) as Et. destruct (ins_row _ _ _ _ Hi) as [md Er].
  unfold CountQueuedTransactionsForPairLane. rewrite Et, filter_app, length_app.
  rewrite (filter_cons_False _ row []), filter_nil.
  2: { unfold in_lane. rewrite Er. cbn -[existsb String.eqb]. rewrite Hlane. rewrite !andb_True. intros [[_ Hf] _].
       destruct Hl as [-> | ->]; exact Hf. }
  cbn [length]. apply Nat2Z.inj_le. rewrite Nat.add_0_r. apply filter_length_mono. intros r.
  unfold in_lane. rewrite !andb_True. intros [H1 H2]. split; [done|]. revert H2. rewrite Et, existsb_app, negb_orb, andb_True. tauto.
Qed.

Hypothesis (Hon : m_enabled m = true) (Httl : 0 < m_pairTTL m).

Lemma stored_set now st k act con : stored_state now {| hk_state := <[pair := (st, now + stateTTL m)]> k; hk_activity := act; hk_contention := con |} pair = st.
Proof using Httl.
  unfold stored_state. cbn [hk_state]. rewrite lookup_insert_eq. unfold live, stateTTL. destruct (_ <? _) eqn:E; zbool; [done|lia].
Qed.
Lemma stored_deleted now k act con : stored_state now {| hk_state := delete pair k; hk_activity := act; hk_contention := con |} pair = StateNormal.
Proof. unfold stored_state. cbn [hk_state]. by rewrite lookup_delete_eq. Qed.

(** The lane that is resolved is the one the pair's transactions may wait in. *)
Lemma assigned_ok s k' lane : lanes_ok s ->
  assigned_lane m no_faults (hs_now s) (hs_db s) (hs_keys s) source destination currency = (k', lane) ->
  (lane = LaneHot \/ lane = LaneNormal) /\ pending (hs_db s) (other_lane lane) = 0 /\
  lane_of_state (stored_state (hs_now s) k' pair) = lane.
Proof using Hon Httl.
  unfold lanes_ok, assigned_lane, ResolveQueueLane, GetState, HasRecentContention, ActivateHot, StartCoolingDown, SetNormal, setState,
    pendingQueuedTransactionsForPairLane. rewrite Hon. cbn [negb no_faults f_get f_exists f_exec f_count]. cbv zeta.
  change (stored_state (hs_now s) (hs_keys s) pair) with (pair_state s). intros Hok.
  destruct (pair_state s) eqn:Es; cbn [lane_of_state other_lane] in Hok.
  - intros [= <- <-]. unfold pair_state in Es. rewrite Es. auto.
  - destruct (_ =? 0) eqn:E; zbool; intros [= <- <-].
    + rewrite stored_set. auto.
    + unfold pair_state in Es. rewrite Es. auto.
  - destruct (match hk_activity _ !! _ with Some _ => _ | None => _ end).
    { intros [= <- <-]. unfold pair_state in Es. rewrite Es. auto. }
    destruct (0 <? _) eqn:E; zbool; intros [= <- <-].
    + rewrite stored_set. auto.
    + rewrite stored_deleted. pose proof (pending_nonneg (hs_db s) LaneHot). split; [by right|]. split; [cbn; lia|done].
  - destruct (0 <? _) eqn:E; zbool; intros [= <- <-].
    + unfold pair_state in Es. rewrite Es. auto.
    + rewrite stored_deleted. pose proof (pending_nonneg (hs_db s) LaneHot). split; [by right|]. split; [cbn; lia|done].
Qed.

(** Noting contention does not move the pair to another lane. *)
Lemma contended_ok s e : lane_of_state (stored_state (hs_now s) (RecordContention m no_faults (hs_now s) (hs_keys s) source destination currency e) pair)
  = lane_of_state (pair_state s).
Proof using Hon Httl.
  unfold RecordContention, Manager_RecordContention, GetState, setState. rewrite Hon. cbn [negb no_faults f_get f_exec]. cbv zeta.
  destruct (negb _ || false); [done|]. destruct (_ || _); [done|]. destruct (_ <? _); [done|].
  change (stored_state (hs_now s) {| hk_state := _; hk_activity := _; hk_contention := _ |} pair) with (pair_state s).
  destruct (pair_state s) eqn:Es; cbn [fst]; by rewrite stored_set.
Qed.

Lemma other_lane_cases lane : lane = LaneHot \/ lane = LaneNormal ->
  (other_lane lane = LaneHot \/ other_lane lane = LaneNormal) /\ other_lane (other_lane lane) = lane.
Proof. intros [-> | ->]; cbn; auto. Qed.

Lemma step_lanes s s' : lanes_ok s -> hot_step s s' -> lanes_ok s'.
Proof using Hon Httl.
  intros Hok [t k' lane db' t' _ _ _ _ Ha Ht Hr|e|k' db' Hk Hp|now' Hn Hx]; unfold lanes_ok; cbn [hs_db].
  - destruct (assigned_ok s k' lane Hok Ha) as (Hl & Hp & Es). destruct (other_lane_cases lane Hl) as [Hl' E].
    unfold pair_state. cbn [hs_now hs_keys]. rewrite Es.
    pose proof (pending_recorded _ _ _ _ (other_lane lane) Hr ltac:(congruence) Hl'). pose proof (pending_nonneg db' (other_lane lane)). lia.
  - unfold pair_state. cbn [hs_now hs_keys]. by rewrite contended_ok.
  - unfold lanes_ok in Hok. assert (pair_state {| hs_now := hs_now s; hs_keys := k'; hs_db := db' |} = pair_state s) as ->
      by (unfold pair_state, stored_state; cbn [hs_now hs_keys]; by rewrite Hk).
    set (l := other_lane _) in *. pose proof (Hp l). pose proof (pending_nonneg db' l). lia.
  - unfold lanes_ok, pair_state in *. cbn [hs_now hs_keys]. unfold stored_state in *.
    destruct (hk_state (hs_keys s) !! pair) as [[st ex]|]; [|done]. unfold live in *.
    destruct (now' <? ex) eqn:E1, (hs_now s <? ex) eqn:E2; zbool; try done; [lia|].
    destruct st; try done; by apply Hx.
Qed.

Lemma reachable_lanes s : hot_reachable s -> lanes_ok s.
Proof using Hon Httl.
  induction 1 as [s Es Hp|s s' _ IH Hs]; [|by eapply step_lanes]. unfold lanes_ok. by rewrite Es.
Qed.
End Lanes.


(** ** On concrete inputs *)

Module HotWitness.
Import LifecycleWitness.

Definition cfg : Config := {| cf_Enabled := true; cf_HotQueueName := ""; cf_HotPairTTL := 10; cf_LockContentionThreshold := 1 |}.
Definition mgr : Manager := NewManager true cfg.
Definition no_keys : hot_keys := {| hk_state := ∅; hk_activity := ∅; hk_contention := ∅ |}.
Definition cold : hot_system := {| hs_now := 1; hs_keys := no_keys; hs_db := empty_db |}.
Definition held : go_error := sentinel "redlock.ErrLockHeld" "lock already held".
Definition payment (id lane : string) : Transaction :=
  {| zero_transaction with t_TransactionID := id; t_Reference := id; t_Source := "a"; t_Destination := "b"; t_Currency := "USD";
     t_Status := StatusQueued; t_QueueLane := lane; t_PreciseAmount := Some 1; t_AmountString := "1" |}.
Definition stored (t : Transaction) (db : ledger_db) : ledger_db :=
  match RecordTransaction db t with Ok (db', _) => db' | Err _ => db end.
Definition route (f : faults) (now : Z) (db : ledger_db) (k : hot_keys) : hot_keys * string := assigned_lane mgr f now db k "a" "b" "USD".
Definition waits (db : ledger_db) : Z * Z :=
  (CountQueuedTransactionsForPairLane db "a" "b" "USD" LaneNormal, CountQueuedTransactionsForPairLane db "a" "b" "USD" LaneHot).

(** Contended once, the pair is promoted and the next payment is routed to the
    hot lane. *)
Definition promoted : hot_system :=
  {| hs_now := 1; hs_db := empty_db; hs_keys := RecordContention mgr no_faults 1 no_keys "a" "b" "USD" held |}.
Definition hot : hot_system :=
  {| hs_now := 1; hs_keys := fst (route no_faults 1 empty_db (hs_keys promoted)); hs_db := stored (payment "t1" LaneHot) empty_db |}.


(** Three ways in which they do mix, outside those conditions: Redis fails on
    one read, and the fallback is the normal lane; the state key expires while
    a transaction waits in the hot lane; or a payment that was routed while
    another one waited in the normal lane is stored after that one was executed
    and the pair promoted. *)
Definition executed : Transaction := {| zero_transaction with t_TransactionID := "x0"; t_Reference := "x0"; t_Source := "a"; t_Destination := "b";
  t_Currency := "USD"; t_Status := StatusApplied; t_ParentTransaction := "t0"; t_ParentKind := "economic"; t_PreciseAmount := Some 1; t_AmountString := "1" |}.
Definition lost_read : faults := {| f_get := Some (errors_New "redis: connection refused"); f_exists := None; f_exec := None; f_count := None |}.

Theorem lanes_that_mix :
  route lost_read 2 (hs_db hot) (hs_keys hot) = (hs_keys hot, LaneNormal) /\
  snd (route no_faults 50 (hs_db hot) (hs_keys hot)) = LaneNormal /\
  waits (stored (payment "t2" LaneNormal) (hs_db hot)) = (1, 1) /\
  (let db := stored (payment "t0" LaneNormal) empty_db in
   let '(k, lane) := route no_faults 2 db (hs_keys promoted) in
   let db := stored executed db in
   let '(k, lane') := route no_faults 2 db k in
   let db := stored (payment "t2" lane) (stored (payment "t1" lane') db) in
   (lane, lane', waits db) = (LaneNormal, LaneHot, (1, 1))).
Proof. vm_compute. split_and!; reflexivity. Qed.
End HotWitness.
