(* ===== verification/BatchEquiv.v ===== *)
(** * A batch is its transactions, one after the other

    A coalesced batch prepares all its transactions against one set of balance
    objects and writes every balance once.  Here it is compared with the
    executor of one transaction, run on the same transactions in the same
    order: the two leave the same journal, claims, policy tables and outbox, and
    the same balances up to their version numbers. *)
From stdpp Require Import base option list strings gmap sorting.
From Stdlib Require Import ZArith Lia.
From S2P Require Import Prelude GoFloat Model Decimal DecimalInstance Amount Balance Policy PolicyStore Store Lifecycle Engine Inflight Coalesce Queue Effect Batch Journal Refine FrontDoor Worker.
Close Scope Q_scope.
Open Scope Z_scope.
Open Scope engine_scope.

(** ** Balances up to their version *)

Definition at_version (v : Z) (b : Balance) : Balance := {| b with b_Version := v |}.
Definition upto_version (b b' : Balance) : Prop := b' = at_version (b_Version b') b.

(** Two stores that differ in balance versions only. *)
Record same_store (db db' : ledger_db) : Prop := {
  ss_rest : db' = {| db with ld_balances := ld_balances db' |};
  ss_balances : forall id, option_Forall2 upto_version (ld_balances db !! id) (ld_balances db' !! id) }.

Definition with_status (s : string) (t : Transaction) : Transaction := {| t with t_Status := s |}.

Section Apply.
Context {Dops : DecimalOps} {Dlaws : DecimalLaws}.

(** The arithmetic looks neither at the status nor at the versions. *)
Lemma ApplyPrecisionChecked_status s t :
  ApplyPrecisionChecked (with_status s t) =
  match ApplyPrecisionChecked t with Ok (n, t') => Ok (n, with_status s t') | Err e => Err e end.
Proof.
  assert (ApplyPrecision (with_status s t) = (fst (ApplyPrecision t), with_status s (snd (ApplyPrecision t)))) as H.
  { unfold ApplyPrecision. change (validateMonetaryFields (with_status s t)) with (validateMonetaryFields t).
    destruct (validateMonetaryFields t); [|done]. change (t_Precision (with_status s t)) with (t_Precision t).
    destruct (feq (t_Precision t) fzero); unfold applyPrecisionLogic;
      [change (feq _ fzero) with (feq (f_of_Z 1) fzero); destruct (feq (f_of_Z 1) fzero)
      |change (t_Precision (with_status s t)) with (t_Precision t); destruct (feq (t_Precision t) fzero)];
      cbn [t_PreciseAmount with_status]; destruct (t_PreciseAmount t) as [p|]; try destruct (0 <? p); done. }
  unfold ApplyPrecisionChecked. change (validate (with_status s t)) with (validate t).
  destruct (validate t); [|done]. cbn [res_bind]. rewrite H. by destruct (ApplyPrecision t).
Qed.

Lemma UpdateBalances_status s t a b t' a' b' r :
  UpdateBalances t a b = (t', a', b', r) -> UpdateBalances (with_status s t) a b = (with_status s t', a', b', r).
Proof.
  unfold UpdateBalances. rewrite ApplyPrecisionChecked_status. destruct (ApplyPrecisionChecked t) as [[n t1]|]; [|by intros [= <- <- <- <-]].
  cbv zeta. set (t2 := {| t1 with t_PreciseAmount := Some n |}). intros H.
  match goal with |- context [canProcessTransaction ?u a] => change (canProcessTransaction u a) with (canProcessTransaction t2 a) end.
  destruct (canProcessTransaction t2 a) as [a1 [[]|]]; by injection H as <- <- <- <-.
Qed.

Lemma UpdateBalances_version v w t a b t' a' b' :
  UpdateBalances t a b = (t', a', b', Ok tt) ->
  UpdateBalances t (at_version v a) (at_version w b) = (t', at_version v a', at_version w b', Ok tt).
Proof.
  unfold UpdateBalances. destruct (ApplyPrecisionChecked t) as [[n t1]|]; [|done]. cbv zeta.
  set (t2 := {| t1 with t_PreciseAmount := Some n |}).
  assert (canProcessTransaction t2 (at_version v a) = (at_version v (fst (canProcessTransaction t2 a)), snd (canProcessTransaction t2 a))) as ->.
  { unfold canProcessTransaction. destruct (_ && _); [done|].
    change (available_balance (InitializeBalanceFields (at_version v a))) with (available_balance (InitializeBalanceFields a)).
    by repeat case_match. }
  destruct (canProcessTransaction t2 a) as [a1 [[]|]]; [|done]. cbn [fst snd]. intros [= <- <- <-].
  change (t_Inflight t2) with (t_Inflight t1). by destruct (t_Inflight t1).
Qed.

(** On two different objects the heap is updated at both. *)
Lemma UpdateBalances_at_distinct t s d h h' t' a b :
  s <> d -> h !! s = Some a -> h !! d = Some b -> UpdateBalances_at t s d h = (h', t', Ok tt) ->
  exists a' b', UpdateBalances t a b = (t', a', b', Ok tt) /\ h' = <[d := b']> (<[s := a']> h).
Proof.
  intros Hne Hs Hd. unfold UpdateBalances_at, UpdateBalances, deref. rewrite Hs. cbn [default from_option id].
  destruct (ApplyPrecisionChecked t) as [[n t1]|]; [|done]. cbv zeta. set (t2 := {| t1 with t_PreciseAmount := Some n |}).
  destruct (canProcessTransaction t2 a) as [a1 [[]|]]; [|done]. intros [= <- <-]. eexists _, _. split; [done|].
  apply map_eq. intros q. destruct (decide (q = d)) as [->|Hqd]; [|destruct (decide (q = s)) as [->|Hqs]].
  - rewrite lookup_insert_eq, lookup_alter_eq, lookup_alter_ne, lookup_alter_eq, lookup_alter_ne, lookup_insert_ne by done. by rewrite Hd.
  - rewrite lookup_insert_ne, lookup_insert_eq by done.
    by rewrite lookup_alter_ne, lookup_alter_eq, lookup_alter_ne, lookup_alter_eq, lookup_insert_eq by done.
  - by rewrite !lookup_insert_ne, !lookup_alter_ne, lookup_insert_ne by done.
Qed.

(** The six amounts are set after a posting. *)
Lemma UpdateBalances_amounts t a b t' a' b' : UpdateBalances t a b = (t', a', b', Ok tt) ->
  has_amounts a' = true /\ has_amounts b' = true.
Proof.
  unfold UpdateBalances. destruct (ApplyPrecisionChecked t) as [[n t1]|]; [|done]. cbv zeta.
  destruct (canProcessTransaction _ a) as [a1 [[]|]]; [|done]. intros [= <- <- <-]. cbn [t_Inflight].
  by destruct (t_Inflight t1).
Qed.
End Apply.

(** ** An insert does not see balances or the outbox *)

Definition reframe (B : gmap string Balance) (O : list LineageOutbox) (db : ledger_db) : ledger_db :=
  {| db with ld_balances := B; ld_outbox := O |}.
Definition map_ok {A B} (f : A -> B) (r : result A) : result B := match r with Ok a => Ok (f a) | Err e => Err e end.

Section Frame.
Variables (B : gmap string Balance) (O : list LineageOutbox).

Lemma claim_frame db r : claim_transaction_lifecycle (reframe B O db) r = map_ok (reframe B O) (claim_transaction_lifecycle db r).
Proof.
  unfold claim_transaction_lifecycle. change (find_txn (reframe B O db)) with (find_txn db).
  change (ld_claims (reframe B O db)) with (ld_claims db). change (ld_txns (reframe B O db)) with (ld_txns db).
  destruct (String.eqb (x_parent r) ""); [by destruct (negb _)|].
  destruct (find_txn db (x_parent r)) as [parent|]; [|by destruct (negb _)].
  change (consumed (reframe B O db) (x_id parent)) with (consumed db (x_id parent)).
  repeat (case_match; try done).
Qed.

Lemma ancestor_frame depth db id : bound_ancestor depth (reframe B O db) id = bound_ancestor depth db id.
Proof.
  revert id. induction depth as [|depth IH]; intros id; [done|]. cbn [bound_ancestor].
  change (ld_policy (reframe B O db)) with (ld_policy db). change (find_txn (reframe B O db)) with (find_txn db).
  destruct (binding_of_txn _ id); [done|]. destruct (find_txn db id); [|done]. by destruct (_ || _).
Qed.

Lemma enforce_frame db r : enforce_policy_posting (reframe B O db) r = enforce_policy_posting db r.
Proof.
  unfold enforce_policy_posting. change (ld_policy (reframe B O db)) with (ld_policy db).
  change (find_txn (reframe B O db)) with (find_txn db). by rewrite ancestor_frame.
Qed.

Lemma family_frame fuel db reference b fam : family fuel (reframe B O db) reference b fam = family fuel db reference b fam.
Proof.
  revert fam. induction fuel as [|fuel IH]; intros fam; [done|]. cbn [family].
  change (family_step (reframe B O db)) with (family_step db). by destruct (family_step _ _ _ _).
Qed.

Lemma release_frame db r : release_terminal_policy_reservation (reframe B O db) r =
  map_ok (reframe B O) (release_terminal_policy_reservation db r).
Proof.
  unfold release_terminal_policy_reservation. rewrite ancestor_frame.
  destruct (negb _); [done|]. destruct (bound_ancestor 16 db (x_id r)) as [[reference b]|]; [|done].
  assert (policy_releasable_capacity (reframe B O db) reference b = policy_releasable_capacity db reference b) as ->.
  { unfold policy_releasable_capacity. change (ld_txns (reframe B O db)) with (ld_txns db). by rewrite family_frame. }
  change (ld_policy (reframe B O db)) with (ld_policy db). by destruct (release_unused _ _ _ _).
Qed.

Lemma insert_frame db r : insert_transaction (reframe B O db) r = map_ok (reframe B O) (insert_transaction db r).
Proof.
  unfold insert_transaction. rewrite claim_frame. destruct (claim_transaction_lifecycle db r) as [db1|]; [|done].
  cbn [map_ok res_bind]. rewrite enforce_frame. destruct (enforce_policy_posting db1 r) as [r1|]; [|done]. cbn [res_bind].
  change (ld_txns (reframe B O db1)) with (ld_txns db1). destruct (existsb _ _); [done|]. destruct (existsb _ _); [done|].
  apply (release_frame {| db1 with ld_txns := ld_txns db1 ++ [r1] |}).
Qed.
End Frame.

(** ** One transaction *)

(** A stored row and the object it was read into and changed as: the object
    keeps what [scan_balance] gave but for the money. *)
Record tracks (row0 b row : Balance) : Prop := {
  tr_object : same_but_money (scan_balance row0) b;
  tr_row : upto_version (write_amounts b row0) row }.

Lemma tracks_scan row0 : tracks row0 (scan_balance row0) row0.
Proof. split; [by destruct row0|]. by destruct row0. Qed.

Lemma tracks_read row0 b row : tracks row0 b row -> scan_balance row = at_version (b_Version row) b.
Proof. intros [H1 H2]. rewrite H2, H1. by destruct row0. Qed.

Lemma tracks_write row0 b row e b' v : tracks row0 b row -> moves e b b' -> v = b_Version row ->
  tracks row0 b' (write_amounts (at_version v b') row).
Proof.
  intros [H1 H2] (_ & Hm & _) ->. unfold same_but_money in H1, Hm. split.
  - unfold same_but_money. rewrite Hm, H1. by destruct row0.
  - rewrite H2, Hm, H1. by destruct row0.
Qed.

Lemma updateBalance_ok db b row : has_amounts b = true -> ld_balances db !! b_BalanceID b = Some row ->
  b_Version row = b_Version b ->
  updateBalance db b = Ok ({| db with ld_balances := <[b_BalanceID b := write_amounts b row]> (ld_balances db) |},
                           {| b with b_Version := b_Version b + 1 |}).
Proof.
  unfold has_amounts, updateBalance. intros Ha Hr Hv. rewrite Hr. unfold write_amounts.
  destruct (b_Balance b), (b_CreditBalance b), (b_DebitBalance b), (b_InflightBalance b), (b_InflightCreditBalance b), (b_InflightDebitBalance b); try done.
  by rewrite Hv, Z.eqb_refl.
Qed.

(** Both writes, the row and the outbox entry of one transaction. *)
Lemma record_ok db t n s d rs rd db1 o O' :
  has_amounts s = true -> has_amounts d = true -> b_BalanceID s <> b_BalanceID d ->
  ld_balances db !! b_BalanceID s = Some rs -> b_Version rs = b_Version s ->
  ld_balances db !! b_BalanceID d = Some rd -> b_Version rd = b_Version d ->
  persistNumericColumns t = Ok (t_AmountString t, n) -> insert_transaction db (row_of t (t_AmountString t, n)) = Ok db1 ->
  match o with None => O' = ld_outbox db | Some o => exists db2, InsertLineageOutboxInTx db1 o = Ok db2 /\ O' = ld_outbox db2 end ->
  RecordTransactionWithBalancesAndOutbox db t s d o =
    Ok (reframe (<[b_BalanceID d := write_amounts d rd]> (<[b_BalanceID s := write_amounts s rs]> (ld_balances db))) O' db1, t).
Proof.
  intros Hs Hd Hne S1 S2 D1 D2 Hp Hi Ho. unfold RecordTransactionWithBalancesAndOutbox, RecordTransactionWithBalances.
  rewrite (updateBalance_ok db s rs Hs S1 S2). cbn [res_bind fst].
  rewrite (updateBalance_ok _ d rd Hd) by (done || (cbn; by rewrite lookup_insert_ne)). cbn [res_bind fst ld_balances].
  set (B := <[b_BalanceID d := write_amounts d rd]> _). unfold recordTransactionInTx. rewrite Hp.
  pose proof (insert_frame B (ld_outbox db) db (row_of t (t_AmountString t, n))) as Hf. rewrite Hi in Hf. cbn [map_ok] in Hf.
  unfold reframe in Hf at 1. cbn. rewrite Hf. cbn [res_bind fst].
  apply insert_inserted in Hi as [row Hi]. pose proof (ins_outbox _ _ _ _ Hi) as Eo.
  destruct o as [o|]; [|subst; by rewrite <- Eo].
  destruct Ho as (db2 & Ho & ->). unfold InsertLineageOutboxInTx in *. cbn [ld_outbox reframe]. rewrite Eo in Ho.
  destruct (existsb _ _); [done|]. by apply Ok_inj in Ho as <-.
Qed.

Section Sequence.
Context {Dops : DecimalOps} {Dlaws : DecimalLaws}.
Variable gen : string -> nat -> string.
Variable pre_hooks : Transaction -> result unit.
Variable acquire : list string -> result unit.
Variable now : Z.
Hypothesis locks_granted : forall keys, acquire keys = Ok tt.
#[local] Notation single := (recordTransactionSingle gen pre_hooks acquire false now).

(** A member of a batch between two different balances named by their ids. *)
Definition ordinary (t : Transaction) : Prop :=
  fst (canCoalesceQueuedOriginal t) = true /\ t_Source t <> t_Destination t /\
  HasPrefix (t_Source t) "@" = false /\ HasPrefix (t_Destination t) "@" = false.

Lemma ordinary_member t : ordinary t -> member t /\ policyMarked t = false.
Proof.
  intros (H & _). unfold canCoalesceQueuedOriginal in H. destruct (policyMarked t); [done|].
  split; [by apply member_conditions|done].
Qed.

(** The work of a posting does not depend on the status it starts from nor on
    the versions. *)
Lemma work_same t1 s d v w st :
  t_Status t1 = (if t_Inflight t1 then StatusInflight else StatusApplied) -> st = StatusQueued ->
  let x := buildTransactionExecutionWork (with_status st t1) (at_version v s) (at_version w d) in
  let y := buildTransactionExecutionWork t1 s d in
  x.2 = y.2 /\ w_transaction x.1 = w_transaction y.1 /\ w_outbox x.1 = w_outbox y.1 /\
  (x.2 = false -> w_sourceBalance x.1 = at_version v s /\ w_destinationBalance x.1 = at_version w d).
Proof.
  intros Hst ->. cbv zeta. unfold buildTransactionExecutionWork.
  assert (updateTransactionDetails (with_status StatusQueued t1) (at_version v s) (at_version w d) = updateTransactionDetails t1 s d) as ->.
  { unfold updateTransactionDetails, with_status. cbn. rewrite Hst. by destruct (t_Inflight t1). }
  by destruct (match t_PreciseAmount _ with Some _ => _ | None => _ end).
Qed.

(** What preparing an ordinary transaction in memory did. *)
Lemma post_at_distinct t h p h' a b :
  ordinary t -> (forall q b, h !! q = Some b -> b_BalanceID b = q) ->
  h !! t_Source t = Some a -> h !! t_Destination t = Some b -> post_at t h = Ok (p, h') ->
  exists t1 a' b', UpdateBalances t a b = (with_status StatusQueued t1, a', b', Ok tt) /\
    t_Status t1 = (if t_Inflight t1 then StatusInflight else StatusApplied) /\
    h' = <[t_Destination t := b']> (<[t_Source t := a']> h) /\
    let w := buildTransactionExecutionWork t1 a' b' in w.2 = false /\ p = (w_transaction w.1, w_outbox w.1).
Proof.
  intros Ho Hid Ha Hb. destruct (ordinary_member t Ho) as [((Hst & Hqa) & _) _]. destruct Ho as (_ & Hne & _).
  unfold post_at, deref. rewrite Ha, Hb. cbn [default from_option id].
  assert (updateTransactionDetails t a b = with_status (if t_Inflight t then StatusInflight else StatusApplied) t) as ->.
  { unfold updateTransactionDetails. rewrite (Hid _ _ Ha), (Hid _ _ Hb), Hst. by destruct t. }
  set (f := with_status _ t). unfold processBalances, applyTransaction_at.
  assert (t_Status f = if t_Inflight t then StatusInflight else StatusApplied) as Hf by done.
  assert (String.eqb (t_Status f) StatusCommit || String.eqb (t_Status f) StatusVoid = false) as ->
    by (rewrite Hf; by destruct (t_Inflight t)).
  destruct (UpdateBalances_at f (t_Source t) (t_Destination t) h) as [[h1 t1] [[]|]] eqn:HU; [|done].
  destruct (UpdateBalances_at_distinct _ _ _ _ _ _ _ _ Hne Ha Hb HU) as (a' & b' & Hu & ->).
  destruct (UpdateBalances_at_moves _ _ _ _ _ _ _ Ha HU) as (n & _ & _ & Hsame & _).
  rewrite lookup_insert_eq, lookup_insert_ne, lookup_insert_eq by done. cbn [default from_option id].
  destruct (buildTransactionExecutionWork t1 a' b') as [w skip] eqn:Ew. destruct skip; [done|].
  intros H. apply Ok_inj in H as [= <- <-]. exists t1, a', b'. split; [|split; [|split; [done|by rewrite Ew]]].
  - apply (UpdateBalances_status StatusQueued) in Hu. rewrite <- Hu. f_equal. subst f. rewrite <- Hst. by destruct t.
  - assert (t_Status t1 = t_Status f /\ t_Inflight t1 = t_Inflight f) as [-> ->] by (by rewrite Hsame). exact Hf.
Qed.

(** The objects of [h] were read from the rows [rows0]; [d] holds them as they
    are now. *)
Definition tracked (rows0 : gmap string Balance) (h : gmap string Balance) (d : gmap string Balance) : Prop :=
  forall q b, h !! q = Some b -> b_BalanceID b = q /\
    exists row0 row, rows0 !! q = Some row0 /\ d !! q = Some row /\ tracks row0 b row.

Lemma single_step rows0 t h p h' d d1 O' :
  ordinary t -> pre_hooks t = Ok tt -> tracked rows0 h (ld_balances d) ->
  is_Some (h !! t_Source t) -> is_Some (h !! t_Destination t) -> post_at t h = Ok (p, h') ->
  is_ok (persistNumericColumns p.1) = true ->
  insert_transaction d (planned p.1) = Ok d1 ->
  match p.2 with None => O' = ld_outbox d | Some o => exists db2, InsertLineageOutboxInTx d1 o = Ok db2 /\ O' = ld_outbox db2 end ->
  exists B', single t true d = (reframe B' O' d1, Ok p.1) /\ tracked rows0 h' B' /\
    (forall q, q <> t_Source t -> q <> t_Destination t -> B' !! q = ld_balances d !! q).
Proof.
  intros Ho Hh Htr [a Ha] [b Hb] Hpost Hnum Hins Hout.
  pose proof (fun q b H => proj1 (Htr q b H)) as Hid. destruct (ordinary_member t Ho) as [[[Hst Hqa] _] Hpm].
  destruct (post_at_distinct t h p h' a b Ho Hid Ha Hb Hpost) as (t1 & a' & b' & HU & Hs1 & -> & Hskip & ->).
  destruct (post_at_moves t h _ _ (conj Hst Hqa) Hid ltac:(eauto) ltac:(eauto) Hpost) as [[n Hf] Hm].
  destruct (Htr _ _ Ha) as (Ia & ra0 & ra & A1 & A2 & A3), (Htr _ _ Hb) as (Ib & rb0 & rb & B1 & B2 & B3).
  destruct Ho as (_ & Hne & P1 & P2). set (w := buildTransactionExecutionWork t1 a' b') in *. cbn [fst snd] in *.
  assert (moves (effect_on (t_Source t) (planned (w_transaction w.1))) a a') as Ma.
  { specialize (Hm (t_Source t)). rewrite Ha, lookup_insert_ne, lookup_insert_eq in Hm by done. by inversion Hm. }
  assert (moves (effect_on (t_Destination t) (planned (w_transaction w.1))) b b') as Mb.
  { specialize (Hm (t_Destination t)). rewrite Hb, lookup_insert_eq in Hm. by inversion Hm. }
  pose proof (UpdateBalances_version (b_Version ra) (b_Version rb) _ _ _ _ _ _ HU) as HU'.
  rewrite <- (tracks_read _ _ _ A3), <- (tracks_read _ _ _ B3) in HU'.
  destruct (work_same t1 a' b' (b_Version ra) (b_Version rb) _ Hs1 eq_refl) as (W1 & W2 & W3 & W4).
  specialize (W4 ltac:(by rewrite W1)). fold w in W1, W2, W3.
  destruct (UpdateBalances_amounts _ _ _ _ _ _ HU) as [Am1 Am2].
  destruct (same_but_money_id _ _ (proj1 (proj2 Ma))) as [Ia' _]. destruct (same_but_money_id _ _ (proj1 (proj2 Mb))) as [Ib' _].
  rewrite Ia in Ia'. rewrite Ib in Ib'.
  eexists. split; [|split].
  - unfold recordTransactionSingle, resolveBalanceIDs, resolve_id. rewrite P1, P2. unfold bind, with_context, lift, ret.
    rewrite locks_granted. cbn [fst snd].
    assert ({| t with t_Source := t_Source t; t_Destination := t_Destination t |} = t) as Et by (by destruct t). rewrite Et.
    unfold record_locked, bind, lift. rewrite Hh. unfold validateAndPrepareTransaction, validateTxn, bind, with_context, reads, ret.
    assert (TransactionExistsByRef d (t_Reference t) = false) as ->.
    { destruct (TransactionExistsByRef d (t_Reference t)) eqn:E; [|done]. exfalso. apply existsb_exists in E as (r & Hr & E).
      apply insert_inserted in Hins as [row Hi]. apply (ins_fresh_ref _ _ _ _ Hi r); [by apply list_elem_of_In|].
      cbn. rewrite (pf_reference _ _ _ Hf). by apply String.eqb_eq. }
    unfold getSourceAndDestination, get_balance, bind, reads, ret. rewrite P1, P2. unfold GetBalanceByIDLite. rewrite A2, B2. cbn [fst snd].
    assert (b_BalanceID (scan_balance ra) = t_Source t /\ b_BalanceID (scan_balance rb) = t_Destination t) as [-> ->]
      by (rewrite (tracks_read _ _ _ A3), (tracks_read _ _ _ B3); done). rewrite Et.
    assert (isZeroPreciseAmount t = false) as ->.
    { pose proof (UpdateBalances_spec t a b) as S. rewrite HU in S. destruct S as (m & Hm0 & _ & _ & Hp & _).
      unfold isZeroPreciseAmount. destruct (t_PreciseAmount t) as [p|]; [|done]. rewrite (Hp p eq_refl) in Hm0. apply Z.leb_gt. lia. }
    unfold verifyPolicyExecution, ret, with_context, lift. rewrite Hpm. cbn [negb]. unfold applyTransactionToBalances. rewrite Hst.
    change (String.eqb StatusQueued StatusCommit) with false. change (String.eqb StatusQueued StatusVoid) with false. cbn [orb res_bind].
    rewrite HU'. cbn [fst snd]. rewrite W1, Hskip. unfold persistSingleTransactionExecutionWork, with_context, atomically.
    rewrite W2, W3, (proj1 W4), (proj2 W4).
    rewrite (record_ok d (w_transaction w.1) n (at_version (b_Version ra) a') (at_version (b_Version rb) b') ra rb d1 (w_outbox w.1) O'); try done.
    + cbn. by rewrite Ia', Ib'.
    + cbn. by rewrite Ia'.
    + cbn. by rewrite Ib'.
    + unfold persistNumericColumns in *. rewrite (pf_amount _ _ _ Hf) in *. by destruct (String.eqb _ "").
    + unfold planned in Hins. by rewrite (pf_amount _ _ _ Hf) in Hins.
  - intros q bq. cbn [b_BalanceID at_version]. rewrite Ia', Ib'. rewrite !lookup_insert_Some.
    intros [[<- <-]|[Hq1 [[<- <-]|[Hq2 Hq]]]].
    + split; [done|]. exists rb0, (write_amounts (at_version (b_Version rb) b') rb). rewrite lookup_insert_eq. split_and!; try done. by eapply tracks_write.
    + split; [done|]. exists ra0, (write_amounts (at_version (b_Version ra) a') ra). rewrite lookup_insert_ne, lookup_insert_eq by done. split_and!; try done. by eapply tracks_write.
    + rewrite !lookup_insert_ne by done. by apply Htr.
  - intros q Hq1 Hq2. cbn [b_BalanceID at_version]. rewrite Ia', Ib'. by rewrite !lookup_insert_ne.
Qed.

(** The executor on each transaction in turn. *)
Fixpoint record_each (ts : list Transaction) : M (list Transaction) :=
  match ts with
  | [] => ret []
  | t :: rest => let! r := single t true in let! rs := record_each rest in ret (r :: rs)
  end.

Lemma fold_insert_frame B O rows db :
  fold_res insert_transaction rows (reframe B O db) = map_ok (reframe B O) (fold_res insert_transaction rows db).
Proof.
  revert db. induction rows as [|r rows IH]; intros db; [done|]. cbn [fold_res]. rewrite insert_frame.
  destruct (insert_transaction db r) as [db1|]; [|done]. cbn [map_ok res_bind]. apply IH.
Qed.

(** The outbox insert looks at the outbox only. *)
Lemma fold_outbox_frame l db db0 db' : ld_outbox db0 = ld_outbox db -> fold_res InsertLineageOutboxInTx l db = Ok db' ->
  exists db0', fold_res InsertLineageOutboxInTx l db0 = Ok db0' /\ db0' = {| db0 with ld_outbox := ld_outbox db' |}.
Proof.
  revert db db0. induction l as [|o l IH]; intros db db0 E H; cbn [fold_res] in *.
  { apply Ok_inj in H as <-. exists db0. split; [done|]. rewrite <- E. by destruct db0. }
  apply res_bind_Ok in H as (db1 & H1 & H). unfold InsertLineageOutboxInTx in H1. unfold InsertLineageOutboxInTx at 1. rewrite E.
  destruct (existsb _ _); [done|]. apply Ok_inj in H1 as <-. cbn [res_bind].
  pose proof (fun x E => IH _ x E H) as IH'. cbn [ld_outbox] in IH'.
  match goal with |- context [fold_res _ l ?x] => destruct (IH' x eq_refl) as (db2 & H2 & ->) end.
  eexists. split; [exact H2|done].
Qed.

Lemma sequence_ok rows0 ts : forall h ps h' d e' o',
  Forall ordinary ts -> Forall (fun t => pre_hooks t = Ok tt) ts -> tracked rows0 h (ld_balances d) ->
  Forall (fun t => is_Some (h !! t_Source t) /\ is_Some (h !! t_Destination t)) ts -> post_all ts h = Ok (ps, h') ->
  Forall (fun t => is_ok (persistNumericColumns t) = true) (fst <$> ps) ->
  fold_res insert_transaction (planned <$> (fst <$> ps)) d = Ok e' -> fold_res InsertLineageOutboxInTx (omap snd ps) d = Ok o' ->
  exists B', record_each ts d = (reframe B' (ld_outbox o') e', Ok (fst <$> ps)) /\ tracked rows0 h' B' /\
    (forall q, Forall (fun t => q <> t_Source t /\ q <> t_Destination t) ts -> B' !! q = ld_balances d !! q).
Proof.
  induction ts as [|t ts IH]; intros h ps h' d e' o' Ho Hh Htr Hin Hpost Hnum Hins Hout; cbn [post_all] in Hpost.
  { apply Ok_inj in Hpost as [= <- <-]. cbn in Hins, Hout. apply Ok_inj in Hins as <-, Hout as <-.
    exists (ld_balances d). cbn. split; [by destruct d|]. done. }
  apply Forall_cons in Ho as [Ho Hos], Hh as [Hh Hhs], Hin as [[Hs Hd] Hins'].
  apply res_bind_Ok in Hpost as ([p h1] & Hp & Hpost). apply res_bind_Ok in Hpost as ([qs h2] & Hq & Hpost).
  apply Ok_inj in Hpost as [= <- <-]. cbn [fst snd] in *. rewrite !fmap_cons in Hins. rewrite fmap_cons in Hnum. apply Forall_cons in Hnum as [Hn Hns].
  cbn [fold_res] in Hins. apply res_bind_Ok in Hins as (d1 & Hi & Hins).
  pose proof Hi as [row Hrow]%insert_inserted. pose proof (ins_outbox _ _ _ _ Hrow) as Eo.
  assert (exists o1, match p.2 with None => ld_outbox o1 = ld_outbox d | Some o => exists db2, InsertLineageOutboxInTx d1 o = Ok db2 /\ ld_outbox o1 = ld_outbox db2 end
    /\ fold_res InsertLineageOutboxInTx (omap snd qs) o1 = Ok o') as (o1 & Ho1 & Hout').
  { cbn in Hout. destruct p.2 as [o|]; [|by exists d]. cbn [fold_res] in Hout. apply res_bind_Ok in Hout as (o1 & H1 & H2).
    exists o1. split; [|done]. unfold InsertLineageOutboxInTx in H1 |- *. rewrite Eo. destruct (existsb _ _); [done|]. apply Ok_inj in H1 as <-. by eexists. }
  destruct (single_step rows0 t h p h1 d d1 (ld_outbox o1) Ho Hh Htr Hs Hd Hp Hn Hi Ho1) as (B1 & H1 & Htr1 & Hoth1).
  destruct (post_at_moves t h p h1 (proj1 (proj1 (ordinary_member t Ho))) ltac:(by intros ?? ?%Htr; intuition) Hs Hd Hp) as [_ Hm].
  destruct (fold_outbox_frame (omap snd qs) o1 (reframe B1 (ld_outbox o1) d1) o' eq_refl Hout') as (o2 & Ho2 & ->).
  assert (Forall (fun t => is_Some (h1 !! t_Source t) /\ is_Some (h1 !! t_Destination t)) ts) as Hin1.
  { eapply Forall_impl; [exact Hins'|]. intros t' [F1 F2]. by rewrite <- !(heap_moves_dom _ _ _ _ Hm). }
  assert (fold_res insert_transaction (planned <$> (fst <$> qs)) (reframe B1 (ld_outbox o1) d1) = Ok (reframe B1 (ld_outbox o1) e')) as Hi1.
  { by rewrite fold_insert_frame, Hins. }
  destruct (IH h1 qs h2 (reframe B1 (ld_outbox o1) d1) _ _ Hos Hhs Htr1 Hin1 Hq Hns Hi1 Ho2) as (B' & H2 & Htr2 & Hoth2).
  exists B'. split; [|split; [done|]].
  - cbn [record_each]. unfold bind, ret. rewrite H1, H2. done.
  - intros q [[Hq1 Hq2] Hqs]%Forall_cons. rewrite Hoth2 by done. by apply Hoth1.
Qed.

(** ** A batch *)

Variables (list_hooks : result unit) (DisableBatchReferenceCheck : bool).

(** What a recorded batch went through. *)
Lemma persisted_inv leader siblings db db' lead :
  persistQueuedTransactionBatch pre_hooks acquire false list_hooks DisableBatchReferenceCheck leader siblings db = (db', Ok (lead, Ok tt)) ->
  let ids := collectQueuedCoalescingBalanceIDs (leader :: siblings) in
  let h := GetBalancesByIDsLite db ids in
  (forall q, q ∈ ids -> is_Some (h !! q)) /\ Forall (fun t => pre_hooks t = Ok tt) (leader :: siblings) /\
  exists ps h' r, post_all (leader :: siblings) h = Ok (ps, h') /\
    RecordTransactionsWithBalanceSetAndOutboxes db (fst <$> ps) (deref h' <$> ids) (omap snd ps) = Ok (db', r).
Proof.
  unfold persistQueuedTransactionBatch, persistQueuedTransactionBatchLocked, bind, lift, with_context, reads, try, ret, atomically.
  destruct (validateQueuedBatchCurrencies _); [|done]. rewrite locks_granted. cbv zeta.
  set (ids := collectQueuedCoalescingBalanceIDs (leader :: siblings)). unfold loadBalancesForQueuedBatch. cbn [res_bind].
  set (h := GetBalancesByIDsLite db ids). destruct (List.find _ ids) eqn:Ef; [done|]. destruct list_hooks; [|done].
  set (sets := queuedBatchReferenceSets _ _ _).
  destruct (prepare_batch_spec pre_hooks (leader :: siblings) h sets ∅ db) as (q & Hq & _ & Hw). rewrite Hq.
  destruct q.2 as [[ps h']|] eqn:Eq; [|done]. destruct (Hw _ eq_refl) as [Hp Hh].
  destruct (RecordTransactionsWithBalanceSetAndOutboxes _ _ _ _) as [[db1 r]|] eqn:Er; [|done].
  intros [= -> _]. split; [|split; [done|by exists ps, h', r]].
  intros q0 Hq0%list_elem_of_In. pose proof (List.find_none _ _ Ef q0 Hq0) as E. cbn beta in E.
  destruct (bool_decide _) eqn:Eb; [by apply bool_decide_eq_true in Eb|done].
Qed.

End Sequence.

Module BatchWitness.
Import LifecycleWitness RefineWitness FrontDoorWitness WorkerWitness.
#[local] Existing Instance DecimalInstance.dnum_ops.

(** The batch that the worker builds for the first order. *)
Definition built : ledger_db * result (list Transaction) := buildQueuedCoalescingBatch to_float gen job 100 (fst queued2).
Definition sibling : Transaction := match snd built with Ok (_ :: s :: _) => s | _ => zero_transaction end.
#[local] Notation persisted := (persistQueuedTransactionBatch ok_hooks ok_locks false (Ok tt) false job [sibling] (fst built)).

Definition lead : Transaction := match snd persisted with Ok (l, _) => l | Err _ => zero_transaction end.

End BatchWitness.
