(* ===== verification/DryRun.v ===== *)
(** * Dry runs

    [internal/core/transaction_dryrun.go], [transaction_dryrun_inflight.go] and
    [transaction_dryrun_bulk.go] with the projections of
    [model/transaction_preview.go]: what a transaction, a split, a refund, a
    commit or void, or a bulk request would do to its balances, computed on
    copies.  The balances of a projection are objects that several legs may
    share, so they are kept in a heap as in [Coalesce]; in a set of balances the
    key of an object is the identifier it was asked for under.  [DryRunFacts]
    compares the projections with the executor. *)
From stdpp Require Import base option list strings gmap.
From Stdlib Require Import ZArith Lia.
From S2P Require Import Prelude GoFloat Model GoTime Decimal Amount Balance Distribution Policy PolicyStore Store Engine Inflight Coalesce Queue Worker.
Close Scope Q_scope.
Open Scope Z_scope.
Open Scope engine_scope.

(** ** Projections *)

Definition PreviewRoleSource : string := "source".
Definition PreviewRoleDestination : string := "destination".

Record PreviewRejection := { rj_Code : string; rj_Reason : string; rj_Message : string }.

Record BalanceProjection := {
  bp_BalanceID : string; bp_Role : string; bp_Currency : string; bp_Virtual : bool;
  bp_CurrentBalance : string; bp_CurrentAvailable : string; bp_CurrentCreditBalance : string;
  bp_CurrentDebitBalance : string; bp_CurrentInflightDebitBalance : string; bp_CurrentInflightCreditBalance : string;
  bp_ResultingBalance : string; bp_ResultingAvailable : string; bp_ResultingCreditBalance : string;
  bp_ResultingDebitBalance : string; bp_ResultingInflightDebitBalance : string;
  bp_ResultingInflightCreditBalance : string }.

Record LegProjection := { lg_Identifier : string; lg_Role : string; lg_PreciseAmount : string; lg_Amount : float64 }.

Record TransactionPreview := {
  pv_DryRun : bool; pv_WouldApply : bool; pv_Rejection : option PreviewRejection; pv_Operation : string;
  pv_Status : string; pv_Reference : string; pv_Currency : string; pv_Amount : float64;
  pv_PreciseAmount : string; pv_Precision : float64; pv_Balances : list BalanceProjection;
  pv_Legs : list LegProjection; pv_Notes : list string }.

Record BulkTransactionPreview := {
  bv_DryRun : bool; bv_WouldApply : bool; bv_Cumulative : bool; bv_Atomic : bool;
  bv_Results : list TransactionPreview; bv_Balances : list BalanceProjection; bv_Notes : list string }.

Definition empty_preview : TransactionPreview :=
  {| pv_DryRun := false; pv_WouldApply := false; pv_Rejection := None; pv_Operation := ""; pv_Status := "";
     pv_Reference := ""; pv_Currency := ""; pv_Amount := fzero; pv_PreciseAmount := ""; pv_Precision := fzero;
     pv_Balances := []; pv_Legs := []; pv_Notes := [] |}.

(** [AddNote] and [Finalize] of a preview, and [Finalize] of a bulk one. *)
Definition AddNote (note : string) (p : TransactionPreview) : TransactionPreview :=
  {| p with pv_Notes := pv_Notes p ++ [note] |}.
Definition Finalize (p : TransactionPreview) : TransactionPreview :=
  if pv_WouldApply p then p else {| p with pv_Status := "" |}.
Definition Finalize_bulk (p : BulkTransactionPreview) : BulkTransactionPreview :=
  {| p with bv_Results := Finalize <$> bv_Results p |}.

(** [newPreviewFor]. *)
Definition newPreviewFor (t : Transaction) : TransactionPreview :=
  {| empty_preview with pv_DryRun := true; pv_Status := t_Status t; pv_Reference := t_Reference t;
     pv_Currency := t_Currency t; pv_Precision := t_Precision t |}.

(** [categorizeRejectionReason]. *)
Definition categorizeRejectionReason (reason : string) : string :=
  let lower := ToLower reason in
  if Contains lower "insufficient funds" then "insufficient_funds"
  else if Contains lower "overdraft limit" then "overdraft_limit"
  else if IsLockContentionError (errors_New reason) then "lock_contention"
  else if Contains lower "exceeded max" then "max_retries"
  else "other".

(** [previewRejection]. *)
Definition previewRejection (e : go_error) : PreviewRejection :=
  {| rj_Code := ""; rj_Reason := categorizeRejectionReason (err_msg e); rj_Message := err_msg e |}.

(** [preciseString], [availableBalance] and [balanceProjection]. *)
Definition preciseString (v : option Z) : string := match v with Some n => itoa n | None => "0" end.
Definition availableBalance (b : Balance) : option Z :=
  let available := default 0 (b_Balance b) - default 0 (b_InflightDebitBalance b) in
  Some (match b_QueuedDebitBalance b with Some q => available - q | None => available end).
Definition balanceProjection (role : string) (before after : Balance) (virtual : bool) : BalanceProjection :=
  let before := InitializeBalanceFields before in
  let after := InitializeBalanceFields after in
  {| bp_BalanceID := b_BalanceID before; bp_Role := role; bp_Currency := b_Currency before; bp_Virtual := virtual;
     bp_CurrentBalance := preciseString (b_Balance before);
     bp_CurrentAvailable := preciseString (availableBalance before);
     bp_CurrentCreditBalance := preciseString (b_CreditBalance before);
     bp_CurrentDebitBalance := preciseString (b_DebitBalance before);
     bp_CurrentInflightDebitBalance := preciseString (b_InflightDebitBalance before);
     bp_CurrentInflightCreditBalance := preciseString (b_InflightCreditBalance before);
     bp_ResultingBalance := preciseString (b_Balance after);
     bp_ResultingAvailable := preciseString (availableBalance after);
     bp_ResultingCreditBalance := preciseString (b_CreditBalance after);
     bp_ResultingDebitBalance := preciseString (b_DebitBalance after);
     bp_ResultingInflightDebitBalance := preciseString (b_InflightDebitBalance after);
     bp_ResultingInflightCreditBalance := preciseString (b_InflightCreditBalance after) |}.

(** [normalizePreviewStatus]. *)
Definition normalizePreviewStatus (t : Transaction) : Transaction :=
  if String.eqb (t_Status t) StatusCommit || String.eqb (t_Status t) StatusVoid then t
  else if t_Inflight t then {| t with t_Status := StatusInflight |}
  else {| t with t_Status := StatusApplied |}.

(** [transaction.PreciseAmount = model.ApplyPrecision(transaction)] after it. *)
Definition normalize `{!DecimalOps} (t : Transaction) : Transaction :=
  let '(amount, t) := ApplyPrecision (normalizePreviewStatus t) in {| t with t_PreciseAmount := Some amount |}.

(** ** Sets of balances *)

(** [previewBalance] without its object, and [previewBalanceSet]: the objects by
    identifier, and the entries in order. *)
Record previewBalance := { pb_identifier : string; pb_before : Balance; pb_virtual : bool; pb_role : string }.
Record previewBalanceSet := { ps_objects : heap; ps_order : list previewBalance }.
Definition newPreviewBalanceSet : previewBalanceSet := {| ps_objects := ∅; ps_order := [] |}.

(** [projections]. *)
Definition projections (s : previewBalanceSet) : list BalanceProjection :=
  (fun e => balanceProjection (pb_role e) (pb_before e) (deref (ps_objects s) (pb_identifier e)) (pb_virtual e))
    <$> ps_order s.

(** [sameBalanceErr]. *)
Definition sameBalanceErr (source destination : Balance) : option go_error :=
  if negb (String.eqb (b_BalanceID source) (b_BalanceID destination)) then None
  else Some (errors_New ("Optimistic locking failure: balance with ID '" +:+ b_BalanceID source
               +:+ "' may have been updated or deleted by another transaction")).

Definition reject (e : go_error) (p : TransactionPreview) : TransactionPreview :=
  {| p with pv_WouldApply := false; pv_Rejection := Some (previewRejection e) |}.
(** A rejection that keeps an earlier one. *)
Definition reject_first (e : go_error) (p : TransactionPreview) : TransactionPreview :=
  {| p with pv_WouldApply := false;
     pv_Rejection := match pv_Rejection p with Some r => Some r | None => Some (previewRejection e) end |}.
Definition reference_rejection (t : Transaction) : go_error :=
  errors_New ("transaction validation failed: reference " +:+ t_Reference t +:+ " has already been used").
Definition add_leg (role identifier : string) (leg : Transaction) (p : TransactionPreview) : TransactionPreview :=
  {| p with pv_Legs := pv_Legs p ++ [{| lg_Identifier := identifier; lg_Role := role;
       lg_PreciseAmount := preciseString (t_PreciseAmount leg); lg_Amount := t_Amount leg |}] |}.

Section DryRun.
Context {Dops : DecimalOps}.
Variable numeric_float : string -> float64.
Variable gen : string -> nat -> string.
Variable acquire : list string -> result unit.
Variable EnableQueuedChecks : bool.
Variable GetTransactionFromQueue : string -> result (option Transaction).
Variable BatchSize : Z.

(** [fetchBalanceForPreview]. *)
Definition fetchBalanceForPreview (id : string) : M Balance :=
  if EnableQueuedChecks then reads (fun db => GetBalanceByID db id true)
  else reads (fun db => GetBalanceByIDLite db id).

(** [resolveBalanceForPreview]: the balance, and whether it was invented. *)
Definition resolveBalanceForPreview (identifier currency role : string) : M (Balance * bool) :=
  if String.eqb identifier "" then fail (errors_New (role +:+ " is required"))
  else if HasPrefix identifier "@" then
    let! found := try (reads (fun db => GetBalanceByIndicator db identifier currency)) in
    ret (match found with
         | Err _ => ({| zero_balance with b_BalanceID := identifier; b_Indicator := identifier;
                        b_Currency := currency; b_LedgerID := GeneralLedgerID |}, true)
         | Ok b => (b, false)
         end)
  else let! b := fetchBalanceForPreview identifier in ret (b, false).

(** [resolveBalancesForPreview]. *)
Definition resolveBalancesForPreview (t : Transaction) : M ((Balance * bool) * (Balance * bool)) :=
  let! source := resolveBalanceForPreview (t_Source t) (t_Currency t) PreviewRoleSource in
  let! destination := resolveBalanceForPreview (t_Destination t) (t_Currency t) PreviewRoleDestination in
  ret (source, destination).

(** [previewBalanceSet.resolve] and [resolvePair]: the objects are found under
    the identifiers afterwards. *)
Definition resolve (s : previewBalanceSet) (identifier currency role : string) : M previewBalanceSet :=
  match ps_objects s !! identifier with
  | Some _ => ret s
  | None =>
      let! r := resolveBalanceForPreview identifier currency role in
      ret {| ps_objects := <[identifier := r.1]> (ps_objects s);
             ps_order := ps_order s ++ [{| pb_identifier := identifier; pb_before := r.1; pb_virtual := r.2;
                                           pb_role := role |}] |}
  end.
Definition resolvePair (s : previewBalanceSet) (t : Transaction) : M previewBalanceSet :=
  let! s := resolve s (t_Source t) (t_Currency t) PreviewRoleSource in
  resolve s (t_Destination t) (t_Currency t) PreviewRoleDestination.

(** One leg on a set of balances: [sameBalanceErr], then [processBalances]. *)
Definition project_leg (s : previewBalanceSet) (t : Transaction) : previewBalanceSet * Transaction * result unit :=
  match sameBalanceErr (deref (ps_objects s) (t_Source t)) (deref (ps_objects s) (t_Destination t)) with
  | Some e => (s, t, Err e)
  | None => let '(h, t, r) := processBalances t (t_Source t) (t_Destination t) (ps_objects s) in
            ({| s with ps_objects := h |}, t, r)
  end.

(** ** One transaction *)

(** [notePreviewCaveats]. *)
Definition note_mismatch (t : Transaction) (role : string) (b : Balance * bool) (p : TransactionPreview)
    : TransactionPreview :=
  if b.2 || String.eqb (b_Currency b.1) "" || String.eqb (t_Currency t) "" then p
  else if String.eqb (b_Currency b.1) (t_Currency t) then p
  else AddNote ("currency mismatch: transaction is " +:+ t_Currency t +:+ " but " +:+ role +:+ " balance "
         +:+ b_BalanceID b.1 +:+ " is " +:+ b_Currency b.1 +:+ "; the ledger applies this as raw minor units") p.
Definition notePreviewCaveats (p : TransactionPreview) (t : Transaction) (source destination : Balance * bool)
    : M TransactionPreview :=
  let p := match sameBalanceErr source.1 destination.1 with Some e => reject e p | None => p end in
  let p := if negb (IsZero (t_ScheduledFor t))
           then AddNote "scheduled_for is ignored in a dry run; the projection shows the effect as if applied now" p
           else p in
  let p := note_mismatch t PreviewRoleDestination destination (note_mismatch t PreviewRoleSource source p) in
  if String.eqb (t_Reference t) "" then ret p
  else
    let! exists_ := reads (fun db => Ok (TransactionExistsByRef db (t_Reference t))) in
    ret (if exists_ then reject (reference_rejection t) p else p).

(** The rest of [previewSingleTransaction]: the arithmetic, and the figures after
    it, or those before on a rejection. *)
Definition project_single (p : TransactionPreview) (t : Transaction) (source destination : Balance * bool)
    : TransactionPreview :=
  let objects := <[PreviewRoleDestination := destination.1]> {[PreviewRoleSource := source.1]} in
  let '(objects, t, r) := processBalances t PreviewRoleSource PreviewRoleDestination objects in
  let p := match r with
           | Err e => reject e p
           | Ok _ => match pv_Rejection p with None => {| p with pv_WouldApply := true |} | Some _ => p end
           end in
  let after role before := if pv_WouldApply p then deref objects role else before in
  Finalize {| p with
    pv_PreciseAmount := preciseString (t_PreciseAmount t); pv_Amount := t_Amount t;
    pv_Balances := [balanceProjection PreviewRoleSource source.1 (after PreviewRoleSource source.1) source.2;
                    balanceProjection PreviewRoleDestination destination.1
                      (after PreviewRoleDestination destination.1) destination.2] |}.

(** [previewSingleTransaction]: the two sides are two objects, whatever they are
    called. *)
Definition previewSingleTransaction (t : Transaction) : M TransactionPreview :=
  let! sd := resolveBalancesForPreview t in
  let! _ := with_context "failed to acquire lock"
              (lift (acquire [b_BalanceID sd.1.1; b_BalanceID sd.2.1])) in
  let! p := notePreviewCaveats (newPreviewFor t) t sd.1 sd.2 in
  ret (project_single p t sd.1 sd.2).

(** ** Splits *)

Definition is_split (t : Transaction) : bool := (0 <? length (t_Sources t))%nat || (0 <? length (t_Destinations t))%nat.
(** The entry of a leg of the split [t]. *)
Definition note_split_leg (t leg : Transaction) (p : TransactionPreview) : TransactionPreview :=
  if (0 <? length (t_Sources t))%nat then add_leg PreviewRoleSource (t_Source leg) leg p
  else add_leg PreviewRoleDestination (t_Destination leg) leg p.

(** The loop of [previewSplitTransaction] over the legs. *)
Fixpoint project_split (t : Transaction) (shared : previewBalanceSet) (p : TransactionPreview)
    (legs : list Transaction) : M (TransactionPreview * previewBalanceSet) :=
  let cumulative := t_SkipQueue t in
  match legs with
  | [] => ret (p, shared)
  | leg :: rest =>
      let leg := normalize leg in
      let! set := resolvePair (if cumulative then shared else newPreviewBalanceSet) leg in
      let '(set, leg, r) := project_leg set leg in
      let p := match r with Err e => reject_first e p | Ok _ => note_split_leg t leg p end in
      if cumulative then
        match r with
        | Err _ => ret (p, set)
        | Ok _ => project_split t set p rest
        end
      else project_split t shared {| p with pv_Balances := pv_Balances p ++ projections set |} rest
  end.

(** [previewSplitTransaction]. *)
Definition previewSplitTransaction (t : Transaction) : M TransactionPreview :=
  let! split := with_context "failed to split transaction" (SplitTransactionPrecise gen t) in
  let t := split.1 in
  let p := newPreviewFor t in
  let p := {| p with pv_WouldApply := true; pv_PreciseAmount := preciseString (t_PreciseAmount t);
              pv_Amount := t_Amount t |} in
  let p := if t_SkipQueue t then p
           else AddNote "skip_queue is false: legs are queued for independent async processing with no ordering guarantee, so each is projected on its own rather than cumulatively" p in
  let! r := project_split t newPreviewBalanceSet p split.2 in
  let p := r.1 in
  ret (Finalize (if t_SkipQueue t then {| p with pv_Balances := projections r.2 |} else p)).

(** [PreviewTransaction]. *)
Definition PreviewTransaction (t : Transaction) : M TransactionPreview :=
  let t := normalize t in
  if is_split t then previewSplitTransaction t
  else let! p := previewSingleTransaction t in ret (Finalize p).

(** ** Refunds *)

(** [refundableLegsForPreview]: the pages from [offset]. *)
Fixpoint refundable_from (fuel : nat) (db : ledger_db) (id : string) (offset : Z) : option (list Transaction) :=
  match fuel with
  | O => None
  | S fuel' =>
      let batch := GetRefundableTransactionsByParentID numeric_float db id (batch_size BatchSize) offset in
      if Z.of_nat (length batch) <? batch_size BatchSize then Some batch
      else legs ← refundable_from fuel' db id (offset + batch_size BatchSize); Some (batch ++ legs)
  end.
Definition refundableLegsForPreview (id : string) : M (list Transaction) :=
  reads (fun db => match refundable_from (S (length (ld_txns db))) db id 0 with
                   | Some legs => Ok legs
                   | None => Err (errors_New "unreachable")
                   end).

(** The state of a loop that adds up legs. *)
Record projection := { pj_set : previewBalanceSet; pj_total : Z; pj_errors : list go_error; pj_preview : TransactionPreview }.
Definition leg_failed (e : go_error) (s : projection) : projection :=
  let p := pj_preview s in {| s with pj_errors := pj_errors s ++ [e]; pj_preview := {| p with pv_WouldApply := false |} |}.

(** The loop of [PreviewRefund]; the count is of the legs already refunded. *)
Fixpoint project_refunds (several : bool) (legs : list Transaction) (s : projection) (skipped : nat)
    : M (projection * nat) :=
  match legs with
  | [] => ret (s, skipped)
  | original :: rest =>
      let! valid := try (validateTransactionForRefund original) in
      match valid with
      | Err e => if isTransactionAlreadyRefundedError e then project_refunds several rest s (S skipped)
                 else project_refunds several rest (leg_failed e s) skipped
      | Ok _ =>
          let! id := new_id gen "txn" in
          let refund := normalize (prepareRefundTransaction original
                          {| ro_SkipQueue := true; ro_Description := ""; ro_MetaData := ∅ |} id) in
          let! set := resolvePair (pj_set s) refund in
          let '(set, refund, r) := project_leg set refund in
          let s := {| s with pj_set := set |} in
          match r with
          | Err e => project_refunds several rest (leg_failed e s) skipped
          | Ok _ =>
              let p := pj_preview s in
              let p := {| p with pv_Status := t_Status refund; pv_Currency := t_Currency refund;
                          pv_Precision := t_Precision refund; pv_Reference := t_Reference refund |} in
              let p := if several then add_leg PreviewRoleSource (t_TransactionID original) refund p else p in
              project_refunds several rest {| s with
                pj_total := pj_total s + default 0 (t_PreciseAmount refund); pj_preview := p |} skipped
          end
      end
  end.

(** The message of [errors.Join]. *)
Definition errors_Join (es : list go_error) : go_error :=
  GoError (String.concat (String (Ascii.ascii_of_nat 10) "") (err_msg <$> es)) (mjoin (err_is <$> es)).

Definition start_projection (p : TransactionPreview) : projection :=
  {| pj_set := newPreviewBalanceSet; pj_total := 0; pj_errors := []; pj_preview := p |}.
(** The total of the legs as text and as a float. *)
Definition with_total (total : Z) (p : TransactionPreview) : TransactionPreview :=
  {| p with pv_PreciseAmount := preciseString (Some total);
     pv_Amount := if flt fzero (pv_Precision p) then convertPreciseToFloat total (pv_Precision p) else pv_Amount p |}.

(** [PreviewRefund]. *)
Definition PreviewRefund (id : string) : M TransactionPreview :=
  let! refundable := refundableLegsForPreview id in
  match refundable with
  | [] => fail (errors_New ("transaction " +:+ id +:+ " not found for refund"))
  | first :: rest =>
      let several := negb (length rest =? 0)%nat in
      let! r := project_refunds several refundable
                  (start_projection {| empty_preview with pv_DryRun := true; pv_WouldApply := true |}) 0 in
      let '(s, skipped) := r in
      let p := pj_preview s in
      let p := match pj_errors s with
               | [] => if (pj_total s =? 0) && (0 <? skipped)%nat then reject (errTransactionAlreadyRefunded id) p else p
               | es => {| p with pv_Rejection := Some (previewRejection (errors_Join es)) |}
               end in
      let p := with_total (pj_total s) p in
      let p := {| p with pv_Balances := projections (pj_set s) |} in
      ret (Finalize (AddNote (if several
        then "projected refund of " +:+ itoa (Z.of_nat (length refundable)) +:+ " refundable transactions under " +:+ id
        else "projected refund of transaction " +:+ t_TransactionID first) p))
  end.

(** ** Commits and voids *)

(** [inflightLegsForPreview]. *)
Definition inflightLegsForPreview (id : string) : M (list Transaction) :=
  let! found := try (fetchAndValidateInflightTransaction numeric_float GetTransactionFromQueue id) in
  match found with
  | Ok t => ret [t]
  | Err e =>
      if negb (shouldExpandInflightParent e) then fail e
      else
        let! legs := collectInflightLegs numeric_float BatchSize id in
        if (length legs =? 0)%nat then fail e else ret legs
  end.

(** [buildInflightSettlementForPreview]. *)
Definition buildInflightSettlementForPreview (leg : Transaction) (action : string) (amount : option Z) : M Transaction :=
  if String.eqb action InflightActionVoid then
    let! amountLeft := calculateRemainingAmount leg in
    if amountLeft =? 0 then fail (errors_New "cannot void. Transaction already committed")
    else ret {| leg with t_Status := StatusVoid; t_PreciseAmount := Some amountLeft;
                t_Amount := convertPreciseToFloat amountLeft (t_Precision leg) |}
  else
    let! settlement := validateAndUpdateAmount leg (Some (default 0 amount)) in
    ret {| settlement with t_Status := StatusCommit |}.

(** The loop of [PreviewInflightAction]. *)
Fixpoint project_settlements (several : bool) (action : string) (amount : option Z) (legs : list Transaction)
    (s : projection) : M projection :=
  match legs with
  | [] => ret s
  | leg :: rest =>
      let! built := try (buildInflightSettlementForPreview leg action amount) in
      match built with
      | Err e => project_settlements several action amount rest (leg_failed e s)
      | Ok settlement =>
          let! set := resolvePair (pj_set s) settlement in
          let '(set, settlement, r) := project_leg set settlement in
          let s := {| s with pj_set := set |} in
          match r with
          | Err e => project_settlements several action amount rest (leg_failed e s)
          | Ok _ =>
              let p := pj_preview s in
              let p := {| p with pv_Currency := t_Currency settlement; pv_Precision := t_Precision settlement |} in
              let p := if several then add_leg PreviewRoleSource (t_TransactionID leg) settlement p else p in
              project_settlements several action amount rest {| s with
                pj_total := pj_total s + default 0 (t_PreciseAmount settlement); pj_preview := p |}
          end
      end
  end.

(** [fmt.Errorf("error occurred during processing: %v", legErrors)] for several. *)
Definition leg_errors (es : list go_error) : option go_error :=
  match es with
  | [] => None
  | [e] => Some e
  | _ => Some (errors_New ("error occurred during processing: [" +:+ String.concat " " (err_msg <$> es) +:+ "]"))
  end.
Definition settled_status (action : string) : string :=
  if String.eqb action InflightActionVoid then StatusVoid else StatusApplied.

(** [PreviewInflightAction]. *)
Definition PreviewInflightAction (id action : string) (amount : option Z) : M TransactionPreview :=
  if negb (String.eqb action InflightActionCommit) && negb (String.eqb action InflightActionVoid)
  then fail (errors_New "status not supported. use either commit or void")
  else
    let! found := try (inflightLegsForPreview id) in
    match found with
    | Err e =>
        if existsb (String.eqb (classifyInflightError (Some e))) ["ALREADY_VOIDED"; "NOT_INFLIGHT"]%string
        then ret (Finalize {| empty_preview with pv_DryRun := true; pv_Operation := action;
               pv_Status := settled_status action; pv_Rejection := Some (previewRejection e);
               pv_PreciseAmount := preciseString None |})
        else fail e
    | Ok legs =>
        let p := {| empty_preview with pv_DryRun := true; pv_WouldApply := true; pv_Operation := action |} in
        let p := if String.eqb action InflightActionVoid && (0 <? default 0 amount)
                 then AddNote "amount is ignored when voiding; a void always releases the full remaining hold" p else p in
        let! s := project_settlements (1 <? length legs)%nat action amount legs (start_projection p) in
        let p := pj_preview s in
        let p := match leg_errors (pj_errors s) with
                 | Some e => {| p with pv_Rejection := Some (previewRejection e) |} | None => p end in
        let p := with_total (pj_total s) {| p with pv_Status := settled_status action |} in
        ret (Finalize {| p with pv_Balances := projections (pj_set s) |})
    end.

(** ** Bulk requests *)

(** [bulkItemDuplicateReference]: the rejection of an item, if any, and the
    references seen. *)
Definition bulkItemDuplicateReference (item : Transaction) (seen : gset string)
    : M (option TransactionPreview * gset string) :=
  if String.eqb (t_Reference item) "" then ret (None, seen)
  else
    let! exists_ := reads (fun db => Ok (TransactionExistsByRef db (t_Reference item))) in
    if bool_decide (t_Reference item ∈ seen) || exists_ then
      let item := normalize item in
      let p := newPreviewFor item in
    let p := {| p with pv_WouldApply := false;
                  pv_PreciseAmount := preciseString (t_PreciseAmount item); pv_Amount := t_Amount item;
                  pv_Rejection := Some (previewRejection (reference_rejection item)) |} in
      ret (Some (Finalize p), seen)
    else ret (None, {[t_Reference item]} ∪ seen).

(** The loop of [previewBulkItem] over the legs of a cumulative item. *)
Fixpoint project_item (item : Transaction) (working : previewBalanceSet) (p : TransactionPreview)
    (legs : list Transaction) : M (TransactionPreview * previewBalanceSet) :=
  match legs with
  | [] => ret (p, working)
  | leg :: rest =>
      let leg := normalize leg in
      let! working := resolvePair working leg in
      let '(working, leg, r) := project_leg working leg in
      match r with
      | Err e => ret (reject_first e p, working)
      | Ok _ => project_item item working (if is_split item then note_split_leg item leg p else p) rest
      end
  end.

(** [previewBulkItem]. *)
Definition previewBulkItem (item : Transaction) (working : previewBalanceSet) (cumulative : bool)
    : M (TransactionPreview * previewBalanceSet) :=
  if negb cumulative then let! p := PreviewTransaction item in ret (p, working)
  else
    let item := normalize item in
    let! split := if is_split item then SplitTransactionPrecise gen item else ret (item, [item]) in
    let item := split.1 in
    let p := newPreviewFor item in
    let p := {| p with pv_WouldApply := true;
                pv_PreciseAmount := preciseString (t_PreciseAmount item); pv_Amount := t_Amount item |} in
    let! r := project_item item working p split.2 in
    ret (Finalize r.1, r.2).

(** The loop of [PreviewBulkTransactions]: the results and the balances. *)
Fixpoint project_items (req : BulkTransactionRequest) (items : list Transaction) (working : previewBalanceSet)
    (seen : gset string) : M (list TransactionPreview * previewBalanceSet) :=
  match items with
  | [] => ret ([], working)
  | t :: rest =>
      let item := {| t with t_Inflight := br_Inflight req; t_SkipQueue := br_SkipQueue req |} in
      let! dup := bulkItemDuplicateReference item seen in
      let! r := match dup.1 with
                | Some p => ret (p, working)
                | None => previewBulkItem item working (br_SkipQueue req)
                end in
      let! q := project_items req rest r.2 dup.2 in
      ret (r.1 :: q.1, q.2)
  end.

(** [PreviewBulkTransactions]; [runAsync] is the field of the request. *)
Definition PreviewBulkTransactions (req : BulkTransactionRequest) (runAsync : bool) : M BulkTransactionPreview :=
  let notes :=
    (if br_SkipQueue req then [] else ["items are dispatched concurrently unless skip_queue is set, so each item is projected independently against current balances and real execution order is not guaranteed"%string])
    ++ (if br_Atomic req then ["an atomic batch compensates on failure by voiding or refunding already-applied items rather than rolling back, and that compensation can itself fail"%string] else [])
    ++ (if runAsync then ["run_async is ignored in a dry run; the projection is returned immediately"%string] else []) in
  let! r := project_items req (br_Transactions req) newPreviewBalanceSet ∅ in
  ret (Finalize_bulk {| bv_DryRun := true; bv_WouldApply := forallb pv_WouldApply r.1; bv_Cumulative := br_SkipQueue req;
    bv_Atomic := br_Atomic req; bv_Results := r.1;
    bv_Balances := if br_SkipQueue req then projections r.2 else []; bv_Notes := notes |}).
End DryRun.
