(* ===== verification/DryRunFacts.v ===== *)
(** * What a dry run promises

    A preview writes nothing, and the preview of one transaction between two
    balances named by their ids tells what the executor would do to the store
    as it stands: whether the transaction would be recorded, and the balances
    after it. *)
From stdpp Require Import base option list strings gmap.
From Stdlib Require Import ZArith Lia.
From S2P Require Import Prelude GoFloat Model GoTime Decimal DecimalInstance Amount Balance Distribution Policy PolicyStore Store Lifecycle Engine Inflight Coalesce Queue Effect Batch Journal Refine FrontDoor Worker BatchEquiv DryRun.
Close Scope Q_scope.
Open Scope Z_scope.
Open Scope engine_scope.

(** ** Computations that write nothing *)

(** The store is left as it was, but for the ids that were generated. *)
Definition only_ids (db db' : ledger_db) : Prop := db' = {| db with ld_ids := ld_ids db' |}.
Definition quiet {A} (m : M A) : Prop := forall db, only_ids db (fst (m db)).

Create HintDb quiet.
Lemma quiet_ret {A} (a : A) : quiet (ret a).
Proof. intros db. by destruct db. Qed.
Lemma quiet_fail {A} e : quiet (A := A) (fail e).
Proof. intros db. by destruct db. Qed.
Lemma quiet_lift {A} (r : result A) : quiet (lift r).
Proof. intros db. by destruct db. Qed.
Lemma quiet_reads {A} (f : ledger_db -> result A) : quiet (reads f).
Proof. intros db. by destruct db. Qed.
Lemma quiet_new_id gen suffix : quiet (new_id gen suffix).
Proof. intros db. by destruct db. Qed.
Lemma quiet_try {A} (m : M A) : quiet m -> quiet (try m).
Proof. intros H db. specialize (H db). unfold try. by destruct (m db). Qed.
Lemma quiet_context {A} msg (m : M A) : quiet m -> quiet (with_context msg m).
Proof. intros H db. specialize (H db). unfold with_context. by destruct (m db) as [db' []]. Qed.
Lemma quiet_bind {A B} (m : M A) (f : A -> M B) : quiet m -> (forall a, quiet (f a)) -> quiet (bind m f).
Proof.
  intros H1 H2 db. specialize (H1 db). unfold bind. destruct (m db) as [db' [a|e]]; [|done].
  specialize (H2 a db'). unfold only_ids in *. cbn in H1. rewrite H2, H1. done.
Qed.
#[export] Hint Resolve quiet_ret quiet_fail quiet_lift quiet_reads quiet_new_id quiet_try quiet_context quiet_bind : quiet.

(** Every step of a computation writes nothing. *)
Ltac quiet := repeat (cbv beta zeta; auto with quiet; try first [apply quiet_try | apply quiet_context | apply quiet_bind; [|intros ?]]; try case_match).

Section Quiet.
Context {Dops : DecimalOps}.
Variable numeric_float : string -> float64.
Variable gen : string -> nat -> string.
Variable acquire : list string -> result unit.
Variable EnableQueuedChecks : bool.
Variable GetTransactionFromQueue : string -> result (option Transaction).
Variable BatchSize : Z.

Lemma quiet_resolveBalance identifier currency role : quiet (resolveBalanceForPreview EnableQueuedChecks identifier currency role).
Proof. unfold resolveBalanceForPreview, fetchBalanceForPreview. quiet. Qed.
#[local] Hint Resolve quiet_resolveBalance : quiet.
Lemma quiet_resolvePair s t : quiet (resolvePair EnableQueuedChecks s t).
Proof. unfold resolvePair, resolve. quiet. Qed.
#[local] Hint Resolve quiet_resolvePair : quiet.

Lemma quiet_split_legs amounts ds counter t acc : quiet (split_legs gen amounts ds counter t acc).
Proof. revert counter t acc. induction ds as [|d ds IH]; intros counter t acc; cbn; quiet. Qed.
#[local] Hint Resolve quiet_split_legs : quiet.
Lemma quiet_split t : quiet (SplitTransactionPrecise gen t).
Proof. unfold SplitTransactionPrecise. quiet. Qed.
#[local] Hint Resolve quiet_split : quiet.

Lemma quiet_project_split t shared p legs : quiet (project_split EnableQueuedChecks t shared p legs).
Proof. revert shared p. induction legs as [|leg legs IH]; intros shared p; cbn; quiet. Qed.
#[local] Hint Resolve quiet_project_split : quiet.
Lemma quiet_transaction t : quiet (PreviewTransaction gen acquire EnableQueuedChecks t).
Proof.
  unfold PreviewTransaction, previewSplitTransaction, previewSingleTransaction, resolveBalancesForPreview, notePreviewCaveats. quiet.
Qed.
#[local] Hint Resolve quiet_transaction : quiet.

Lemma quiet_project_refunds several legs s skipped : quiet (project_refunds gen EnableQueuedChecks several legs s skipped).
Proof.
  revert s skipped. induction legs as [|leg legs IH]; intros s skipped; cbn; [quiet|].
  apply quiet_bind; [unfold validateTransactionForRefund; quiet|intros ?]. quiet.
Qed.
#[local] Hint Resolve quiet_project_refunds : quiet.
Lemma quiet_refund id : quiet (PreviewRefund numeric_float gen EnableQueuedChecks BatchSize id).
Proof. unfold PreviewRefund, refundableLegsForPreview. quiet. Qed.

Lemma quiet_settlement leg action amount : quiet (buildInflightSettlementForPreview leg action amount).
Proof. unfold buildInflightSettlementForPreview, validateAndUpdateAmount, calculateRemainingAmount. quiet. Qed.
#[local] Hint Resolve quiet_settlement : quiet.
Lemma quiet_project_settlements several action amount legs s :
  quiet (project_settlements EnableQueuedChecks several action amount legs s).
Proof. revert s. induction legs as [|leg legs IH]; intros s; cbn; quiet. Qed.
#[local] Hint Resolve quiet_project_settlements : quiet.
Lemma quiet_inflight id action amount :
  quiet (PreviewInflightAction numeric_float EnableQueuedChecks GetTransactionFromQueue BatchSize id action amount).
Proof.
  unfold PreviewInflightAction, inflightLegsForPreview, fetchAndValidateInflightTransaction, collectInflightLegs. quiet.
Qed.

Lemma quiet_project_item item working p legs : quiet (project_item EnableQueuedChecks item working p legs).
Proof. revert working p. induction legs as [|leg legs IH]; intros working p; cbn; quiet. Qed.
#[local] Hint Resolve quiet_project_item : quiet.
Lemma quiet_project_items req items working seen :
  quiet (project_items gen acquire EnableQueuedChecks req items working seen).
Proof.
  revert working seen. induction items as [|t items IH]; intros working seen; cbn; [quiet|].
  apply quiet_bind; [unfold bulkItemDuplicateReference; quiet|intros ?].
  apply quiet_bind; [unfold previewBulkItem; quiet|intros ?]. quiet.
Qed.
#[local] Hint Resolve quiet_project_items : quiet.

(** A dry run changes nothing.  Whatever it is asked for and whether it
    answers or fails, a preview of a transaction or a split, of a refund, of a
    commit or void, or of a bulk request leaves the transactions, balances,
    claims, policy tables and outbox of the ledger as they were; it may only
    have generated ids. *)
Theorem previews_write_nothing (db : ledger_db) (t : Transaction) (id action : string) (amount : option Z)
    (req : BulkTransactionRequest) (runAsync : bool) :
  only_ids db (fst (PreviewTransaction gen acquire EnableQueuedChecks t db)) /\
  only_ids db (fst (PreviewRefund numeric_float gen EnableQueuedChecks BatchSize id db)) /\
  only_ids db (fst (PreviewInflightAction numeric_float EnableQueuedChecks GetTransactionFromQueue BatchSize id action amount db)) /\
  only_ids db (fst (PreviewBulkTransactions gen acquire EnableQueuedChecks req runAsync db)).
Proof.
  split_and!; [apply quiet_transaction|apply quiet_refund|apply quiet_inflight|].
  apply quiet_bind; [apply quiet_project_items|]. quiet.
Qed.
End Quiet.

(** ** One transaction, previewed and posted *)

(** What the executor is given for the request [t]: the amount settled, the
    status of a new transaction. *)
Definition posting `{!DecimalOps} (t : Transaction) : Transaction := with_status StatusQueued (normalize t).

(** A request between two balances named by their ids, not a settlement, a
    split, a child or a governed transaction, with a fresh id. *)
Record postable (db : ledger_db) (t : Transaction) : Prop := {
  po_source : HasPrefix (t_Source t) "@" = false;
  po_destination : HasPrefix (t_Destination t) "@" = false;
  po_status : t_Status t <> StatusCommit /\ t_Status t <> StatusVoid;
  po_single : is_split t = false;
  po_parent : t_ParentTransaction t = ""%string;
  po_action : t_QueueAction t = ""%string;
  po_reference : t_Reference t <> ""%string;
  po_unmarked : policyMarked t = false;
  po_unbound : binding_of_reference (ld_policy db) (t_Reference t) = None;
  po_fresh : forall r, r ∈ ld_txns db -> x_id r <> t_TransactionID t;
  po_outbox : forall o, o ∈ ld_outbox db -> lo_TransactionID o <> t_TransactionID t }.

(** A projection shows the money of a row. *)
Record shows (p : BalanceProjection) (row : Balance) : Prop := {
  sh_id : bp_BalanceID p = b_BalanceID row;
  sh_balance : bp_ResultingBalance p = preciseString (b_Balance row);
  sh_credit : bp_ResultingCreditBalance p = preciseString (b_CreditBalance row);
  sh_debit : bp_ResultingDebitBalance p = preciseString (b_DebitBalance row);
  sh_inflight_debit : bp_ResultingInflightDebitBalance p = preciseString (b_InflightDebitBalance row);
  sh_inflight_credit : bp_ResultingInflightCreditBalance p = preciseString (b_InflightCreditBalance row) }.

Section Amounts.
Context {Dops : DecimalOps} {Dlaws : DecimalLaws}.

(** The text of an amount is never empty. *)
Lemma convert_text t : t_AmountString (convertPreciseToDecimal t) <> ""%string.
Proof.
  unfold convertPreciseToDecimal. cbn [t_AmountString]. intros E.
  match type of E with dec_String ?d = _ => destruct (String_text d) as (x & Hx & _) end.
  by rewrite E in Hx.
Qed.

Lemma UpdateBalances_text t a b t' a' b' : UpdateBalances t a b = (t', a', b', Ok tt) -> t_AmountString t' <> ""%string.
Proof.
  unfold UpdateBalances. destruct (ApplyPrecisionChecked t) as [[n t1]|] eqn:HA; [|done]. cbv zeta.
  destruct (canProcessTransaction _ a) as [a1 [[]|]]; [|done]. intros [= <- _ _]. cbn [t_AmountString].
  unfold ApplyPrecisionChecked in HA. apply res_bind_Ok in HA as ([] & Hv & HA). apply validate_Ok in Hv as [Hm _].
  apply Ok_inj in HA. unfold ApplyPrecision in HA. rewrite Hm in HA. unfold applyPrecisionLogic in HA.
  repeat case_match; injection HA as <- <-; apply convert_text.
Qed.

(** Settling the amount changes the amounts of a transaction only. *)
Lemma same_but_amount_trans t1 t2 t3 : same_but_amount t1 t2 -> same_but_amount t2 t3 -> same_but_amount t1 t3.
Proof. unfold same_but_amount. intros H1 H2. rewrite H2, H1. done. Qed.
Lemma same_precision t p : same_but_amount t {| t with t_Precision := p |}.
Proof. by destruct t. Qed.
Lemma same_convert t : same_but_amount t (convertPreciseToDecimal t).
Proof. unfold convertPreciseToDecimal. generalize (dec_DivRound (match t_PreciseAmount t with
    | Some p => default dec_Zero (dec_NewFromString (itoa p)) | None => dec_Zero end) (dec_NewFromFloat (t_Precision t))
    (decimal_places (dec_BigInt (dec_NewFromFloat (t_Precision t))))). intros d. by destruct t. Qed.
Lemma same_precise t n : same_but_amount t {| t with t_PreciseAmount := n |}.
Proof. by destruct t. Qed.

Lemma ApplyPrecision_same t : same_but_amount t (snd (ApplyPrecision t)).
Proof.
  assert (forall t, same_but_amount t (snd (applyPrecisionLogic t))) as HL.
  { clear t. intros t. unfold applyPrecisionLogic. cbv zeta.
    set (t1 := if feq (t_Precision t) fzero then {| t with t_Precision := f_of_Z 1 |} else t).
    assert (same_but_amount t t1) as H1 by (subst t1; destruct (feq _ _); [apply same_precision|by destruct t]).
    apply (same_but_amount_trans _ _ _ H1). clearbody t1.
    destruct (t_PreciseAmount t1) as [p|]; [destruct (0 <? p)|];
      [apply same_convert|eapply same_but_amount_trans; [apply same_precise|apply same_convert]..]. }
  unfold ApplyPrecision. destruct (validateMonetaryFields t); [|by destruct t]. cbv zeta.
  destruct (feq (t_Precision t) fzero); [|apply HL].
  eapply same_but_amount_trans; [apply (same_precision t (f_of_Z 1))|apply HL].
Qed.

Lemma normalize_same t : same_but_amount (normalizePreviewStatus t) (normalize t).
Proof.
  unfold normalize. pose proof (ApplyPrecision_same (normalizePreviewStatus t)) as H.
  destruct (ApplyPrecision _) as [n t1]. unfold same_but_amount in *. cbn [snd] in H. rewrite H. done.
Qed.

(** The arithmetic on two different objects, on errors too. *)
Lemma UpdateBalances_at_two t s d a b : s <> d ->
  let h := <[d := b]> {[s := a]} in
  let '(t', a', b', r) := UpdateBalances t a b in
  exists h', UpdateBalances_at t s d h = (h', t', r) /\ (r = Ok tt -> deref h' s = a' /\ deref h' d = b').
Proof.
  intros Hne h. assert (h !! s = Some a) as Hs by (unfold h; rewrite lookup_insert_ne by done; apply lookup_singleton_eq).
  assert (h !! d = Some b) as Hd by apply lookup_insert_eq.
  destruct (UpdateBalances_at t s d h) as [[h' t'] r] eqn:E. pose proof E as E0. unfold UpdateBalances_at, deref in E.
  rewrite Hs in E. cbn [default from_option id] in E. destruct (UpdateBalances t a b) as [[[t1 a1] b1] r1] eqn:E1. pose proof E1 as E2.
  unfold UpdateBalances in E1. destruct (ApplyPrecisionChecked t) as [[n t2]|]; [|injection E as <- <- <-; injection E1 as <- <- <- <-; by eexists].
  cbv zeta in E, E1. destruct (canProcessTransaction _ a) as [a2 [[]|]];
    [|injection E as <- <- <-; injection E1 as <- <- <- <-; by eexists].
  assert (r = Ok tt) as -> by congruence. assert (r1 = Ok tt) as -> by congruence.
  destruct (UpdateBalances_at_distinct t s d h h' t' a b Hne Hs Hd E0) as (a' & b' & Hu & ->).
  rewrite E2 in Hu. injection Hu as -> -> ->. eexists. split; [done|]. intros _. unfold deref.
  by rewrite lookup_insert_ne, lookup_insert_eq, lookup_insert_eq by done.
Qed.

(** Postings are not settlements. *)
Lemma processBalances_two st t a b : st = StatusApplied \/ st = StatusInflight ->
  let h := <[PreviewRoleDestination := b]> {[PreviewRoleSource := a]} in
  let '(t', a', b', r) := UpdateBalances t a b in
  exists h' r', processBalances (with_status st t) PreviewRoleSource PreviewRoleDestination h = (h', with_status st t', r') /\
    is_ok r' = is_ok r /\ (r = Ok tt -> deref h' PreviewRoleSource = a' /\ deref h' PreviewRoleDestination = b').
Proof.
  intros Hst h. pose proof (UpdateBalances_at_two (with_status st t) PreviewRoleSource PreviewRoleDestination a b ltac:(done)) as H.
  destruct (UpdateBalances t a b) as [[[t' a'] b'] r] eqn:E. apply (UpdateBalances_status st) in E. rewrite E in H.
  destruct H as (h' & H & Hd). unfold processBalances, applyTransaction_at. fold h in H.
  assert (String.eqb (t_Status (with_status st t)) StatusCommit || String.eqb (t_Status (with_status st t)) StatusVoid = false) as ->
    by (by destruct Hst as [-> | ->]).
  rewrite H. destruct r as [[]|]; by eexists _, _.
Qed.
End Amounts.

(** ** The store *)

(** Balances are stored under their ids. *)
Definition keyed (db : ledger_db) : Prop := forall k row, ld_balances db !! k = Some row -> b_BalanceID row = k.

(** A row that no trigger is about and whose keys are free. *)
Lemma insert_plain db r :
  x_parent r = ""%string -> x_queue_action r = ""%string -> binding_of_reference (ld_policy db) (x_reference r) = None ->
  (forall r', r' ∈ ld_txns db -> x_id r' <> x_id r) -> TransactionExistsByRef db (x_reference r) = false ->
  is_status "VOID" r || is_status "REJECTED" r = false ->
  insert_transaction db r = Ok {| db with ld_txns := ld_txns db ++ [r] |}.
Proof.
  intros Hp Ha Hb Hi Hr Hs.
  destruct (existsb (fun r' => String.eqb (x_id r') (x_id r)) (ld_txns db)) eqn:E.
  { apply existsb_exists in E as (r' & Hr' & E). apply String.eqb_eq in E. by apply list_elem_of_In, Hi in Hr'. }
  destruct (existsb (fun r' => String.eqb (x_reference r') (x_reference r)) (ld_txns db)) eqn:E2.
  { unfold TransactionExistsByRef in Hr. congruence. }
  unfold insert_transaction, claim_transaction_lifecycle. rewrite Hp, Ha. cbn [negb String.eqb res_bind].
  unfold enforce_policy_posting. rewrite Hb, Hp. change (String.eqb "" "") with true. cbn [res_bind].
  rewrite E, E2. unfold release_terminal_policy_reservation. by rewrite Hs.
Qed.

(** Two reads of one row cannot both be written. *)
Lemma record_same_row db t s d o : b_BalanceID s = b_BalanceID d -> b_Version s = b_Version d ->
  exists e, RecordTransactionWithBalancesAndOutbox db t s d o = Err e.
Proof.
  intros Hid Hv. unfold RecordTransactionWithBalancesAndOutbox, RecordTransactionWithBalances.
  destruct (updateBalance db s) as [[db1 s1]|e] eqn:E; [|cbn; by eexists]. cbn [res_bind fst].
  destruct (updateBalance db1 d) as [[db2 d2]|e] eqn:E2; [exfalso|cbn; by eexists].
  destruct (updateBalance_updated _ _ _ _ E) as (r1 & r1' & U1), (updateBalance_updated _ _ _ _ E2) as (r2 & r2' & U2).
  destruct U1 as [_ V1 B1 _ N1 _ _ _], U2 as [R2 V2 _ _ _ _ _ _]. rewrite B1, Hid, lookup_insert_eq in R2.
  apply (inj Some) in R2. subst. lia.
Qed.

(** The work of a posting of a positive amount. *)
Lemma work_fields t s d n : t_PreciseAmount t = Some n -> 0 < n -> t_Status t = StatusQueued ->
  let ws := buildTransactionExecutionWork t s d in
  let u := w_transaction ws.1 in
  ws.2 = false /\ w_sourceBalance ws.1 = s /\ w_destinationBalance ws.1 = d /\
  t_TransactionID u = t_TransactionID t /\ t_Reference u = t_Reference t /\ t_ParentTransaction u = t_ParentTransaction t /\
  t_QueueAction u = t_QueueAction t /\ t_AmountString u = t_AmountString t /\ t_PreciseAmount u = Some n /\
  (t_Status u = StatusInflight \/ t_Status u = StatusApplied) /\
  (forall o, w_outbox ws.1 = Some o -> lo_TransactionID o = t_TransactionID t).
Proof.
  intros Hn Hpos Hst. cbv zeta. unfold buildTransactionExecutionWork.
  change (t_PreciseAmount (updateTransactionDetails t s d)) with (t_PreciseAmount t). rewrite Hn.
  assert (n =? 0 = false) as -> by (apply Z.eqb_neq; lia). cbn [fst snd w_transaction w_sourceBalance w_destinationBalance w_outbox].
  assert (t_Status (updateTransactionDetails t s d) = StatusInflight \/ t_Status (updateTransactionDetails t s d) = StatusApplied) as Hs.
  { cbn. rewrite Hst. destruct (t_Inflight t); tauto. }
  set (v := updateTransactionDetails t s d) in *. unfold clearTerminalInflightMetadata.
  destruct (String.eqb (t_Status v) StatusInflight); split_and!; try done.
  all: intros o; unfold prepareTransactionOutbox, PrepareLineageOutbox; repeat (destruct (_ && _); [done|]); by intros [= <-].
Qed.

Section Predict.
Context {Dops : DecimalOps} {Dlaws : DecimalLaws}.
Variable gen : string -> nat -> string.
Variable pre_hooks : Transaction -> result unit.
Variable acquire : list string -> result unit.
Variable EnableQueuedChecks : bool.
Variable now : Z.
Hypothesis locks_granted : forall keys, acquire keys = Ok tt.
Hypothesis hooks_agree : forall t, pre_hooks t = Ok tt.
#[local] Notation single := (recordTransactionSingle gen pre_hooks acquire EnableQueuedChecks now).
#[local] Notation fetch db id := (if EnableQueuedChecks then GetBalanceByID db id true else GetBalanceByIDLite db id).

Lemma fetch_row db id b : keyed db -> fetch db id = Ok b ->
  exists row, ld_balances db !! id = Some row /\ b_BalanceID b = id /\ b_Version b = b_Version row.
Proof.
  intros Hk H. unfold GetBalanceByID, GetBalanceByIDLite in H. destruct (ld_balances db !! id) as [row|] eqn:E.
  - exists row. specialize (Hk _ _ E). destruct EnableQueuedChecks; apply Ok_inj in H as <-; done.
  - by destruct EnableQueuedChecks.
Qed.

(** The executor on a plain transaction, step by step. *)
Lemma single_plain db x a b :
  HasPrefix (t_Source x) "@" = false -> HasPrefix (t_Destination x) "@" = false -> t_Status x = StatusQueued ->
  policyMarked x = false -> fetch db (t_Source x) = Ok a -> fetch db (t_Destination x) = Ok b ->
  b_BalanceID a = t_Source x -> b_BalanceID b = t_Destination x ->
  exists e1 e2, single x false db =
    if TransactionExistsByRef db (t_Reference x) then (db, Err e1)
    else if isZeroPreciseAmount x then (db, Ok x)
    else match UpdateBalances x a b with
         | (_, _, _, Err e) => (db, Err (e2 e))
         | (t', a', b', Ok _) =>
             let ws := buildTransactionExecutionWork t' a' b' in
             if ws.2 then (db, Ok (w_transaction ws.1)) else persistSingleTransactionExecutionWork ws.1 db
         end.
Proof.
  intros P1 P2 Hst Hpm Ha Hb Ia Ib.
  exists (wrap "transaction validation failed: " (errors_New ("reference " +:+ t_Reference x +:+ " has already been used"))),
    (wrap "failed to apply transaction to balances: ").
  unfold recordTransactionSingle, resolveBalanceIDs, resolve_id. rewrite P1, P2. unfold bind, with_context, lift, ret.
  rewrite locks_granted. cbn [fst snd].
  assert ({| x with t_Source := t_Source x; t_Destination := t_Destination x |} = x) as Et by (by destruct x). rewrite Et.
  unfold record_locked, bind, lift. rewrite hooks_agree.
  unfold validateAndPrepareTransaction, validateTxn, bind, with_context, reads, ret.
  destruct (TransactionExistsByRef db (t_Reference x)); [done|].
  assert (getSourceAndDestination gen EnableQueuedChecks now x db = (db, Ok (a, b))) as Hg.
  { unfold getSourceAndDestination, get_balance, bind, reads, ret. rewrite P1, P2.
    destruct EnableQueuedChecks; by rewrite Ha, Hb. }
  rewrite Hg. cbn [fst snd]. rewrite Ia, Ib, Et.
  destruct (isZeroPreciseAmount x); [done|]. unfold verifyPolicyExecution, ret, with_context, lift. rewrite Hpm. cbn [negb].
  unfold applyTransactionToBalances. rewrite Hst.
  change (String.eqb StatusQueued StatusCommit) with false. change (String.eqb StatusQueued StatusVoid) with false. cbn [orb res_bind].
  destruct (UpdateBalances x a b) as [[[t' a'] b'] [[]|e]]; [|done]. cbn [fst snd].
  by destruct (buildTransactionExecutionWork t' a' b') as [w []].
Qed.

(** The fields of a request that settling its amount keeps. *)
Lemma normalize_fields t : t_Status t <> StatusCommit /\ t_Status t <> StatusVoid ->
  t_Source (normalize t) = t_Source t /\ t_Destination (normalize t) = t_Destination t /\
  t_Reference (normalize t) = t_Reference t /\ is_split (normalize t) = is_split t /\
  normalize t = with_status (if t_Inflight t then StatusInflight else StatusApplied) (posting t).
Proof.
  intros [Hc Hv]. unfold posting. pose proof (normalize_same t) as H. unfold same_but_amount in H.
  assert (normalizePreviewStatus t = with_status (if t_Inflight t then StatusInflight else StatusApplied) t) as E.
  { unfold normalizePreviewStatus. apply String.eqb_neq in Hc, Hv. rewrite Hc, Hv. unfold with_status. by destruct (t_Inflight t). }
  set (f := normalize t) in *. rewrite E in H. clearbody f. unfold is_split. rewrite H. unfold with_status. done.
Qed.

(** The caveats reject a transfer to itself and a used reference. *)
Lemma caveats_plain db t a b : t_Reference t <> ""%string -> exists p,
  notePreviewCaveats (newPreviewFor t) t (a, false) (b, false) db = (db, Ok p) /\ pv_WouldApply p = false /\
  (pv_Rejection p = None <-> String.eqb (b_BalanceID a) (b_BalanceID b) = false /\ TransactionExistsByRef db (t_Reference t) = false).
Proof.
  intros Hr. unfold notePreviewCaveats, sameBalanceErr. cbn [fst].
  set (p0 := match _ with Some e => reject e _ | None => newPreviewFor t end).
  set (p1 := if negb (IsZero _) then AddNote _ p0 else p0).
  assert (forall role c p, pv_WouldApply (note_mismatch t role c p) = pv_WouldApply p /\
    pv_Rejection (note_mismatch t role c p) = pv_Rejection p) as Hn
    by (intros role c p; unfold note_mismatch; by repeat case_match).
  set (p2 := note_mismatch _ _ _ _).
  assert (pv_WouldApply p2 = false /\ pv_Rejection p2 = pv_Rejection p0) as [W2 R2].
  { subst p2. rewrite !(proj1 (Hn _ _ _)), !(proj2 (Hn _ _ _)). subst p1 p0. by destruct (negb (IsZero _)), (negb (String.eqb _ _)). }
  assert (pv_Rejection p0 = None <-> String.eqb (b_BalanceID a) (b_BalanceID b) = false) as R0
    by (subst p0; by destruct (String.eqb (b_BalanceID a) (b_BalanceID b))).
  clearbody p2. apply String.eqb_neq in Hr. rewrite Hr. unfold bind, reads, ret. eexists. split; [done|].
  destruct (TransactionExistsByRef db (t_Reference t)); cbn; [by split; [|split; [done|intros []]]|].
  rewrite R2, R0. intuition.
Qed.

(** What the projection of two balances says. *)
Lemma project_single_plain p st x a b : st = StatusApplied \/ st = StatusInflight -> pv_WouldApply p = false ->
  let '(t', a', b', r) := UpdateBalances x a b in
  let q := project_single p (with_status st x) (a, false) (b, false) in
  pv_WouldApply q = is_ok r && bool_decide (pv_Rejection p = None) /\
  (pv_WouldApply q = true -> pv_Balances q = [balanceProjection PreviewRoleSource a a' false; balanceProjection PreviewRoleDestination b b' false]).
Proof.
  intros Hst Hw. pose proof (processBalances_two st x a b Hst) as H. destruct (UpdateBalances x a b) as [[[t' a'] b'] r].
  destruct H as (h' & r' & H & Hok & Hd). cbv zeta. unfold project_single. cbn [fst snd]. rewrite H.
  destruct r as [[]|e], r' as [[]|e']; try done. destruct (Hd eq_refl) as [<- <-].
  destruct (pv_Rejection p) eqn:Er; [|done]. unfold Finalize. cbn [pv_WouldApply]. rewrite Hw. cbn [pv_WouldApply]. done.
Qed.

(** The answer of a preview in terms of the arithmetic. *)
Lemma preview_plain db t db1 p : keyed db -> postable db t ->
  PreviewTransaction gen acquire EnableQueuedChecks t db = (db1, Ok p) ->
  exists a b, fetch db (t_Source t) = Ok a /\ fetch db (t_Destination t) = Ok b /\
    let '(t', a', b', r) := UpdateBalances (posting t) a b in
    pv_WouldApply p = is_ok r && negb (String.eqb (t_Source t) (t_Destination t)) && negb (TransactionExistsByRef db (t_Reference t)) /\
    (pv_WouldApply p = true -> pv_Balances p = [balanceProjection PreviewRoleSource a a' false; balanceProjection PreviewRoleDestination b b' false]).
Proof.
  intros Hk Hp. destruct (normalize_fields t (po_status _ _ Hp)) as (Es & Ed & Er & Esp & Ef).
  unfold PreviewTransaction. set (f := normalize t) in *. rewrite Esp, (po_single _ _ Hp).
  unfold previewSingleTransaction, resolveBalancesForPreview, resolveBalanceForPreview, fetchBalanceForPreview.
  rewrite Es, Ed, (po_source _ _ Hp), (po_destination _ _ Hp). destruct (String.eqb (t_Source t) ""); [done|].
  unfold bind at 1 2 3. intros H.
  destruct (fetch db (t_Source t)) as [a|] eqn:Ha; [|by destruct EnableQueuedChecks; unfold bind, reads in H; rewrite Ha in H].
  destruct (fetch db (t_Destination t)) as [b|] eqn:Hb.
  2:{ destruct EnableQueuedChecks; unfold bind, reads, ret in H; rewrite Ha in H; cbn in H;
      destruct (String.eqb (t_Destination t) ""); try done; by rewrite Hb in H. }
  exists a, b. split; [done|]. split; [done|].
  destruct (fetch_row db _ a Hk Ha) as (_ & _ & Ia & _), (fetch_row db _ b Hk Hb) as (_ & _ & Ib & _).
  assert (forall id, (if EnableQueuedChecks then reads (fun db => GetBalanceByID db id true) else reads (fun db => GetBalanceByIDLite db id)) db
    = (db, fetch db id)) as Hf by (intros id; by destruct EnableQueuedChecks).
  assert (String.eqb (t_Destination t) "" = false) as Hd.
  { destruct (String.eqb (t_Destination t) ""); [|done]. unfold bind, ret in H. by rewrite Hf, Ha in H. }
  rewrite Hd in H. unfold bind, ret in H. rewrite !Hf, Ha in H. cbn [fst snd] in H. rewrite Hf, Hb in H. cbn [fst snd] in H.
  unfold with_context, lift in H. rewrite locks_granted in H. rewrite <- Er.
  destruct (caveats_plain db f a b) as (p0 & Hc & Hw & Hrej); [rewrite Er; apply (po_reference _ _ Hp)|]. rewrite Hc in H.
  injection H as _ <-. rewrite Ef.
  pose proof (project_single_plain p0 (if t_Inflight t then StatusInflight else StatusApplied) (posting t) a b
    ltac:(destruct (t_Inflight t); tauto) Hw) as HP.
  destruct (UpdateBalances (posting t) a b) as [[[t' a'] b'] r]. cbv zeta in HP. destruct HP as [HP1 HP2].
  set (q := project_single _ _ _ _) in *. rewrite Ia, Ib in Hrej.
  assert (pv_WouldApply (Finalize q) = pv_WouldApply q /\ pv_Balances (Finalize q) = pv_Balances q) as [-> ->]
    by (unfold Finalize; by destruct (pv_WouldApply q) eqn:E).
  split; [|done]. rewrite HP1, <- andb_assoc. f_equal. rewrite <- Ef.
  destruct (String.eqb (t_Source t) (t_Destination t)), (TransactionExistsByRef db (t_Reference f)); cbn;
    try (apply bool_decide_eq_false; intros [? ?]%Hrej; done). by apply bool_decide_eq_true, Hrej.
Qed.

(** The fields of what the executor is given. *)
Lemma posting_fields t : t_Status t <> StatusCommit /\ t_Status t <> StatusVoid ->
  exists n s f p, posting t = {| t with t_Status := StatusQueued; t_PreciseAmount := n; t_AmountString := s; t_Amount := f; t_Precision := p |}.
Proof.
  intros H. pose proof (normalize_same t) as E. unfold posting. set (f := normalize t) in *. clearbody f.
  unfold same_but_amount in E. exists (t_PreciseAmount f), (t_AmountString f), (t_Amount f), (t_Precision f).
  rewrite E. unfold normalizePreviewStatus, with_status. destruct (_ || _); [done|]. by destruct (t_Inflight t).
Qed.

(** A posting that succeeds in memory between two rows is recorded. *)
Lemma persist_plain db t a b t' a' b' ra rb :
  postable db t -> b_BalanceID a = t_Source t -> b_BalanceID b = t_Destination t -> t_Source t <> t_Destination t ->
  ld_balances db !! t_Source t = Some ra -> b_Version a = b_Version ra ->
  ld_balances db !! t_Destination t = Some rb -> b_Version b = b_Version rb ->
  TransactionExistsByRef db (t_Reference t) = false -> UpdateBalances (posting t) a b = (t', a', b', Ok tt) ->
  let ws := buildTransactionExecutionWork t' a' b' in
  ws.2 = false /\ exists row O', persistSingleTransactionExecutionWork ws.1 db =
    (reframe (<[t_Destination t := write_amounts b' rb]> (<[t_Source t := write_amounts a' ra]> (ld_balances db))) O'
       {| db with ld_txns := ld_txns db ++ [row] |}, Ok (w_transaction ws.1)) /\
    x_id row = t_TransactionID t /\ x_reference row = t_Reference t.
Proof.
  intros Hp Ia Ib Hne Ra Va Rb Vb Href HU.
  pose proof (UpdateBalances_spec (posting t) a b) as HS. rewrite HU in HS.
  destruct HS as (n & Hn & Hpn & Hsame & _ & _ & (_ & Ma & _) & (_ & Mb & _)).
  destruct (same_but_money_id _ _ Ma) as [Ia' Va'], (same_but_money_id _ _ Mb) as [Ib' Vb'].
  destruct (UpdateBalances_amounts _ _ _ _ _ _ HU) as [Aa Ab]. pose proof (UpdateBalances_text _ _ _ _ _ _ HU) as Htext.
  destruct (posting_fields t (po_status _ _ Hp)) as (n0 & s0 & f0 & p0 & Ep). rewrite Ep in Hsame.
  destruct (work_fields t' a' b' n Hpn Hn ltac:(by rewrite Hsame)) as (W1 & W2 & W3 & Fi & Fr & Fp & Fq & Ft & Fn & Fs & Fo).
  cbv zeta. set (ws := buildTransactionExecutionWork t' a' b') in *. set (u := w_transaction ws.1) in *. split; [done|].
  assert (t_TransactionID t' = t_TransactionID t /\ t_Reference t' = t_Reference t /\ t_ParentTransaction t' = ""%string /\
    t_QueueAction t' = ""%string) as (Ei & Er & Epa & Eq).
  { rewrite Hsame. split_and!; [done|done|apply (po_parent _ _ Hp)|apply (po_action _ _ Hp)]. }
  set (row := row_of u (t_AmountString u, n)).
  assert (insert_transaction db row = Ok {| db with ld_txns := ld_txns db ++ [row] |}) as Hins.
  { apply insert_plain; cbn; [congruence|congruence|rewrite Fr, Er; apply (po_unbound _ _ Hp)
    |intros r Hr; rewrite Fi, Ei; by apply (po_fresh _ _ Hp)|by rewrite Fr, Er|unfold is_status; cbn; by destruct Fs as [-> | ->]]. }
  exists row, (match w_outbox ws.1 with None => ld_outbox db | Some o =>
    ld_outbox db ++ [{| o with lo_ID := Z.of_nat (length (ld_outbox db)) + 1; lo_Status := "pending"; lo_Attempts := 0;
                        lo_LastError := ""; lo_LockedUntil := None |}] end).
  split; [|split; cbn; congruence].
  unfold persistSingleTransactionExecutionWork, with_context, atomically. rewrite W2, W3. fold u.
  rewrite <- Ia, <- Ia', <- Ib, <- Ib'.
  erewrite (record_ok db u n a' b' ra rb _ (w_outbox ws.1)); try done; try congruence.
  - unfold persistNumericColumns. rewrite Fn, Ft. by apply String.eqb_neq in Htext as ->.
  - destruct (w_outbox ws.1) as [o|] eqn:Eo; [|done]. unfold InsertLineageOutboxInTx. cbn [ld_outbox].
    destruct (existsb _ (ld_outbox db)) eqn:E; [exfalso|by eexists]. apply existsb_exists in E as (o' & Ho' & E).
    apply String.eqb_eq in E. apply list_elem_of_In, (po_outbox _ _ Hp) in Ho'. rewrite (Fo o eq_refl) in E. congruence.
Qed.
Lemma projection_shows role b b' row virtual : has_amounts b' = true -> b_BalanceID b = b_BalanceID row ->
  shows (balanceProjection role b b' virtual) (write_amounts b' row).
Proof.
  unfold has_amounts. intros H Hid.
  destruct (b_Balance b') eqn:E1, (b_CreditBalance b') eqn:E2, (b_DebitBalance b') eqn:E3, (b_InflightBalance b') eqn:E4,
    (b_InflightCreditBalance b') eqn:E5, (b_InflightDebitBalance b') eqn:E6; try done.
  split; cbn; rewrite ?E1, ?E2, ?E3, ?E5, ?E6; done.
Qed.

(** C8: a preview predicts the posting.  Of a new transaction between two
    balances named by their ids, with locks and hooks that succeed, let the
    preview answer on a store.  When it says that the transaction would apply,
    the executor on that store records it: one row with its id and reference is
    appended, and the stored totals of both balances are the figures the
    projection shows.  When it says that it would not apply, the executor leaves
    the store exactly as it was. *)
Theorem preview_predicts_posting (db db1 : ledger_db) (t : Transaction) (p : TransactionPreview) :
  keyed db -> postable db t -> PreviewTransaction gen acquire EnableQueuedChecks t db = (db1, Ok p) ->
  let '(db', r) := single (posting t) false db in
  if pv_WouldApply p then
    is_ok r = true /\
    (exists row, ld_txns db' = ld_txns db ++ [row] /\ x_id row = t_TransactionID t /\ x_reference row = t_Reference t) /\
    exists ps pd rs rd, pv_Balances p = [ps; pd] /\
      ld_balances db' !! t_Source t = Some rs /\ shows ps rs /\ ld_balances db' !! t_Destination t = Some rd /\ shows pd rd
  else db' = db.
Proof.
  intros Hk Hp Hpre. destruct (preview_plain db t db1 p Hk Hp Hpre) as (a & b & Ha & Hb & HU).
  destruct (fetch_row db _ a Hk Ha) as (ra & Ra & Ia & Va), (fetch_row db _ b Hk Hb) as (rb & Rb & Ib & Vb).
  destruct (posting_fields t (po_status _ _ Hp)) as (n0 & s0 & f0 & p0 & Ep).
  destruct (single_plain db (posting t) a b) as (e1 & e2 & Hs); rewrite ?Ep; try done;
    [apply (po_source _ _ Hp)|apply (po_destination _ _ Hp)|apply (po_unmarked _ _ Hp)|].
  rewrite <- Ep, Hs. assert (t_Reference (posting t) = t_Reference t) as -> by (by rewrite Ep).
  destruct (UpdateBalances (posting t) a b) as [[[t' a'] b'] r] eqn:EU. destruct HU as [Hw Hbal]. rewrite Hw.
  destruct (TransactionExistsByRef db (t_Reference t)) eqn:Href; [by rewrite andb_false_r|]. rewrite andb_true_r.
  destruct r as [[]|e]; [|by destruct (isZeroPreciseAmount _)]. cbn [is_ok andb].
  assert (isZeroPreciseAmount (posting t) = false) as ->.
  { pose proof (UpdateBalances_spec (posting t) a b) as S. rewrite EU in S. destruct S as (m & Hm & _ & _ & Hpm & _).
    unfold isZeroPreciseAmount. destruct (t_PreciseAmount (posting t)) as [q|]; [|done]. rewrite (Hpm q eq_refl) in Hm. apply Z.leb_gt. lia. }
  destruct (String.eqb_spec (t_Source t) (t_Destination t)) as [Heq|Hne]; cbn [negb].
  - cbv zeta. destruct (snd (buildTransactionExecutionWork t' a' b')) eqn:Ews; [done|].
    pose proof (UpdateBalances_spec (posting t) a b) as S. rewrite EU in S. destruct S as (n & Hn & Hpn & Hsame & _ & _ & (_ & Ma & _) & (_ & Mb & _)).
    destruct (same_but_money_id _ _ Ma) as [Ia' Va'], (same_but_money_id _ _ Mb) as [Ib' Vb'].
    destruct (work_fields t' a' b' n Hpn Hn ltac:(rewrite Hsame, Ep; done)) as (_ & W2 & W3 & _).
    unfold persistSingleTransactionExecutionWork, with_context, atomically. rewrite W2, W3.
    destruct (record_same_row db (w_transaction (fst (buildTransactionExecutionWork t' a' b'))) a' b'
      (w_outbox (fst (buildTransactionExecutionWork t' a' b')))) as [e ->]; [congruence| |done].
    rewrite Va', Vb', Va, Vb. rewrite Heq, Rb in Ra. by injection Ra as ->.
  - destruct (persist_plain db t a b t' a' b' ra rb Hp Ia Ib Hne Ra Va Rb Vb Href EU) as (W & row & O' & -> & Hid & Hr).
    cbv zeta. rewrite W. split; [done|]. split; [by exists row|].
    destruct (UpdateBalances_amounts _ _ _ _ _ _ EU) as [Aa Ab]. rewrite Hw in Hbal. specialize (Hbal eq_refl).
    eexists _, _, _, _. split; [exact Hbal|]. cbn [ld_balances reframe].
    rewrite lookup_insert_ne, !lookup_insert_eq by done.
    split_and!; try done; apply projection_shows; try done; rewrite ?Ia, ?Ib; by rewrite (Hk _ _ Ra) || rewrite (Hk _ _ Rb).
Qed.
End Predict.

(** ** A payment that is previewed, and previews that are wrong *)
Module DryRunWitness.
Import LifecycleWitness RefineWitness FrontDoorWitness WorkerWitness.
#[local] Existing Instance DecimalInstance.dnum_ops.
#[local] Existing Instance DecimalInstance.dnum_laws.

(** Alice has 100; a payment from her, under either of her names, to the
    overdraft account. *)
Definition spend (source : string) (amount : Z) (ref : string) : Transaction :=
  {| order with t_TransactionID := "txn_" +:+ ref; t_Reference := ref; t_Source := source; t_Destination := "bln_1";
     t_AllowOverdraft := false; t_PreciseAmount := Some amount; t_AmountString := "" |}.
#[local] Notation preview := (PreviewTransaction gen ok_locks true).
Definition would_apply (r : ledger_db * result TransactionPreview) : option bool :=
  match snd r with Ok p => Some (pv_WouldApply p) | Err _ => None end.
#[local] Notation post t := (recordTransactionSingle gen ok_hooks ok_locks true 9 (posting t) false).
Definition message {A} (r : ledger_db * result A) : string := match snd r with Ok _ => "" | Err e => err_msg e end.

Lemma worked_keyed : keyed (fst worked).
Proof.
  assert (map_Forall (fun k row => b_BalanceID row = k) (ld_balances (fst worked))) as H.
  { apply (bool_decide_unpack _). vm_compute. exact I. }
  intros k row. apply H.
Qed.
Lemma spend_postable : postable (fst worked) (spend "bln_2" 60 "a").
Proof.
  split; try (vm_compute; reflexivity); try (split; vm_compute; discriminate); try (vm_compute; discriminate).
  - apply Forall_forall. apply (bool_decide_unpack _). vm_compute. exact I.
  - apply Forall_forall. apply (bool_decide_unpack _). vm_compute. exact I.
Qed.

(** 60 of alice's 100 are previewed, then posted. *)
Lemma preview_predicts_posting_witness :
  would_apply (preview (spend "bln_2" 60 "a") (fst worked)) = Some true /\
  exists ps rs, ld_balances (fst (post (spend "bln_2" 60 "a") (fst worked))) !! "bln_2"%string = Some rs /\
    shows ps rs /\ bp_ResultingBalance ps = "40"%string.
Proof.
  split; [vm_compute; reflexivity|].
  assert (match snd (preview (spend "bln_2" 60 "a") (fst worked)) with
          | Ok p => pv_WouldApply p = true /\ bp_ResultingBalance <$> head (pv_Balances p) = Some "40"%string
          | Err _ => False end) as X by (vm_compute; split; reflexivity).
  destruct (snd (PreviewTransaction gen ok_locks true (spend "bln_2" 60 "a") (fst worked))) as [p|e] eqn:E; [|destruct X].
  destruct X as [Hw Hb].
  assert (PreviewTransaction gen ok_locks true (spend "bln_2" 60 "a") (fst worked)
    = (fst (PreviewTransaction gen ok_locks true (spend "bln_2" 60 "a") (fst worked)), Ok p)) as E2
    by (rewrite <- E; apply surjective_pairing).
  pose proof (preview_predicts_posting gen ok_hooks ok_locks true 9 (fun _ => eq_refl) (fun _ => eq_refl)
    (fst worked) _ (spend "bln_2" 60 "a") p worked_keyed spend_postable E2) as H.
  destruct (recordTransactionSingle _ _ _ _ _ _ _ _) as [db' r]. rewrite Hw in H.
  destruct H as (_ & _ & ps & pd & rs & rd & Hl & Hrs & Hs & _). exists ps, rs. split; [exact Hrs|]. split; [exact Hs|].
  rewrite Hl in Hb. injection Hb as Hb. exact Hb.
Defined.

(** A debit of 80 is waiting in the queue. *)
Definition waiting : ledger_db := fst (enqueue_order (fst worked)
  {| order with t_Reference := "ref_5"; t_Source := "@alice"; t_Destination := "@world"; t_AllowOverdraft := false;
     t_PreciseAmount := Some 80; t_AmountString := "" |}).
(** Twice 80, once under each name. *)
Definition both : BulkTransactionRequest :=
  {| br_Transactions := [spend "@alice" 80 "c"; spend "bln_2" 80 "d"]; br_Inflight := false; br_Atomic := true; br_SkipQueue := true |}.

(** Two previews approve what the ledger refuses, because a balance is named
    by its indicator.  With queued checks on and 80 of alice's 100 waiting in
    the queue, a payment of 50 by her indicator is previewed as applying, though
    by her balance id it is not, and the executor refuses it for insufficient
    funds: the preview of an indicator does not load the queued amounts.  And a
    synchronous batch of two payments of 80, one by indicator and one by balance
    id, is previewed as applying, while creating it fails at the second: the
    balances of a projection are shared by identifier, not by balance. *)
Theorem preview_of_indicator_wrong :
  would_apply (preview (spend "@alice" 50 "b") waiting) = Some true /\
  would_apply (preview (spend "bln_2" 50 "b") waiting) = Some false /\
  message (post (spend "@alice" 50 "b") waiting)
    = "failed to apply transaction to balances: insufficient funds in source balance"%string /\
  (exists p, snd (PreviewBulkTransactions gen ok_locks true both false (fst worked)) = Ok p /\ bv_WouldApply p = true) /\
  Contains (message (CreateBulkTransactions to_float gen ok_hooks ok_locks true 9 no_queue ok_hooks ok_hooks ok_hooks
    legs_text refs_text None 100 master both (fst worked))) "insufficient funds in source balance" = true.
Proof.
  split; [vm_compute; reflexivity|]. split; [vm_compute; reflexivity|]. split; [vm_compute; reflexivity|].
  split; [eexists; split; vm_compute; reflexivity|]. vm_compute. reflexivity.
Qed.
End DryRunWitness.
