(* ===== verification/Filter.v ===== *)
(** * Query filters

    [internal/filter]: filters on listings, as they are parsed from the query
    string or decoded from a request, checked against the fields of a table, and
    turned into SQL conditions with numbered placeholders; and the listing
    queries of [database] that are built from them.  SQL text is kept as text,
    arguments as values.  [strconv.ParseFloat], [time.Parse] and
    [encoding/json.Marshal] are parameters.  White space is the ASCII one. *)
From stdpp Require Import base option list strings gmap.
From Stdlib Require Import ZArith Lia Ascii.
From S2P Require Import Prelude GoFloat Model GoTime Policy PolicyStore Access Store Engine Inflight.
Close Scope Q_scope.
Open Scope Z_scope.

(** ** Values *)

(** An instant: Unix nanoseconds, and the offset of its zone in seconds. *)
Record instant := { in_ns : Z; in_offset : Z }.

(** [interface{}]: what the parser and the JSON decoder produce, the timestamps
    of the parser, and [pq.Array] of strings. *)
Inductive value :=
| VNil | VInt (n : Z) | VFloat (f : float64) | VBool (b : bool) | VString (s : string)
| VTime (t : instant) | VTimestamp (t : instant) (original precision : string)
| VStrings (l : list string) | VOther (j : json).

Definition Operator : Type := string.
Definition OpEqual : Operator := "eq".
Definition OpNotEqual : Operator := "ne".
Definition OpGreaterThan : Operator := "gt".
Definition OpGreaterThanOrEqual : Operator := "gte".
Definition OpLessThan : Operator := "lt".
Definition OpLessThanOrEqual : Operator := "lte".
Definition OpIn : Operator := "in".
Definition OpBetween : Operator := "between".
Definition OpLike : Operator := "like".
Definition OpILike : Operator := "ilike".
Definition OpIsNull : Operator := "isnull".
Definition OpIsNotNull : Operator := "isnotnull".

Record QueryFilter := { f_Field : string; f_Operator : Operator; f_Value : value; f_Values : list value }.
Record QueryFilterSet := { fs_Filters : list QueryFilter; fs_LogicalOperator : string }.
Record QueryOptions := { qo_SortBy : string; qo_SortOrder : string; qo_IncludeCount : bool }.
Record BuildResult := {
  r_CTEs : list string; r_Conditions : list string; r_Args : list value; r_NextArgPos : Z; r_OrderBy : string }.
Record ParseOptions := { po_MaxFilters : Z; po_MaxInValues : Z; po_MaxCharLen : Z }.
Record ParseError := { pe_Param : string; pe_Message : string }.

Definition one_of (s : string) (l : list string) : bool := existsb (String.eqb s) l.

(** [DefaultSortOrder]. *)
Definition DefaultSortOrder (o : QueryOptions) : string :=
  if one_of (qo_SortOrder o) ["asc"; "desc"]%string then qo_SortOrder o else "desc".

(** [ResolveOperator], [ResolveLogicalOperator], [IsValidLogicalOperator] and
    [IsValidOperator]. *)
Definition ResolveOperator (s : string) : Operator :=
  let s := ToLower s in
  if String.eqb s "eq" then OpEqual
  else if one_of s ["ne"; "neq"]%string then OpNotEqual
  else if String.eqb s "gt" then OpGreaterThan
  else if one_of s ["gte"; "gteq"]%string then OpGreaterThanOrEqual
  else if String.eqb s "lt" then OpLessThan
  else if one_of s ["lte"; "lteq"]%string then OpLessThanOrEqual
  else if String.eqb s "in" then OpIn
  else if String.eqb s "between" then OpBetween
  else if String.eqb s "like" then OpLike
  else if String.eqb s "ilike" then OpILike
  else if String.eqb s "isnull" then OpIsNull
  else if String.eqb s "isnotnull" then OpIsNotNull
  else "".

Definition is_space (c : ascii) : bool :=
  let n := N_of_ascii c in ((9 <=? n) && (n <=? 13) || (n =? 32))%N.
Fixpoint trim_left (s : string) : string :=
  match s with String c r => if is_space c then trim_left r else s | EmptyString => EmptyString end.
Fixpoint trim_right (s : string) : string :=
  match s with
  | EmptyString => EmptyString
  | String c r => match trim_right r with
                  | EmptyString => if is_space c then EmptyString else String c EmptyString
                  | r' => String c r'
                  end
  end.
(** [strings.TrimSpace]. *)
Definition TrimSpace (s : string) : string := trim_right (trim_left s).

Definition LogicalAnd : string := "and".
Definition LogicalOr : string := "or".
Definition ResolveLogicalOperator (s : string) : string :=
  let s := ToLower (TrimSpace s) in
  if one_of s [""; "and"]%string then LogicalAnd else if String.eqb s "or" then LogicalOr else "".
Definition IsValidLogicalOperator (op : string) : bool := one_of op [""%string; LogicalAnd; LogicalOr].
Definition IsValidOperator (op : Operator) : bool :=
  one_of op [OpEqual; OpNotEqual; OpGreaterThan; OpGreaterThanOrEqual; OpLessThan; OpLessThanOrEqual;
             OpIn; OpBetween; OpLike; OpILike; OpIsNull; OpIsNotNull].

(** ** Timestamps *)

(** [getDatePrecisionFromString]. *)
Definition TrimSuffix (suffix s : string) : string :=
  let k := (String.length s - String.length suffix)%nat in
  if (String.length suffix <=? String.length s)%nat && String.eqb (String.substring k (String.length suffix) s) suffix
  then String.substring 0 k s else s.
Fixpoint before_sign (s : string) : string :=
  match s with
  | EmptyString => EmptyString
  | String c r => if Ascii.eqb c "+" || Ascii.eqb c "-" then EmptyString else String c (before_sign r)
  end.
Definition getDatePrecisionFromString (s : string) : string :=
  let fractional := match Split "." s with
                    | _ :: part :: _ => String.length (before_sign (TrimSuffix "Z" part))
                    | _ => O
                    end in
  if (6 <=? fractional)%nat then "microseconds"
  else if (1 <=? fractional)%nat then "milliseconds"
  else
    let colons := (length (Split ":" s) - 1)%nat in
    if (2 <=? colons)%nat then "second"
    else if (colons =? 1)%nat then "minute"
    else if Contains s "T" || Contains s " " then "hour"
    else "day".

(** [getDatePrecisionFromTime]; the clock is that of the instant's zone. *)
Definition getDatePrecisionFromTime (t : instant) : string :=
  let local := in_ns t + in_offset t * second in
  let ns := local mod second in
  if negb (ns mod 1000000 =? 0) then "microseconds"
  else if negb (ns =? 0) then "milliseconds"
  else if negb (local / second mod 60 =? 0) then "second"
  else if negb (local / (60 * second) mod 60 =? 0) then "minute"
  else if negb (local / (3600 * second) mod 24 =? 0) then "hour"
  else "day".

(** [computeTimestampRange]: [t.Truncate(d)] counts from the zero time, which is
    a whole number of hours before the epoch; a day begins at local midnight. *)
Definition precision_unit (precision : string) : Z :=
  if String.eqb precision "microseconds" then 1000
  else if String.eqb precision "milliseconds" then 1000000
  else if String.eqb precision "minute" then 60 * second
  else if String.eqb precision "hour" then 3600 * second
  else second.
Definition computeTimestampRange (t : instant) (precision : string) : instant * instant :=
  let at_ns n := {| in_ns := n; in_offset := in_offset t |} in
  if String.eqb precision "day" then
    let midnight := in_ns t - (in_ns t + in_offset t * second) mod day in
    (at_ns midnight, at_ns (midnight + day))
  else
    let unit := precision_unit precision in
    let floor := in_ns t - in_ns t mod unit in
    (at_ns floor, at_ns (floor + unit)).

(** ** Fields *)

(** [GetValidFieldsForTable]; an unknown table has none. *)
Definition GetValidFieldsForTable (table : string) : list string :=
  if String.eqb table "transactions" then
    ["transaction_id"; "parent_transaction"; "amount"; "currency"; "source"; "destination"; "balance_id"; "reference";
     "status"; "created_at"; "effective_date"; "indicator"; "description"; "precision"; "meta_data"]%string
  else if String.eqb table "balances" then
    ["balance_id"; "ledger_id"; "identity_id"; "indicator"; "currency"; "balance"; "credit_balance"; "debit_balance";
     "inflight_balance"; "inflight_credit_balance"; "inflight_debit_balance"; "created_at"; "meta_data"]%string
  else if String.eqb table "ledgers" then ["ledger_id"; "name"; "created_at"; "meta_data"]%string
  else if String.eqb table "identity" then
    ["identity_id"; "first_name"; "last_name"; "other_names"; "gender"; "dob"; "email_address"; "phone_number";
     "nationality"; "street"; "country"; "state"; "organization_name"; "category"; "identity_type"; "post_code";
     "city"; "created_at"; "meta_data"]%string
  else if String.eqb table "reconciliations" then
    ["reconciliation_id"; "upload_id"; "status"; "matched_transactions"; "unmatched_transactions"; "started_at";
     "completed_at"]%string
  else if String.eqb table "matching_rules" then ["rule_id"; "name"; "description"; "created_at"; "updated_at"]%string
  else if String.eqb table "external_transactions" then
    ["id"; "amount"; "reference"; "currency"; "description"; "date"; "source"; "upload_id"]%string
  else if String.eqb table "accounts" then
    ["account_id"; "name"; "number"; "bank_name"; "currency"; "ledger_id"; "identity_id"; "balance_id"; "created_at";
     "meta_data"]%string
  else [].
Definition GetSortableFieldsForTable (table : string) : list string := GetValidFieldsForTable table.
Definition GetDefaultSortField (table : string) : string := "created_at".

(** [jsonKeyRegex]: a letter, then letters, digits and underscores. *)
Definition isLetter (c : ascii) : bool :=
  let n := N_of_ascii c in ((97 <=? n) && (n <=? 122) || (65 <=? n) && (n <=? 90))%N.
Definition isDigit (c : ascii) : bool := is_digit c.
Definition is_key_char (c : ascii) : bool := isLetter c || isDigit c || Ascii.eqb c "_".
Fixpoint all_chars (p : ascii -> bool) (s : string) : bool :=
  match s with EmptyString => true | String c r => p c && all_chars p r end.
Definition jsonKeyRegex (s : string) : bool :=
  match s with EmptyString => false | String c r => isLetter c && all_chars is_key_char r end.

(** [ValidateSortField] and [ValidateSortByForTable]. *)
Definition ValidateSortField (sortBy table : string) : result unit :=
  if String.eqb sortBy "" then Ok tt
  else match GetSortableFieldsForTable table with
  | [] => Err (errors_New ("sorting not supported for table: " +:+ table))
  | fields => if one_of sortBy fields then Ok tt
              else Err (errors_New ("cannot sort by '" +:+ sortBy +:+ "' for table '" +:+ table +:+ "': field is not filterable"))
  end.
Definition ValidateSortByForTable (o : QueryOptions) (table : string) : result QueryOptions :=
  if String.eqb (qo_SortBy o) "" then Ok o
  else
    let sortBy := ToLower (TrimSpace (qo_SortBy o)) in
    if one_of sortBy (GetValidFieldsForTable table) then Ok {| o with qo_SortBy := sortBy |}
    else Err (errors_New "invalid sort_by field").

Definition MetaPrefix : string := "meta_data.".
Definition after_prefix (p s : string) : string := String.substring (String.length p) (String.length s - String.length p) s.

(** [Validate]: one filter, and a set. *)
Definition validate_filter (table : string) (validFields : list string) (f : QueryFilter) : result unit :=
  let op := f_Operator f in
  if negb (IsValidOperator op)
  then Err (errors_New ("invalid operator '" +:+ op +:+ "' for field '" +:+ f_Field f
         +:+ "': must be one of eq, ne, gt, gte, lt, lte, in, between, like, ilike, isnull, isnotnull"))
  else if String.eqb op OpIn && (length (f_Values f) =? 0)%nat
  then Err (errors_New ("operator 'in' for field '" +:+ f_Field f +:+ "' requires at least one value in 'values'"))
  else if String.eqb op OpBetween && negb (length (f_Values f) =? 2)%nat
  then Err (errors_New ("operator 'between' for field '" +:+ f_Field f +:+ "' requires exactly two values in 'values', got "
         +:+ itoa (Z.of_nat (length (f_Values f)))))
  else if String.eqb table "transactions" && String.eqb (f_Field f) "balance_id"
          && negb (one_of op [OpEqual; OpNotEqual; OpIn; OpIsNull; OpIsNotNull])
  then Err (errors_New ("operator '" +:+ op +:+ "' is not supported for field 'balance_id' on transactions: must be one of eq, ne, in, isnull, isnotnull"))
  else if HasPrefix (f_Field f) MetaPrefix && one_of "meta_data" validFields then
    let key := after_prefix MetaPrefix (f_Field f) in
    if jsonKeyRegex key then Ok tt
    else Err (errors_New ("invalid JSON key '" +:+ key +:+ "' in field '" +:+ f_Field f +:+ "': must match pattern ^[a-zA-Z][a-zA-Z0-9_]*$"))
  else if one_of (f_Field f) validFields then Ok tt
  else Err (errors_New ("invalid field '" +:+ f_Field f +:+ "' for table '" +:+ table +:+ "'")).
Definition Validate (filters : option QueryFilterSet) (table : string) : result unit :=
  match filters with
  | None => Ok tt
  | Some fs =>
      if negb (IsValidLogicalOperator (fs_LogicalOperator fs))
      then Err (errors_New ("invalid logical_operator '" +:+ fs_LogicalOperator fs +:+ "': must be 'and' or 'or'"))
      else match GetValidFieldsForTable table with
      | [] => Err (errors_New ("unsupported table for advanced filtering: " +:+ table))
      | validFields => fold_res (fun _ f => validate_filter table validFields f) (fs_Filters fs) tt
      end
  end.

(** ** Conditions *)

Definition extractValueForSQL (v : value) : value := match v with VTimestamp t _ _ => VTime t | _ => v end.
Definition isStringArray (l : list value) : bool := forallb (fun v => match v with VString _ => true | _ => false end) l.
(** [convertToStringArray], on strings only. *)
Definition convertToStringArray (l : list value) : list string :=
  (fun v => match v with VString s => s | _ => "" end) <$> l.
(** [f.Value.(TimestampValue)] or [f.Value.(time.Time)]: the range of an instant. *)
Definition timestamp_range (v : value) : option (instant * instant) :=
  match v with
  | VTimestamp t _ precision => Some (computeTimestampRange t precision)
  | VTime t => Some (computeTimestampRange t (getDatePrecisionFromTime t))
  | _ => None
  end.

(** [$n], and [$n, $n+1, ...]. *)
Definition placeholder (n : Z) : string := "$" +:+ itoa n.
Definition placeholders (pos : Z) (k : nat) : string :=
  String.concat ", " ((fun i => placeholder (pos + Z.of_nat i)) <$> seq 0 k).
Definition qualified (alias field : string) : string := if String.eqb alias "" then field else alias +:+ "." +:+ field.

(** The infix operators that take one value. *)
Definition infix (op : Operator) : option string :=
  if String.eqb op OpEqual then Some " = "%string
  else if String.eqb op OpNotEqual then Some " != "%string
  else if String.eqb op OpGreaterThan then Some " > "%string
  else if String.eqb op OpGreaterThanOrEqual then Some " >= "%string
  else if String.eqb op OpLessThan then Some " < "%string
  else if String.eqb op OpLessThanOrEqual then Some " <= "%string
  else if String.eqb op OpLike then Some " LIKE "%string
  else if String.eqb op OpILike then Some " ILIKE "%string
  else None.

(** A condition with its arguments and the next position.  Where the code leaves
    its results unset the condition is empty. *)
Definition fragment : Type := string * list value * Z.
Definition no_fragment (pos : Z) : fragment := (""%string, [], pos).

(** The operators on a column, as [buildStandardCondition] and
    [buildIndicatorCondition] have them, but for ranges of timestamps. *)
Definition column_condition (column : string) (f : QueryFilter) (pos : Z) : fragment :=
  let op := f_Operator f in
  match infix op with
  | Some symbol => (column +:+ symbol +:+ placeholder pos, [extractValueForSQL (f_Value f)], pos + 1)
  | None =>
    if String.eqb op OpIn then
      if (length (f_Values f) =? 0)%nat then (""%string, [], 0)
      else if isStringArray (f_Values f)
      then (column +:+ " = ANY(" +:+ placeholder pos +:+ ")", [VStrings (convertToStringArray (f_Values f))], pos + 1)
      else (column +:+ " IN (" +:+ placeholders pos (length (f_Values f)) +:+ ")", extractValueForSQL <$> f_Values f,
            pos + Z.of_nat (length (f_Values f)))
    else if String.eqb op OpBetween then
      match f_Values f with
      | [a; b] => (column +:+ " BETWEEN " +:+ placeholder pos +:+ " AND " +:+ placeholder (pos + 1),
                   [extractValueForSQL a; extractValueForSQL b], pos + 2)
      | _ => (""%string, [], 0)
      end
    else if String.eqb op OpIsNull then (column +:+ " IS NULL", [], pos)
    else if String.eqb op OpIsNotNull then (column +:+ " IS NOT NULL", [], pos)
    else no_fragment pos
  end.

(** [safeColumnForTableAndField]: the constant that equals the field. *)
Definition safeColumnForTableAndField (table field : string) : string :=
  default "" (List.find (String.eqb field) (GetValidFieldsForTable table)).

(** [buildStandardCondition]. *)
Definition range_condition (column : string) (r : instant * instant) (pos : Z) : fragment :=
  (column +:+ " >= " +:+ placeholder pos +:+ " AND " +:+ column +:+ " < " +:+ placeholder (pos + 1),
   [VTime r.1; VTime r.2], pos + 2).
Definition buildStandardCondition (f : QueryFilter) (table alias : string) (pos : Z) : fragment :=
  let safeField := safeColumnForTableAndField table (f_Field f) in
  if String.eqb safeField "" then no_fragment pos
  else
    let column := qualified alias safeField in
    if String.eqb (f_Operator f) OpEqual then
      match timestamp_range (f_Value f) with
      | Some r => range_condition column r pos
      | None => column_condition column f pos
      end
    else column_condition column f pos.

(** [buildBalanceIdCondition]. *)
Definition buildBalanceIdCondition (f : QueryFilter) (alias : string) (pos : Z) : fragment :=
  let src := qualified alias "source" in
  let dst := qualified alias "destination" in
  let op := f_Operator f in
  if String.eqb op OpEqual
  then ("(" +:+ src +:+ " = " +:+ placeholder pos +:+ " OR " +:+ dst +:+ " = " +:+ placeholder pos +:+ ")",
        [extractValueForSQL (f_Value f)], pos + 1)
  else if String.eqb op OpNotEqual
  then ("(" +:+ src +:+ " != " +:+ placeholder pos +:+ " AND " +:+ dst +:+ " != " +:+ placeholder pos +:+ ")",
        [extractValueForSQL (f_Value f)], pos + 1)
  else if String.eqb op OpIn then
    if (length (f_Values f) =? 0)%nat then (""%string, [], 0)
    else if isStringArray (f_Values f)
    then ("(" +:+ src +:+ " = ANY(" +:+ placeholder pos +:+ ") OR " +:+ dst +:+ " = ANY(" +:+ placeholder pos +:+ "))",
          [VStrings (convertToStringArray (f_Values f))], pos + 1)
    else
      let ph := placeholders pos (length (f_Values f)) in
      ("(" +:+ src +:+ " IN (" +:+ ph +:+ ") OR " +:+ dst +:+ " IN (" +:+ ph +:+ "))", extractValueForSQL <$> f_Values f,
       pos + Z.of_nat (length (f_Values f)))
  else if String.eqb op OpIsNull then ("(" +:+ src +:+ " IS NULL AND " +:+ dst +:+ " IS NULL)", [], pos)
  else if String.eqb op OpIsNotNull then ("(" +:+ src +:+ " IS NOT NULL OR " +:+ dst +:+ " IS NOT NULL)", [], pos)
  else no_fragment pos.

(** [buildIndicatorCondition]: the condition, and the common table expression
    that its arguments are in. *)
Definition buildIndicatorCondition (f : QueryFilter) (alias : string) (pos : Z) : fragment * list string :=
  let '(sub, args, next) := column_condition "b.indicator" f pos in
  if String.eqb sub "" then (no_fragment pos, [])
  else (("(" +:+ qualified alias "source" +:+ " IN (SELECT balance_id FROM _indicator_matches) OR "
         +:+ qualified alias "destination" +:+ " IN (SELECT balance_id FROM _indicator_matches))", args, next),
        ["_indicator_matches AS (SELECT b.balance_id FROM ledgerforge.balances b WHERE " +:+ sub +:+ ")"]).

(** [resolveJSONColumn] and [sanitizeJSONKey]. *)
Definition resolveJSONColumn (col : string) : string := if String.eqb col "meta_data" then "meta_data" else "".
Definition sanitizeJSONKey (key : string) : string := if jsonKeyRegex key then key else "".
Definition bool_text (v : value) : value :=
  match v with VBool b => VString (if b then "true" else "false") | _ => extractValueForSQL v end.
(** [strings.SplitN(s, ".", 2)]. *)
Definition SplitDot (s : string) : option (string * string) :=
  match String.index 0 "." s with
  | Some k => Some (String.substring 0 k s, String.substring (S k) (String.length s - S k) s)
  | None => None
  end.
(** The comparisons that cast to a number. *)
Definition numeric_infix (op : Operator) : option string :=
  if one_of op [OpGreaterThan; OpGreaterThanOrEqual; OpLessThan; OpLessThanOrEqual] then infix op else None.

Section Build.
(** [json.Marshal] of the one-key object; it fails on what JSON cannot hold. *)
Variable json_Marshal : string -> value -> option string.

(** [buildJSONPathCondition]. *)
Definition json_condition (col key : string) (f : QueryFilter) (pos : Z) : fragment :=
  let op := f_Operator f in
  let text := col +:+ "->>'" +:+ key +:+ "'" in
  let one symbol arg := (text +:+ symbol +:+ placeholder pos, [arg], pos + 1) in
  if String.eqb op OpEqual then
    match timestamp_range (f_Value f) with
    | Some r => (("(" +:+ text +:+ ")::timestamp >= " +:+ placeholder pos +:+ " AND (" +:+ text +:+ ")::timestamp < "
                  +:+ placeholder (pos + 1)), [VTime r.1; VTime r.2], pos + 2)
    | None =>
        match json_Marshal key (f_Value f) with
        | None => no_fragment pos
        | Some bytes => (col +:+ " @> " +:+ placeholder pos +:+ "::jsonb", [VString bytes], pos + 1)
        end
    end
  else if String.eqb op OpNotEqual then one " != "%string (bool_text (f_Value f))
  else match numeric_infix op with
  | Some symbol => ("(" +:+ text +:+ ")::numeric" +:+ symbol +:+ placeholder pos, [extractValueForSQL (f_Value f)], pos + 1)
  | None =>
    if String.eqb op OpLike then one " LIKE "%string (extractValueForSQL (f_Value f))
    else if String.eqb op OpILike then one " ILIKE "%string (extractValueForSQL (f_Value f))
    else if String.eqb op OpIn then
      if (length (f_Values f) =? 0)%nat then (""%string, [], 0)
      else (text +:+ " IN (" +:+ placeholders pos (length (f_Values f)) +:+ ")", bool_text <$> f_Values f,
            pos + Z.of_nat (length (f_Values f)))
    else if String.eqb op OpBetween then
      match f_Values f with
      | [a; b] => ("(" +:+ text +:+ ")::numeric BETWEEN " +:+ placeholder pos +:+ " AND " +:+ placeholder (pos + 1),
                   [extractValueForSQL a; extractValueForSQL b], pos + 2)
      | _ => (""%string, [], 0)
      end
    else if String.eqb op OpIsNull
    then ("(" +:+ text +:+ " IS NULL OR " +:+ col +:+ " ? '" +:+ key +:+ "' = false)", [], pos)
    else if String.eqb op OpIsNotNull
    then ("(" +:+ text +:+ " IS NOT NULL AND " +:+ col +:+ " ? '" +:+ key +:+ "' = true)", [], pos)
    else no_fragment pos
  end.
Definition buildJSONPathCondition (f : QueryFilter) (alias : string) (pos : Z) : fragment :=
  match SplitDot (f_Field f) with
  | None => no_fragment pos
  | Some (c, k) =>
      let jsonCol := resolveJSONColumn c in
      let jsonKey := sanitizeJSONKey k in
      if String.eqb jsonCol "" || String.eqb jsonKey "" then no_fragment pos
      else json_condition (qualified alias jsonCol) jsonKey f pos
  end.

(** The condition of one filter in [Build]. *)
Definition build_filter (table alias : string) (f : QueryFilter) (pos : Z) : fragment * list string :=
  if Contains (f_Field f) "." && HasPrefix (f_Field f) "meta_data" then (buildJSONPathCondition f alias pos, [])
  else if String.eqb (f_Field f) "balance_id" && String.eqb table "transactions" then (buildBalanceIdCondition f alias pos, [])
  else if String.eqb (f_Field f) "indicator" && String.eqb table "transactions" then buildIndicatorCondition f alias pos
  else (buildStandardCondition f table alias pos, []).

(** [Build]. *)
Definition add_filter (table alias : string) (r : BuildResult) (f : QueryFilter) : BuildResult :=
  let '((cond, args, next), ctes) := build_filter table alias f (r_NextArgPos r) in
  if String.eqb cond "" then r
  else {| r with r_Conditions := r_Conditions r ++ [cond]; r_Args := r_Args r ++ args; r_NextArgPos := next;
          r_CTEs := r_CTEs r ++ ctes |}.
Definition start_result (pos : Z) : BuildResult :=
  {| r_CTEs := []; r_Conditions := []; r_Args := []; r_NextArgPos := pos; r_OrderBy := "" |}.
Definition Build (filters : option QueryFilterSet) (table alias : string) (start : Z) : result BuildResult :=
  match filters with
  | None => Ok (start_result start)
  | Some fs =>
      match fs_Filters fs with
      | [] => Ok (start_result start)
      | l => let* _ := Validate filters table in Ok (foldl (add_filter table alias) (start_result start) l)
      end
  end.

(** [BuildConditionExpression]. *)
Definition BuildConditionExpression (conditions : list string) (logicalOperator : string) : string :=
  if String.eqb logicalOperator LogicalOr
  then String.concat " OR " ((fun c => "(" +:+ c +:+ ")") <$> conditions)
  else String.concat " AND " conditions.

(** [safeColumnForSort], [ResolveSortField] and [BuildOrderBy]. *)
Definition safeColumnForSort (table field : string) : string :=
  let col := safeColumnForTableAndField table field in
  if String.eqb col "" then GetDefaultSortField table else col.
Definition ResolveSortField (table sortBy : string) : string :=
  let normalized := ToLower (TrimSpace sortBy) in
  if String.eqb normalized "" then GetDefaultSortField table
  else if negb (one_of normalized (GetValidFieldsForTable table)) then GetDefaultSortField table
  else safeColumnForSort table normalized.
Definition BuildOrderBy (sortBy sortOrder table alias : string) : string :=
  qualified alias (ResolveSortField table sortBy) +:+ " " +:+ (if String.eqb sortOrder "asc" then "ASC" else "DESC").

(** [BuildWithOptions]. *)
Definition BuildWithOptions (filters : option QueryFilterSet) (table alias : string) (start : Z)
    (opts : option QueryOptions) : result BuildResult :=
  let* r := Build filters table alias start in
  match opts with
  | None => Ok {| r with r_OrderBy := BuildOrderBy "" "desc" table alias |}
  | Some o =>
      let* _ := ValidateSortField (qo_SortBy o) table in
      Ok {| r with r_OrderBy := BuildOrderBy (qo_SortBy o) (DefaultSortOrder o) table alias |}
  end.

(** ** The listings *)

(** A table with the columns that are listed and the default and largest limit. *)
Record listing := { ls_table : string; ls_fields : string; ls_default : Z; ls_max : Z }.
Definition newline_tabs (k : nat) : string := String (ascii_of_nat 10) (String.concat "" (replicate k (String (ascii_of_nat 9) ""))).

(** The statement and its arguments, as [GetAllTransactionsWithFilterAndOptions]
    and its like for balances, ledgers, accounts and identities build them.
    Only transactions have common table expressions. *)
Definition listing_query (l : listing) (filters : option QueryFilterSet) (opts : option QueryOptions) (limit offset : Z)
    : result (string * list value) :=
  let limit := if (limit <=? 0) || (ls_max l <? limit) then ls_default l else limit in
  let opts := default {| qo_SortBy := ""; qo_SortOrder := ""; qo_IncludeCount := false |} opts in
  match ValidateSortByForTable opts (ls_table l) with
  | Err _ => Err (NewAPIError "BAD_REQUEST" "Invalid sort_by field" None)
  | Ok opts =>
      match BuildWithOptions filters (ls_table l) "" 1 (Some opts) with
      | Err e => Err (NewAPIError "BAD_REQUEST" ("Invalid filter: " +:+ err_msg e) (Some e))
      | Ok r =>
          let fields := ls_fields l +:+ (if qo_IncludeCount opts then ", COUNT(*) OVER() AS total_count" else "") in
          let base := newline_tabs 2 +:+ "SELECT " +:+ fields +:+ newline_tabs 2 +:+ "FROM ledgerforge." +:+ ls_table l +:+ newline_tabs 1 in
          let operator := match filters with Some fs => fs_LogicalOperator fs | None => LogicalAnd end in
          let base := match r_Conditions r with
                      | [] => base
                      | cs => base +:+ " WHERE " +:+ BuildConditionExpression cs operator
                      end in
          let base := match r_CTEs r with [] => base | ctes => "WITH " +:+ String.concat ", " ctes +:+ " " +:+ base end in
          Ok (base +:+ " ORDER BY " +:+ r_OrderBy r +:+ " LIMIT " +:+ placeholder (r_NextArgPos r)
                +:+ " OFFSET " +:+ placeholder (r_NextArgPos r + 1), r_Args r ++ [VInt limit; VInt offset])
      end
  end.
Definition transactions_listing : listing := {| ls_table := "transactions"; ls_default := 1000; ls_max := 1000;
  ls_fields := "transaction_id, source, reference, amount, precise_amount, precision, currency, destination, description, status, hash, created_at, effective_date, ledgerforge.transaction_metadata(transaction_id, meta_data) AS meta_data, COALESCE(parent_transaction, '') AS parent_transaction" |}.
Definition balances_listing : listing := {| ls_table := "balances"; ls_default := 1000; ls_max := 1000;
  ls_fields := "balance_id, indicator, balance, credit_balance, debit_balance, inflight_balance, inflight_credit_balance, inflight_debit_balance, currency, ledger_id, COALESCE(identity_id, '') as identity_id, created_at, meta_data" |}.
Definition ledgers_listing : listing := {| ls_table := "ledgers"; ls_default := 20; ls_max := 100;
  ls_fields := "ledger_id, name, created_at, meta_data" |}.
Definition accounts_listing : listing := {| ls_table := "accounts"; ls_default := 20; ls_max := 100;
  ls_fields := "account_id, name, number, bank_name, currency, ledger_id, identity_id, balance_id, created_at, meta_data" |}.
Definition identities_listing : listing := {| ls_table := "identity"; ls_default := 20; ls_max := 100;
  ls_fields := "identity_id, identity_type, first_name, last_name, other_names, gender, dob, email_address, phone_number, nationality, organization_name, category, street, country, state, post_code, city, created_at, meta_data" |}.
Definition listings : list listing :=
  [transactions_listing; balances_listing; ledgers_listing; accounts_listing; identities_listing].
End Build.

(** ** The parser *)

(** [strconv.ParseInt(s, 10, 64)]. *)
Definition ParseInt (s : string) : option Z :=
  let '(neg, digits) := match s with
                        | String c r => if Ascii.eqb c "-" then (true, r) else if Ascii.eqb c "+" then (false, r) else (false, s)
                        | EmptyString => (false, s)
                        end in
  if String.eqb digits "" || negb (all_digits digits) then None
  else
    let n := if neg then - digits_val digits else digits_val digits in
    if (- 2 ^ 63 <=? n) && (n <? 2 ^ 63) then Some n else None.

(** The formats of [ParseDateTime]. *)
Definition date_formats : list string :=
  ["2006-01-02T15:04:05.999999999Z07:00"; "2006-01-02T15:04:05Z07:00"; "2006-01-02T15:04:05.999999999";
   "2006-01-02T15:04:05.999999"; "2006-01-02T15:04:05.999"; "2006-01-02T15:04:05"; "2006-01-02T15:04";
   "2006-01-02 15:04:05.999999999"; "2006-01-02 15:04:05.999999"; "2006-01-02 15:04:05.999"; "2006-01-02 15:04:05";
   "2006-01-02 15:04"; "2006-01-02"; "2006/01/02"]%string.
Definition reservedParams : list string :=
  ["page"; "pagesize"; "per_page"; "limit"; "offset"; "sort"; "order"; "order_by"; "order_dir"; "logical_operator";
   "instance_id"; "org_id"]%string.
Definition isReservedParam (param : string) : bool := one_of (ToLower param) reservedParams.

Section Parser.
Variable ParseFloat : string -> option float64.
Variable time_Parse : string -> string -> option instant.

(** [ParseDateTime] and [parseValue]. *)
Definition ParseDateTime (s : string) : option instant := head (omap (fun format => time_Parse format s) date_formats).
Definition parseValue (s : string) : value :=
  match ParseInt s with
  | Some n => VInt n
  | None =>
    match ParseFloat s with
    | Some f => VFloat f
    | None =>
      if String.eqb s "true" then VBool true
      else if String.eqb s "false" then VBool false
      else match ParseDateTime s with
      | Some t => VTimestamp t s (getDatePrecisionFromString s)
      | None => VString s
      end
    end
  end.

(** The values of a filter, or the message of a refusal. *)
Definition parse_values (op : Operator) (maxInValues : Z) (v : string) : value * list value + string :=
  if String.eqb op OpBetween then
    match Split "|" v with
    | [a; b] => inl (VNil, [parseValue a; parseValue b])
    | _ => inr "between operator requires exactly 2 pipe-separated values (value1|value2)"%string
    end
  else if String.eqb op OpIn then
    let l := Split "," v in
    if maxInValues <? Z.of_nat (length l)
    then inr ("IN operator exceeds maximum values (" +:+ itoa maxInValues +:+ ")")
    else inl (VNil, (fun s => parseValue (TrimSpace s)) <$> l)
  else if one_of op [OpIsNull; OpIsNotNull] then inl (VNil, [])
  else inl (parseValue v, []).

(** One parameter of [ParseFromQuery]: the filters and the errors so far.  A key
    is a field and an operator around its last underscore. *)
Definition split_key (key : string) : option (string * string) :=
  match rev (Split "_" key) with
  | op :: (_ :: _) as fields => Some (String.concat "_" (rev fields), op)
  | _ => None
  end.
Definition parse_param (o : ParseOptions) (acc : list QueryFilter * list ParseError) (param : string * list string)
    : list QueryFilter * list ParseError :=
  let '(filters, errors) := acc in
  let '(key, values) := param in
  let refuse msg := (filters, errors ++ [{| pe_Param := key; pe_Message := msg |}]) in
  match values with
  | [] => acc
  | v :: _ =>
    if isReservedParam key then acc
    else match split_key key with
    | None => acc
    | Some (field, opText) =>
      let op := ResolveOperator opText in
      if String.eqb op "" then acc
      else if po_MaxFilters o <=? Z.of_nat (length filters)
      then refuse ("exceeded maximum number of filters (" +:+ itoa (po_MaxFilters o) +:+ ")")
      else if po_MaxCharLen o <? Z.of_nat (String.length v)
      then refuse ("value exceeds maximum length (" +:+ itoa (po_MaxCharLen o) +:+ " chars)")
      else match parse_values op (po_MaxInValues o) v with
      | inr msg => refuse msg
      | inl (single, several) =>
          (filters ++ [{| f_Field := field; f_Operator := op; f_Value := single; f_Values := several |}], errors)
      end
    end
  end.

(** [ParseFromQuery]; the parameters come in the order the map is iterated in. *)
Definition positive_or (d n : Z) : Z := if 0 <? n then n else d.
Definition limits (opts : option ParseOptions) : ParseOptions :=
  match opts with
  | None => {| po_MaxFilters := 20; po_MaxInValues := 100; po_MaxCharLen := 1000 |}
  | Some o => {| po_MaxFilters := positive_or 20 (po_MaxFilters o); po_MaxInValues := positive_or 100 (po_MaxInValues o);
                 po_MaxCharLen := positive_or 1000 (po_MaxCharLen o) |}
  end.
Definition ParseFromQuery (params : list (string * list string)) (opts : option ParseOptions)
    : QueryFilterSet * list ParseError :=
  let raw := TrimSpace (default "" (kv ← List.find (fun kv => String.eqb kv.1 "logical_operator") params; head kv.2)) in
  let resolved := ResolveLogicalOperator raw in
  let '(operator, errors) :=
    if String.eqb raw "" then (LogicalAnd, [])
    else if String.eqb resolved ""
    then (LogicalAnd, [{| pe_Param := "logical_operator"; pe_Message := "invalid logical_operator: must be 'and' or 'or'" |}])
    else (resolved, []) in
  let '(filters, errors) := foldl (parse_param (limits opts)) ([], errors) params in
  ({| fs_Filters := filters; fs_LogicalOperator := operator |}, errors).
End Parser.
