(* ===== verification/FilterFacts.v ===== *)
(** * What the filters promise

    A listing is a prepared statement: its text has one placeholder for each
    argument and does not depend on the values that are filtered for.  Every
    filter of an accepted set is a condition of the statement, but for values
    that have no JSON text, and what the parser lets through is bounded. *)
From stdpp Require Import base option list strings gmap.
From Stdlib Require Import ZArith Lia Ascii SpecFloat.
From S2P Require Import Prelude GoFloat Model GoTime Access Engine Inflight Filter.
Close Scope Q_scope.
Open Scope Z_scope.

(** ** Placeholders in a text *)

(** [$] followed by digits, read from left to right; the state is the number
    being read. *)
Fixpoint scan (st : option Z) (s : string) : option Z * list Z :=
  match s with
  | EmptyString => (st, [])
  | String c r =>
      match st with
      | Some n => if is_digit c then scan (Some (n * 10 + digit_val c)) r
                  else let '(st', l) := scan (if Ascii.eqb c "$" then Some 0 else None) r in (st', n :: l)
      | None => scan (if Ascii.eqb c "$" then Some 0 else None) r
      end
  end.
Definition dollars (s : string) : list Z := let '(st, l) := scan None s in l ++ option_list st.

Definition plain (s : string) : bool := all_chars (fun c => negb (Ascii.eqb c "$")) s.

Lemma scan_app st s1 s2 :
  scan st (s1 +:+ s2) = let '(st1, l1) := scan st s1 in let '(st2, l2) := scan st1 s2 in (st2, l1 ++ l2).
Proof.
  revert st. induction s1 as [|c s1 IH]; intros st.
  { change ("" +:+ s2) with s2. cbn [scan]. by destruct (scan st s2). }
  change (String c s1 +:+ s2) with (String c (s1 +:+ s2)). cbn [scan].
  destruct st as [n|]; [destruct (is_digit c)|]; rewrite IH; [done| |done].
  destruct (scan _ s1) as [st1 l1]. by destruct (scan st1 s2).
Qed.

Lemma scan_plain s : plain s = true -> scan None s = (None, []).
Proof.
  unfold plain. induction s as [|c s IH]; [done|]. cbn [all_chars scan]. intros [H1 H2]%andb_true_iff.
  apply negb_true_iff in H1. rewrite H1. auto.
Qed.

Lemma dollars_plain s1 s2 : plain s1 = true -> dollars (s1 +:+ s2) = dollars s2.
Proof. intros H. unfold dollars. rewrite scan_app, (scan_plain s1 H). by destruct (scan None s2). Qed.

Lemma dollars_only s : plain s = true -> dollars s = [].
Proof. intros H. unfold dollars. by rewrite (scan_plain s H). Qed.

(** A text that does not begin with a digit ends the number before it. *)
Definition no_digit (s : string) : bool := match s with String c _ => negb (is_digit c) | EmptyString => true end.
Lemma dollars_sep s1 s2 : no_digit s2 = true -> dollars (s1 +:+ s2) = dollars s1 ++ dollars s2.
Proof.
  intros H. unfold dollars. rewrite scan_app. destruct (scan None s1) as [[n|] l1].
  - destruct s2 as [|c s2]; cbn [scan]; [by rewrite !app_nil_r|]. cbn [no_digit] in H. apply negb_true_iff in H. rewrite H.
    destruct (scan _ s2) as [st l]. by rewrite <- !app_assoc.
  - destruct (scan None s2) as [st l]. cbn [option_list]. by rewrite <- !app_assoc.
Qed.

Lemma scan_digits s n : all_digits s = true -> scan (Some n) s = (Some (digits_val_acc n s), []).
Proof.
  revert n. induction s as [|c s IH]; intros n; [done|]. cbn [all_digits scan digits_val_acc].
  intros [H1 H2]%andb_true_iff. rewrite H1, IH by done. do 3 f_equal. lia.
Qed.

Lemma dollars_placeholder n : 0 <= n -> dollars (placeholder n) = [n].
Proof.
  intros Hn. unfold placeholder, itoa, dollars. destruct (n <? 0) eqn:E; [apply Z.ltb_lt in E; lia|].
  destruct (utoa_spec n Hn) as (H1 & H2 & _).
  assert (scan None ("$" +:+ utoa n) = scan (Some 0) (utoa n)) as -> by done.
  rewrite scan_digits by done. unfold digits_val in H2. by rewrite H2.
Qed.

Lemma dollars_concat sep l : no_digit sep = true -> sep <> ""%string -> plain sep = true ->
  dollars (String.concat sep l) = mjoin (dollars <$> l).
Proof.
  intros H1 H0 H2. induction l as [|s l IH]; [done|]. destruct l as [|s' l]; [cbn; by rewrite app_nil_r|].
  change (String.concat sep (s :: s' :: l)) with (s +:+ (sep +:+ String.concat sep (s' :: l))).
  rewrite dollars_sep by (by destruct sep). rewrite dollars_plain, IH by done. done.
Qed.

Lemma dollars_placeholders pos k : 0 <= pos -> dollars (placeholders pos k) = seqZ pos (Z.of_nat k).
Proof.
  intros Hp. unfold placeholders. rewrite dollars_concat by done. unfold seqZ. rewrite Nat2Z.id.
  induction (seq 0 k) as [|i ks IH]; [done|]. rewrite !fmap_cons. cbn [mjoin list_join mbind]. rewrite dollars_placeholder by lia.
  cbn. by rewrite <- IH, Z.add_comm.
Qed.

(** ** One filter *)

(** The arguments of a condition are those its placeholders ask for. *)
Definition fragment_ok (pos : Z) (fr : fragment) (ctes : list string) : Prop :=
  let '(cond, args, next) := fr in
  cond <> ""%string -> next = pos + Z.of_nat (length args) /\
    forall n, n ∈ dollars cond ++ mjoin (dollars <$> ctes) <-> pos <= n < next.

(** Read the placeholders of a text from its pieces. *)
Ltac read_placeholders :=
  rewrite <- ?string_app_assoc;
  repeat first [rewrite dollars_plain by (done || assumption)
               |rewrite dollars_placeholder by lia
               |rewrite dollars_placeholders by lia
               |rewrite dollars_only by (done || assumption)
               |rewrite dollars_sep by done].
Ltac fragment :=
  intros _; split; [cbn [length]; rewrite ?length_fmap; lia|intros m; rewrite ?app_nil_r; read_placeholders; cbn [fmap list_fmap mjoin list_join];
    rewrite ?app_nil_r, ?elem_of_app, ?elem_of_seqZ, ?list_elem_of_singleton, ?elem_of_nil; lia].

Lemma column_condition_ok column f pos : plain column = true -> 0 <= pos -> fragment_ok pos (column_condition column f pos) [].
Proof.
  intros Hc Hp. unfold column_condition, fragment_ok.
  destruct (infix (f_Operator f)) as [symbol|] eqn:Ei.
  { assert (plain symbol = true) as Hs by (unfold infix in Ei; repeat case_match; by simplify_eq). fragment. }
  destruct (String.eqb (f_Operator f) OpIn).
  { destruct (length (f_Values f) =? 0)%nat; [done|]. destruct (isStringArray (f_Values f)); fragment. }
  destruct (String.eqb (f_Operator f) OpBetween).
  { destruct (f_Values f) as [|a [|b [|]]]; try done. fragment. }
  destruct (String.eqb (f_Operator f) OpIsNull); [fragment|].
  destruct (String.eqb (f_Operator f) OpIsNotNull); [fragment|done].
Qed.

Lemma plain_app s1 s2 : plain (s1 +:+ s2) = plain s1 && plain s2.
Proof.
  induction s1 as [|c s1 IH]; [done|]. change (String c s1 +:+ s2) with (String c (s1 +:+ s2)).
  unfold plain in *. cbn [all_chars]. by rewrite IH, andb_assoc.
Qed.
Lemma plain_qualified alias field : plain alias = true -> plain field = true -> plain (qualified alias field) = true.
Proof. intros H1 H2. unfold qualified. destruct (String.eqb alias ""); [done|]. by rewrite !plain_app, H1, H2. Qed.

(** The columns of the tables are plain names. *)
Lemma valid_fields_plain table : Forall (fun c => plain c = true) (GetValidFieldsForTable table).
Proof. unfold GetValidFieldsForTable. repeat case_match; repeat constructor. Qed.
Lemma safe_column_plain table field : plain (safeColumnForTableAndField table field) = true.
Proof.
  unfold safeColumnForTableAndField. destruct (List.find _ _) as [c|] eqn:E; [|done].
  apply List.find_some in E as [E _]. pose proof (valid_fields_plain table) as H. rewrite Forall_forall in H. by apply H, list_elem_of_In.
Qed.
Lemma json_key_plain key : jsonKeyRegex key = true -> plain key = true.
Proof.
  assert (forall c, is_key_char c = true -> negb (Ascii.eqb c "$") = true) as Hc.
  { intros c H. destruct (Ascii.eqb_spec c "$") as [->|]; done. }
  assert (forall s, all_chars is_key_char s = true -> plain s = true) as Ha.
  { unfold plain. induction s as [|c s IH]; [done|]. cbn [all_chars]. intros [H1 H2]%andb_true_iff. by rewrite Hc, IH. }
  destruct key as [|c r]; [done|]. cbn [jsonKeyRegex]. intros [H1 H2]%andb_true_iff. apply (Ha (String c r)). cbn [all_chars].
  unfold is_key_char at 1. by rewrite H1, H2.
Qed.

Section Fragments.
Variable json_Marshal : string -> value -> option string.

Lemma standard_ok f table alias pos : plain alias = true -> 0 <= pos -> fragment_ok pos (buildStandardCondition f table alias pos) [].
Proof.
  intros Ha Hp. unfold buildStandardCondition. pose proof (safe_column_plain table (f_Field f)) as Hs.
  set (c := safeColumnForTableAndField table (f_Field f)) in *. clearbody c. destruct (String.eqb c ""); [done|].
  pose proof (plain_qualified alias c Ha Hs) as Hq. set (col := qualified alias c) in *. clearbody col.
  destruct (String.eqb (f_Operator f) OpEqual); [|by apply column_condition_ok].
  destruct (timestamp_range (f_Value f)) as [r|]; [|by apply column_condition_ok]. unfold range_condition, fragment_ok. fragment.
Qed.

Lemma balance_id_ok f alias pos : plain alias = true -> 0 <= pos -> fragment_ok pos (buildBalanceIdCondition f alias pos) [].
Proof.
  intros Ha Hp. unfold buildBalanceIdCondition, fragment_ok.
  pose proof (plain_qualified alias "source" Ha eq_refl) as Hs. pose proof (plain_qualified alias "destination" Ha eq_refl) as Hd.
  set (src := qualified alias "source") in *. set (dst := qualified alias "destination") in *. clearbody src dst.
  destruct (String.eqb (f_Operator f) OpEqual); [fragment|]. destruct (String.eqb (f_Operator f) OpNotEqual); [fragment|].
  destruct (String.eqb (f_Operator f) OpIn).
  { destruct (length (f_Values f) =? 0)%nat; [done|]. destruct (isStringArray (f_Values f)); fragment. }
  destruct (String.eqb (f_Operator f) OpIsNull); [fragment|]. destruct (String.eqb (f_Operator f) OpIsNotNull); [fragment|done].
Qed.

Lemma indicator_ok f alias pos : plain alias = true -> 0 <= pos ->
  fragment_ok pos (fst (buildIndicatorCondition f alias pos)) (snd (buildIndicatorCondition f alias pos)).
Proof.
  intros Ha Hp. unfold buildIndicatorCondition. pose proof (column_condition_ok "b.indicator" f pos eq_refl Hp) as H.
  destruct (column_condition "b.indicator" f pos) as [[sub args] next]. destruct (String.eqb_spec sub "") as [->|Hne]; [done|].
  cbn [fst snd]. unfold fragment_ok in *. destruct (H Hne) as [H1 H2]. intros _. split; [done|]. intros n. rewrite <- H2.
  pose proof (plain_qualified alias "source" Ha eq_refl) as Hs. pose proof (plain_qualified alias "destination" Ha eq_refl) as Hd.
  cbn [fmap list_fmap mjoin list_join]. rewrite !app_nil_r. read_placeholders. by rewrite app_nil_r.
Qed.

Lemma json_ok f alias pos : plain alias = true -> 0 <= pos -> fragment_ok pos (buildJSONPathCondition json_Marshal f alias pos) [].
Proof.
  intros Ha Hp. unfold buildJSONPathCondition. destruct (SplitDot (f_Field f)) as [[c k]|]; [|done].
  unfold resolveJSONColumn, sanitizeJSONKey. destruct (String.eqb c "meta_data"); [|done].
  destruct (jsonKeyRegex k) eqn:Ek; [|done]. destruct (String.eqb k ""); [done|]. cbn [orb].
  change (String.eqb "meta_data" "") with false. cbn [orb].
  pose proof (json_key_plain k Ek) as Hk. pose proof (plain_qualified alias "meta_data" Ha eq_refl) as Hc.
  set (col := qualified alias "meta_data") in *. clearbody col. unfold json_condition, fragment_ok. cbv zeta.
  destruct (String.eqb (f_Operator f) OpEqual).
  { destruct (timestamp_range (f_Value f)) as [r|]; [fragment|]. destruct (json_Marshal k (f_Value f)); [fragment|done]. }
  destruct (String.eqb (f_Operator f) OpNotEqual); [fragment|].
  destruct (numeric_infix (f_Operator f)) as [symbol|] eqn:Ei.
  { assert (plain symbol = true) as Hs by (unfold numeric_infix, infix in Ei; repeat case_match; by simplify_eq). fragment. }
  destruct (String.eqb (f_Operator f) OpLike); [fragment|]. destruct (String.eqb (f_Operator f) OpILike); [fragment|].
  destruct (String.eqb (f_Operator f) OpIn); [destruct (length (f_Values f) =? 0)%nat; [done|fragment]|].
  destruct (String.eqb (f_Operator f) OpBetween); [destruct (f_Values f) as [|a [|b [|]]]; try done; fragment|].
  destruct (String.eqb (f_Operator f) OpIsNull); [fragment|]. destruct (String.eqb (f_Operator f) OpIsNotNull); [fragment|done].
Qed.

Lemma build_filter_ok table alias f pos : plain alias = true -> 0 <= pos ->
  fragment_ok pos (fst (build_filter json_Marshal table alias f pos)) (snd (build_filter json_Marshal table alias f pos)).
Proof.
  intros Ha Hp. unfold build_filter. destruct (_ && HasPrefix _ _); [by apply json_ok|].
  destruct (_ && _); [by apply balance_id_ok|]. destruct (_ && _); [by apply indicator_ok|]. by apply standard_ok.
Qed.

(** ** A set of filters *)

(** What is accumulated: the placeholders so far are those of the arguments. *)
Record built (start : Z) (r : BuildResult) : Prop := {
  bt_next : r_NextArgPos r = start + Z.of_nat (length (r_Args r));
  bt_used : forall n, n ∈ mjoin (dollars <$> r_Conditions r) ++ mjoin (dollars <$> r_CTEs r) <-> start <= n < r_NextArgPos r }.

Lemma mjoin_app {A} (l1 l2 : list (list A)) : mjoin (l1 ++ l2) = mjoin l1 ++ mjoin l2.
Proof. induction l1 as [|x l1 IH]; [done|]. change (x ++ mjoin (l1 ++ l2) = (x ++ mjoin l1) ++ mjoin l2). by rewrite IH, app_assoc. Qed.

Lemma add_filter_built table alias start r f : plain alias = true -> 0 <= start ->
  built start r -> built start (add_filter json_Marshal table alias r f).
Proof.
  intros Ha Hs [Hn Hu]. unfold add_filter. pose proof (build_filter_ok table alias f (r_NextArgPos r) Ha ltac:(lia)) as H.
  destruct (build_filter json_Marshal table alias f (r_NextArgPos r)) as [[[cond args] next] ctes]. cbn [fst snd] in H.
  destruct (String.eqb_spec cond "") as [|Hne]; [done|]. destruct (H Hne) as [H1 H2].
  split; cbn [r_NextArgPos r_Args r_Conditions r_CTEs]; [rewrite length_app; lia|].
  intros n. specialize (Hu n). specialize (H2 n). rewrite !fmap_app, !mjoin_app. cbn [fmap list_fmap mjoin list_join]. rewrite app_nil_r.
  rewrite !elem_of_app in Hu, H2. rewrite !elem_of_app. rewrite H1 in H2 |- *. rewrite Hn in Hu, H2 |- *.
  set (a := Z.of_nat (length (r_Args r))) in *. assert (0 <= Z.of_nat (length args)) by lia. assert (0 <= a) by lia.
  split.
  - intros [[H'|H']|[H'|H']]; [assert (start <= n < start + a) by (apply Hu; tauto)|assert (start + a <= n < start + a + Z.of_nat (length args)) by (apply H2; tauto)
    |assert (start <= n < start + a) by (apply Hu; tauto)|assert (start + a <= n < start + a + Z.of_nat (length args)) by (apply H2; tauto)]; lia.
  - intros Hr. destruct (decide (n < start + a)) as [Hl|Hl]; [destruct (proj2 Hu ltac:(lia))
    |destruct (proj2 H2 ltac:(lia))]; tauto.
Qed.

Lemma start_built start : built start (start_result start).
Proof. split; cbn; [lia|]. intros n. rewrite elem_of_nil. lia. Qed.

Lemma Build_is_built filters table alias start r : plain alias = true -> 0 <= start ->
  Build json_Marshal filters table alias start = Ok r -> built start r.
Proof.
  intros Ha Hs. unfold Build. destruct filters as [fs|]; [|intros H; apply Ok_inj in H as <-; apply start_built].
  destruct (fs_Filters fs) as [|f l] eqn:E; [intros H; apply Ok_inj in H as <-; apply start_built|].
  intros H. apply res_bind_Ok in H as (_ & _ & H). apply Ok_inj in H as <-.
  assert (forall l r, built start r -> built start (foldl (add_filter json_Marshal table alias) r l)) as HF.
  { clear -Ha Hs. induction l as [|f l IH]; intros r Hr; [done|]. by apply IH, add_filter_built. }
  apply HF, start_built.
Qed.
End Fragments.

(** ** The text does not depend on the values *)

Section Shape.
Variable json_Marshal : string -> value -> option string.

(** Two filters that differ in the values filtered for: not in their number, nor
    in whether all are strings, whether the value is a point in time, and
    whether it has a JSON text. *)
Record same_shape (f f' : QueryFilter) : Prop := {
  sh_field : f_Field f' = f_Field f;
  sh_operator : f_Operator f' = f_Operator f;
  sh_count : length (f_Values f') = length (f_Values f);
  sh_strings : isStringArray (f_Values f') = isStringArray (f_Values f);
  sh_time : is_Some (timestamp_range (f_Value f')) <-> is_Some (timestamp_range (f_Value f));
  sh_json : forall key, is_Some (json_Marshal key (f_Value f')) <-> is_Some (json_Marshal key (f_Value f)) }.
Definition same_shapes (fs fs' : option QueryFilterSet) : Prop :=
  match fs, fs' with
  | None, None => True
  | Some a, Some b => fs_LogicalOperator b = fs_LogicalOperator a /\ Forall2 same_shape (fs_Filters a) (fs_Filters b)
  | _, _ => False
  end.

(** Conditions with the same text and as many arguments. *)
Definition same_text (a b : fragment) : Prop := a.1.1 = b.1.1 /\ length a.1.2 = length b.1.2 /\ a.2 = b.2.

Lemma same_options {A B} (o : option A) (o' : option B) : (is_Some o' <-> is_Some o) ->
  (exists a b, o = Some a /\ o' = Some b) \/ (o = None /\ o' = None).
Proof. intros [H1 H2]. destruct o as [a|], o' as [b|]; [left; eauto|destruct H2; eauto; done|destruct H1; eauto; done|by right]. Qed.

Lemma column_same column f f' pos : same_shape f f' -> same_text (column_condition column f pos) (column_condition column f' pos).
Proof.
  intros [Hf Ho Hc Hs Ht Hj]. unfold column_condition. rewrite Ho, Hc, Hs.
  destruct (infix (f_Operator f)); [done|]. destruct (String.eqb (f_Operator f) OpIn).
  { destruct (_ =? _)%nat; [done|]. destruct (isStringArray (f_Values f)); [done|]. split; [done|]. cbn. by rewrite !length_fmap. }
  destruct (String.eqb (f_Operator f) OpBetween); [|by repeat case_match].
  destruct (f_Values f) as [|a [|b [|]]], (f_Values f') as [|a' [|b' [|]]]; done.
Qed.

Lemma build_filter_same table alias f f' pos : same_shape f f' ->
  let a := build_filter json_Marshal table alias f pos in
  let b := build_filter json_Marshal table alias f' pos in
  same_text a.1 b.1 /\ a.2 = b.2.
Proof.
  intros H. pose proof H as [Hf Ho Hc Hs Ht Hj]. cbv zeta. unfold build_filter. rewrite Hf.
  destruct (_ && HasPrefix _ _).
  { split; [|done]. unfold buildJSONPathCondition. rewrite Hf. destruct (SplitDot (f_Field f)) as [[c k]|]; [|done].
    destruct (_ || _); [done|]. unfold json_condition. rewrite Ho, Hc. cbv zeta.
    destruct (String.eqb (f_Operator f) OpEqual).
    { destruct (same_options _ _ Ht) as [(r & r' & -> & ->)|[-> ->]]; [done|].
      by destruct (same_options _ _ (Hj (sanitizeJSONKey k))) as [(j & j' & -> & ->)|[-> ->]]. }
    destruct (String.eqb (f_Operator f) OpNotEqual); [done|]. destruct (numeric_infix _); [done|].
    destruct (String.eqb (f_Operator f) OpLike); [done|]. destruct (String.eqb (f_Operator f) OpILike); [done|].
    destruct (String.eqb (f_Operator f) OpIn); [destruct (_ =? _)%nat; [done|split; [done|]; cbn; by rewrite !length_fmap]|].
    destruct (String.eqb (f_Operator f) OpBetween); [|by repeat case_match].
    destruct (f_Values f) as [|a [|b [|]]], (f_Values f') as [|a' [|b' [|]]]; done. }
  destruct (String.eqb (f_Field f) "balance_id" && _).
  { split; [|done]. unfold buildBalanceIdCondition. rewrite Ho, Hc, Hs. cbv zeta.
    destruct (String.eqb (f_Operator f) OpEqual); [done|]. destruct (String.eqb (f_Operator f) OpNotEqual); [done|].
    destruct (String.eqb (f_Operator f) OpIn); [|by repeat case_match].
    destruct (_ =? _)%nat; [done|]. destruct (isStringArray (f_Values f)); [done|split; [done|]; cbn; by rewrite !length_fmap]. }
  destruct (String.eqb (f_Field f) "indicator" && _).
  { unfold buildIndicatorCondition. pose proof (column_same "b.indicator" f f' pos H) as (H1 & H2 & H3).
    destruct (column_condition "b.indicator" f pos) as [[s1 a1] n1], (column_condition "b.indicator" f' pos) as [[s2 a2] n2].
    cbn in H1, H2, H3. subst. by destruct (String.eqb s2 ""). }
  split; [|done]. unfold buildStandardCondition. rewrite Hf, Ho. destruct (String.eqb _ ""); [done|]. cbv zeta.
  destruct (String.eqb (f_Operator f) OpEqual); [|by apply column_same].
  destruct (same_options _ _ Ht) as [(r & r' & -> & ->)|[-> ->]]; [done|by apply column_same].
Qed.

Lemma validate_same table valid f f' : same_shape f f' -> validate_filter table valid f' = validate_filter table valid f.
Proof. intros [Hf Ho Hc _ _ _]. unfold validate_filter. by rewrite Hf, Ho, Hc. Qed.

(** Results that differ in their arguments only. *)
Definition same_statement (a b : BuildResult) : Prop :=
  r_Conditions b = r_Conditions a /\ r_CTEs b = r_CTEs a /\ r_NextArgPos b = r_NextArgPos a /\ r_OrderBy b = r_OrderBy a.

Lemma add_filter_same table alias a b f f' : same_shape f f' -> same_statement a b ->
  same_statement (add_filter json_Marshal table alias a f) (add_filter json_Marshal table alias b f').
Proof.
  intros Hf (H1 & H2 & H3 & H4). unfold add_filter. rewrite H3.
  pose proof (build_filter_same table alias f f' (r_NextArgPos a) Hf) as [(E1 & E2 & E3) E4].
  destruct (build_filter json_Marshal table alias f (r_NextArgPos a)) as [[[c1 a1] n1] l1].
  destruct (build_filter json_Marshal table alias f' (r_NextArgPos a)) as [[[c2 a2] n2] l2]. cbn in E1, E2, E3, E4. subst.
  destruct (String.eqb c2 ""); [done|]. unfold same_statement. cbn. by rewrite H1, H2.
Qed.

Lemma Validate_same fs fs' table : same_shapes fs fs' -> Validate fs' table = Validate fs table.
Proof.
  destruct fs as [fs|], fs' as [fs'|]; [|done..]. intros [Hl Hf]. unfold Validate. rewrite Hl. destruct (negb _); [done|].
  destruct (GetValidFieldsForTable table) as [|v vs]; [done|]. generalize tt. induction Hf as [|f f' l l' Hff _ IH]; intros u; [done|].
  cbn [fold_res]. rewrite (validate_same _ _ _ _ Hff). destruct (validate_filter _ _ f); [apply IH|done].
Qed.

Lemma Build_same fs fs' table alias start r : same_shapes fs fs' -> Build json_Marshal fs table alias start = Ok r ->
  exists r', Build json_Marshal fs' table alias start = Ok r' /\ same_statement r r'.
Proof.
  intros Hs H. pose proof (Validate_same _ _ table Hs) as HV. unfold Build in *.
  destruct fs as [fs|], fs' as [fs'|]; [|done..|by apply Ok_inj in H as <-; eexists].
  rewrite HV. destruct Hs as [Hl Hf]. destruct Hf as [|f f' l l' Hff Hl']; [by apply Ok_inj in H as <-; eexists|].
  destruct (Validate (Some fs) table); [|done]. cbn [res_bind] in *. apply Ok_inj in H as <-. eexists. split; [done|].
  assert (forall a b, same_statement a b -> same_statement (foldl (add_filter json_Marshal table alias) a (f :: l))
    (foldl (add_filter json_Marshal table alias) b (f' :: l'))) as HF; [|by apply HF].
  assert (Forall2 same_shape (f :: l) (f' :: l')) as HA by (by constructor). clear -HA.
  induction HA as [|g g' m m' Hg _ IH]; intros a b Hab; [done|]. cbn [foldl]. by apply IH, add_filter_same.
Qed.

(** ** The listings *)

Lemma resolve_sort_plain table sortBy : plain (ResolveSortField table sortBy) = true.
Proof.
  unfold ResolveSortField, safeColumnForSort. destruct (String.eqb _ ""); [done|]. destruct (negb _); [done|].
  pose proof (safe_column_plain table (ToLower (TrimSpace sortBy))) as H.
  destruct (safeColumnForTableAndField _ _) as [|c r]; [done|exact H].
Qed.

Lemma order_plain r filters table start opts : BuildWithOptions json_Marshal filters table "" start opts = Ok r -> plain (r_OrderBy r) = true.
Proof.
  unfold BuildWithOptions. intros H. apply res_bind_Ok in H as (r0 & _ & H).
  assert (forall s o, plain (BuildOrderBy s o table "") = true) as Ho.
  { intros s o. unfold BuildOrderBy. rewrite !plain_app, (plain_qualified "" _ eq_refl (resolve_sort_plain _ _)). by destruct (String.eqb o _). }
  destruct opts as [o|]; [apply res_bind_Ok in H as (_ & _ & H)|]; apply Ok_inj in H as <-; apply Ho.
Qed.

Lemma dollars_expression conditions op : dollars (BuildConditionExpression conditions op) = mjoin (dollars <$> conditions).
Proof.
  unfold BuildConditionExpression. destruct (String.eqb op LogicalOr); rewrite dollars_concat by done; [|done].
  f_equal. rewrite <- list_fmap_compose. apply list_fmap_ext. intros _ c _. cbn [compose].
  rewrite dollars_plain, dollars_sep, (dollars_only ")") by done. by rewrite app_nil_r.
Qed.

(** The placeholders of a listing are those of its conditions and of the page. *)
Lemma listing_placeholders l filters opts limit offset sql args : l ∈ listings ->
  listing_query json_Marshal l filters opts limit offset = Ok (sql, args) ->
  exists o r, ValidateSortByForTable (default {| qo_SortBy := ""; qo_SortOrder := ""; qo_IncludeCount := false |} opts) (ls_table l) = Ok o /\
    BuildWithOptions json_Marshal filters (ls_table l) "" 1 (Some o) = Ok r /\
    (forall n, n ∈ dollars sql <-> n ∈ mjoin (dollars <$> r_Conditions r) ++ mjoin (dollars <$> r_CTEs r) ++ [r_NextArgPos r; r_NextArgPos r + 1]) /\
    length args = S (S (length (r_Args r))).
Proof.
  intros Hl. unfold listing_query. set (o0 := default _ opts). destruct (ValidateSortByForTable o0 (ls_table l)) as [o|] eqn:Eo; [|done].
  destruct (BuildWithOptions json_Marshal filters (ls_table l) "" 1 (Some o)) as [r|] eqn:Er; [|done].
  intros H. apply Ok_inj in H as [= <- <-]. exists o, r. split; [done|]. split; [done|]. split; [|rewrite length_app; cbn; lia].
  pose proof (order_plain _ _ _ _ _ Er) as Hord.
  assert (0 <= r_NextArgPos r) as Hpos.
  { unfold BuildWithOptions in Er. apply res_bind_Ok in Er as (r0 & E0 & E). apply res_bind_Ok in E as (_ & _ & E). apply Ok_inj in E as <-.
    apply Build_is_built in E0 as [E0 _]; [cbn; lia|done|done]. }
  assert (plain (ls_fields l) = true /\ plain (ls_table l) = true) as [Hfields Htable].
  { unfold listings in Hl. rewrite !elem_of_cons, elem_of_nil in Hl. by repeat destruct Hl as [->|Hl]. }
  set (fields := ls_fields l +:+ _).
  assert (plain fields = true) as Hf by (unfold fields; rewrite plain_app, Hfields; by destruct (qo_IncludeCount o)).
  set (base := newline_tabs 2 +:+ "SELECT " +:+ _).
  assert (plain base = true) as Hb by (unfold base; by rewrite !plain_app, Hf, Htable). clearbody base.
  set (op := match filters with Some fs => fs_LogicalOperator fs | None => LogicalAnd end).
  set (body := match r_Conditions r with [] => base | _ => _ end).
  assert (dollars body = mjoin (dollars <$> r_Conditions r)) as Hbody.
  { unfold body. destruct (r_Conditions r) as [|c cs]; [by apply dollars_only|].
    rewrite !dollars_plain by done. apply dollars_expression. }
  clearbody body. set (whole := match r_CTEs r with [] => body | _ => _ end).
  assert (dollars whole = mjoin (dollars <$> r_CTEs r) ++ dollars body) as Hwhole.
  { unfold whole. destruct (r_CTEs r) as [|e es]; [done|]. rewrite dollars_plain by done.
    rewrite dollars_sep by done. change (match es with [] => e | _ :: _ => e +:+ ", " +:+ String.concat ", " es end) with (String.concat ", " (e :: es)).
    rewrite (dollars_concat ", ") by done. by rewrite dollars_plain by done. }
  clearbody whole. intros n. rewrite dollars_sep by done. rewrite Hwhole, Hbody.
  rewrite !dollars_plain by done. rewrite dollars_sep, dollars_plain, !dollars_placeholder by (done || lia).
  rewrite !elem_of_app, !elem_of_cons, !elem_of_nil. tauto.
Qed.

(** C35: a listing is a prepared statement.  Whatever is filtered for, the text of
    an accepted listing of transactions, balances, ledgers, accounts or
    identities has the placeholders $1 to $n for its n arguments, all of them
    and no other.  And the text is independent of the values: with other values
    of the same shape in the filters, and another page, the listing is accepted
    with the same text and as many arguments. *)
Theorem listing_is_prepared (l : listing) (filters filters' : option QueryFilterSet) (opts : option QueryOptions)
    (limit offset limit' offset' : Z) (sql : string) (args : list value) :
  l ∈ listings -> listing_query json_Marshal l filters opts limit offset = Ok (sql, args) ->
  (forall n, n ∈ dollars sql <-> 1 <= n <= Z.of_nat (length args)) /\
  (same_shapes filters filters' -> exists args',
     listing_query json_Marshal l filters' opts limit' offset' = Ok (sql, args') /\ length args' = length args).
Proof.
  intros Hl H. destruct (listing_placeholders _ _ _ _ _ _ _ Hl H) as (o & r & Eo & Er & Hd & Hlen).
  assert (exists r0, Build json_Marshal filters (ls_table l) "" 1 = Ok r0 /\ r_Conditions r = r_Conditions r0 /\ r_CTEs r = r_CTEs r0 /\
    r_NextArgPos r = r_NextArgPos r0 /\ r_Args r = r_Args r0) as (r0 & E0 & R1 & R2 & R3 & R4).
  { unfold BuildWithOptions in Er. apply res_bind_Ok in Er as (r0 & E0 & E). apply res_bind_Ok in E as (_ & _ & E). apply Ok_inj in E as <-.
    by exists r0. }
  pose proof (Build_is_built json_Marshal filters (ls_table l) "" 1 r0 eq_refl ltac:(lia) E0) as [Hn Hu]. split.
  - intros n. rewrite Hd, Hlen. specialize (Hu n). rewrite R1, R2, R3, R4, app_assoc, elem_of_app, Hu, !elem_of_cons, elem_of_nil. lia.
  - intros Hs. destruct (Build_same _ _ (ls_table l) "" 1 r0 Hs E0) as (r0' & E0' & S1 & S2 & S3 & S4).
    pose proof (Build_is_built json_Marshal filters' (ls_table l) "" 1 r0' eq_refl ltac:(lia) E0') as [Hn' _].
    unfold listing_query in *. rewrite Eo in *. unfold BuildWithOptions in *. rewrite E0, E0' in *. cbn [res_bind] in *.
    destruct (ValidateSortField (qo_SortBy o) (ls_table l)) as [[]|]; [|done]. cbn [res_bind r_Conditions r_CTEs r_NextArgPos r_OrderBy r_Args] in *.
    rewrite S1, S2, S3. assert (match filters' with Some fs => fs_LogicalOperator fs | None => LogicalAnd end
      = match filters with Some fs => fs_LogicalOperator fs | None => LogicalAnd end) as ->
      by (destruct filters, filters'; try done; apply Hs).
    apply Ok_inj in H as [= <- <-]. eexists. split; [done|]. rewrite !length_app. cbn. lia.
Qed.
End Shape.

(** ** No filter is dropped *)

Section Applied.
Variable json_Marshal : string -> value -> option string.

(** A value that a JSON path is compared with has a JSON text, or is a point in
    time. *)
Definition encodable (f : QueryFilter) : Prop :=
  timestamp_range (f_Value f) = None -> forall key, is_Some (json_Marshal key (f_Value f)).

Lemma nonempty_app s1 s2 : s1 <> ""%string -> s1 +:+ s2 <> ""%string.
Proof. by destruct s1. Qed.
Lemma qualified_nonempty alias c : c <> ""%string -> qualified alias c <> ""%string.
Proof. intros H. unfold qualified. destruct (String.eqb_spec alias ""); [done|by apply nonempty_app]. Qed.

(** The operators of an accepted filter. *)
Lemma valid_cases f : IsValidOperator (f_Operator f) = true ->
  (String.eqb (f_Operator f) OpIn && (length (f_Values f) =? 0)%nat = false) ->
  (String.eqb (f_Operator f) OpBetween && negb (length (f_Values f) =? 2)%nat = false) ->
  is_Some (infix (f_Operator f)) \/ (f_Operator f = OpIn /\ (length (f_Values f) =? 0)%nat = false) \/
  (f_Operator f = OpBetween /\ exists a b, f_Values f = [a; b]) \/ f_Operator f = OpIsNull \/ f_Operator f = OpIsNotNull.
Proof.
  intros Hv Hi Hb. unfold IsValidOperator, one_of in Hv. cbn [existsb] in Hv.
  destruct (String.eqb_spec (f_Operator f) OpIn) as [E|]; [right; left; split; [done|]; exact Hi|].
  destruct (String.eqb_spec (f_Operator f) OpBetween) as [E|].
  { right; right; left. split; [done|]. destruct (f_Values f) as [|a [|b [|]]]; try done. by exists a, b. }
  destruct (String.eqb_spec (f_Operator f) OpIsNull) as [E|]; [tauto|].
  destruct (String.eqb_spec (f_Operator f) OpIsNotNull) as [E|]; [tauto|]. left. unfold infix.
  repeat (match goal with |- context [String.eqb ?a ?b] => destruct (String.eqb a b) end; [eauto|]). done.
Qed.

Lemma column_nonempty column f pos : column <> ""%string -> IsValidOperator (f_Operator f) = true ->
  (String.eqb (f_Operator f) OpIn && (length (f_Values f) =? 0)%nat = false) ->
  (String.eqb (f_Operator f) OpBetween && negb (length (f_Values f) =? 2)%nat = false) ->
  (column_condition column f pos).1.1 <> ""%string.
Proof.
  intros Hc Hv Hi Hb. unfold column_condition.
  destruct (valid_cases f Hv Hi Hb) as [[x ->]|[[-> E]|[[-> (a & b & ->)]|[-> | ->]]]]; cbn [fst]; [by apply nonempty_app|..].
  - change (infix OpIn) with (@None string). cbn match. rewrite String.eqb_refl, E. destruct (isStringArray (f_Values f)); by apply nonempty_app.
  - by apply nonempty_app.
  - by apply nonempty_app.
  - by apply nonempty_app.
Qed.

(** The two halves of a metadata field. *)
Lemma substring_all s n : (String.length s <= n)%nat -> String.substring 0 n s = s.
Proof. revert n. induction s as [|c s IH]; intros [|n] H; cbn in *; try done; [lia|]. f_equal. apply IH. lia. Qed.
Lemma meta_field s : HasPrefix s MetaPrefix = true -> exists k, s = MetaPrefix +:+ k /\ after_prefix MetaPrefix s = k.
Proof.
  unfold HasPrefix, MetaPrefix. intros H. 
  do 10 (destruct s as [|?c s]; [done|]; cbn [String.prefix] in H; destruct (ascii_dec _ _) as [<-|]; [|done]).
  exists s. split; [done|]. unfold after_prefix. cbn [String.length String.substring]. rewrite Nat.sub_0_r || idtac.
  apply substring_all. lia.
Qed.
Lemma SplitDot_meta k : SplitDot (MetaPrefix +:+ k) = Some ("meta_data"%string, k).
Proof.
  unfold SplitDot, MetaPrefix. assert (String.index 0 "." ("meta_data." +:+ k) = Some 9%nat) as -> by (by destruct k).
  do 2 f_equal. change (String.length ("meta_data." +:+ k)) with (10 + String.length k)%nat.
  replace (10 + String.length k - 10)%nat with (String.length k) by lia. exact (substring_all k (String.length k) (le_n _)).
Qed.

Lemma no_dot_fields table : Forall (fun c => Contains c "." = false /\ c <> ""%string) (GetValidFieldsForTable table).
Proof. unfold GetValidFieldsForTable. repeat case_match; repeat constructor; done. Qed.

Lemma json_nonempty k f alias pos : f_Field f = MetaPrefix +:+ k -> jsonKeyRegex k = true -> encodable f ->
  IsValidOperator (f_Operator f) = true ->
  (String.eqb (f_Operator f) OpIn && (length (f_Values f) =? 0)%nat = false) ->
  (String.eqb (f_Operator f) OpBetween && negb (length (f_Values f) =? 2)%nat = false) ->
  (buildJSONPathCondition json_Marshal f alias pos).1.1 <> ""%string.
Proof.
  intros Hf Hk He Hv Hi Hb. unfold buildJSONPathCondition. rewrite Hf, SplitDot_meta. unfold sanitizeJSONKey. rewrite Hk.
  change (resolveJSONColumn "meta_data") with "meta_data"%string. change (String.eqb "meta_data" "") with false. cbn [orb].
  destruct (String.eqb_spec k "") as [->|_]; [done|].
  pose proof (qualified_nonempty alias "meta_data" ltac:(done)) as Hq. set (col := qualified alias "meta_data") in *. clearbody col.
  unfold json_condition. cbv zeta.
  destruct (String.eqb (f_Operator f) OpEqual) eqn:E1.
  { destruct (timestamp_range (f_Value f)) eqn:Et; [done|]. destruct (He Et k) as [j ->]. by apply nonempty_app. }
  destruct (String.eqb (f_Operator f) OpNotEqual) eqn:E2; [by apply nonempty_app, nonempty_app|].
  destruct (numeric_infix (f_Operator f)) eqn:E3; [done|].
  destruct (String.eqb (f_Operator f) OpLike) eqn:E4; [by apply nonempty_app, nonempty_app|].
  destruct (String.eqb (f_Operator f) OpILike) eqn:E5; [by apply nonempty_app, nonempty_app|].
  destruct (valid_cases f Hv Hi Hb) as [[x Hx]|[[-> E]|[[-> (a & b & ->)]|[-> | ->]]]]; [|rewrite E; by apply nonempty_app, nonempty_app|done..].
  exfalso. unfold numeric_infix, infix, one_of in E3, Hx. cbn [existsb] in E3. rewrite E1, E2, E4, E5 in *.
  repeat match type of E3 with context [String.eqb ?a ?b] => destruct (String.eqb a b); try done end.
Qed.

(** An accepted filter has a condition. *)
Lemma filter_applied table valid alias f pos : valid = GetValidFieldsForTable table -> validate_filter table valid f = Ok tt ->
  encodable f -> (build_filter json_Marshal table alias f pos).1.1.1 <> ""%string.
Proof.
  intros -> Hval He. unfold validate_filter in Hval.
  destruct (IsValidOperator (f_Operator f)) eqn:Hv; [|done]. cbn [negb] in Hval.
  destruct (String.eqb (f_Operator f) OpIn && _) eqn:Hi; [done|]. destruct (String.eqb (f_Operator f) OpBetween && _) eqn:Hb; [done|].
  destruct (String.eqb table "transactions" && String.eqb (f_Field f) "balance_id" && _) eqn:Hbal; [done|].
  unfold build_filter. destruct (HasPrefix (f_Field f) MetaPrefix && one_of "meta_data" _) eqn:Hm.
  { apply andb_true_iff in Hm as [Hm _]. destruct (meta_field _ Hm) as (k & Hk & Ha). rewrite Ha in Hval.
    destruct (jsonKeyRegex k) eqn:Hr; [|done]. rewrite Hk at 1 2.
    assert (Contains (MetaPrefix +:+ k) "." && HasPrefix (MetaPrefix +:+ k) "meta_data" = true) as -> by (by destruct k).
    cbn [fst]. by eapply json_nonempty. }
  destruct (one_of (f_Field f) (GetValidFieldsForTable table)) eqn:Hin; [|done]. clear Hval.
  assert (f_Field f ∈ GetValidFieldsForTable table) as Hel.
  { apply existsb_exists in Hin as (c & Hc & E). apply String.eqb_eq in E as ->. by apply list_elem_of_In. }
  pose proof (no_dot_fields table) as Hd. rewrite Forall_forall in Hd. destruct (Hd _ Hel) as [Hdot Hne]. rewrite Hdot. cbn [andb].
  destruct (String.eqb (f_Field f) "balance_id" && String.eqb table "transactions") eqn:Hb1.
  { apply andb_true_iff in Hb1 as [B1 B2]. rewrite B1, B2 in Hbal. cbn [andb] in Hbal. apply negb_false_iff in Hbal.
    unfold one_of in Hbal. cbn [existsb] in Hbal. cbn [fst]. unfold buildBalanceIdCondition. cbv zeta.
    destruct (String.eqb (f_Operator f) OpEqual); [done|]. destruct (String.eqb (f_Operator f) OpNotEqual); [done|].
    destruct (String.eqb (f_Operator f) OpIn); [cbn [andb] in Hi; rewrite Hi; by destruct (isStringArray (f_Values f))|].
    destruct (String.eqb (f_Operator f) OpIsNull); [done|]. destruct (String.eqb (f_Operator f) OpIsNotNull); done. }
  destruct (String.eqb (f_Field f) "indicator" && _).
  { unfold buildIndicatorCondition. pose proof (column_nonempty "b.indicator" f pos ltac:(done) Hv Hi Hb) as Hn.
    destruct (column_condition "b.indicator" f pos) as [[sub args] next]. cbn [fst] in Hn. apply String.eqb_neq in Hn. by rewrite Hn. }
  cbn [fst]. unfold buildStandardCondition.
  assert (safeColumnForTableAndField table (f_Field f) = f_Field f) as ->.
  { unfold safeColumnForTableAndField. destruct (List.find _ _) as [c|] eqn:E.
    - apply List.find_some in E as [_ E]. apply String.eqb_eq in E. done.
    - exfalso. apply list_elem_of_In in Hel. pose proof (List.find_none _ _ E _ Hel) as H. cbn beta in H. by rewrite String.eqb_refl in H. }
  apply String.eqb_neq in Hne as Hne'. rewrite Hne'. pose proof (qualified_nonempty alias _ Hne) as Hq. cbv zeta.
  destruct (String.eqb (f_Operator f) OpEqual); [|by apply column_nonempty].
  destruct (timestamp_range (f_Value f)); [by apply nonempty_app|by apply column_nonempty].
Qed.

(** An accepted filter set is applied in full.  When [Build] accepts a set of
    filters whose metadata values have a JSON text, every filter becomes a
    condition of the statement: a filter that could not be built was refused by
    the validation, and none is dropped, which would list what was to be left
    out. *)
Theorem every_filter_is_applied (fs : QueryFilterSet) (table alias : string) (start : Z) (r : BuildResult) :
  Forall encodable (fs_Filters fs) -> Build json_Marshal (Some fs) table alias start = Ok r ->
  length (r_Conditions r) = length (fs_Filters fs).
Proof.
  intros He H. unfold Build in H. destruct (fs_Filters fs) as [|f l] eqn:El; [by apply Ok_inj in H as <-|].
  apply res_bind_Ok in H as ([] & HV & H). apply Ok_inj in H as <-. unfold Validate in HV. rewrite El in HV.
  destruct (negb _); [done|]. destruct (GetValidFieldsForTable table) as [|v vs] eqn:Ev; [done|].
  assert (forall l r u, Forall encodable l -> fold_res (fun _ f => validate_filter table (v :: vs) f) l u = Ok tt ->
    length (r_Conditions (foldl (add_filter json_Marshal table alias) r l)) = (length (r_Conditions r) + length l)%nat) as HF.
  { clear -Ev. induction l as [|f l IH]; intros r u He HV; cbn [foldl length]; [lia|].
    apply Forall_cons in He as [Hf Hl]. cbn [fold_res] in HV. apply res_bind_Ok in HV as ([] & Hv & HV). rewrite (IH _ _ Hl HV).
    unfold add_filter. pose proof (filter_applied table _ alias f (r_NextArgPos r) (eq_sym Ev) Hv Hf) as Hne.
    destruct (build_filter _ _ _ _ _) as [[[cond args] next] ctes]. cbn [fst] in Hne. apply String.eqb_neq in Hne. rewrite Hne.
    cbn [r_Conditions]. rewrite length_app. cbn. lia. }
  rewrite (HF _ _ _ He HV). done.
Qed.
End Applied.

(** ** Ranges of timestamps *)

(** An equality with a point in time asks for the range of its precision: it
    contains the instant, is one unit long, and is the range of every instant in
    it that is given in the same zone. *)
Lemma timestamp_range_exact (t : instant) (precision : string) :
  let '(floor, ceiling) := computeTimestampRange t precision in
  in_ns floor <= in_ns t < in_ns ceiling /\
  in_ns ceiling - in_ns floor = (if String.eqb precision "day" then day else precision_unit precision) /\
  forall t', in_offset t' = in_offset t -> in_ns floor <= in_ns t' < in_ns ceiling ->
    computeTimestampRange t' precision = (floor, ceiling).
Proof.
  assert (forall u x c, 0 < u -> x - (x + c) mod u <= x < x - (x + c) mod u + u /\
    forall y, x - (x + c) mod u <= y < x - (x + c) mod u + u -> y - (y + c) mod u = x - (x + c) mod u) as H.
  { intros u x c Hu. pose proof (Z.mod_pos_bound (x + c) u Hu) as Hm. split; [lia|]. intros y Hy.
    assert ((y + c) mod u = y - x + (x + c) mod u); [|lia].
    symmetry. apply (Z.mod_unique_pos (y + c) u ((x + c) / u)); [lia|]. pose proof (Z.div_mod (x + c) u ltac:(lia)). lia. }
  unfold computeTimestampRange. destruct (String.eqb precision "day").
  - destruct (H day (in_ns t) (in_offset t * second) ltac:(done)) as [H1 H2]. cbn [in_ns]. split; [done|]. split; [lia|].
    intros t' Ho Hr. rewrite Ho, (H2 _ Hr). done.
  - assert (0 < precision_unit precision) as Hu by (unfold precision_unit; by repeat case_match).
    destruct (H (precision_unit precision) (in_ns t) 0 Hu) as [H1 H2]. rewrite Z.add_0_r in H1, H2. cbn [in_ns]. split; [done|]. split; [lia|].
    intros t' Ho Hr. specialize (H2 _ Hr). rewrite Z.add_0_r in H2. rewrite Ho, H2. done.
Qed.

(** ** What the parser lets through *)

Section ParserBounds.
Variable ParseFloat : string -> option float64.
Variable time_Parse : string -> string -> option instant.

(** A filter that the validation of operators and their numbers of values
    accepts. *)
Definition well_formed_filter (o : ParseOptions) (f : QueryFilter) : Prop :=
  IsValidOperator (f_Operator f) = true /\
  (f_Operator f = OpIn -> 1 <= Z.of_nat (length (f_Values f)) <= po_MaxInValues o) /\
  (f_Operator f = OpBetween -> length (f_Values f) = 2%nat).

Lemma ResolveOperator_valid s : ResolveOperator s <> ""%string -> IsValidOperator (ResolveOperator s) = true.
Proof. unfold ResolveOperator. cbv zeta. repeat (match goal with |- context [if ?b then _ else _] => destruct b end; [done|]). done. Qed.

Lemma Split_nonempty sep s : (1 <= length (Split sep s))%nat.
Proof. destruct s as [|c s]; cbn; [lia|]. destruct (Ascii.eqb c sep); [cbn; lia|]. destruct (Split sep s); cbn; lia. Qed.

Lemma parse_param_bounded o acc param : 0 < po_MaxFilters o ->
  Z.of_nat (length acc.1) <= po_MaxFilters o -> Forall (well_formed_filter o) acc.1 ->
  let acc' := parse_param ParseFloat time_Parse o acc param in
  Z.of_nat (length acc'.1) <= po_MaxFilters o /\ Forall (well_formed_filter o) acc'.1.
Proof.
  intros Hpos Hl HF. cbv zeta. destruct acc as [filters errors], param as [key [|v values]]; [done|]. cbn [fst] in Hl, HF. unfold parse_param.
  destruct (isReservedParam key); [done|]. destruct (split_key key) as [[field opText]|]; [|done]. cbv zeta.
  destruct (String.eqb_spec (ResolveOperator opText) "") as [|Hop]; [done|].
  destruct (Z.leb_spec (po_MaxFilters o) (Z.of_nat (length filters))); [done|].
  destruct (_ <? _); [done|]. destruct (parse_values _ _ _ _ _) as [[single several]|msg] eqn:Ep; [|done]. cbn [fst].
  split; [rewrite length_app; cbn; lia|]. apply Forall_app. split; [done|]. constructor; [|constructor].
  split; [by apply ResolveOperator_valid|]. cbn [f_Operator f_Values]. unfold parse_values in Ep. split; intros Eop; rewrite Eop in Ep.
  - change (String.eqb OpIn OpBetween) with false in Ep. change (String.eqb OpIn OpIn) with true in Ep. cbn match in Ep.
    destruct (Z.ltb_spec (po_MaxInValues o) (Z.of_nat (length (Split "," v)))); [done|]. injection Ep as _ <-.
    rewrite length_fmap. pose proof (Split_nonempty "," v). lia.
  - change (String.eqb OpBetween OpBetween) with true in Ep. cbn match in Ep.
    destruct (Split "|" v) as [|a [|b [|]]]; try done. by injection Ep as _ <-.
Qed.

(** What the parser returns is bounded and well formed.  Whatever the query
    string and in whatever order its parameters come, the filters are at most as
    many as allowed, each has one of the twelve operators, an [in] has between
    one and the allowed number of values and a [between] has two, and the
    logical operator is [and] or [or]; so a set is refused later for its fields
    only. *)
Theorem parsed_filters_bounded (params : list (string * list string)) (opts : option ParseOptions) :
  let fs := fst (ParseFromQuery ParseFloat time_Parse params opts) in
  Z.of_nat (length (fs_Filters fs)) <= po_MaxFilters (limits opts) /\
  Forall (well_formed_filter (limits opts)) (fs_Filters fs) /\
  (fs_LogicalOperator fs = LogicalAnd \/ fs_LogicalOperator fs = LogicalOr).
Proof.
  cbv zeta. unfold ParseFromQuery. set (raw := TrimSpace _).
  assert (0 < po_MaxFilters (limits opts)) as Hpos.
  { destruct opts as [o|]; [|done]. cbn. unfold positive_or. destruct (Z.ltb_spec 0 (po_MaxFilters o)); lia. }
  destruct (if String.eqb raw "" then _ else _) as [operator errors] eqn:Eop.
  assert (operator = LogicalAnd \/ operator = LogicalOr) as Ho.
  { destruct (String.eqb raw ""); [injection Eop as <- _; by left|]. destruct (String.eqb_spec (ResolveLogicalOperator raw) "") as [|Hn];
      injection Eop as <- _; [by left|]. unfold ResolveLogicalOperator in *. cbv zeta in *.
    destruct (one_of _ _); [by left|]. destruct (String.eqb _ "or"); [by right|done]. }
  assert (forall acc, Z.of_nat (length acc.1) <= po_MaxFilters (limits opts) -> Forall (well_formed_filter (limits opts)) acc.1 ->
    let acc' := foldl (parse_param ParseFloat time_Parse (limits opts)) acc params in
    Z.of_nat (length acc'.1) <= po_MaxFilters (limits opts) /\ Forall (well_formed_filter (limits opts)) acc'.1) as HF.
  { clear -Hpos. induction params as [|p params IH]; intros acc H1 H2; [done|]. cbn [foldl].
    destruct (parse_param_bounded (limits opts) acc p Hpos H1 H2) as [H3 H4]. by apply IH. }
  destruct (HF ([], errors) ltac:(cbn; lia) (List.Forall_nil _)) as [H1 H2].
  destruct (foldl _ _ _) as [filters errors']. done.
Qed.
End ParserBounds.

(** ** A listing, and filters that go wrong *)
Module FilterWitness.

(** JSON has no text for what is not a number. *)
Definition marshal (key : string) (v : value) : option string :=
  match v with VFloat f => if IsNaN f then None else Some key | _ => Some key end.
(** [strconv.ParseFloat] accepts this text. *)
Definition parse_float (s : string) : option float64 := if String.eqb s "NaN" then Some S754_nan else None.
Definition no_time (format s : string) : option instant := None.

Definition by_status (status : string) : option QueryFilterSet :=
  Some {| fs_Filters := [{| f_Field := "status"; f_Operator := OpEqual; f_Value := VString status; f_Values := [] |};
                         {| f_Field := "meta_data.region"; f_Operator := OpIn; f_Value := VNil; f_Values := [VString "eu"; VInt 7] |}];
          fs_LogicalOperator := "or" |}.

(** A status that looks like SQL changes nothing in the statement. *)
Lemma listing_is_prepared_witness :
  exists sql args args', listing_query marshal transactions_listing (by_status "APPLIED") None 10 0 = Ok (sql, args) /\
    listing_query marshal transactions_listing (by_status "x' OR 1=1; --") None 20 40 = Ok (sql, args') /\ dollars sql = [1; 2; 3; 4; 5].
Proof.
  assert (exists sql args, listing_query marshal transactions_listing (by_status "APPLIED") None 10 0 = Ok (sql, args) /\
    dollars sql = [1; 2; 3; 4; 5]) as (sql & args & E & D) by (vm_compute; eexists _, _; split; reflexivity).
  destruct (proj2 (listing_is_prepared marshal transactions_listing (by_status "APPLIED") (by_status "x' OR 1=1; --") None 10 0 20 40 sql args
    ltac:(left) E)) as (args' & E' & _).
  - split; [reflexivity|]. repeat constructor; cbn; try done; intros; split; intros; eauto.
  - exists sql, args, args'. split; [exact E|]. split; [exact E'|exact D].
Defined.

Lemma every_filter_is_applied_witness :
  exists r, Build marshal (by_status "APPLIED") "transactions" "" 1 = Ok r /\ length (r_Conditions r) = 2%nat.
Proof.
  assert (exists r, Build marshal (by_status "APPLIED") "transactions" "" 1 = Ok r) as [r E] by (vm_compute; eexists; reflexivity).
  exists r. split; [exact E|]. unfold by_status in E.
  refine (every_filter_is_applied marshal _ "transactions" "" 1 r _ E).
  repeat constructor; intros _ key; vm_compute; eauto.
Defined.

Definition indicator (s : string) : QueryFilter :=
  {| f_Field := "indicator"; f_Operator := OpLike; f_Value := VString s; f_Values := [] |}.

(** Four listings that go wrong.  A metadata filter for the text NaN is
    parsed as a number that has no JSON text, and is dropped without an error:
    the listing is of all transactions.  Two filters on the indicator of a
    transaction define two common table expressions of one name.  Sorting
    transactions by [balance_id] is accepted although the table has no such
    column.  And a value of digits is parsed as a number, so that the reference
    00123 is looked for as 123. *)
Theorem filters_that_go_wrong :
  (exists r, Build marshal (Some (fst (ParseFromQuery parse_float no_time [("meta_data.region_eq", ["NaN"])]%string None)))
     "transactions" "" 1 = Ok r /\ r_Conditions r = [] /\ r_Args r = []) /\
  (exists r c1 c2, Build marshal (Some {| fs_Filters := [indicator "@a%"; indicator "%z"]; fs_LogicalOperator := "" |}) "transactions" "" 1 = Ok r /\
     r_CTEs r = ["_indicator_matches AS " +:+ c1; "_indicator_matches AS " +:+ c2]) /\
  (exists sql args, listing_query marshal transactions_listing None
     (Some {| qo_SortBy := "balance_id"; qo_SortOrder := ""; qo_IncludeCount := false |}) 10 0 = Ok (sql, args) /\
     Contains sql " ORDER BY balance_id DESC LIMIT " = true) /\
  (forall ParseFloat time_Parse, parseValue ParseFloat time_Parse "00123" = VInt 123).
Proof.
  split; [vm_compute; eexists; split; [reflexivity|split; reflexivity]|].
  split; [vm_compute; eexists _, "(SELECT b.balance_id FROM ledgerforge.balances b WHERE b.indicator LIKE $1)"%string,
    "(SELECT b.balance_id FROM ledgerforge.balances b WHERE b.indicator LIKE $2)"%string; split; reflexivity|].
  split; [vm_compute; eexists _, _; split; reflexivity|]. intros. vm_compute. reflexivity.
Qed.
End FilterWitness.
