(* ===== verification/Tokens.v ===== *)
(** * Tokenized identities

    [internal/tokenization/tokenization.go] and the operations on identities of
    [internal/core/identity.go], [model/identity.go] and [database/identity.go]
    that use it: personal fields are replaced by tokens that look like them and
    carry their encryption. *)
From stdpp Require Import base option list strings gmap.
From Stdlib Require Import ZArith Lia Ascii.
From S2P Require Import Prelude GoFloat Model Sha256 Policy Store Engine.
Open Scope Z_scope.

(** ** Bytes and texts *)

Definition string_of (bs : list Z) : string := String.string_of_list_ascii (char_of <$> bs).
Definition is_byte (b : Z) : Prop := 0 <= b < 256.

(** *** [base64.StdEncoding] *)

Definition alphabet : list ascii :=
  String.list_ascii_of_string "ABCDEFGHIJKLMNOPQRSTUVWXYZabcdefghijklmnopqrstuvwxyz0123456789+/".
Definition enc6 (n : Z) : ascii := default "="%char (alphabet !! Z.to_nat n).
Fixpoint index_of (c : ascii) (l : list ascii) : option Z :=
  match l with
  | [] => None
  | x :: l => if Ascii.eqb c x then Some 0 else Z.succ <$> index_of c l
  end.
Definition dec6 (c : ascii) : option Z := index_of c alphabet.

Fixpoint base64_encode (bs : list Z) : list ascii :=
  match bs with
  | b0 :: b1 :: b2 :: rest =>
      enc6 (b0 / 4) :: enc6 (b0 mod 4 * 16 + b1 / 16) :: enc6 (b1 mod 16 * 4 + b2 / 64) :: enc6 (b2 mod 64) :: base64_encode rest
  | [b0; b1] => [enc6 (b0 / 4); enc6 (b0 mod 4 * 16 + b1 / 16); enc6 (b1 mod 16 * 4); "="%char]
  | [b0] => [enc6 (b0 / 4); enc6 (b0 mod 4 * 16); "="%char; "="%char]
  | [] => []
  end.

(** Quanta of four; the bits that padding leaves over are not checked. *)
Fixpoint base64_quanta (cs : list ascii) : option (list Z) :=
  match cs with
  | [] => Some []
  | c0 :: c1 :: c2 :: c3 :: rest =>
      d0 ← dec6 c0; d1 ← dec6 c1;
      if Ascii.eqb c2 "=" then
        if Ascii.eqb c3 "=" && (length rest =? 0)%nat then Some [(d0 * 4 + d1 / 16) mod 256] else None
      else
        d2 ← dec6 c2;
        if Ascii.eqb c3 "=" then
          if (length rest =? 0)%nat then Some [(d0 * 4 + d1 / 16) mod 256; (d1 * 16 + d2 / 4) mod 256] else None
        else
          d3 ← dec6 c3; bs ← base64_quanta rest;
          Some ((d0 * 4 + d1 / 16) mod 256 :: (d1 * 16 + d2 / 4) mod 256 :: (d2 * 64 + d3) mod 256 :: bs)
  | _ => None
  end.
Definition newline (c : ascii) : bool := Ascii.eqb c (ascii_of_nat 10) || Ascii.eqb c (ascii_of_nat 13).
Definition base64_EncodeToString (s : string) : string := String.string_of_list_ascii (base64_encode (bytes_of s)).
(** [DecodeString]: line ends are skipped; the error is kept without the offset. *)
Definition base64_DecodeString (s : string) : result string :=
  match base64_quanta (filter (fun c => negb (newline c)) (String.list_ascii_of_string s)) with
  | Some bs => Ok (string_of bs)
  | None => Err (sentinel "base64.CorruptInputError" "illegal base64 data")
  end.

(** *** Runes *)

Definition between (lo hi : nat) (c : ascii) : bool := (lo <=? nat_of_ascii c)%nat && (nat_of_ascii c <=? hi)%nat.
Definition tail_byte : ascii -> bool := between 128 191.
(** What the second byte of a sequence may be, by its first byte. *)
Definition second_byte (b0 : ascii) : ascii -> bool :=
  let n := nat_of_ascii b0 in
  if (n =? 224)%nat then between 160 191 else if (n =? 237)%nat then between 128 159
  else if (n =? 240)%nat then between 144 191 else if (n =? 244)%nat then between 128 143 else tail_byte.
Definition RuneError : list ascii := [ascii_of_nat 239; ascii_of_nat 191; ascii_of_nat 189].

(** [[]rune(s)]: each rune as its encoding; a byte that starts no valid
    encoding is read as U+FFFD. *)
Fixpoint runes (l : list ascii) : list (list ascii) :=
  match l with
  | [] => []
  | b0 :: l1 =>
      if between 0 127 b0 then [b0] :: runes l1
      else match l1 with
      | b1 :: l2 =>
          if between 194 223 b0 && tail_byte b1 then [b0; b1] :: runes l2
          else match l2 with
          | b2 :: l3 =>
              if between 224 239 b0 && second_byte b0 b1 && tail_byte b2 then [b0; b1; b2] :: runes l3
              else match l3 with
              | b3 :: l4 =>
                  if between 240 244 b0 && second_byte b0 b1 && tail_byte b2 && tail_byte b3
                  then [b0; b1; b2; b3] :: runes l4 else RuneError :: runes l1
              | [] => RuneError :: runes l1
              end
          | [] => RuneError :: runes l1
          end
      | [] => RuneError :: runes l1
      end
  end.

(** [hmac.New(sha256.New, key)] and [Sum] on one message. *)
Definition xor_text (n : Z) (bs : list Z) : string := string_of (Z.lxor n <$> bs).
Definition hmac_sha256 (key msg : string) : string :=
  let k := bytes_of (if (64 <? String.length key)%nat then Sum256 key else key) in
  let k := k ++ replicate (64 - length k) 0 in
  Sum256 (xor_text 92 k +:+ Sum256 (xor_text 54 k +:+ msg)).

(** ** The service *)

(** AES-GCM of [crypto/aes] and [crypto/cipher] on a key, a nonce and a text,
    without additional data: opening what was sealed gives the text back. *)
Class GCM := {
  Seal : string -> string -> string -> string;
  Open : string -> string -> string -> option string;
  Open_Seal : forall key nonce text, String.length nonce = 12%nat -> Open key nonce (Seal key nonce text) = Some text }.

Inductive TokenizationMode := StandardMode | FormatPreservingMode.
Definition TokenizableFields : list string :=
  ["FirstName"; "LastName"; "OtherNames"; "EmailAddress"; "PhoneNumber"; "Street"; "PostCode"].
Record TokenizationService := { ts_key : string; ts_enabled : bool }.
Definition ErrTokenizationDisabled : go_error :=
  sentinel "ErrTokenizationDisabled" "tokenization is disabled: LEDGERFORGE_TOKENIZATION_SECRET or tokenization_secret in your ledgerforge.json file must be set to a 32-byte value".

(** [NewTokenizationService]. *)
Definition NewTokenizationService (encryptionKey : string) : TokenizationService :=
  {| ts_key := encryptionKey; ts_enabled := (String.length encryptionKey =? 32)%nat |}.

(** [aes.NewCipher]. *)
Definition NewCipher (key : string) : result unit :=
  let n := String.length key in
  if (n =? 16)%nat || (n =? 24)%nat || (n =? 32)%nat then Ok tt
  else Err (sentinel "aes.KeySizeError" ("crypto/aes: invalid key size " +:+ itoa (Z.of_nat n))).

(** [generateTokenWithFormat]. *)
Definition format_rune (seedByte : Z) (r : list ascii) : list ascii :=
  match r with
  | [c] =>
      if between 65 90 c then [char_of (65 + seedByte mod 26)]
      else if between 97 122 c then [char_of (97 + seedByte mod 26)]
      else if between 48 57 c then [char_of (48 + seedByte mod 10)]
      else r
  | _ => r
  end.
Definition generateTokenWithFormat (seed originalValue : string) : string :=
  let seed := bytes_of seed in
  String.string_of_list_ascii (mjoin (imap (fun i r => format_rune (default 0 (seed !! (i mod length seed)%nat)) r)
    (runes (String.list_ascii_of_string originalValue)))).

(** [strings.SplitN(s, ":", 3)]. *)
Fixpoint cut_colon (s : string) : option (string * string) :=
  match s with
  | EmptyString => None
  | String c s => if Ascii.eqb c ":" then Some (EmptyString, s)
                  else match cut_colon s with Some (a, b) => Some (String c a, b) | None => None end
  end.
Definition SplitN3 (s : string) : list string :=
  match cut_colon s with
  | None => [s]
  | Some (a, r) => match cut_colon r with None => [a; r] | Some (b, c) => [a; b; c] end
  end.

Section Service.
Context {gcm : GCM}.
Variable s : TokenizationService.

(** [TokenizeWithMode] with the nonce that is read from the random source. *)
Definition standardTokenize (nonce value : string) : result string :=
  let* _ := NewCipher (ts_key s) in
  Ok (base64_EncodeToString (nonce +:+ Seal (ts_key s) nonce value)).
Definition formatPreservingTokenize (nonce value : string) : result string :=
  let seed := hmac_sha256 (ts_key s) value in
  let visibleToken := generateTokenWithFormat seed value in
  if negb (ts_enabled s) then Err ErrTokenizationDisabled
  else let* standardToken := standardTokenize nonce value in
       Ok ("FPT:" +:+ visibleToken +:+ ":" +:+ standardToken).
Definition TokenizeWithMode (nonce value : string) (mode : TokenizationMode) : result string :=
  if negb (ts_enabled s) then Err ErrTokenizationDisabled
  else match mode with
  | FormatPreservingMode => formatPreservingTokenize nonce value
  | StandardMode => standardTokenize nonce value
  end.

(** [standardDetokenize]. *)
Definition standardDetokenize (token : string) : result string :=
  let* data := base64_DecodeString token in
  let* _ := NewCipher (ts_key s) in
  if (String.length data <? 12)%nat then Err (errors_New "token too short")
  else match Open (ts_key s) (String.substring 0 12 data) (String.substring 12 (String.length data - 12) data) with
  | Some plaintext => Ok plaintext
  | None => Err (errors_New "cipher: message authentication failed")
  end.

(** [formatPreservingDetokenize]. *)
Definition formatPreservingDetokenize (token : string) : result string :=
  if negb (HasPrefix token "FPT:") then Err (errors_New "not a format-preserving token")
  else match SplitN3 token with
  | [_; _; standardToken] => standardDetokenize standardToken
  | _ => Err (errors_New "invalid format-preserving token format")
  end.

(** [Detokenize]. *)
Definition Detokenize (token : string) : result string :=
  if HasPrefix token "FPT:" then formatPreservingDetokenize token else standardDetokenize token.
Definition DetokenizeWithMode (token : string) (mode : TokenizationMode) : result string :=
  match mode with FormatPreservingMode => formatPreservingDetokenize token | StandardMode => standardDetokenize token end.
End Service.

(** ** Round trips *)

Lemma bytes_of_app a b : bytes_of (a +:+ b) = bytes_of a ++ bytes_of b.
Proof.
  induction a as [|c a IH]; [done|]. change (bytes_of (String c a +:+ b)) with (byte_of c :: bytes_of (a +:+ b)). by rewrite IH.
Qed.
Lemma char_byte c : char_of (byte_of c) = c.
Proof.
  unfold char_of, byte_of. pose proof (N_ascii_bounded c). rewrite Z.mod_small by lia. by rewrite N2Z.id, ascii_N_embedding.
Qed.
Lemma string_of_bytes s : string_of (bytes_of s) = s.
Proof. unfold string_of. induction s as [|c s IH]; [done|]. cbn. rewrite char_byte. f_equal. exact IH. Qed.
Lemma bytes_of_bytes s : Forall is_byte (bytes_of s).
Proof.
  induction s as [|c s IH]; cbn; constructor; [|done]. unfold is_byte, byte_of. pose proof (N_ascii_bounded c). lia.
Qed.

(** What the alphabet is: its digits decode, and are neither padding, line ends
    nor colons. *)
Definition digit_ok (c : ascii) : bool := negb (Ascii.eqb c "=") && negb (newline c) && negb (Ascii.eqb c ":").
Lemma enc6_ok n : 0 <= n < 64 -> dec6 (enc6 n) = Some n /\ digit_ok (enc6 n) = true.
Proof.
  intros Hn. assert (forallb (fun k => bool_decide (dec6 (enc6 (Z.of_nat k)) = Some (Z.of_nat k)) && digit_ok (enc6 (Z.of_nat k)))
    (seq 0 64) = true) as H by (vm_compute; reflexivity).
  rewrite forallb_forall in H. specialize (H (Z.to_nat n)). rewrite in_seq in H. specialize (H ltac:(lia)).
  rewrite Z2Nat.id in H by lia. apply andb_true_iff in H as [H1 H2]. by apply bool_decide_eq_true in H1.
Qed.

Lemma base64_pieces b0 b1 b2 : is_byte b0 -> is_byte b1 -> is_byte b2 ->
  (0 <= b0 / 4 < 64 /\ 0 <= b0 mod 4 * 16 + b1 / 16 < 64 /\ 0 <= b1 mod 16 * 4 + b2 / 64 < 64 /\ 0 <= b2 mod 64 < 64) /\
  (b0 / 4 * 4 + (b0 mod 4 * 16 + b1 / 16) / 16) mod 256 = b0 /\
  ((b0 mod 4 * 16 + b1 / 16) * 16 + (b1 mod 16 * 4 + b2 / 64) / 4) mod 256 = b1 /\
  ((b1 mod 16 * 4 + b2 / 64) * 64 + b2 mod 64) mod 256 = b2.
Proof. unfold is_byte. intros H0 H1 H2. split_and!; Z.div_mod_to_equations; lia. Qed.

(** A digit of the alphabet in a quantum. *)
Lemma digit_facts n : 0 <= n < 64 -> dec6 (enc6 n) = Some n /\ Ascii.eqb (enc6 n) "=" = false /\
  (newline (enc6 n) = false /\ enc6 n <> ":"%char).
Proof.
  intros [H1 H2]%enc6_ok. unfold digit_ok in H2. rewrite !andb_true_iff, !negb_true_iff in H2. destruct H2 as [[H2 H3] H4].
  split_and!; try done. by apply Ascii.eqb_neq.
Qed.

Lemma base64_roundtrip bs : Forall is_byte bs ->
  base64_quanta (base64_encode bs) = Some bs /\ Forall (fun c => newline c = false /\ c <> ":"%char) (base64_encode bs).
Proof.
  revert bs. fix IH 1. intros [|b0 [|b1 [|b2 rest]]] Hb; [done|..].
  - apply Forall_cons in Hb as [H0 _]. destruct (base64_pieces b0 0 0 H0) as ((P0 & P1 & _) & E0 & _); [unfold is_byte; lia..|].
    change (0 / 16) with 0 in *. rewrite Z.add_0_r in *.
    destruct (digit_facts _ P0) as (D0 & _ & F0), (digit_facts _ P1) as (D1 & _ & F1). split.
    + cbn [base64_encode base64_quanta]. rewrite D0, D1. cbn [mbind option_bind Ascii.eqb Bool.eqb length Nat.eqb andb]. by rewrite E0.
    + repeat (constructor; [done|]). constructor.
  - apply Forall_cons in Hb as [H0 Hb]. apply Forall_cons in Hb as [H1 _].
    destruct (base64_pieces b0 b1 0 H0 H1) as ((P0 & P1 & P2 & _) & E0 & E1 & _); [unfold is_byte; lia|].
    change (0 / 64) with 0 in *. rewrite (Z.add_0_r (b1 mod 16 * 4)) in *.
    destruct (digit_facts _ P0) as (D0 & _ & F0), (digit_facts _ P1) as (D1 & _ & F1), (digit_facts _ P2) as (D2 & N2 & F2). split.
    + cbn [base64_encode base64_quanta]. rewrite D0, D1. cbn [mbind option_bind]. rewrite N2, D2. cbn [mbind option_bind Ascii.eqb Bool.eqb length Nat.eqb].
      by rewrite E0, E1.
    + repeat (constructor; [done|]). constructor.
  - apply Forall_cons in Hb as [H0 Hb]. apply Forall_cons in Hb as [H1 Hb]. apply Forall_cons in Hb as [H2 Hb].
    destruct (base64_pieces b0 b1 b2 H0 H1 H2) as ((P0 & P1 & P2 & P3) & E0 & E1 & E2). destruct (IH rest Hb) as [IH1 IH2].
    destruct (digit_facts _ P0) as (D0 & _ & F0), (digit_facts _ P1) as (D1 & _ & F1), (digit_facts _ P2) as (D2 & N2 & F2), (digit_facts _ P3) as (D3 & N3 & F3).
    split.
    + cbn [base64_encode base64_quanta]. rewrite D0, D1. cbn [mbind option_bind]. rewrite N2, D2. cbn [mbind option_bind]. rewrite N3, D3.
      cbn [mbind option_bind]. rewrite IH1. cbn [mbind option_bind]. by rewrite E0, E1, E2.
    + by repeat (constructor; [done|]).
Qed.

Lemma list_ascii_of l : String.list_ascii_of_string (String.string_of_list_ascii l) = l.
Proof. induction l as [|c l IH]; [done|]. cbn. by rewrite IH. Qed.

Lemma base64_string s : base64_DecodeString (base64_EncodeToString s) = Ok s.
Proof.
  unfold base64_DecodeString, base64_EncodeToString. rewrite list_ascii_of.
  destruct (base64_roundtrip (bytes_of s) (bytes_of_bytes s)) as [E Hf].
  assert (filter (fun c => negb (newline c)) (base64_encode (bytes_of s)) = base64_encode (bytes_of s)) as ->.
  { clear E. induction Hf as [|c l [Hc _] _ IH]; [done|]. rewrite filter_cons, IH, Hc. done. }
  by rewrite E, string_of_bytes.
Qed.

Lemma app_cons c a b : String c a +:+ b = String c (a +:+ b).
Proof. done. Qed.
Lemma substring_whole s : String.substring 0 (String.length s) s = s.
Proof. induction s as [|c s IH]; [done|]. cbn. by rewrite IH. Qed.
Lemma substring_first a b : String.substring 0 (String.length a) (a +:+ b) = a.
Proof.
  induction a as [|c a IH]; [by destruct b|]. rewrite app_cons. cbn [String.length String.substring]. by rewrite IH.
Qed.
Lemma substring_rest a b : String.substring (String.length a) (String.length b) (a +:+ b) = b.
Proof.
  induction a as [|c a IH]; [apply substring_whole|]. rewrite app_cons. cbn [String.length String.substring]. exact IH.
Qed.

(** *** No colon *)

Definition no_colon (s : string) : Prop := Forall (fun c => c <> ":"%char) (String.list_ascii_of_string s).

Lemma cut_first a b : no_colon a -> cut_colon (a +:+ String ":" b) = Some (a, b).
Proof.
  unfold no_colon. induction a as [|c a IH]; intros Ha; [done|]. apply Forall_cons in Ha as [Hc Ha].
  rewrite app_cons. cbn [cut_colon]. apply Ascii.eqb_neq in Hc. by rewrite Hc, IH.
Qed.

Lemma char_not_colon b : b mod 256 <> 58 -> char_of b <> ":"%char.
Proof. intros Hb E. apply Hb. by rewrite <- byte_char, E. Qed.

Lemma format_no_colon n r : Forall (fun c => c <> ":"%char) r -> Forall (fun c => c <> ":"%char) (format_rune n r).
Proof.
  intros Hr. unfold format_rune. destruct r as [|c [|d r]]; [done| |done].
  repeat case_match; try done; (constructor; [|done]); apply char_not_colon; Z.div_mod_to_equations; lia.
Qed.

Lemma runes_no_colon l : Forall (fun c => c <> ":"%char) l -> Forall (Forall (fun c => c <> ":"%char)) (runes l).
Proof.
  assert (Forall (fun c => c <> ":"%char) RuneError) as HE by (by repeat constructor).
  revert l. fix IH 1. intros [|b0 l1] Hl; [constructor|]. apply Forall_cons in Hl as [H0 Hl1]. pose proof (IH l1 Hl1) as I1.
  cbn [runes]. destruct (between 0 127 b0); [by repeat constructor|].
  destruct l1 as [|b1 l2]; [by constructor|]. apply Forall_cons in Hl1 as [H1 Hl2].
  destruct (_ && _); [constructor; [by repeat constructor|by apply IH]|].
  destruct l2 as [|b2 l3]; [by constructor|]. apply Forall_cons in Hl2 as [H2 Hl3].
  destruct (_ && _ && _); [constructor; [by repeat constructor|by apply IH]|].
  destruct l3 as [|b3 l4]; [by constructor|]. apply Forall_cons in Hl3 as [H3 Hl4].
  destruct (_ && _ && _ && _); [constructor; [by repeat constructor|by apply IH]|by constructor].
Qed.

Lemma visible_no_colon seed v : no_colon v -> no_colon (generateTokenWithFormat seed v).
Proof.
  intros Hv. unfold no_colon, generateTokenWithFormat. cbv zeta. rewrite list_ascii_of.
  apply runes_no_colon in Hv. apply Forall_join. apply Forall_forall. intros r Hr.
  apply elem_of_lookup_imap in Hr as (i & x & -> & Hx). apply format_no_colon.
  rewrite Forall_forall in Hv. apply Hv. by eapply list_elem_of_lookup_2.
Qed.

Section RoundTrip.
Context {gcm : GCM}.

Lemma standard_roundtrip s nonce value token : String.length nonce = 12%nat ->
  standardTokenize s nonce value = Ok token -> standardDetokenize s token = Ok value.
Proof.
  intros Hn. unfold standardTokenize, standardDetokenize. destruct (NewCipher (ts_key s)) as [[]|e]; [|done].
  cbn [res_bind]. intros H. apply Ok_inj in H as <-. rewrite base64_string. cbn [res_bind].
  set (c := Seal (ts_key s) nonce value). rewrite string_length_app.
  destruct (Nat.ltb_spec (String.length nonce + String.length c) 12); [lia|].
  replace (String.length nonce + String.length c - 12)%nat with (String.length c) by lia.
  rewrite <- Hn, substring_first, substring_rest. unfold c. by rewrite Open_Seal.
Qed.

Lemma prefix_app a b : String.prefix a (a +:+ b) = true.
Proof. induction a as [|c a IH]; [by destruct b|]. rewrite app_cons. cbn [String.prefix]. by destruct (ascii_dec c c). Qed.

Lemma standard_not_fpt s nonce value token : standardTokenize s nonce value = Ok token -> HasPrefix token "FPT:" = false.
Proof.
  unfold standardTokenize. destruct (NewCipher (ts_key s)); [|done]. intros H. apply Ok_inj in H as <-.
  unfold base64_EncodeToString. destruct (base64_roundtrip _ (bytes_of_bytes (nonce +:+ Seal (ts_key s) nonce value))) as [_ Hf].
  revert Hf. generalize (base64_encode (bytes_of (nonce +:+ Seal (ts_key s) nonce value))). intros l Hf. unfold HasPrefix.
  destruct l as [|c0 [|c1 [|c2 [|c3 l]]]]; cbn [String.string_of_list_ascii String.prefix]; repeat (destruct (ascii_dec _ _); [|done]); try done.
  do 3 apply Forall_cons in Hf as [_ Hf]. apply Forall_cons in Hf as [[_ Hc] _]. congruence.
Qed.

(** Every token gives its value back: the standard ones always, those that
    keep the format when the value has no colon. *)
Lemma token_roundtrip s nonce value mode token : String.length nonce = 12%nat -> (mode = StandardMode \/ no_colon value) ->
  TokenizeWithMode s nonce value mode = Ok token -> Detokenize s token = Ok value.
Proof.
  intros Hn Hm. unfold TokenizeWithMode. destruct (ts_enabled s) eqn:Es; [|done]. cbn [negb]. destruct mode.
  - intros H. unfold Detokenize. rewrite (standard_not_fpt _ _ _ _ H). by eapply standard_roundtrip.
  - destruct Hm as [|Hv]; [done|]. unfold formatPreservingTokenize. rewrite Es. cbn [negb]. cbv zeta. intros H.
    apply res_bind_Ok in H as (st & Hst & H). apply Ok_inj in H as <-. unfold Detokenize, formatPreservingDetokenize.
    set (v := generateTokenWithFormat _ _). assert (no_colon v) as Hnv by (by apply visible_no_colon).
    unfold HasPrefix. rewrite prefix_app. cbn [negb]. unfold SplitN3.
    change ("FPT:" +:+ v +:+ ":" +:+ st) with ("FPT" +:+ String ":" (v +:+ String ":" st)).
    rewrite cut_first by (repeat constructor; discriminate). rewrite cut_first by done. by eapply standard_roundtrip.
Qed.
End RoundTrip.

(** ** Identities *)

(** A value of a metadata map: decoded JSON, or the Go map that
    [MarkFieldAsTokenized] puts there until it is stored. *)
Inductive meta_value := MJson (j : json) | MBools (m : gmap string bool).

(** [model.Identity]. *)
Record FullIdentity := {
  fi_IdentityID : string; fi_IdentityType : string; fi_OrganizationName : string; fi_Category : string;
  fi_FirstName : string; fi_LastName : string; fi_OtherNames : string; fi_Gender : string; fi_EmailAddress : string;
  fi_PhoneNumber : string; fi_Nationality : string; fi_Street : string; fi_Country : string; fi_State : string;
  fi_PostCode : string; fi_City : string; fi_DOB : Z; fi_CreatedAt : Z; fi_MetaData : option (gmap string meta_value) }.

(** [reflect]'s [FieldByName], as [String] prints it. *)
Definition FieldByName (i : FullIdentity) (name : string) : option string :=
  if String.eqb name "IdentityID" then Some (fi_IdentityID i)
  else if String.eqb name "IdentityType" then Some (fi_IdentityType i)
  else if String.eqb name "OrganizationName" then Some (fi_OrganizationName i)
  else if String.eqb name "Category" then Some (fi_Category i)
  else if String.eqb name "FirstName" then Some (fi_FirstName i)
  else if String.eqb name "LastName" then Some (fi_LastName i)
  else if String.eqb name "OtherNames" then Some (fi_OtherNames i)
  else if String.eqb name "Gender" then Some (fi_Gender i)
  else if String.eqb name "EmailAddress" then Some (fi_EmailAddress i)
  else if String.eqb name "PhoneNumber" then Some (fi_PhoneNumber i)
  else if String.eqb name "Nationality" then Some (fi_Nationality i)
  else if String.eqb name "Street" then Some (fi_Street i)
  else if String.eqb name "Country" then Some (fi_Country i)
  else if String.eqb name "State" then Some (fi_State i)
  else if String.eqb name "PostCode" then Some (fi_PostCode i)
  else if String.eqb name "City" then Some (fi_City i)
  else if String.eqb name "DOB" || String.eqb name "CreatedAt" then Some "<time.Time Value>"%string
  else if String.eqb name "MetaData" then Some "<map[string]interface {} Value>"%string
  else None.
(** [SetString] on a field that holds a text. *)
Definition SetField (i : FullIdentity) (name v : string) : FullIdentity :=
  if String.eqb name "FirstName" then {| i with fi_FirstName := v |}
  else if String.eqb name "LastName" then {| i with fi_LastName := v |}
  else if String.eqb name "OtherNames" then {| i with fi_OtherNames := v |}
  else if String.eqb name "EmailAddress" then {| i with fi_EmailAddress := v |}
  else if String.eqb name "PhoneNumber" then {| i with fi_PhoneNumber := v |}
  else if String.eqb name "Street" then {| i with fi_Street := v |}
  else if String.eqb name "PostCode" then {| i with fi_PostCode := v |}
  else if String.eqb name "IdentityID" then {| i with fi_IdentityID := v |}
  else if String.eqb name "IdentityType" then {| i with fi_IdentityType := v |}
  else if String.eqb name "OrganizationName" then {| i with fi_OrganizationName := v |}
  else if String.eqb name "Category" then {| i with fi_Category := v |}
  else if String.eqb name "Gender" then {| i with fi_Gender := v |}
  else if String.eqb name "Nationality" then {| i with fi_Nationality := v |}
  else if String.eqb name "Country" then {| i with fi_Country := v |}
  else if String.eqb name "State" then {| i with fi_State := v |}
  else if String.eqb name "City" then {| i with fi_City := v |}
  else i.

(** [convertToStructFieldName]. *)
Definition convertToStructFieldName (fieldName : string) : string :=
  match fieldName with EmptyString => EmptyString | String c r => ToUpper (String c EmptyString) +:+ r end.

Definition meta_get (i : FullIdentity) (key : string) : option meta_value := fi_MetaData i ≫= (.!! key).
Definition bool_at (l : list (string * json)) (key : string) : option bool :=
  match List.find (fun kv => String.eqb kv.1 key) l with Some (_, JBool b) => Some b | _ => None end.

(** [IsFieldTokenized]. *)
Definition IsFieldTokenized (i : FullIdentity) (fieldName : string) : bool :=
  let structFieldName := convertToStructFieldName fieldName in
  match meta_get i "tokenized_fields" with
  | Some (MBools m) => default false (m !! structFieldName) || default false (m !! fieldName)
  | Some (MJson (JObj l)) =>
      match bool_at l structFieldName with
      | Some b => b
      | None => default false (bool_at l fieldName)
      end
  | _ => false
  end.

(** The tokenized fields of the metadata, in either shape. *)
Definition tokenized_fields (i : FullIdentity) : gmap string bool :=
  match meta_get i "tokenized_fields" with
  | Some (MBools m) => m
  | Some (MJson (JObj l)) => list_to_map (omap (fun kv => match kv.2 with JBool b => Some (kv.1, b) | _ => None end) l)
  | _ => ∅
  end.
(** [MarkFieldAsTokenized]. *)
Definition MarkFieldAsTokenized (i : FullIdentity) (fieldName : string) : FullIdentity :=
  let m := <[convertToStructFieldName fieldName := true]> (tokenized_fields i) in
  {| i with fi_MetaData := Some (<["tokenized_fields"%string := MBools m]> (default ∅ (fi_MetaData i))) |}.

(** *** The table ([database/identity.go]) *)

Abbreviation identity_db := (gmap string FullIdentity).
(** [json.Marshal] and [json.Unmarshal] of the metadata column. *)
Definition stored_value (v : meta_value) : meta_value :=
  match v with
  | MJson j => MJson j
  | MBools m => MJson (JObj ((fun kv => (kv.1, JBool kv.2)) <$> map_to_list m))
  end.

Definition identity_not_found (id : string) : go_error := NewAPIError ErrNotFound ("Identity with ID '" +:+ id +:+ "' not found") None.
(** [GetIdentityByID]. *)
Definition GetIdentityByID (db : identity_db) (id : string) : result FullIdentity :=
  match db !! id with Some i => Ok i | None => Err (identity_not_found id) end.

(** [UpdateIdentity]: the fields that have a value, and the metadata if there
    is one. *)
Definition or_old (v old : string) : string := if String.eqb v "" then old else v.
Definition has_values (i : FullIdentity) : bool :=
  negb (forallb (String.eqb "") [fi_IdentityType i; fi_FirstName i; fi_LastName i; fi_OtherNames i; fi_Gender i; fi_EmailAddress i;
    fi_PhoneNumber i; fi_Nationality i; fi_OrganizationName i; fi_Category i; fi_Street i; fi_Country i; fi_State i; fi_PostCode i; fi_City i])
  || negb (fi_DOB i =? 0) || (match fi_MetaData i with Some _ => true | None => false end).
Definition updated_identity (i old : FullIdentity) : FullIdentity := {|
  fi_IdentityID := fi_IdentityID old; fi_IdentityType := or_old (fi_IdentityType i) (fi_IdentityType old);
  fi_OrganizationName := or_old (fi_OrganizationName i) (fi_OrganizationName old); fi_Category := or_old (fi_Category i) (fi_Category old);
  fi_FirstName := or_old (fi_FirstName i) (fi_FirstName old); fi_LastName := or_old (fi_LastName i) (fi_LastName old);
  fi_OtherNames := or_old (fi_OtherNames i) (fi_OtherNames old); fi_Gender := or_old (fi_Gender i) (fi_Gender old);
  fi_EmailAddress := or_old (fi_EmailAddress i) (fi_EmailAddress old); fi_PhoneNumber := or_old (fi_PhoneNumber i) (fi_PhoneNumber old);
  fi_Nationality := or_old (fi_Nationality i) (fi_Nationality old); fi_Street := or_old (fi_Street i) (fi_Street old);
  fi_Country := or_old (fi_Country i) (fi_Country old); fi_State := or_old (fi_State i) (fi_State old);
  fi_PostCode := or_old (fi_PostCode i) (fi_PostCode old); fi_City := or_old (fi_City i) (fi_City old);
  fi_DOB := if fi_DOB i =? 0 then fi_DOB old else fi_DOB i; fi_CreatedAt := fi_CreatedAt old;
  fi_MetaData := match fi_MetaData i with Some m => Some (stored_value <$> m) | None => fi_MetaData old end |}.
Definition UpdateIdentity (db : identity_db) (i : FullIdentity) : identity_db * result unit :=
  if negb (has_values i) then (db, Err (NewAPIError "BAD_REQUEST" "No fields provided for update" None))
  else match db !! fi_IdentityID i with
  | None => (db, Err (identity_not_found (fi_IdentityID i)))
  | Some old => (<[fi_IdentityID i := updated_identity i old]> db, Ok tt)
  end.

(** [DeleteIdentity]. *)
Definition DeleteIdentity (db : identity_db) (id : string) : identity_db * result unit :=
  match db !! id with None => (db, Err (identity_not_found id)) | Some _ => (delete id db, Ok tt) end.

(** *** [internal/core/identity.go] *)

Section Identities.
Context {gcm : GCM}.
Variable tokenizer : TokenizationService.

(** [TokenizeIdentityField] with the nonce it draws. *)
Definition TokenizeIdentityField (db : identity_db) (nonce identityID fieldName : string) : identity_db * result unit :=
  let structFieldName := convertToStructFieldName fieldName in
  if negb (existsb (String.eqb structFieldName) TokenizableFields)
  then (db, Err (errors_New ("field " +:+ fieldName +:+ " is not tokenizable")))
  else match GetIdentityByID db identityID with
  | Err e => (db, Err e)
  | Ok i =>
      if IsFieldTokenized i fieldName then (db, Err (errors_New ("field " +:+ fieldName +:+ " is already tokenized")))
      else match FieldByName i structFieldName with
      | None => (db, Err (errors_New ("field " +:+ fieldName +:+ " not found or cannot be set")))
      | Some strVal =>
          match TokenizeWithMode tokenizer nonce strVal FormatPreservingMode with
          | Err e => (db, Err e)
          | Ok token => UpdateIdentity db (MarkFieldAsTokenized (SetField i structFieldName token) fieldName)
          end
      end
  end.

(** [DetokenizeIdentityField]; the message of a refusal also quotes the
    metadata. *)
Definition DetokenizeIdentityField (db : identity_db) (identityID fieldName : string) : result string :=
  let* i := GetIdentityByID db identityID in
  let structFieldName := convertToStructFieldName fieldName in
  if negb (IsFieldTokenized i fieldName) && negb (IsFieldTokenized i structFieldName)
  then Err (errors_New ("field " +:+ fieldName +:+ " is not tokenized"))
  else match FieldByName i structFieldName with
  | Some tokenVal => Detokenize tokenizer tokenVal
  | None => match FieldByName i fieldName with
            | Some tokenVal => Detokenize tokenizer tokenVal
            | None => Err (errors_New ("field " +:+ fieldName +:+ " not found"))
            end
  end.

(** [TokenizeIdentity] and [TokenizeAllPII]: [nonces] for the fields in order. *)
Fixpoint TokenizeIdentity (db : identity_db) (nonces : list string) (identityID : string) (fields : list string)
    : identity_db * result unit :=
  match fields with
  | [] => (db, Ok tt)
  | field :: rest =>
      match TokenizeIdentityField db (default ""%string (head nonces)) identityID field with
      | (db, Err e) => (db, Err e)
      | (db, Ok _) => TokenizeIdentity db (tail nonces) identityID rest
      end
  end.
Fixpoint tokenize_each (db : identity_db) (nonces : list string) (identityID : string) (fields : list string) : identity_db :=
  match fields with
  | [] => db
  | field :: rest => tokenize_each (fst (TokenizeIdentityField db (default ""%string (head nonces)) identityID field)) (tail nonces) identityID rest
  end.
Definition TokenizeAllPII (db : identity_db) (nonces : list string) (identityID : string) : identity_db :=
  tokenize_each db nonces identityID TokenizableFields.

(** [DetokenizeIdentity]: the range over the map visits its fields in any order. *)
Fixpoint detokenize_each (db : identity_db) (identityID : string) (fields : list (string * bool)) (acc : gmap string string)
    : result (gmap string string) :=
  match fields with
  | [] => Ok acc
  | (field, true) :: rest =>
      let* v := DetokenizeIdentityField db identityID field in
      detokenize_each db identityID rest (<[field := v]> acc)
  | (_, false) :: rest => detokenize_each db identityID rest acc
  end.
Definition DetokenizeIdentity (db : identity_db) (identityID : string) : result (gmap string string) :=
  let* i := GetIdentityByID db identityID in
  detokenize_each db identityID (map_to_list (tokenized_fields i)) ∅.

(** [GetDetokenizedIdentity]: only the Go map is looked at, not decoded JSON. *)
Definition GetDetokenizedIdentity (db : identity_db) (identityID : string) : result FullIdentity :=
  let* i := GetIdentityByID db identityID in
  let* values := match meta_get i "tokenized_fields" with
                 | Some (MBools m) => detokenize_each db identityID (map_to_list m) ∅
                 | _ => Ok ∅
                 end in
  let i' := fold_left (fun i kv => SetField i kv.1 kv.2) (map_to_list values) i in
  Ok {| i' with fi_MetaData := delete "tokenized_fields"%string <$> fi_MetaData i' |}.
End Identities.

(** ** Tokenizing a field and reading it back *)

(** The name a request may give a tokenizable field, and its struct name. *)
Lemma tokenizable_cases n : existsb (String.eqb n) TokenizableFields = true -> n ∈ TokenizableFields.
Proof. intros (x & Hx & E)%existsb_exists. apply String.eqb_eq in E as ->. by apply list_elem_of_In. Qed.

Ltac field_cases H := repeat (apply elem_of_cons in H as [->|H]); [..|by apply not_elem_of_nil in H].

Lemma set_get i n v : n ∈ TokenizableFields -> FieldByName (SetField i n v) n = Some v.
Proof. intros H. unfold TokenizableFields in H. field_cases H; reflexivity. Qed.
Lemma tokenizable_get i n : n ∈ TokenizableFields -> is_Some (FieldByName i n).
Proof. intros H. unfold TokenizableFields in H. field_cases H; by eexists. Qed.
Lemma tokenizable_struct n : n ∈ TokenizableFields -> convertToStructFieldName n = n.
Proof. intros H. unfold TokenizableFields in H. field_cases H; reflexivity. Qed.

(** An update with the stored values of the other fields changes only the
    field and the metadata. *)
Lemma updated_field i n v m g : n ∈ TokenizableFields -> v <> ""%string ->
  let i' := SetField i n v in
  FieldByName (updated_identity {| i' with fi_MetaData := Some m |} i) g = FieldByName i' g.
Proof.
  intros Hn Hv. apply String.eqb_neq in Hv.
  assert (forall x, or_old x x = x) as Ho by (intros x; unfold or_old; by destruct (String.eqb x "")).
  assert (or_old v = fun _ => v) as Hor by (unfold or_old; by rewrite Hv).
  unfold TokenizableFields in Hn. field_cases Hn; cbv zeta; unfold SetField; cbn [String.eqb Ascii.eqb Bool.eqb];
    unfold FieldByName, updated_identity; cbn -[String.eqb or_old]; by rewrite ?Hor, !Ho.
Qed.

Lemma set_get_ne i n v g : n ∈ TokenizableFields -> g <> n -> FieldByName (SetField i n v) g = FieldByName i g.
Proof.
  intros Hn Hg. unfold TokenizableFields in Hn. field_cases Hn; unfold SetField; cbn [String.eqb Ascii.eqb Bool.eqb];
    unfold FieldByName; cbn -[String.eqb]; apply String.eqb_neq in Hg; by rewrite Hg.
Qed.
Lemma set_id i n v : n ∈ TokenizableFields -> fi_IdentityID (SetField i n v) = fi_IdentityID i.
Proof. intros Hn. unfold TokenizableFields in Hn. field_cases Hn; reflexivity. Qed.

Lemma bool_at_map (m : gmap string bool) k : bool_at ((fun kv => (kv.1, JBool kv.2)) <$> map_to_list m) k = m !! k.
Proof.
  unfold bool_at. destruct (List.find _ _) as [[k' j]|] eqn:E.
  - apply List.find_some in E as [Hin Hk]. apply String.eqb_eq in Hk. cbn in Hk. subst k'.
    apply list_elem_of_In, list_elem_of_fmap in Hin as ([k2 b] & [= -> ->] & Hin). by apply elem_of_map_to_list in Hin as ->.
  - destruct (m !! k) as [b|] eqn:Hk; [|done]. apply elem_of_map_to_list in Hk.
    apply (list_elem_of_fmap_2 (fun kv => (kv.1, JBool kv.2))), list_elem_of_In in Hk.
    apply (List.find_none _ _ E) in Hk. cbn in Hk. by rewrite String.eqb_refl in Hk.
Qed.

(** A field that was marked and stored is tokenized. *)
Lemma stored_mark i j f g : convertToStructFieldName g = convertToStructFieldName f ->
  IsFieldTokenized (updated_identity (MarkFieldAsTokenized i f) j) g = true.
Proof.
  intros E. unfold IsFieldTokenized, meta_get, updated_identity, MarkFieldAsTokenized. cbn [fi_MetaData mbind option_bind].
  rewrite lookup_fmap, lookup_insert_eq. cbn [fmap option_fmap option_map stored_value]. rewrite bool_at_map, E, lookup_insert_eq. done.
Qed.

Section IdentityFacts.
Context {gcm : GCM}.

End IdentityFacts.

(** ** On concrete inputs *)

Module TokensWitness.

(** A cipher that hides nothing, to run the definitions with. *)
#[export] Instance plain_gcm : GCM :=
  {| Seal := fun key nonce text => text; Open := fun key nonce text => Some text; Open_Seal := fun _ _ _ _ => eq_refl |}.

Definition secret : string := "0123456789abcdef0123456789abcdef".
Definition nonce : string := "123456789012".
Definition person (first street : string) : FullIdentity := {|
  fi_IdentityID := "idt_1"; fi_IdentityType := "individual"; fi_OrganizationName := ""; fi_Category := ""; fi_FirstName := first;
  fi_LastName := "Doe"; fi_OtherNames := ""; fi_Gender := ""; fi_EmailAddress := ""; fi_PhoneNumber := ""; fi_Nationality := "";
  fi_Street := street; fi_Country := ""; fi_State := ""; fi_PostCode := ""; fi_City := ""; fi_DOB := 0; fi_CreatedAt := 1; fi_MetaData := None |}.
Definition people (i : FullIdentity) : identity_db := {["idt_1"%string := i]}.
Definition service : TokenizationService := NewTokenizationService secret.
Definition tokenized (i : FullIdentity) (f : string) : identity_db := fst (TokenizeIdentityField service (people i) nonce "idt_1" f).

(** The token of a name looks like a name. *)
Example a_token : (i ← tokenized (person "Jane" "") "firstName" !! "idt_1"%string; FieldByName i "FirstName")
  = Some "FPT:Qymy:MTIzNDU2Nzg5MDEySmFuZQ=="%string.
Proof. vm_compute. reflexivity. Qed.


(** A street with a colon cannot be read back: the visible part keeps the
    colon, and what follows it is decoded in place of the standard token.  And
    the detokenized copy of a stored identity still holds the tokens, while the
    note that they are tokens is removed. *)
Theorem tokens_that_are_lost :
  (exists e, DetokenizeIdentityField service (tokenized (person "Jane" "Unit 4: Main St") "street") "idt_1" "street" = Err e) /\
  (exists i, GetDetokenizedIdentity service (tokenized (person "Jane" "") "firstName") "idt_1" = Ok i /\
     HasPrefix (fi_FirstName i) "FPT:" = true /\ meta_get i "tokenized_fields" = None /\
     DetokenizeIdentityField service (tokenized (person "Jane" "") "firstName") "idt_1" "firstName" = Ok "Jane"%string).
Proof.
  split; [eexists; vm_compute; reflexivity|]. eexists. split; [vm_compute; reflexivity|]. split_and!; vm_compute; reflexivity.
Qed.
End TokensWitness.
