(* ===== verification/Reconcile.v ===== *)
(** * Reconciliation: rules, matching, store

    [internal/reconciliation] ([rules.go], [matching.go], [service.go]),
    [internal/files/files.go] and [database/reconciliation.go]: matching rules and
    their validation, the comparison of an external transaction with an internal
    one or with a group of them, the search bounds of the one-to-one strategy,
    uploads, and the tables of reconciliations, matches and external
    transactions.  [Grouping] adds the concurrent matching of groups and
    [Reconciler] the run of a whole reconciliation.

    Times are nanoseconds.  The Levenshtein distance (a third-party package), the
    comparison and rounding of NUMERIC values, [strconv.ParseFloat] and
    [time.Parse] are parameters.  Letters fold as in ASCII. *)
From stdpp Require Import base option list strings gmap sorting.
From Stdlib Require Import ZArith Lia Ascii SpecFloat.
From S2P Require Import Prelude GoFloat Model GoTime Policy PolicyStore Access Store Engine Inflight Filter.
Close Scope Q_scope.
Open Scope Z_scope.

(** ** Floats and durations *)

Definition fadd (a b : float64) : float64 := SFadd 53 1024 a b.
Definition fsub (a b : float64) : float64 := SFsub 53 1024 a b.
Definition fmul (a b : float64) : float64 := SFmul 53 1024 a b.
Definition fdiv (a b : float64) : float64 := SFdiv 53 1024 a b.
Definition math_Abs (a : float64) : float64 := SFabs a.

Definition wrap64 (n : Z) : Z := (n + 2 ^ 63) mod 2 ^ 64 - 2 ^ 63.
(** [time.Time.Sub] saturates. *)
Definition time_Sub (a b : Z) : Z := Z.max (- 2 ^ 63) (Z.min (2 ^ 63 - 1) (a - b)).
(** [time.Duration.Seconds]. *)
Definition Seconds (d : Z) : float64 :=
  fadd (f_of_Z (Z.quot d second)) (fdiv (f_of_Z (Z.rem d second)) (f_of_Z second)).

(** [strings.Split] on a separator that is not empty, and [strings.EqualFold]. *)
Fixpoint split_on (sep : string) (skip : nat) (s : string) : list string :=
  match s with
  | EmptyString => [EmptyString]
  | String c r =>
      match skip with
      | S k => split_on sep k r
      | O => if String.prefix sep s then EmptyString :: split_on sep (String.length sep - 1) r
             else match split_on sep O r with
                  | p :: ps => String c p :: ps
                  | [] => [String c EmptyString]
                  end
      end
  end.
Definition EqualFold (a b : string) : bool := String.eqb (ToLower a) (ToLower b).

(** ** Data ([model/reconciliation.go]) *)

Record Match := {
  mt_ExternalTransactionID : string; mt_InternalTransactionID : string; mt_ReconciliationID : string;
  mt_Amount : float64; mt_Date : Z }.
Record ExternalTransaction := {
  et_ID : string; et_Amount : float64; et_Reference : string; et_Currency : string;
  et_Description : string; et_Date : Z; et_Source : string }.
Record Reconciliation := {
  rc_ReconciliationID : string; rc_UploadID : string; rc_Status : string; rc_MatchedTransactions : Z;
  rc_UnmatchedTransactions : Z; rc_IsDryRun : bool; rc_StartedAt : Z; rc_CompletedAt : option Z }.
Record ReconciliationProgress := { rp_LastProcessedExternalTxnID : string; rp_ProcessedCount : Z }.
Record MatchingCriteria := {
  mc_Field : string; mc_Operator : string; mc_Value : string; mc_Pattern : string;
  mc_AllowableDrift : float64 }.
Record MatchingRule := {
  mr_RuleID : string; mr_CreatedAt : Z; mr_UpdatedAt : Z; mr_Name : string; mr_Description : string;
  mr_Criteria : list MatchingCriteria }.

(** [ToInternalTransaction]. *)
Definition ToInternalTransaction (et : ExternalTransaction) : Transaction := {| zero_transaction with
  t_TransactionID := et_ID et; t_Amount := et_Amount et; t_Reference := et_Reference et;
  t_Currency := et_Currency et; t_CreatedAt := et_Date et; t_Description := et_Description et |}.

(** ** Validation of rules ([rules.go]) *)

Definition contains (slice : list string) (item : string) : bool := existsb (String.eqb item) slice.

Definition validateOperator (operator : string) : result unit :=
  guard_err (negb (contains ["equals"; "greater_than"; "less_than"; "contains"]%string operator)) (errors_New "invalid operator").
Definition validateField (field : string) : result unit :=
  guard_err (negb (contains ["amount"; "date"; "description"; "reference"; "currency"]%string field)) (errors_New "invalid field").
Definition validateDrift (c : MatchingCriteria) : result unit :=
  if String.eqb (mc_Operator c) "equals" then
    if String.eqb (mc_Field c) "amount" then
      guard_err (flt (mc_AllowableDrift c) fzero || flt (f_of_Z 1) (mc_AllowableDrift c))
        (errors_New "drift for amount must be between 0 and 1 (fraction, e.g. 0.01 = 1%)")
    else if String.eqb (mc_Field c) "date" then
      guard_err (flt (mc_AllowableDrift c) fzero) (errors_New "drift for date must be non-negative (seconds)")
    else Ok tt
  else Ok tt.
Definition validateCriteria (c : MatchingCriteria) : result unit :=
  if String.eqb (mc_Field c) "" || String.eqb (mc_Operator c) ""
  then Err (errors_New "field and operator are required for each criteria")
  else
    let* _ := validateOperator (mc_Operator c) in
    let* _ := validateField (mc_Field c) in
    validateDrift c.
Definition validateRuleBasics (r : MatchingRule) : result unit :=
  if String.eqb (mr_Name r) "" then Err (errors_New "rule name is required")
  else if (length (mr_Criteria r) =? 0)%nat then Err (errors_New "at least one matching criteria is required")
  else Ok tt.
Definition validateRule (r : MatchingRule) : result unit :=
  let* _ := validateRuleBasics r in
  fold_res (fun _ c => validateCriteria c) (mr_Criteria r) tt.

(** ** Comparisons ([matching.go]) *)

Section Matching.
(** [levenshtein.DistanceForStrings] with the default options. *)
Variable DistanceForStrings : string -> string -> Z.
(** The conversion to [int64] of a float out of its range, which the language
    leaves to the implementation. *)
Variable int_overflow : float64 -> Z.

Definition to_int64 (f : float64) : Z :=
  if is_finite f && (- 2 ^ 63 <=? ftruncZ f) && (ftruncZ f <? 2 ^ 63) then ftruncZ f else int_overflow f.

(** [partialMatch]. *)
Definition partialMatch (str1 str2 : string) (allowableDrift : float64) : bool :=
  let str1 := ToLower str1 in
  let str2 := ToLower str2 in
  if Contains str1 str2 || Contains str2 str1 then true
  else
    let maxLength := f_of_Z (Z.of_nat (Nat.max (String.length str1) (String.length str2))) in
    let maxAllowedDistance := to_int64 (fmul maxLength (fdiv allowableDrift (f_of_Z 100))) in
    DistanceForStrings str1 str2 <=? maxAllowedDistance.

(** [matchesString]. *)
Definition matchesString (externalValue internalValue : string) (c : MatchingCriteria) : bool :=
  if String.eqb (mc_Operator c) "equals" then existsb (EqualFold externalValue) (split_on " | " 0 internalValue)
  else if String.eqb (mc_Operator c) "contains"
  then existsb (fun part => partialMatch externalValue part (mc_AllowableDrift c)) (split_on " | " 0 internalValue)
  else false.

(** [matchesCurrency]. *)
Definition matchesCurrency (externalValue internalValue : string) (c : MatchingCriteria) : bool :=
  if String.eqb internalValue "MIXED" then true else matchesString externalValue internalValue c.

(** [matchesGroupAmount]. *)
Definition matchesGroupAmount (externalAmount groupAmount : float64) (c : MatchingCriteria) : bool :=
  if String.eqb (mc_Operator c) "equals"
  then fle (math_Abs (fsub externalAmount groupAmount)) (fmul (math_Abs groupAmount) (mc_AllowableDrift c))
  else if String.eqb (mc_Operator c) "greater_than" then flt groupAmount externalAmount
  else if String.eqb (mc_Operator c) "less_than" then flt externalAmount groupAmount
  else false.

(** [matchesGroupDate]. *)
Definition matchesGroupDate (externalDate groupEarliestDate : Z) (c : MatchingCriteria) : bool :=
  let op := mc_Operator c in
  if String.eqb op "equals"
  then fle (math_Abs (Seconds (time_Sub externalDate groupEarliestDate))) (mc_AllowableDrift c)
  else if contains ["after"; "greater_than"]%string op then groupEarliestDate <? externalDate
  else if contains ["before"; "less_than"]%string op then externalDate <? groupEarliestDate
  else false.

(** [matchesRules]: a rule all of whose criteria are met. *)
Definition criterionMet (externalTxn groupTxn : Transaction) (c : MatchingCriteria) : bool :=
  let field := mc_Field c in
  if String.eqb field "amount" then matchesGroupAmount (t_Amount externalTxn) (t_Amount groupTxn) c
  else if String.eqb field "date" then matchesGroupDate (t_CreatedAt externalTxn) (t_CreatedAt groupTxn) c
  else if String.eqb field "description" then matchesString (t_Description externalTxn) (t_Description groupTxn) c
  else if String.eqb field "reference" then matchesString (t_Reference externalTxn) (t_Reference groupTxn) c
  else if String.eqb field "currency" then matchesCurrency (t_Currency externalTxn) (t_Currency groupTxn) c
  else false.
Definition matchesRules (externalTxn groupTxn : Transaction) (rules : list MatchingRule) : bool :=
  existsb (fun rule => forallb (criterionMet externalTxn groupTxn) (mr_Criteria rule)) rules.

(** [dominantCurrency]. *)
Definition dominantCurrency (currencies : gset string) : string :=
  match elements currencies with [currency] => currency | _ => "MIXED" end.

(** [matchesGroup]: the group as one virtual transaction. *)
Definition earliest (group : list Transaction) : Z :=
  match group with
  | [] => 0
  | t :: rest => foldl (fun minDate t => if t_CreatedAt t <? minDate then t_CreatedAt t else minDate) (t_CreatedAt t) rest
  end.
Definition groupTxn (group : list Transaction) : Transaction := {| zero_transaction with
  t_Amount := foldl (fun total t => fadd total (t_Amount t)) fzero group;
  t_CreatedAt := earliest group;
  t_Description := String.concat " | " (t_Description <$> group);
  t_Reference := String.concat " | " (t_Reference <$> group);
  t_Currency := dominantCurrency (list_to_set (t_Currency <$> group)) |}.
Definition matchesGroup (externalTxn : Transaction) (group : list Transaction) (rules : list MatchingRule) : bool :=
  matchesRules externalTxn (groupTxn group) rules.

(** ** Search bounds *)

Record bounds := {
  bd_Amount : option (float64 * float64); bd_Date : option (Z * Z); bd_Currency : string }.

(** The widest interval so far. *)
Definition widen {A} (lt : A -> A -> bool) (low high : A) (b : option (A * A)) : option (A * A) :=
  match b with
  | None => Some (low, high)
  | Some (lo, hi) => Some (if lt low lo then low else lo, if lt hi high then high else hi)
  end.

Definition is_equals (field : string) (c : MatchingCriteria) : bool :=
  String.eqb (mc_Field c) field && String.eqb (mc_Operator c) "equals".
Definition amount_interval (amt drift : float64) : float64 * float64 :=
  let delta := fmul (math_Abs amt) drift in (fsub amt delta, fadd amt delta).
Definition date_interval (d : Z) (allowableDrift : float64) : Z * Z :=
  let drift := wrap64 (to_int64 allowableDrift * second) in (d + wrap64 (- drift), d + drift).

(** [calculateMatchingBounds]. *)
Definition bound_step (externalTxn : Transaction) (b : bounds) (c : MatchingCriteria) : bounds :=
  let b := if is_equals "amount" c
           then let '(low, high) := amount_interval (t_Amount externalTxn) (mc_AllowableDrift c) in
                {| b with bd_Amount := widen flt low high (bd_Amount b) |}
           else b in
  if is_equals "date" c
  then let '(low, high) := date_interval (t_CreatedAt externalTxn) (mc_AllowableDrift c) in
       {| b with bd_Date := widen Z.ltb low high (bd_Date b) |}
  else b.
Definition calculateMatchingBounds (externalTxn : Transaction) (rules : list MatchingRule) : bounds :=
  foldl (bound_step externalTxn) {| bd_Amount := None; bd_Date := None; bd_Currency := t_Currency externalTxn |}
    (rules ≫= mr_Criteria).

(** ** Candidates ([database/transaction_criteria.go]) *)

Variable numeric_float : string -> float64.
(** [<=] on NUMERIC, on the texts of its operands. *)
Variable numeric_le : string -> string -> bool.

Definition within (b : bounds) (r : txn_row) : bool :=
  match bd_Amount b with
  | Some (lo, hi) => numeric_le (FormatFloat lo) (x_amount r) && numeric_le (x_amount r) (FormatFloat hi)
  | None => true
  end
  && (String.eqb (bd_Currency b) "" || String.eqb (x_currency r) (bd_Currency b))
  && match bd_Date b with Some (lo, hi) => (lo <=? x_created_at r) && (x_created_at r <=? hi) | None => true end.

(** [ORDER BY created_at ASC]. *)
Definition older (a b : txn_row) : Prop := x_created_at a <= x_created_at b.
#[export] Instance older_dec : RelDecision older.
Proof. intros a b. unfold older. apply _. Defined.
Definition read_row (r : txn_row) : Transaction :=
  let t := scan_transaction numeric_float r in
  {| t with t_ScheduledFor := x_scheduled_for r; t_EffectiveDate := x_effective_date r |}.

(** [GetTransactionsByCriteria]. *)
Definition criteria_rows (db : ledger_db) (b : bounds) : list txn_row :=
  merge_sort older (filter (fun r => within b r = true) (ld_txns db)).
Definition GetTransactionsByCriteria (db : ledger_db) (b : bounds) (limit offset : Z) : list Transaction :=
  read_row <$> take (Z.to_nat limit) (drop (Z.to_nat offset) (criteria_rows db b)).

(** [fetchTransactions]: page after page until one is empty. *)
Fixpoint fetch_pages {A} (fuel : nat) (gt : Z -> list A) (offset : Z) : option (list A) :=
  match fuel with
  | O => None
  | S fuel =>
      match gt offset with
      | [] => Some []
      | txns => app txns <$> fetch_pages fuel gt (offset + Z.of_nat (length txns))
      end
  end.
Definition fetchTransactions {A} (fuel : nat) (gt : Z -> Z -> list A) (batchSize : Z) : option (list A) :=
  fetch_pages fuel (gt batchSize) 0.

(** [findMatchingInternalTransaction], the workers reaching the candidates in
    the order of [schedule]: the first that matches claims [matchFound]. *)
Definition findMatchingInternalTransaction (externalTxn : Transaction) (rules : list MatchingRule)
    (schedule : list Transaction) : list Match * list string :=
  match List.find (fun internalTxn => matchesRules externalTxn internalTxn rules) schedule with
  | Some internalTxn =>
      ([{| mt_ExternalTransactionID := t_TransactionID externalTxn; mt_InternalTransactionID := t_TransactionID internalTxn;
           mt_ReconciliationID := ""; mt_Amount := t_Amount externalTxn; mt_Date := t_CreatedAt externalTxn |}], [])
  | None => ([], [t_TransactionID externalTxn])
  end.
End Matching.

(** ** Tables ([database/reconciliation.go]) *)

(** [is_dry_run] is not a column of [reconciliations].  The caches are those of
    the paged reads, by their keys. *)
Record recon_db := {
  rd_reconciliations : list Reconciliation;
  rd_matches : list Match;
  rd_unmatched : list (string * string);
  rd_external : list (string * ExternalTransaction);
  rd_progress : gmap string ReconciliationProgress;
  rd_rules : list MatchingRule;
  rd_pages : gmap string (list ExternalTransaction);
  rd_txn_pages : gmap string (list Transaction);
  rd_groups : gmap string (gmap string (list Transaction));
  rd_ids : nat }.

Definition no_rows : go_error := sentinel "sql.ErrNoRows" "sql: no rows in result set".
Definition ErrBadRequest : string := "BAD_REQUEST".

(** [RecordReconciliation] and [GetReconciliation]. *)
Definition RecordReconciliation (db : recon_db) (rec : Reconciliation) : recon_db :=
  {| db with rd_reconciliations := rd_reconciliations db ++ [{| rec with rc_IsDryRun := false |}] |}.
Definition reconciliation_not_found (id : string) (details : option go_error) : go_error :=
  NewAPIError ErrNotFound ("Reconciliation with ID '" +:+ id +:+ "' not found") details.
Definition GetReconciliation (db : recon_db) (id : string) : result Reconciliation :=
  match List.find (fun r => String.eqb (rc_ReconciliationID r) id) (rd_reconciliations db) with
  | Some r => Ok r
  | None => Err (reconciliation_not_found id (Some no_rows))
  end.

(** [UpdateReconciliationStatus]. *)
Definition set_status (now : Z) (id status : string) (matchedCount unmatchedCount : Z) (r : Reconciliation) : Reconciliation :=
  if String.eqb (rc_ReconciliationID r) id
  then {| r with rc_Status := status; rc_MatchedTransactions := matchedCount; rc_UnmatchedTransactions := unmatchedCount;
          rc_CompletedAt := if String.eqb status "completed" then Some now else None |}
  else r.
Definition UpdateReconciliationStatus (now : Z) (db : recon_db) (id status : string) (matchedCount unmatchedCount : Z)
    : result recon_db :=
  if existsb (fun r => String.eqb (rc_ReconciliationID r) id) (rd_reconciliations db)
  then Ok {| db with rd_reconciliations := set_status now id status matchedCount unmatchedCount <$> rd_reconciliations db |}
  else Err (reconciliation_not_found id None).

(** [ORDER BY started_at DESC] of [GetReconciliationsByUploadID]. *)
Definition started_later (a b : Reconciliation) : Prop := rc_StartedAt b <= rc_StartedAt a.
#[export] Instance started_later_dec : RelDecision started_later.
Proof. intros a b. unfold started_later. apply _. Defined.
Definition GetReconciliationsByUploadID (db : recon_db) (uploadID : string) : list Reconciliation :=
  merge_sort started_later (filter (fun r => rc_UploadID r = uploadID) (rd_reconciliations db)).

(** [SaveReconciliationProgress] and [LoadReconciliationProgress]. *)
Definition SaveReconciliationProgress (db : recon_db) (id : string) (p : ReconciliationProgress) : recon_db :=
  {| db with rd_progress := <[id := p]> (rd_progress db) |}.
Definition LoadReconciliationProgress (db : recon_db) (id : string) : ReconciliationProgress :=
  default {| rp_LastProcessedExternalTxnID := ""; rp_ProcessedCount := 0 |} (rd_progress db !! id).

Section Tables.
(** What NUMERIC(12, 2) keeps of an amount; [None] when it does not fit. *)
Variable numeric_12_2 : float64 -> option float64.
(** The texts of NUMERIC and TIMESTAMP columns. *)
Variables (numeric_text : float64 -> string) (timestamp_text : Z -> string).
Variable numeric_float : string -> float64.
Variable GenerateUUIDWithSuffix : string -> nat -> string.

(** [RecordMatches], in one database transaction, [recordMatchInTransaction] on
    each match, and [RecordMatch]. *)
Definition numeric_overflow : go_error := pq_error "22003" "" "numeric field overflow".
Definition insert_match (db : recon_db) (m : Match) : result recon_db :=
  match numeric_12_2 (mt_Amount m) with
  | Some amount => Ok {| db with rd_matches := rd_matches db ++ [{| m with mt_Amount := amount |}] |}
  | None => Err (NewAPIError ErrInternalServer "Failed to record match" (Some numeric_overflow))
  end.
Definition recordMatchInTransaction (reconciliationID : string) (db : recon_db) (m : Match) : result recon_db :=
  insert_match db {| m with mt_ReconciliationID := reconciliationID |}.
Definition RecordMatches (db : recon_db) (reconciliationID : string) (matches : list Match) : result recon_db :=
  fold_res (recordMatchInTransaction reconciliationID) matches db.
Definition RecordMatch (db : recon_db) (m : Match) : result recon_db := insert_match db m.

(** [RecordUnmatched]. *)
Definition RecordUnmatched (db : recon_db) (reconciliationID : string) (results : list string) : recon_db :=
  {| db with rd_unmatched := rd_unmatched db ++ ((fun externalId => (externalId, reconciliationID)) <$> results) |}.

(** [RecordExternalTransaction]: the lengths of the VARCHAR columns, the amount,
    the primary key. *)
Definition too_long (max : nat) (s : string) : bool := (max <? String.length s)%nat.
Definition RecordExternalTransaction (db : recon_db) (tx : ExternalTransaction) (uploadID : string) : result recon_db :=
  let refused e := Err (NewAPIError ErrInternalServer "Failed to record external transaction" (Some e)) in
  match numeric_12_2 (et_Amount tx) with
  | None => refused numeric_overflow
  | Some amount =>
      if too_long 255 (et_Reference tx) || too_long 3 (et_Currency tx) || too_long 255 (et_Source tx)
      then refused (pq_error "22001" "" "value too long for type character varying")
      else if existsb (fun r => String.eqb (et_ID r.2) (et_ID tx)) (rd_external db)
      then refused (unique_violation "external_transactions_pkey")
      else Ok {| db with rd_external := rd_external db ++ [(uploadID, {| tx with et_Amount := amount |})] |}
  end.

(** [GetExternalTransactionsPaginated]: the cached page when there is one, and
    otherwise the query, whose page is cached. *)
Definition later_date (a b : ExternalTransaction) : Prop := et_Date b <= et_Date a.
#[local] Instance later_date_dec : RelDecision later_date.
Proof. intros a b. unfold later_date. apply _. Defined.
Definition external_rows (db : recon_db) (uploadID : string) : list ExternalTransaction :=
  merge_sort later_date (snd <$> filter (fun r => r.1 = uploadID) (rd_external db)).
Definition page_key (batchSize offset : Z) : string :=
  "transactions:external:paginated:" +:+ itoa batchSize +:+ ":" +:+ itoa offset.
Definition GetExternalTransactionsPaginated (db : recon_db) (uploadID : string) (batchSize offset : Z)
    : recon_db * list ExternalTransaction :=
  let cacheKey := page_key batchSize offset in
  match rd_pages db !! cacheKey with
  | Some ((_ :: _) as transactions) => (db, transactions)
  | _ =>
      let transactions := take (Z.to_nat batchSize) (drop (Z.to_nat offset) (external_rows db uploadID)) in
      (if (0 <? length transactions)%nat then {| db with rd_pages := <[cacheKey := transactions]> (rd_pages db) |} else db,
       transactions)
  end.

(** [GetTransactionsPaginated] ([database/transaction_grouping.go]), which
    ignores its id. *)
Definition GetTransactionsPaginated (ledger : ledger_db) (db : recon_db) (batchSize offset : Z)
    : recon_db * list Transaction :=
  let cacheKey := "transactions:paginated:" +:+ itoa batchSize +:+ ":" +:+ itoa offset in
  match rd_txn_pages db !! cacheKey with
  | Some ((_ :: _) as transactions) => (db, transactions)
  | _ =>
      let transactions := read_row numeric_float <$> take (Z.to_nat batchSize) (drop (Z.to_nat offset) (merge_sort older (ld_txns ledger))) in
      (if (0 <? length transactions)%nat then {| db with rd_txn_pages := <[cacheKey := transactions]> (rd_txn_pages db) |} else db,
       transactions)
  end.

(** [groupedExternalTransactionsQuery]: the text of the grouping column. *)
Definition external_group_key (groupCriteria : string) : option (ExternalTransaction -> string) :=
  if String.eqb groupCriteria "id" then Some et_ID
  else if String.eqb groupCriteria "amount" then Some (fun t => numeric_text (et_Amount t))
  else if String.eqb groupCriteria "reference" then Some et_Reference
  else if String.eqb groupCriteria "currency" then Some et_Currency
  else if String.eqb groupCriteria "description" then Some et_Description
  else if String.eqb groupCriteria "date" then Some (fun t => timestamp_text (et_Date t))
  else if String.eqb groupCriteria "source" then Some et_Source
  else None.
(** [groupedTransactionsQuery]. *)
Definition internal_group_key (groupCriteria : string) : option (txn_row -> string) :=
  if String.eqb groupCriteria "transaction_id" then Some x_id
  else if String.eqb groupCriteria "parent_transaction" then Some x_parent
  else if String.eqb groupCriteria "source" then Some x_source
  else if String.eqb groupCriteria "reference" then Some x_reference
  else if String.eqb groupCriteria "currency" then Some x_currency
  else if String.eqb groupCriteria "destination" then Some x_destination
  else if String.eqb groupCriteria "status" then Some x_status
  else if String.eqb groupCriteria "created_at" then Some (fun r => timestamp_text (x_created_at r))
  else None.

(** The rows with a key, in the order of their keys, one page of them, by key. *)
Definition key_le {A} (key : A -> string) (a b : A) : Prop := string_ltb (key b) (key a) = false.
#[local] Instance key_le_dec {A} (key : A -> string) : RelDecision (key_le key).
Proof. intros a b. unfold key_le. apply _. Defined.
Definition group_rows {A} (key : A -> string) (read : A -> Transaction) (rows : list A) (batchSize offset : Z)
    : gmap string (list Transaction) :=
  foldl (fun groups r => <[key r := default [] (groups !! key r) ++ [read r]]> groups) ∅
    (take (Z.to_nat batchSize) (drop (Z.to_nat offset) (merge_sort (key_le key) (filter (fun r => key r <> ""%string) rows)))).
Definition invalid_criteria (groupCriteria : string) : go_error :=
  NewAPIError ErrBadRequest ("Invalid group criteria: " +:+ groupCriteria) None.

(** Both grouped reads: the cached page of groups, or the query. *)
Definition cached_groups (db : recon_db) (cacheKey : string) (groups : gmap string (list Transaction))
    : recon_db * gmap string (list Transaction) :=
  let fetched := (if (0 <? size groups)%nat then {| db with rd_groups := <[cacheKey := groups]> (rd_groups db) |} else db, groups) in
  match rd_groups db !! cacheKey with
  | Some cached => if (0 <? size cached)%nat then (db, cached) else fetched
  | None => fetched
  end.
(** [FetchAndGroupExternalTransactions]. *)
Definition FetchAndGroupExternalTransactions (db : recon_db) (uploadID groupCriteria : string) (batchSize offset : Z)
    : recon_db * result (gmap string (list Transaction)) :=
  match external_group_key groupCriteria with
  | None => (db, Err (invalid_criteria groupCriteria))
  | Some key =>
      let '(db, groups) := cached_groups db
        ("external_transactions:grouped:" +:+ uploadID +:+ ":" +:+ groupCriteria +:+ ":" +:+ itoa batchSize +:+ ":" +:+ itoa offset)
        (group_rows key ToInternalTransaction (snd <$> filter (fun r => r.1 = uploadID) (rd_external db)) batchSize offset) in
      (db, Ok groups)
  end.
(** [GroupTransactions]. *)
Definition GroupTransactions (ledger : ledger_db) (db : recon_db) (groupCriteria : string) (batchSize offset : Z)
    : recon_db * result (gmap string (list Transaction)) :=
  match internal_group_key groupCriteria with
  | None => (db, Err (invalid_criteria groupCriteria))
  | Some key =>
      let '(db, groups) := cached_groups db
        ("transactions:grouped:" +:+ groupCriteria +:+ ":" +:+ itoa batchSize +:+ ":" +:+ itoa offset)
        (group_rows key (read_row numeric_float) (ld_txns ledger) batchSize offset) in
      (db, Ok groups)
  end.

(** ** Rules in the store *)

Definition rule_not_found (id : string) (details : option go_error) : go_error :=
  NewAPIError ErrNotFound ("Matching rule with ID '" +:+ id +:+ "' not found") details.
(** [json.Marshal] refuses a drift that is not a number. *)
Definition marshals (r : MatchingRule) : bool := forallb (fun c => is_finite (mc_AllowableDrift c)) (mr_Criteria r).
Definition marshal_error : go_error := NewAPIError ErrInternalServer "Failed to marshal matching rule criteria" None.

(** [RecordMatchingRule], [GetMatchingRule], [GetMatchingRules],
    [UpdateMatchingRule] and [DeleteMatchingRule] of the datasource. *)
Definition RecordMatchingRule (db : recon_db) (r : MatchingRule) : result recon_db :=
  if negb (marshals r) then Err marshal_error
  else if too_long 255 (mr_Name r)
  then Err (NewAPIError ErrInternalServer "Failed to record matching rule" (Some (pq_error "22001" "" "value too long for type character varying")))
  else Ok {| db with rd_rules := rd_rules db ++ [r] |}.
Definition GetMatchingRule (db : recon_db) (id : string) : result MatchingRule :=
  match List.find (fun r => String.eqb (mr_RuleID r) id) (rd_rules db) with
  | Some r => Ok r
  | None => Err (rule_not_found id (Some no_rows))
  end.
Definition GetMatchingRules (db : recon_db) : list MatchingRule := rd_rules db.
Definition update_row (rule r : MatchingRule) : MatchingRule :=
  if String.eqb (mr_RuleID r) (mr_RuleID rule)
  then {| r with mr_Name := mr_Name rule; mr_Description := mr_Description rule; mr_Criteria := mr_Criteria rule |}
  else r.
Definition update_rule (db : recon_db) (rule : MatchingRule) : result recon_db :=
  if negb (marshals rule) then Err marshal_error
  else if existsb (fun r => String.eqb (mr_RuleID r) (mr_RuleID rule)) (rd_rules db) then
    if too_long 255 (mr_Name rule)
    then Err (NewAPIError ErrInternalServer "Failed to update matching rule" (Some (pq_error "22001" "" "value too long for type character varying")))
    else Ok {| db with rd_rules := update_row rule <$> rd_rules db |}
  else Err (rule_not_found (mr_RuleID rule) None).
Definition delete_rule (db : recon_db) (id : string) : result recon_db :=
  if existsb (fun r => String.eqb (mr_RuleID r) id) (rd_rules db)
  then Ok {| db with rd_rules := filter (fun r => mr_RuleID r <> id) (rd_rules db) |}
  else Err (rule_not_found id None).

(** [CreateMatchingRule], [UpdateMatchingRule] and [DeleteMatchingRule] of the
    service, and [getMatchingRules]. *)
Definition CreateMatchingRule (now : Z) (db : recon_db) (rule : MatchingRule) : result (recon_db * MatchingRule) :=
  let rule := {| rule with mr_RuleID := GenerateUUIDWithSuffix "rule" (rd_ids db); mr_CreatedAt := now; mr_UpdatedAt := now |} in
  let* _ := validateRule rule in
  let* db := RecordMatchingRule db rule in
  Ok ({| db with rd_ids := S (rd_ids db) |}, rule).
Definition UpdateMatchingRule (now : Z) (db : recon_db) (rule : MatchingRule) : result (recon_db * MatchingRule) :=
  let* existingRule := GetMatchingRule db (mr_RuleID rule) in
  let rule := {| rule with mr_CreatedAt := mr_CreatedAt existingRule; mr_UpdatedAt := now |} in
  let* _ := validateRule rule in
  let* db := update_rule db rule in
  Ok (db, rule).
Definition DeleteMatchingRule (db : recon_db) (id : string) : result recon_db := delete_rule db id.
Definition getMatchingRules (db : recon_db) (ids : list string) : result (list MatchingRule) :=
  map_res (GetMatchingRule db) ids.
End Tables.

(** ** Uploads ([internal/files/files.go]) *)

Section Uploads.
Variable numeric_12_2 : float64 -> option float64.
Variable ParseFloat : string -> option float64.
(** [time.Parse(time.RFC3339, s)]. *)
Variable parse_RFC3339 : string -> option Z.

(** [createColumnMap]. *)
Definition createColumnMap (headers : list string) : result (gmap string nat) :=
  let columnMap := foldl (fun m p => <[ToLower (TrimSpace p.2) := p.1]> m) ∅ (imap pair headers) in
  match List.find (fun col => bool_decide (columnMap !! ToLower col = None)) ["ID"; "Amount"; "Date"]%string with
  | Some col => Err (errors_New ("required column '" +:+ col +:+ "' not found in CSV"))
  | None => Ok columnMap
  end.

(** [getRequiredField]. *)
Definition getRequiredField (record : list string) (columnMap : gmap string nat) (field : string) : result string :=
  match columnMap !! field ≫= (record !!.) with
  | Some cell =>
      let v := TrimSpace cell in
      if String.eqb v "" then Err (errors_New ("required field '" +:+ field +:+ "' is empty")) else Ok v
  | None => Err (errors_New ("required field '" +:+ field +:+ "' not found in record"))
  end.

(** [parseExternalTransaction]; [parseFloat] and [parseTime] give zero for a
    text they cannot read. *)
Definition parseExternalTransaction (record : list string) (columnMap : gmap string nat) (source : string)
    : result ExternalTransaction :=
  if negb (length record =? size columnMap)%nat then Err (errors_New "incorrect number of fields in record")
  else
    let* id := getRequiredField record columnMap "id" in
    let* amountStr := getRequiredField record columnMap "amount" in
    let* currency := getRequiredField record columnMap "currency" in
    let* reference := getRequiredField record columnMap "reference" in
    let* description := getRequiredField record columnMap "description" in
    let* dateStr := getRequiredField record columnMap "date" in
    Ok {| et_ID := id; et_Amount := default fzero (ParseFloat amountStr); et_Currency := currency; et_Reference := reference;
          et_Description := description; et_Date := default 0 (parse_RFC3339 dateStr); et_Source := source |}.

(** [storeBatch]: stops at the first transaction that is refused, the ones
    before it being stored. *)
Fixpoint storeBatch (uploadID : string) (batch : list ExternalTransaction) (db : recon_db) : recon_db * result unit :=
  match batch with
  | [] => (db, Ok tt)
  | txn :: rest =>
      match RecordExternalTransaction numeric_12_2 db txn uploadID with
      | Ok db => storeBatch uploadID rest db
      | Err e => (db, Err e)
      end
  end.

(** [processWorker] on the rows it receives: the rows are stored in batches, and
    a batch counts when all of it was stored.  The workers share the tables, the
    count and the channel of errors. *)
Definition DefaultBatchSize : nat := 500.
Record upload := { up_db : recon_db; up_total : Z; up_errors : list go_error }.
Definition flush_batch (uploadID : string) (batch : list ExternalTransaction) (u : upload) : upload :=
  let '(db, r) := storeBatch uploadID batch (up_db u) in
  match r with
  | Ok _ => {| u with up_db := db; up_total := up_total u + Z.of_nat (length batch) |}
  | Err e => {| u with up_db := db; up_errors := up_errors u ++ [e] |}
  end.
Fixpoint processWorker (uploadID source : string) (columnMap : gmap string nat) (rows : list (list string))
    (batch : list ExternalTransaction) (u : upload) : upload :=
  match rows with
  | [] => if (0 <? length batch)%nat then flush_batch uploadID batch u else u
  | record :: rest =>
      match parseExternalTransaction record columnMap source with
      | Err e => processWorker uploadID source columnMap rest batch {| u with up_errors := up_errors u ++ [e] |}
      | Ok txn =>
          let batch := batch ++ [txn] in
          if (DefaultBatchSize <=? length batch)%nat
          then processWorker uploadID source columnMap rest [] (flush_batch uploadID batch u)
          else processWorker uploadID source columnMap rest batch u
      end
  end.

(** [ProcessJSON] on the elements the decoder yields. *)
Fixpoint ProcessJSON (uploadID source : string) (elements : list (result ExternalTransaction)) (total : Z) (db : recon_db)
    : recon_db * Z * result unit :=
  match elements with
  | [] => (db, total, Ok tt)
  | Err e :: _ => (db, total, Err e)
  | Ok txn :: rest =>
      match RecordExternalTransaction numeric_12_2 db {| txn with et_Source := source |} uploadID with
      | Ok db => ProcessJSON uploadID source rest (total + 1) db
      | Err e => (db, total, Err e)
      end
  end.

(** ** Starting a reconciliation ([service.go]) *)

Variable GenerateUUIDWithSuffix : string -> nat -> string.
Variable now : Z.

Definition StatusStarted : string := "started".
Definition StatusInProgress : string := "in_progress".
Definition StatusCompleted : string := "completed".
Definition StatusFailed : string := "failed".

Definition started (id uploadID : string) (isDryRun : bool) : Reconciliation := {|
  rc_ReconciliationID := id; rc_UploadID := uploadID; rc_Status := StatusStarted; rc_MatchedTransactions := 0;
  rc_UnmatchedTransactions := 0; rc_IsDryRun := isDryRun; rc_StartedAt := now; rc_CompletedAt := None |}.

(** [StartReconciliation] up to the goroutine it leaves behind, which runs
    [processReconciliation] on the reconciliation returned. *)
Definition StartReconciliation (db : recon_db) (uploadID : string) (isDryRun : bool) : recon_db * Reconciliation :=
  let rec := started (GenerateUUIDWithSuffix "recon" (rd_ids db)) uploadID isDryRun in
  (RecordReconciliation {| db with rd_ids := S (rd_ids db) |} rec, rec).

(** [StartInstantReconciliation]: when a transaction is refused, [fmt.Errorf]
    gets the shadowing [err] of the status update, which is nil unless that
    failed too. *)
Definition StartInstantReconciliation (db : recon_db) (txns : list ExternalTransaction) (isDryRun : bool)
    : recon_db * result Reconciliation :=
  let id := GenerateUUIDWithSuffix "recon" (rd_ids db) in
  let tempID := GenerateUUIDWithSuffix "instant" (S (rd_ids db)) in
  let rec := started id tempID isDryRun in
  let db := RecordReconciliation {| db with rd_ids := S (S (rd_ids db)) |} rec in
  match storeBatch tempID txns db with
  | (db, Ok _) => (db, Ok rec)
  | (db, Err _) =>
      match UpdateReconciliationStatus now db id StatusFailed 0 0 with
      | Ok db => (db, Err (errors_New "failed to store external transaction: %!w(<nil>)"))
      | Err e => (db, Err (wrap "failed to store external transaction: " e))
      end
  end.
End Uploads.
