(* ===== verification/Grouping.v ===== *)
(** * Matching groups concurrently

    [oneToMany] and [manyToOne] ([internal/reconciliation/matching.go]) with the
    reconcilers that call them: pages of groups are fetched one after another,
    for each page every transaction gets a goroutine that looks for a group to
    claim, and only when the loop over the pages is over are the channels of
    matches and of unmatched transactions read, the first until it is closed,
    then the second.  The goroutines, the mutex-protected group maps, the
    semaphore of each page and the two bounded channels are a step relation: one
    step is one channel operation, one critical section or one comparison, and
    the goroutines interleave freely. *)
From stdpp Require Import base option list strings gmap sorting relations.
From Stdlib Require Import ZArith Lia.
From S2P Require Import Prelude GoFloat Model Policy PolicyStore Store Reconcile.
Close Scope Q_scope.
Open Scope Z_scope.

(** Where the goroutine of a transaction stands: before the semaphore, before
    the snapshot of the keys, with the keys still to try, with the matches still
    to send, about to report the transaction unmatched, done. *)
Inductive worker_pc :=
| Waiting | Snapshot | Scan (keys : list string) | Send (rest : list Match) | Unmatched | Finished.
(** [w_claim] is the group the goroutine deleted from the map. *)
Record worker := { w_txn : Transaction; w_page : nat; w_pc : worker_pc; w_claim : option string }.

(** The goroutine of the reconciler: in the loop, sending the transactions of a
    run without groups, reading the channels, done. *)
Inductive main_pc :=
| Fetch (n : nat) (processedAny : bool) | CheckMap (n : nat) | Flush (rest : list string)
| CollectMatches | CollectUnmatched | Returned.

Record gstate := {
  g_main : main_pc;
  g_maps : gmap nat (gset string);
  g_workers : list worker;
  g_matchChan : list Match;
  g_unMatchChan : list string;
  g_matches : list Match;
  g_unmatched : list string }.

Section Grouping.
(** [matchesGroup] with the rules of the reconciliation. *)
Variable matchesGroup : Transaction -> list Transaction -> bool.
Variable txns : list Transaction.
(** [groupInternalTransactions] or [groupExternalTransactions] at offset
    [n * batchSize]. *)
Variable fetch : nat -> result (gmap string (list Transaction)).
Variable isExternalGrouped : bool.
Variable maxWorkers : nat.

Definition groups (n : nat) : gmap string (list Transaction) := match fetch n with Ok g => g | Err _ => ∅ end.
Definition group (n : nat) (key : string) : list Transaction := default [] (groups n !! key).
Definition chan_cap : nat := length txns.

(** [buildGroupMap]. *)
Definition buildGroupMap (n : nat) : gset string := dom (groups n).

(** The matches [matchSingleTransaction] sends for a claimed group. *)
Definition group_matches (singleTxn : Transaction) (group : list Transaction) : list Match :=
  (fun groupedTxn =>
     let '(externalID, internalID) := if isExternalGrouped then (t_TransactionID groupedTxn, t_TransactionID singleTxn)
                                      else (t_TransactionID singleTxn, t_TransactionID groupedTxn) in
     {| mt_ExternalTransactionID := externalID; mt_InternalTransactionID := internalID; mt_ReconciliationID := "";
        mt_Amount := t_Amount groupedTxn; mt_Date := t_CreatedAt groupedTxn |}) <$> group.

(** One step of [matchSingleTransaction] and of the goroutine around it, on the
    group map of its page and the two channels. *)
Definition env : Type := gset string * list Match * list string.
Inductive worker_step (free : bool) (t : Transaction) (n : nat) : env -> worker_pc -> env -> worker_pc -> option string -> Prop :=
| W_acquire e : free = true -> worker_step free t n e Waiting e Snapshot None
| W_snapshot m mc uc keys : keys ≡ₚ elements m -> worker_step free t n (m, mc, uc) Snapshot (m, mc, uc) (Scan keys) None
| W_skip e k ks : matchesGroup t (group n k) = false -> worker_step free t n e (Scan (k :: ks)) e (Scan ks) None
| W_lost m mc uc k ks : matchesGroup t (group n k) = true -> k ∉ m ->
    worker_step free t n (m, mc, uc) (Scan (k :: ks)) (m, mc, uc) (Scan ks) None
| W_claim m mc uc k ks : matchesGroup t (group n k) = true -> k ∈ m ->
    worker_step free t n (m, mc, uc) (Scan (k :: ks)) (m ∖ {[k]}, mc, uc) (Send (group_matches t (group n k))) (Some k)
| W_none e : worker_step free t n e (Scan []) e Unmatched None
| W_send m mc uc x xs : (length mc < chan_cap)%nat ->
    worker_step free t n (m, mc, uc) (Send (x :: xs)) (m, mc ++ [x], uc) (Send xs) None
| W_sent e : worker_step free t n e (Send []) e Finished None
| W_unmatched m mc uc : (length uc < chan_cap)%nat ->
    worker_step free t n (m, mc, uc) Unmatched (m, mc, uc ++ [t_TransactionID t]) Finished None.

(** The goroutines of page [n] inside its semaphore. *)
Definition running (n : nat) (w : worker) : bool :=
  (w_page w =? n)%nat && match w_pc w with Waiting | Finished => false | _ => true end.
Definition token_free (s : gstate) (n : nat) : bool :=
  (length (List.filter (running n) (g_workers s)) <? maxWorkers)%nat.
Definition all_finished (s : gstate) : bool :=
  forallb (fun w => match w_pc w with Finished => true | _ => false end) (g_workers s).
Definition spawned (n : nat) : list worker :=
  (fun t => {| w_txn := t; w_page := n; w_pc := Waiting; w_claim := None |}) <$> txns.

Inductive step : gstate -> gstate -> Prop :=
| S_fetch s n b : g_main s = Fetch n b -> groups n <> ∅ ->
    step s {| s with g_main := CheckMap n; g_maps := <[n := buildGroupMap n]> (g_maps s);
                     g_workers := g_workers s ++ spawned n |}
| S_last s n b : g_main s = Fetch n b -> groups n = ∅ ->
    step s {| s with g_main := if b then CollectMatches else Flush (t_TransactionID <$> txns) |}
| S_check s n : g_main s = CheckMap n ->
    step s {| s with g_main := if (size (default ∅ (g_maps s !! n)) =? 0)%nat then CollectMatches else Fetch (S n) true |}
| S_flush s x xs : g_main s = Flush (x :: xs) -> (length (g_unMatchChan s) < chan_cap)%nat ->
    step s {| s with g_main := Flush xs; g_unMatchChan := g_unMatchChan s ++ [x] |}
| S_flushed s : g_main s = Flush [] -> step s {| s with g_main := CollectMatches |}
| S_match s x xs : g_main s = CollectMatches -> g_matchChan s = x :: xs ->
    step s {| s with g_matchChan := xs; g_matches := g_matches s ++ [x] |}
| S_closed s : g_main s = CollectMatches -> g_matchChan s = [] -> all_finished s = true ->
    step s {| s with g_main := CollectUnmatched |}
| S_unmatched s x xs : g_main s = CollectUnmatched -> g_unMatchChan s = x :: xs ->
    step s {| s with g_unMatchChan := xs; g_unmatched := g_unmatched s ++ [x] |}
| S_return s : g_main s = CollectUnmatched -> g_unMatchChan s = [] -> all_finished s = true ->
    step s {| s with g_main := Returned |}
| S_worker s l1 w l2 m mc uc pc claim : g_workers s = l1 ++ w :: l2 ->
    worker_step (token_free s (w_page w)) (w_txn w) (w_page w)
      (default ∅ (g_maps s !! w_page w), g_matchChan s, g_unMatchChan s) (w_pc w) (m, mc, uc) pc claim ->
    step s {| s with g_maps := <[w_page w := m]> (g_maps s); g_matchChan := mc; g_unMatchChan := uc;
                     g_workers := l1 ++ {| w with w_pc := pc; w_claim := match claim with Some k => Some k | None => w_claim w end |} :: l2 |}.

Definition init : gstate := {|
  g_main := Fetch 0 false; g_maps := ∅; g_workers := []; g_matchChan := []; g_unMatchChan := [];
  g_matches := []; g_unmatched := [] |}.
Definition reachable (s : gstate) : Prop := rtc step init s.

(** What [oneToManyReconciliation] and [manyToOneReconciliation] return. *)
Definition reconciles (out : list Match * list string) : Prop :=
  exists s, reachable s /\ g_main s = Returned /\ out = (g_matches s, g_unmatched s).

(** ** What every reachable state satisfies *)

Definition gm (maps : gmap nat (gset string)) (n : nat) : gset string := default ∅ (maps !! n).
Definition pending (w : worker) : list Match := match w_pc w with Send xs => xs | _ => [] end.
Definition claimed (w : worker) : list Match :=
  match w_claim w with Some k => group_matches (w_txn w) (group (w_page w) k) | None => [] end.
Definition claim_of (w : worker) : option (nat * string) := pair (w_page w) <$> w_claim w.
Definition lost (w : worker) : option string :=
  match w_pc w, w_claim w with Finished, None => Some (t_TransactionID (w_txn w)) | _, _ => None end.
Definition identity_of (w : worker) : nat * Transaction := (w_page w, w_txn w).

(** A goroutine with a claim has a group that matches and that nobody else can
    take any more; one that is through its keys has left no group that matches. *)
Record worker_ok (m : gset string) (w : worker) : Prop := {
  wo_claim : forall k, w_claim w = Some k ->
    matchesGroup (w_txn w) (group (w_page w) k) = true /\ k ∈ dom (groups (w_page w)) /\ k ∉ m;
  wo_pc : match w_pc w with Send _ => is_Some (w_claim w) | Finished => True | _ => w_claim w = None end;
  wo_tried : w_claim w = None -> match w_pc w with
    | Waiting | Snapshot => True
    | Scan ks => forall k, k ∈ m -> matchesGroup (w_txn w) (group (w_page w) k) = true -> k ∈ ks
    | _ => forall k, k ∈ m -> matchesGroup (w_txn w) (group (w_page w) k) = false
    end }.

Definition flush_rest (p : main_pc) : list string := match p with Flush rest => rest | _ => [] end.
Definition flushed (p : main_pc) : list string :=
  match p with Fetch _ _ | CheckMap _ => [] | _ => if decide (groups 0 = ∅) then t_TransactionID <$> txns else [] end.
(** The pages whose goroutines were started. *)
Definition pages_ok (N : nat) (maps : gmap nat (gset string)) (p : main_pc) : Prop :=
  (forall i, (i < N)%nat -> groups i <> ∅) /\
  match p with
  | Fetch n b => n = N /\ b = negb (n =? 0)%nat
  | CheckMap n => N = S n
  | _ => groups N = ∅ \/ exists n, N = S n /\ gm maps n = ∅
  end.

Record inv (N : nat) (s : gstate) : Prop := {
  in_workers : Forall (fun w => worker_ok (gm (g_maps s) (w_page w)) w) (g_workers s);
  in_maps : forall n, gm (g_maps s) n ⊆ dom (groups n);
  in_claims : NoDup (omap claim_of (g_workers s));
  in_taken : forall n k, (n < N)%nat -> k ∈ dom (groups n) -> k ∉ gm (g_maps s) n -> (n, k) ∈ omap claim_of (g_workers s);
  in_ids : identity_of <$> g_workers s = (seq 0 N ≫= fun i => pair i <$> txns);
  in_pages : pages_ok N (g_maps s) (g_main s);
  in_matches : g_matches s ++ g_matchChan s ++ (g_workers s ≫= pending) ≡ₚ (g_workers s ≫= claimed);
  in_lost : g_unmatched s ++ g_unMatchChan s ++ flush_rest (g_main s) ≡ₚ flushed (g_main s) ++ omap lost (g_workers s);
  in_cap : match g_main s with
    | CollectUnmatched | Returned => all_finished s = true /\ (length (g_unmatched s ++ g_unMatchChan s) <= chan_cap)%nat
    | _ => g_unmatched s = [] /\ (length (g_unMatchChan s) <= chan_cap)%nat
    end;
  in_done : g_main s = Returned -> g_unMatchChan s = [];
  in_drained : match g_main s with CollectUnmatched | Returned => g_matchChan s = [] | _ => True end }.

Lemma worker_ok_shrink m m' w : m' ⊆ m -> worker_ok m w -> worker_ok m' w.
Proof.
  intros Hm [A B C]. split; [intros k Hk; destruct (A k Hk) as (?&?&?); set_solver|done|].
  intros Hc. specialize (C Hc). destruct (w_pc w); naive_solver.
Qed.

Lemma gm_insert maps n m : gm (<[n := m]> maps) n = m.
Proof. unfold gm. by rewrite lookup_insert_eq. Qed.
Lemma gm_insert_ne maps n n' m : n <> n' -> gm (<[n := m]> maps) n' = gm maps n'.
Proof. intros. unfold gm. by rewrite lookup_insert_ne. Qed.

Lemma inv_init : inv 0 init.
Proof.
  split; cbn; try done.
  - apply NoDup_nil_2.
  - intros; lia.
  - split; [intros; lia|done].
  - split; [done|lia].
Qed.

(** ** The steps of a goroutine *)

Definition moved (w : worker) (pc : worker_pc) (claim : option string) : worker :=
  {| w with w_pc := pc; w_claim := match claim with Some k => Some k | None => w_claim w end |}.

Record moves (w w' : worker) (e e' : env) : Prop := {
  mv_busy : w_pc w <> Finished;
  mv_ok : worker_ok e'.1.1 w';
  mv_shrink : e'.1.1 ⊆ e.1.1;
  mv_claim : (e'.1.1 = e.1.1 /\ w_claim w' = w_claim w) \/
    exists k, w_claim w = None /\ w_claim w' = Some k /\ k ∈ e.1.1 /\ e'.1.1 = e.1.1 ∖ {[k]};
  mv_matches : e'.1.2 ++ pending w' ++ claimed w ≡ₚ e.1.2 ++ pending w ++ claimed w';
  mv_lost : e'.2 = e.2 ++ omap lost [w'];
  mv_cap : (length e.2 <= chan_cap -> length e'.2 <= chan_cap)%nat }.

Lemma worker_step_moves free w e e' pc claim : worker_ok e.1.1 w -> e.1.1 ⊆ dom (groups (w_page w)) ->
  worker_step free (w_txn w) (w_page w) e (w_pc w) e' pc claim -> moves w (moved w pc claim) e e'.
Proof.
  destruct w as [t n wpc c]. cbn [w_txn w_page w_pc]. intros [A B C] Hm H.
  inversion H; subst; cbn in *; subst; unfold moved; split; cbn; rewrite ?app_nil_r; auto.
  - by split.
  - split; cbn; [naive_solver|done|]. intros _ k Hk _. match goal with E : _ ≡ₚ _ |- _ => rewrite E end. by apply elem_of_elements.
  - split; cbn; [done..|]. intros _ k' Hk Hmt. pose proof (C eq_refl k' Hk Hmt) as [->|?]%elem_of_cons; [congruence|done].
  - split; cbn; [done..|]. intros _ k' Hk Hmt. pose proof (C eq_refl k' Hk Hmt) as [->|?]%elem_of_cons; [done|done].
  - split; cbn; [|by eexists|done]. intros k' [= <-]. set_solver.
  - set_solver.
  - right. eauto.
  - split; cbn; [done..|]. intros _ k Hk. destruct (matchesGroup t (group n k)) eqn:E; [|done]. destruct (not_elem_of_nil k (C eq_refl k Hk E)).
  - split; cbn; [naive_solver|done|]. intros ->. by destruct B.
  - unfold claimed. cbn. solve_Permutation.
  - split; cbn; [naive_solver|done|]. intros ->. by destruct B.
  - destruct B as [? ->]. by rewrite app_nil_r.
  - by split.
  - rewrite length_app. cbn. lia.
Qed.

(** The list of goroutines with one of them replaced. *)
Lemma omap_replace {B} (f : worker -> option B) l1 w l2 :
  omap f (l1 ++ w :: l2) ≡ₚ omap f [w] ++ omap f (l1 ++ l2).
Proof. rewrite !omap_app. cbn. destruct (f w); solve_Permutation. Qed.
Lemma bind_replace {B} (f : worker -> list B) l1 w l2 : (l1 ++ w :: l2) ≫= f ≡ₚ f w ++ ((l1 ++ l2) ≫= f).
Proof. rewrite !bind_app, bind_cons. solve_Permutation. Qed.

Lemma busy_not_all s l1 w l2 : g_workers s = l1 ++ w :: l2 -> w_pc w <> Finished -> all_finished s = false.
Proof.
  intros E Hw. unfold all_finished. rewrite E, forallb_app. cbn. destruct (w_pc w); try done; by rewrite andb_false_r.
Qed.

Lemma moves_claims w w' e e' l1 l2 (maps : gmap nat (gset string)) :
  w_page w' = w_page w -> e.1.1 = gm maps (w_page w) -> moves w w' e e' ->
  Forall (fun v => worker_ok (gm maps (w_page v)) v) (l1 ++ w :: l2) -> NoDup (omap claim_of (l1 ++ w :: l2)) ->
  NoDup (omap claim_of (l1 ++ w' :: l2)) /\
  (forall p, p ∈ omap claim_of (l1 ++ w :: l2) -> p ∈ omap claim_of (l1 ++ w' :: l2)) /\
  forall k, k ∈ e.1.1 -> k ∉ e'.1.1 -> (w_page w, k) ∈ omap claim_of (l1 ++ w' :: l2).
Proof.
  intros Hp He [_ _ _ Hc _ _ _] Hok Hnd. pose proof (omap_replace claim_of l1 w l2) as E. pose proof (omap_replace claim_of l1 w' l2) as E'.
  rewrite E in Hnd. rewrite E'. setoid_rewrite E. setoid_rewrite E'. clear E E'.
  change (omap claim_of [?v]) with (option_list (claim_of v)) in *.
  destruct Hc as [[Hm Hc]|(k & Hn & Hs & Hk & Hm)].
  - assert (claim_of w' = claim_of w) as -> by (unfold claim_of; by rewrite Hp, Hc). rewrite Hm. repeat split; [done..|]. set_solver.
  - assert (claim_of w = None) as Ew by (unfold claim_of; by rewrite Hn).
    assert (claim_of w' = Some (w_page w, k)) as -> by (unfold claim_of; by rewrite Hp, Hs). rewrite Ew in *. cbn in *. repeat split.
    + constructor; [|done]. intros (v & Hv & Ev)%list_elem_of_omap. unfold claim_of in Ev.
      destruct (w_claim v) as [k'|] eqn:Ek; [|done]. injection Ev as Epage ->.
      rewrite Forall_forall in Hok. destruct (Hok v) as [A _ _]; [revert Hv; rewrite !elem_of_app, elem_of_cons; tauto|].
      destruct (A k Ek) as (_ & _ & Hnot). rewrite Epage, <- He in Hnot. done.
    + intros p Hin. by right.
    + rewrite Hm. intros k' H1 H2. assert (k' = k) as -> by (destruct (decide (k' = k)); [done|set_solver]). left.
Qed.

Lemma gm_moved maps n m n' : m ⊆ gm maps n -> gm (<[n := m]> maps) n' ⊆ gm maps n'.
Proof. intros H. destruct (decide (n = n')) as [->|]; [by rewrite gm_insert|by rewrite gm_insert_ne]. Qed.

Lemma perm_exchange {A} (M C P Q p p' c c' C' : list A) :
  M ++ C ++ p ++ P ≡ₚ c ++ Q -> C' ++ p' ++ c ≡ₚ C ++ p ++ c' -> M ++ C' ++ p' ++ P ≡ₚ c' ++ Q.
Proof.
  intros H1 H2. apply (Permutation_app_inv_l c). transitivity (M ++ (C' ++ p' ++ c) ++ P); [solve_Permutation|].
  rewrite H2. transitivity (c' ++ M ++ C ++ p ++ P); [solve_Permutation|]. rewrite H1. solve_Permutation.
Qed.

Lemma inv_worker N s l1 w l2 m mc uc pc claim : inv N s -> g_workers s = l1 ++ w :: l2 ->
  worker_step (token_free s (w_page w)) (w_txn w) (w_page w)
    (default ∅ (g_maps s !! w_page w), g_matchChan s, g_unMatchChan s) (w_pc w) (m, mc, uc) pc claim ->
  inv N {| s with g_maps := <[w_page w := m]> (g_maps s); g_matchChan := mc; g_unMatchChan := uc;
                  g_workers := l1 ++ moved w pc claim :: l2 |}.
Proof.
  intros [Iw Im Ic It Ii Ip Ia Il Icap Id Ir] Ew Hstep. fold (gm (g_maps s) (w_page w)) in Hstep.
  rewrite Ew in Iw, Ic, It, Ii, Ia, Il.
  assert (worker_ok (gm (g_maps s) (w_page w)) w) as Hw by (rewrite Forall_forall in Iw; apply Iw; set_solver).
  apply worker_step_moves in Hstep as Hmv; [|done|apply Im]. cbn [fst snd] in Hmv.
  destruct (moves_claims w (moved w pc claim) (gm (g_maps s) (w_page w), g_matchChan s, g_unMatchChan s) (m, mc, uc) l1 l2 (g_maps s) eq_refl eq_refl Hmv Iw Ic) as (Hnd & Hsub & Hnew).
  destruct Hmv as [Hb Hok Hsh _ Hma Hlo Hca]. cbn [fst snd] in *. pose proof (busy_not_all s l1 w l2 Ew Hb) as Hall.
  pose proof (gm_moved (g_maps s) (w_page w) m) as Hg. split; cbn [g_main g_maps g_workers g_matchChan g_unMatchChan g_matches g_unmatched].
  - apply Forall_app in Iw as [F1 F2]. apply Forall_cons in F2 as [_ F2]. apply Forall_app. split; [|apply Forall_cons; split].
    1, 3: eapply Forall_impl; [eassumption|]; cbn; intros v; apply worker_ok_shrink, Hg, Hsh. by rewrite gm_insert.
  - intros n. etrans; [by apply Hg|apply Im].
  - done.
  - intros n k Hn Hk Hnot. destruct (decide (k ∈ gm (g_maps s) n)) as [Hin|Hout]; [|by apply Hsub, It].
    destruct (decide (n = w_page w)) as [->|Hne]; [|by rewrite gm_insert_ne in Hnot]. rewrite gm_insert in Hnot. by apply Hnew.
  - rewrite <- Ii, !fmap_app. done.
  - destruct Ip as [H1 H2]. split; [done|]. destruct (g_main s); try done;
      (destruct H2 as [H2|(n & -> & H2)]; [by left|right; exists n; split; [done|]]; pose proof (Hg n Hsh); set_solver).
  - rewrite (bind_replace pending), (bind_replace claimed) in Ia |- *. by eapply perm_exchange.
  - rewrite (omap_replace lost) in Il |- *. assert (lost w = None) as El by (unfold lost; by destruct (w_pc w)).
    rewrite Hlo. change (omap lost [w]) with (option_list (lost w)) in Il. rewrite El in Il. cbn [option_list option_rect app] in Il.
    transitivity ((g_unmatched s ++ g_unMatchChan s ++ flush_rest (g_main s)) ++ omap lost [moved w pc claim]); [solve_Permutation|].
    rewrite Il. solve_Permutation.
  - destruct (g_main s); try (destruct Icap as [? Hc]; split; [done|by apply Hca]); destruct Icap; congruence.
  - intros E. rewrite E in Icap. destruct Icap; congruence.
  - destruct (g_main s); try done; destruct Icap; congruence.
Qed.

Lemma inv_fetch N s n b : inv N s -> g_main s = Fetch n b -> groups n <> ∅ ->
  inv (S N) {| s with g_main := CheckMap n; g_maps := <[n := buildGroupMap n]> (g_maps s); g_workers := g_workers s ++ spawned n |}.
Proof.
  intros [Iw Im Ic It Ii Ip Ia Il Icap Id Ir] Em Hg. rewrite Em in *. destruct Ip as (Hp & -> & _).
  assert (forall w, w ∈ g_workers s -> w_page w < N)%nat as Hlt.
  { intros w Hw. apply (list_elem_of_fmap_2 identity_of) in Hw. rewrite Ii in Hw.
    apply list_elem_of_bind in Hw as (i & (t & [= -> _] & _)%list_elem_of_fmap & Hi). apply elem_of_seq in Hi. lia. }
  assert (omap claim_of (spawned N) = [] /\ omap lost (spawned N) = [] /\ (spawned N ≫= pending) = [] /\ (spawned N ≫= claimed) = [])
    as (E1 & E2 & E3 & E4).
  { unfold spawned. clear. induction txns as [|t l IH]; [done|]. cbn. by destruct IH as (-> & -> & -> & ->). }
  split; cbn [g_main g_maps g_workers g_matchChan g_unMatchChan g_matches g_unmatched]; try done.
  - apply Forall_app. split.
    + rewrite Forall_forall in Iw |- *. intros w Hw. specialize (Hlt w Hw). rewrite gm_insert_ne by lia. by apply Iw.
    + apply Forall_fmap, Forall_true. intros t. by split.
  - intros k. destruct (decide (N = k)) as [->|]; [by rewrite gm_insert|by rewrite gm_insert_ne].
  - by rewrite omap_app, E1, app_nil_r.
  - intros k x Hk Hx Hnot. rewrite omap_app, E1, app_nil_r. destruct (decide (N = k)) as [->|]; [by rewrite gm_insert in Hnot|].
    rewrite gm_insert_ne in Hnot by done. apply It; [lia|done..].
  - rewrite fmap_app, Ii, seq_S, bind_app, bind_singleton. f_equal. unfold spawned. by rewrite <- list_fmap_compose.
  - split; [|done]. intros i Hi. destruct (decide (i = N)) as [->|]; [done|]. apply Hp. lia.
  - by rewrite !bind_app, E3, E4, !app_nil_r.
  - rewrite omap_app, E2, (app_nil_r (omap _ _)). exact Il.
Qed.

Lemma inv_step N s s' : inv N s -> step s s' -> exists N', inv N' s' /\ (N <= N')%nat.
Proof.
  intros I H. destruct H as [s n b Em Hg|s n b Em Hg|s n Em|s x xs Em Hc|s Em|s x xs Em Hx|s Em Hx Ha|s x xs Em Hx|s Em Hx Ha|s l1 w l2 m mc uc pc claim Ew Hw].
  { exists (S N). split; [by apply (inv_fetch N s n b)|lia]. }
  9: { exists N. split; [by apply inv_worker|lia]. }
  all: exists N; split; [|lia]; destruct I as [Iw Im Ic It Ii Ip Ia Il Icap Id Ir]; rewrite Em in Ip, Il, Icap, Ir.
  - destruct Ip as (Hp & -> & ->). split; cbn [g_main g_maps g_workers g_matchChan g_unMatchChan g_matches g_unmatched]; try done.
    all: destruct (N =? 0)%nat eqn:E; cbn [negb] in *; try done.
    + split; [done|]. by left.
    + split; [done|]. by left.
    + apply Nat.eqb_eq in E as ->. cbn [flush_rest flushed] in *. destruct (decide (groups 0 = ∅)); [|done].
      assert (g_workers s = []) as Ew by (by apply fmap_nil_inv in Ii). rewrite Ew in *. destruct Icap as [Eu _].
      rewrite Eu, app_nil_r in Il. symmetry in Il. apply Permutation_nil in Il. cbn in Il. rewrite Eu, Il. cbn. by rewrite app_nil_r.
    + apply Nat.eqb_neq in E. cbn [flush_rest flushed] in *. destruct (decide (groups 0 = ∅)) as [e|]; [|done]. destruct (Hp 0%nat); [lia|done].
  - destruct Ip as (Hp & ->). fold (gm (g_maps s) n) in *. split; cbn [g_main g_maps g_workers g_matchChan g_unMatchChan g_matches g_unmatched]; try done.
    all: destruct (size (gm (g_maps s) n) =? 0)%nat eqn:E; try done.
    + split; [done|]. right. exists n. split; [done|]. apply Nat.eqb_eq, size_empty_inv in E. by apply leibniz_equiv.
    + cbn [flush_rest flushed] in *. destruct (decide (groups 0 = ∅)) as [e|]; [|done]. destruct (Hp 0%nat); [lia|done].
  - split; cbn [g_main g_maps g_workers g_matchChan g_unMatchChan g_matches g_unmatched]; try done.
    + cbn [flush_rest flushed] in *. rewrite <- Il. solve_Permutation.
    + split; [tauto|]. rewrite length_app. cbn. lia.
  - split; cbn [g_main g_maps g_workers g_matchChan g_unMatchChan g_matches g_unmatched]; try done.
  - split; cbn [g_main g_maps g_workers g_matchChan g_unMatchChan g_matches g_unmatched]; rewrite ?Em; try done.
    rewrite Hx in Ia. rewrite <- Ia. solve_Permutation.
  - split; cbn [g_main g_maps g_workers g_matchChan g_unMatchChan g_matches g_unmatched]; try done.
    split; [exact Ha|]. by destruct Icap as [-> ?].
  - split; cbn [g_main g_maps g_workers g_matchChan g_unMatchChan g_matches g_unmatched]; rewrite ?Em; try done.
    + rewrite Hx in Il. rewrite <- Il. solve_Permutation.
    + rewrite Hx in Icap. rewrite !length_app in *. cbn in *. split; [tauto|]. lia.
  - split; cbn [g_main g_maps g_workers g_matchChan g_unMatchChan g_matches g_unmatched]; try done.
Qed.

Lemma inv_reachable s : reachable s -> exists N, inv N s.
Proof.
  intros H. assert (forall a b, rtc step a b -> forall N, inv N a -> exists N', inv N' b) as Hgen.
  { clear. intros a b H. induction H as [|a b c Hs _ IH]; intros N I; [by exists N|]. destruct (inv_step N a b I Hs) as (N' & I' & _). eauto. }
  by apply (Hgen init s H 0%nat), inv_init.
Qed.

Lemma returned_matches N s : inv N s -> g_main s = Returned -> g_matches s ≡ₚ (g_workers s ≫= claimed).
Proof.
  intros [_ _ _ _ _ _ Ia _ Icap _ Ir] E. rewrite E in Icap, Ir. rewrite Ir in Ia. destruct Icap as [Hall _]. rewrite <- Ia. cbn.
  assert (g_workers s ≫= pending = []) as ->; [|by rewrite app_nil_r].
  unfold all_finished in Hall. clear -Hall. induction (g_workers s) as [|w l IH]; [done|]. cbn in Hall. apply andb_true_iff in Hall as [H1 H2].
  rewrite bind_cons, IH by done. unfold pending. by destruct (w_pc w).
Qed.

(** C28: whatever the interleaving, no group is claimed twice and no match is
    invented.  On every page each group is claimed by at most one goroutine; the
    group a goroutine claimed matches its transaction by the rules; every match
    collected belongs to such a claim, and when the reconciler has returned the
    matches are exactly the members of the claimed groups, each once. *)
Theorem groups_are_claimed_once (s : gstate) : reachable s ->
  NoDup (omap claim_of (g_workers s)) /\
  (forall w k, w ∈ g_workers s -> w_claim w = Some k ->
     k ∈ dom (groups (w_page w)) /\ matchesGroup (w_txn w) (group (w_page w) k) = true) /\
  (forall m, m ∈ g_matches s -> exists w k, w ∈ g_workers s /\ w_claim w = Some k /\
     m ∈ group_matches (w_txn w) (group (w_page w) k)) /\
  (g_main s = Returned -> g_matches s ≡ₚ (g_workers s ≫= claimed)).
Proof.
  intros (N & I)%inv_reachable. split; [apply I|]. split; [|split; [|by eapply returned_matches]].
  - intros w k Hw Hk. pose proof (in_workers _ _ I) as Iw. rewrite Forall_forall in Iw. destruct (Iw w Hw) as [A _ _]. destruct (A k Hk) as (?&?&?). done.
  - intros m Hm. assert (m ∈ g_workers s ≫= claimed) as Hc by (rewrite <- (in_matches _ _ I); set_solver).
    apply list_elem_of_bind in Hc as (w & Hc & Hw). unfold claimed in Hc. destruct (w_claim w) as [k|] eqn:Ek; [|by apply not_elem_of_nil in Hc].
    by exists w, k.
Qed.

(** ** One page of groups *)

(** The outcome of matching the transactions against page [n]: each is given a
    group that it matches, no two the same, or none, and then every group that
    it matches went to another. *)
Definition settles (n : nat) (out : list Match * list string) : Prop :=
  exists assignment : list (Transaction * option string),
    assignment.*1 = txns /\ NoDup (omap snd assignment) /\
    (forall t k, (t, Some k) ∈ assignment -> k ∈ dom (groups n) /\ matchesGroup t (group n k) = true) /\
    (forall t k, (t, None) ∈ assignment -> k ∈ dom (groups n) -> matchesGroup t (group n k) = true -> Some k ∈ assignment.*2) /\
    out.1 ≡ₚ (assignment ≫= fun p => match p.2 with Some k => group_matches p.1 (group n k) | None => [] end) /\
    out.2 ≡ₚ omap (fun p => match p.2 with Some _ => None | None => Some (t_TransactionID p.1) end) assignment.

Lemma one_page_le N s : groups 1 = ∅ -> inv N s -> (N <= 1)%nat.
Proof. intros H1 [_ _ _ _ _ [Hp _] _ _ _ _ _]. destruct (decide (N <= 1)%nat); [done|]. destruct (Hp 1%nat); [lia|done]. Qed.

Lemma page_zero N s w : (N <= 1)%nat -> inv N s -> w ∈ g_workers s -> w_page w = 0%nat.
Proof.
  intros HN I Hw. apply (list_elem_of_fmap_2 identity_of) in Hw. rewrite (in_ids _ _ I) in Hw.
  apply list_elem_of_bind in Hw as (i & (t & [= -> _] & _)%list_elem_of_fmap & Hi). apply elem_of_seq in Hi. lia.
Qed.

Lemma one_page_settles N s : groups 1 = ∅ -> inv N s -> g_main s = Returned -> settles 0 (g_matches s, g_unmatched s).
Proof.
  intros H1 I E. pose proof (one_page_le N s H1 I) as HN. pose proof (fun w => page_zero N s w HN I) as Hz.
  pose proof (returned_matches N s I E) as Hm. destruct I as [Iw _ Ic It Ii Ip _ Il Icap Id _]. rewrite E in Ip, Il, Icap.
  rewrite (Id E) in Il. cbn [flush_rest app] in Il. rewrite app_nil_r in Il. destruct Icap as [Hall _].
  assert (forall w, w ∈ g_workers s -> w_pc w = Finished) as Hf.
  { unfold all_finished in Hall. rewrite forallb_forall in Hall. intros w Hw%list_elem_of_In. specialize (Hall w Hw). by destruct (w_pc w). }
  destruct (decide (N = 0%nat)) as [->|Hn].
  - assert (g_workers s = []) as Ew by (by apply fmap_nil_inv in Ii). assert (groups 0 = ∅) as H0 by (destruct Ip as [_ [?|(n & ? & _)]]; [done|lia]).
    exists ((fun t => (t, None)) <$> txns). rewrite Ew in *. cbn in Il. destruct (decide (groups 0 = ∅)) as [_|]; [|done]. rewrite app_nil_r in Il.
    split_and!; cbn [fst snd].
    + rewrite <- list_fmap_compose. apply list_fmap_id.
    + clear. induction txns; [apply NoDup_nil_2|done].
    + by intros t k (? & [= ] & _)%list_elem_of_fmap.
    + intros t k _ Hk. rewrite H0 in Hk. set_solver.
    + rewrite Hm. cbn. clear. by induction txns.
    + rewrite Il. clear. induction txns as [|t l IH]; [done|]. cbn. by rewrite IH.
  - assert (N = 1%nat) as -> by lia. cbn in Ii. rewrite app_nil_r in Ii.
    assert (flushed Returned = []) as Ef. { cbn. destruct (decide (groups 0 = ∅)); [|done]. destruct Ip as [Hp _]. destruct (Hp 0%nat); [lia|done]. }
    rewrite Ef in Il. cbn [app] in Il. exists ((fun w => (w_txn w, w_claim w)) <$> g_workers s). rewrite Forall_forall in Iw. split_and!; cbn [fst snd].
    + rewrite <- list_fmap_compose. clear -Ii. revert Ii. generalize txns. induction (g_workers s) as [|w l IH]; intros [|t ts] Ii; try done.
      injection Ii as _ Et Ii. cbn. by rewrite Et, (IH ts).
    + apply (NoDup_fmap_1 (pair 0%nat)). clear -Ic Hz. revert Ic. assert (omap claim_of (g_workers s) = pair 0%nat <$> omap snd ((fun w => (w_txn w, w_claim w)) <$> g_workers s)) as ->; [|done].
      induction (g_workers s) as [|w l IH]; [done|]. cbn. unfold claim_of at 1. rewrite (Hz w) by left.
      destruct (w_claim w); cbn; rewrite IH by (intros; apply Hz; by right); done.
    + intros t k (w & [= -> Hk] & Hw)%list_elem_of_fmap. destruct (Iw w Hw) as [A _ _]. rewrite (Hz w Hw) in A. destruct (A k (eq_sym Hk)) as (?&?&?). done.
    + intros t k (w & [= -> Hk] & Hw)%list_elem_of_fmap Hd Hmt. destruct (Iw w Hw) as [_ _ C]. specialize (C (eq_sym Hk)).
      rewrite (Hf w Hw), (Hz w Hw) in C. destruct (decide (k ∈ gm (g_maps s) 0)) as [Hin|Hout]; [by rewrite (C k Hin) in Hmt|].
      apply (It 0%nat k) in Hout as (v & Hv & Ev)%list_elem_of_omap; [|lia|done]. unfold claim_of in Ev. destruct (w_claim v) as [k'|] eqn:Ek; [|done].
      injection Ev as _ ->. rewrite <- Ek, <- list_fmap_compose. by apply (list_elem_of_fmap_2 (fun w => w_claim w)).
    + rewrite Hm. clear -Hz. induction (g_workers s) as [|w l IH]; [done|]. cbn. rewrite IH by (intros; apply Hz; by right).
      unfold claimed. rewrite (Hz w) by left. done.
    + rewrite Il. clear -Hf. induction (g_workers s) as [|w l IH]; [done|]. cbn. unfold lost at 1. rewrite (Hf w) by left.
      destruct (w_claim w); rewrite IH by (intros; apply Hf; by right); done.
Qed.

(** ** Progress and termination on one page *)

Lemma workers_length N s : inv N s -> length (g_workers s) = (N * length txns)%nat.
Proof.
  intros I. rewrite <- (length_fmap identity_of), (in_ids _ _ I). clear. induction N as [|N IH]; [done|].
  rewrite seq_S, bind_app, bind_singleton, length_app, IH, length_fmap. lia.
Qed.
Lemma omap_length {A B} (f : A -> option B) (l : list A) : (length (omap f l) <= length l)%nat.
Proof. induction l as [|a l IH]; cbn; [lia|]. destruct (f a); cbn; lia. Qed.

(** A goroutine inside the semaphore can move when the reconciler reads matches. *)
Lemma running_moves N s l1 w l2 : groups 1 = ∅ -> inv N s -> g_main s = CollectMatches -> g_matchChan s = [] ->
  g_workers s = l1 ++ w :: l2 -> running (w_page w) w = true -> exists s', step s s'.
Proof.
  intros H1 I E Em Ew Hr. pose proof (one_page_le N s H1 I) as HN. pose proof (workers_length N s I) as HL. rewrite Ew in HL.
  rewrite length_app in HL. cbn in HL. unfold running in Hr. apply andb_true_iff in Hr as [_ Hr].
  assert (forall e pc claim, worker_step (token_free s (w_page w)) (w_txn w) (w_page w)
    (default ∅ (g_maps s !! w_page w), g_matchChan s, g_unMatchChan s) (w_pc w) e pc claim -> exists s', step s s') as Hs.
  { intros [[m mc] uc] pc claim Hw. eexists. by eapply S_worker. }
  destruct (w_pc w) as [| |[|k ks]|[|x xs]| |] eqn:Ep; try done.
  - eapply Hs, W_snapshot. done.
  - eapply Hs, W_none.
  - destruct (matchesGroup (w_txn w) (group (w_page w) k)) eqn:Eg; [|by eapply Hs, W_skip].
    destruct (decide (k ∈ default ∅ (g_maps s !! w_page w))); [by eapply Hs, W_claim|by eapply Hs, W_lost].
  - eapply Hs, W_sent.
  - eapply Hs, W_send. rewrite Em. unfold chan_cap. cbn. nia.
  - eapply Hs, W_unmatched. pose proof (in_lost _ _ I) as Il. rewrite E, Ew in Il. pose proof (in_cap _ _ I) as Ic. rewrite E in Ic. destruct Ic as [Eu _].
    rewrite Eu in Il. cbn [app flush_rest] in Il. rewrite app_nil_r in Il. rewrite Il, omap_replace.
    change (omap lost [w]) with (option_list (lost w)). unfold lost at 1. rewrite Ep. assert (flushed CollectMatches = []) as ->.
    { cbn. destruct (decide (groups 0 = ∅)) as [e|]; [|done]. destruct (in_pages _ _ I) as [Hp _]. destruct N as [|N]; [lia|]. destruct (Hp 0%nat); [lia|done]. }
    cbn. pose proof (omap_length lost (l1 ++ l2)) as Ho. rewrite length_app in Ho. unfold chan_cap. nia.
Qed.

Lemma unfinished_worker l : forallb (fun w => match w_pc w with Finished => true | _ => false end) l = false ->
  (exists l1 w l2, l = l1 ++ w :: l2 /\ running (w_page w) w = true) \/
  (exists l1 w l2, l = l1 ++ w :: l2 /\ w_pc w = Waiting /\ forall n, List.filter (running n) l = []).
Proof.
  induction l as [|w l IH]; [done|]. cbn. intros H.
  assert (running (w_page w) w = true \/ (w_pc w = Waiting \/ w_pc w = Finished) /\ forall n, running n w = false) as [Hr|[Hw Hn]].
  { unfold running. rewrite Nat.eqb_refl. destruct (w_pc w); try (by left); right; (split; [tauto|]); intros; apply andb_false_r. }
  { left. by exists [], w, l. }
  destruct (forallb _ l) eqn:El.
  - right. exists [], w, l. destruct Hw as [Hw|Hw]; rewrite Hw in H; [|done]. split_and!; [done..|]. intros n. rewrite Hn. clear -El.
    induction l as [|v l IH]; [done|]. cbn in *. apply andb_true_iff in El as [E1 E2]. unfold running at 1. destruct (w_pc v); try done. rewrite andb_false_r. auto.
  - destruct (IH eq_refl) as [(l1 & v & l2 & -> & Hv)|(l1 & v & l2 & -> & Hv & Hl)].
    + left. by exists (w :: l1), v, l2.
    + right. exists (w :: l1), v, l2. split_and!; [done..|]. intros n. by rewrite Hn.
Qed.

Lemma one_page_progress N s : (0 < maxWorkers)%nat -> groups 1 = ∅ -> inv N s -> g_main s = Returned \/ exists s', step s s'.
Proof.
  intros Hmax H1 I. destruct (g_main s) as [n b|n|[|x xs]| | |] eqn:Em; [right..|by left].
  - destruct (decide (groups n = ∅)); eexists; [by eapply S_last|by eapply S_fetch].
  - eexists. by eapply S_check.
  - eexists. by eapply S_flushed.
  - eexists. eapply S_flush; [done|]. pose proof (in_lost _ _ I) as Il. pose proof (in_cap _ _ I) as Ic. rewrite Em in Il, Ic. destruct Ic as [Eu _].
    rewrite Eu in Il. cbn [app flush_rest] in Il. apply Permutation_length in Il. rewrite !length_app in Il. cbn [length] in Il.
    pose proof (one_page_le N s H1 I) as HN. pose proof (workers_length N s I) as HL. pose proof (omap_length lost (g_workers s)) as Ho.
    unfold chan_cap. destruct (decide (N = 0%nat)) as [->|].
    + cbn in HL. cbn [flushed] in Il. destruct (decide (groups 0 = ∅)); cbn in Il; rewrite ?length_fmap in Il; lia.
    + assert (flushed (Flush (x :: xs)) = []) as Ef.
      { cbn. destruct (decide (groups 0 = ∅)) as [e|]; [|done]. destruct (in_pages _ _ I) as [Hp _]. destruct (Hp 0%nat); [lia|done]. }
      rewrite Ef in Il. cbn in Il. nia.
  - destruct (g_matchChan s) as [|x xs] eqn:Ec; [|eexists; by eapply S_match].
    destruct (all_finished s) eqn:Ea; [eexists; by eapply S_closed|]. apply unfinished_worker in Ea as [(l1 & w & l2 & Ew & Hr)|(l1 & w & l2 & Ew & Hw & Hn)].
    + by eapply running_moves.
    + eexists. eapply S_worker; [exact Ew|]. rewrite Hw. apply W_acquire. unfold token_free. rewrite Hn. by apply Nat.ltb_lt.
  - destruct (g_unMatchChan s) as [|x xs] eqn:Ec; [|eexists; by eapply S_unmatched].
    eexists. eapply S_return; [done..|]. pose proof (in_cap _ _ I) as Ic. rewrite Em in Ic. by destruct Ic.
Qed.

(** A measure that every step on one page decreases. *)
Definition members : nat := sum_list_with (fun p => length p.2) (map_to_list (groups 0)).
Definition worker_cost (w : worker) : nat :=
  match w_pc w with
  | Waiting => 2 * members + size (groups 0) + 8
  | Snapshot => 2 * members + size (groups 0) + 7
  | Scan ks => 2 * members + length ks + 5
  | Send xs => 2 * length xs + 2
  | Unmatched => 3
  | Finished => 0
  end.
Definition main_cost (p : main_pc) : nat :=
  match p with
  | Fetch O _ => 20 + length txns * (2 * members + size (groups 0) + 10)
  | CheckMap _ => 10
  | Fetch (S _) _ => 9
  | Flush rest => 2 * length rest + 6
  | CollectMatches => 4
  | CollectUnmatched => 3
  | Returned => 0
  end.
Definition cost (s : gstate) : nat :=
  main_cost (g_main s) + sum_list_with worker_cost (g_workers s) + length (g_matchChan s) + length (g_unMatchChan s).

Lemma group_members k : (length (group 0 k) <= members)%nat.
Proof.
  unfold group, members. destruct (groups 0 !! k) as [g|] eqn:E; [|cbn; lia]. apply elem_of_map_to_list in E.
  change g with ((k, g).2). cbn [default]. by apply (sum_list_with_in (k, g) (fun p => length p.2)).
Qed.

Lemma worker_step_cost free t e pc e' pc' claim w : e.1.1 ⊆ dom (groups 0) -> w_pc w = pc ->
  worker_step free t 0 e pc e' pc' claim ->
  (worker_cost (moved w pc' claim) + length e'.1.2 + length e'.2 < worker_cost w + length e.1.2 + length e.2)%nat.
Proof.
  intros Hm Ew H. unfold worker_cost. rewrite Ew. destruct H; cbn; rewrite ?length_app; cbn; try lia.
  - apply subseteq_size in Hm. rewrite size_dom in Hm. match goal with E : _ ≡ₚ _ |- _ => rewrite E end.
    cbn in Hm. change (length (elements m)) with (size m). lia.
  - pose proof (group_members k). unfold group_matches. rewrite length_fmap. lia.
Qed.

Lemma step_cost N s s' : groups 1 = ∅ -> inv N s -> step s s' -> (cost s' < cost s)%nat.
Proof.
  intros H1 I H. pose proof (one_page_le N s H1 I) as HN. pose proof (in_pages _ _ I) as [_ Hp]. unfold cost.
  destruct H as [s n b Em Hg|s n b Em Hg|s n Em|s x xs Em Hc|s Em|s x xs Em Hx|s Em Hx Ha|s x xs Em Hx|s Em Hx Ha|s l1 w l2 m mc uc pc claim Ew Hw];
    cbn [g_main g_maps g_workers g_matchChan g_unMatchChan g_matches g_unmatched]; try rewrite Em; try rewrite Em in Hp; rewrite ?Hx; cbn [main_cost length].
  - destruct Hp as [-> _]. destruct N as [|N]; [|assert (N = 0%nat) as -> by lia; done].
    rewrite sum_list_with_app. assert (sum_list_with worker_cost (spawned 0) = length txns * (2 * members + size (groups 0) + 8))%nat as ->; [|nia].
    unfold spawned. clear. induction txns as [|t l IH]; [done|]. cbn [fmap list_fmap sum_list_with]. rewrite IH. cbn. lia.
  - destruct Hp as [-> ->]. destruct N as [|N]; cbn; rewrite ?length_fmap; nia.
  - destruct (_ =? _)%nat; cbn; lia.
  - rewrite length_app. cbn. lia.
  - lia.
  - lia.
  - lia.
  - lia.
  - lia.
  - assert (w_page w = 0%nat) as Ez by (apply (page_zero N s w HN I); rewrite Ew; set_solver). rewrite Ez in Hw.
    apply (worker_step_cost _ _ _ _ _ _ _ w) in Hw; [|exact (in_maps _ _ I 0%nat)|done]. cbn [fst snd] in Hw. unfold moved in Hw.
    rewrite Ew, !sum_list_with_app. cbn [sum_list_with]. lia.
Qed.

Lemma nsteps_cost n s s' N : groups 1 = ∅ -> inv N s -> nsteps step n s s' -> (n + cost s' <= cost s)%nat.
Proof.
  intros H1 I H. revert N I. induction H as [|n a b c Hs _ IH]; intros N I; [lia|].
  pose proof (step_cost N a b H1 I Hs). destruct (inv_step N a b I Hs) as (N' & I' & _). specialize (IH N' I'). lia.
Qed.

(** C27: with one page of groups the reconciler always returns, and every
    transaction gets exactly one answer.  Its executions are bounded in length,
    none gets stuck, and the answer gives each transaction either one group that
    it matches by the rules, all members of it and nothing else, no two
    transactions the same group, or reports it unmatched once - in which case
    every group it matches was taken by another transaction. *)
Theorem one_page_is_settled : (0 < maxWorkers)%nat -> groups 1 = ∅ ->
  (exists bound, forall n s, nsteps step n init s -> (n <= bound)%nat) /\
  (forall s, reachable s -> g_main s = Returned \/ exists s', step s s') /\
  (forall out, reconciles out -> settles 0 out).
Proof.
  intros Hmax H1. split; [|split].
  - exists (cost init). intros n s H. apply (nsteps_cost n init s 0 H1 inv_init) in H. lia.
  - intros s (N & I)%inv_reachable. by eapply one_page_progress.
  - intros out (s & (N & I)%inv_reachable & E & ->). by eapply one_page_settles.
Qed.

Lemma all_lost l : (forall w, w ∈ l -> is_Some (lost w)) -> length (omap lost l) = length l.
Proof.
  induction l as [|w l IH]; intros H; [done|]. destruct (H w) as [x Hx]; [left|]. cbn. rewrite Hx. cbn. rewrite IH; [done|]. intros v Hv. apply H. by right.
Qed.

(** The goroutines of a page whose groups match nothing end without a claim. *)
Lemma page_lost N s n l : inv N s -> all_finished s = true ->
  (forall k t, t ∈ txns -> k ∈ dom (groups n) -> matchesGroup t (group n k) = false) ->
  (forall w, w ∈ l -> w ∈ g_workers s) -> (identity_of <$> l) = (pair n <$> txns) -> length (omap lost l) = length txns.
Proof.
  intros I Hall Hno Hl Hid. rewrite <- (length_fmap (pair n) txns), <- Hid, length_fmap. apply all_lost. intros w Hw.
  assert (w_page w = n /\ w_txn w ∈ txns) as [En Et].
  { apply (list_elem_of_fmap_2 identity_of) in Hw. rewrite Hid in Hw. apply list_elem_of_fmap in Hw as (t & [= -> ->] & ?). done. }
  unfold all_finished in Hall. rewrite forallb_forall in Hall. specialize (Hall w (proj1 (list_elem_of_In _ _) (Hl w Hw))).
  pose proof (in_workers _ _ I) as Iw. rewrite Forall_forall in Iw. destruct (Iw w (Hl w Hw)) as [A _ _]. unfold lost.
  destruct (w_pc w); try done. destruct (w_claim w) as [k|]; [|by eexists]. destruct (A k eq_refl) as (Hm & Hk & _). rewrite En in *. by rewrite Hno in Hm.
Qed.

(** C39: with two pages of groups the reconciler can hang.  When no transaction
    matches a group of the first two pages, each page reports every transaction
    unmatched, the channel has room for one report of each, and it is read only
    after all goroutines are done: there is no execution in which the call
    returns. *)
Theorem two_pages_hang : txns <> [] -> groups 0 <> ∅ -> groups 1 <> ∅ ->
  (forall n k t, (n < 2)%nat -> t ∈ txns -> k ∈ dom (groups n) -> matchesGroup t (group n k) = false) ->
  forall s, reachable s -> g_main s <> Returned.
Proof.
  intros Ht H0 H1 Hno s (N & I)%inv_reachable E.
  assert (forall n k, (n < 2)%nat -> (n, k) ∉ omap claim_of (g_workers s)) as Hfree.
  { intros n k Hn (w & Hw & Ew)%list_elem_of_omap. unfold claim_of in Ew. destruct (w_claim w) as [k'|] eqn:Ek; [|done]. injection Ew as <- ->.
    pose proof (in_workers _ _ I) as Iw. rewrite Forall_forall in Iw. destruct (Iw w Hw) as [A _ _]. destruct (A k Ek) as (Hm & Hk & _).
    rewrite Hno in Hm; [done..| |done]. apply (list_elem_of_fmap_2 identity_of) in Hw. rewrite (in_ids _ _ I) in Hw.
    by apply list_elem_of_bind in Hw as (i & (t & [= _ ->] & ?)%list_elem_of_fmap & _). }
  assert (2 <= N)%nat as HN.
  { destruct (in_pages _ _ I) as [_ Hstop]. rewrite E in Hstop. destruct Hstop as [Hs|(n & -> & Hn)].
    - destruct N as [|[|N]]; [done..|lia].
    - destruct (decide (n < 2)%nat) as [Hlt|]; [|lia]. assert (groups n <> ∅) as Hg by (destruct n as [|[|n]]; [done..|lia]).
      apply map_choose in Hg as (k & g & Hk). destruct (Hfree n k Hlt). apply (in_taken _ _ I); [lia| |by rewrite Hn; set_solver]. by apply elem_of_dom_2 in Hk. }
  pose proof (in_cap _ _ I) as Ic. rewrite E in Ic. destruct Ic as [Hall Hcap]. pose proof (in_lost _ _ I) as Il. rewrite E in Il. cbn [flush_rest] in Il.
  rewrite app_nil_r in Il. rewrite Il in Hcap. rewrite length_app in Hcap. pose proof (in_ids _ _ I) as Ii. destruct N as [|[|N]]; [lia..|].
  cbn in Ii. apply fmap_app_inv in Ii as (l0 & l & E0 & Ii & Ew). symmetry in Ii. apply fmap_app_inv in Ii as (l1 & l2 & E1 & Ii & ->).
  rewrite Ew, !omap_app, !length_app in Hcap. rewrite (page_lost _ s 0 l0 I Hall), (page_lost _ s 1 l1 I Hall) in Hcap; try done.
  - unfold chan_cap in Hcap. destruct txns; [done|]. cbn in Hcap. lia.
  - intros k t. apply Hno. lia.
  - rewrite Ew. set_solver.
  - intros k t. apply Hno. lia.
  - rewrite Ew. set_solver.
Qed.

(** ** A scheduler

    The step relation executed: an event names the goroutine to move, which
    snapshots the keys in the order of [elements]. *)
Definition worker_exec (free : bool) (t : Transaction) (n : nat) (e : env) (pc : worker_pc)
    : option (env * worker_pc * option string) :=
  let '(m, mc, uc) := e in
  match pc with
  | Waiting => if free then Some (e, Snapshot, None) else None
  | Snapshot => Some (e, Scan (elements m), None)
  | Scan [] => Some (e, Unmatched, None)
  | Scan (k :: ks) =>
      if negb (matchesGroup t (group n k)) then Some (e, Scan ks, None)
      else if bool_decide (k ∈ m) then Some ((m ∖ {[k]}, mc, uc), Send (group_matches t (group n k)), Some k)
      else Some (e, Scan ks, None)
  | Send [] => Some (e, Finished, None)
  | Send (x :: xs) => if (length mc <? chan_cap)%nat then Some ((m, mc ++ [x], uc), Send xs, None) else None
  | Unmatched => if (length uc <? chan_cap)%nat then Some ((m, mc, uc ++ [t_TransactionID t]), Finished, None) else None
  | Finished => None
  end.
Definition main_exec (s : gstate) : option gstate :=
  match g_main s with
  | Fetch n b => if (size (groups n) =? 0)%nat
      then Some {| s with g_main := if b then CollectMatches else Flush (t_TransactionID <$> txns) |}
      else Some {| s with g_main := CheckMap n; g_maps := <[n := buildGroupMap n]> (g_maps s); g_workers := g_workers s ++ spawned n |}
  | CheckMap n => Some {| s with g_main := if (size (default ∅ (g_maps s !! n)) =? 0)%nat then CollectMatches else Fetch (S n) true |}
  | Flush [] => Some {| s with g_main := CollectMatches |}
  | Flush (x :: xs) => if (length (g_unMatchChan s) <? chan_cap)%nat
      then Some {| s with g_main := Flush xs; g_unMatchChan := g_unMatchChan s ++ [x] |} else None
  | CollectMatches => match g_matchChan s with
      | x :: xs => Some {| s with g_matchChan := xs; g_matches := g_matches s ++ [x] |}
      | [] => if all_finished s then Some {| s with g_main := CollectUnmatched |} else None
      end
  | CollectUnmatched => match g_unMatchChan s with
      | x :: xs => Some {| s with g_unMatchChan := xs; g_unmatched := g_unmatched s ++ [x] |}
      | [] => if all_finished s then Some {| s with g_main := Returned |} else None
      end
  | Returned => None
  end.
Definition worker_move (s : gstate) (i : nat) : option gstate :=
  w ← g_workers s !! i;
  r ← worker_exec (token_free s (w_page w)) (w_txn w) (w_page w)
        (default ∅ (g_maps s !! w_page w), g_matchChan s, g_unMatchChan s) (w_pc w);
  let '(e, pc, claim) := r in
  Some {| s with g_maps := <[w_page w := e.1.1]> (g_maps s); g_matchChan := e.1.2; g_unMatchChan := e.2;
                 g_workers := take i (g_workers s) ++ moved w pc claim :: drop (S i) (g_workers s) |}.
(** [None] moves the reconciler, [Some i] the [i]-th goroutine. *)
Definition exec (s : gstate) (ev : option nat) : option gstate :=
  match ev with None => main_exec s | Some i => worker_move s i end.
Definition exec_all (s : gstate) (evs : list (option nat)) : option gstate :=
  foldl (fun o ev => s ← o; exec s ev) (Some s) evs.

Lemma worker_exec_step free t n e pc e' pc' claim :
  worker_exec free t n e pc = Some (e', pc', claim) -> worker_step free t n e pc e' pc' claim.
Proof.
  destruct e as [[m mc] uc]. unfold worker_exec. intros H. destruct pc as [| |[|k ks]|[|x xs]| |]; try done.
  - destruct free eqn:E; [|done]. injection H as <- <- <-. by constructor.
  - injection H as <- <- <-. by constructor.
  - injection H as <- <- <-. constructor.
  - destruct (matchesGroup t (group n k)) eqn:E; cbn in H; [|injection H as <- <- <-; by constructor].
    case_bool_decide; injection H as <- <- <-; by constructor.
  - injection H as <- <- <-. constructor.
  - destruct (Nat.ltb_spec (length mc) chan_cap); [|done]. injection H as <- <- <-. by constructor.
  - destruct (Nat.ltb_spec (length uc) chan_cap); [|done]. injection H as <- <- <-. by constructor.
Qed.

Lemma exec_step s ev s' : exec s ev = Some s' -> step s s'.
Proof.
  destruct ev as [i|]; cbn.
  - unfold worker_move. intros (w & Hw & H)%bind_Some. apply bind_Some in H as ([[[[m mc] uc] pc] claim] & He & [= <-]).
    apply worker_exec_step in He. eapply S_worker; [|exact He]. symmetry. by apply take_drop_middle.
  - unfold main_exec. intros H. destruct (g_main s) as [n b|n|[|x xs]| | |] eqn:Em; try done.
    + destruct (Nat.eqb_spec (size (groups n)) 0) as [E|E]; injection H as <-.
      * eapply S_last; [done|]. by apply map_size_empty_inv.
      * eapply S_fetch; [done|]. intros E'. by rewrite E', map_size_empty in E.
    + injection H as <-. by apply S_check.
    + injection H as <-. by apply S_flushed.
    + destruct (Nat.ltb_spec (length (g_unMatchChan s)) chan_cap); [|done]. injection H as <-. by apply S_flush.
    + destruct (g_matchChan s) eqn:Ec; [destruct (all_finished s) eqn:Ea; [|done]|]; injection H as <-; [rewrite <- Ec; by apply S_closed|rewrite <- Em; by apply S_match].
    + destruct (g_unMatchChan s) eqn:Ec; [destruct (all_finished s) eqn:Ea; [|done]|]; injection H as <-; [rewrite <- Ec; by apply S_return|rewrite <- Em; by apply S_unmatched].
Qed.

Lemma exec_all_reachable evs s : exec_all init evs = Some s -> reachable s.
Proof.
  unfold exec_all, reachable. assert (forall o, foldl (fun o ev => s ← o; exec s ev) o evs = Some s -> exists s0, o = Some s0 /\ rtc step s0 s) as H.
  { induction evs as [|ev evs IH]; intros o H; cbn in H; [exists s; split; [done|apply rtc_refl]|].
    destruct (IH _ H) as (s1 & (s0 & -> & He)%bind_Some & Hr). exists s0. split; [done|]. eapply rtc_l; [by eapply exec_step|done]. }
  intros E. by destruct (H _ E) as (s0 & [= <-] & ?).
Qed.
End Grouping.

(** ** Concrete runs *)

Module GroupingWitness.
Definition by_reference : MatchingRule := {|
  mr_RuleID := "rule_1"; mr_CreatedAt := 0; mr_UpdatedAt := 0; mr_Name := "reference"; mr_Description := "";
  mr_Criteria := [{| mc_Field := "reference"; mc_Operator := "equals"; mc_Value := ""; mc_Pattern := ""; mc_AllowableDrift := fzero |}] |}.
Definition txn (id reference : string) : Transaction :=
  {| zero_transaction with t_TransactionID := id; t_Reference := reference |}.
Definition same (t : Transaction) (g : list Transaction) : bool :=
  matchesGroup (fun _ _ => 0) (fun _ => 0) t g [by_reference].
Definition ext : list Transaction := [txn "e1" "pay-7"].
Definition page_of (l : list (string * list Transaction)) : result (gmap string (list Transaction)) := Ok (list_to_map l).
Definition one_page (n : nat) := match n with O => page_of [("USD", [txn "t1" "pay-6"; txn "t2" "pay-7"])]%string | _ => page_of [] end.
Definition two_pages (n : nat) := match n with
  | O => page_of [("EUR", [txn "t1" "pay-5"])]%string | S O => page_of [("USD", [txn "t2" "pay-6"])]%string | _ => page_of [] end.

Definition matched (t g : string) : Match := {|
  mt_ExternalTransactionID := t; mt_InternalTransactionID := g; mt_ReconciliationID := ""; mt_Amount := fzero; mt_Date := 0 |}.

Definition schedule : list (option nat) :=
  [None; Some 0; None; None; Some 0; Some 0; Some 0; None; Some 0; None; Some 0; None; None]%nat.
Lemma one_page_run : exists s, reachable same ext one_page false 4 s /\ g_main s = Returned /\
  g_matches s = [matched "e1" "t1"; matched "e1" "t2"]%string /\ g_unmatched s = [].
Proof.
  destruct (exec_all same ext one_page false 4 init schedule) as [s|] eqn:E; [|by vm_compute in E].
  exists s. split; [by eapply exec_all_reachable|]. vm_compute in E. by injection E as <-.
Qed.

Lemma groups_are_claimed_once_witness :
  exists s, g_main s = Returned /\ g_matches s <> [] /\ NoDup (omap claim_of (g_workers s)) /\
    g_matches s ≡ₚ (g_workers s ≫= claimed one_page false).
Proof.
  destruct one_page_run as (s & Hr & E & Em & _). exists s.
  destruct (groups_are_claimed_once same ext one_page false 4 s Hr) as (H1 & _ & _ & H2). rewrite Em. split_and!; [done..|]. rewrite <- Em. by apply H2.
Defined.

Lemma one_page_is_settled_witness :
  (0 < 4)%nat /\ settles same ext one_page false 0 ([matched "e1" "t1"; matched "e1" "t2"]%string, []).
Proof.
  split; [lia|]. destruct one_page_run as (s & Hr & E & Em & Eu).
  apply (proj2 (proj2 (one_page_is_settled same ext one_page false 4 ltac:(lia) ltac:(reflexivity)))). exists s. by rewrite Em, Eu.
Defined.

Lemma two_pages_hang_witness : groups two_pages 1 <> ∅ /\ ~ exists s, reachable same ext two_pages false 4 s /\ g_main s = Returned.
Proof.
  split; [by vm_compute|]. intros (s & Hs & E). revert s Hs E.
  apply (two_pages_hang same ext two_pages false 4); [done|by vm_compute..|]. intros n k t Hn Ht Hk. apply list_elem_of_singleton in Ht as ->.
  destruct n as [|[|n]]; [| |lia]; apply elem_of_dom in Hk as [g Hk]; unfold groups, two_pages, page_of in Hk; cbn [list_to_map fold_right fst snd] in Hk;
    apply lookup_insert_Some in Hk as [[<- _]|[_ Hk]]; [by vm_compute|by rewrite lookup_empty in Hk|by vm_compute|by rewrite lookup_empty in Hk].
Defined.
End GroupingWitness.
