(* ===== verification/Reconciler.v ===== *)
(** * A reconciliation from start to end

    [internal/reconciliation/engine.go] and the batch runner of
    [internal/core/transaction_batch_processing.go]: the transactions of an upload
    (or, for many-to-one, of the ledger) are fetched page by page, each is given
    to the reconciler of the strategy by one of the workers, its matches and its
    unmatched reports are recorded, and the counts close the reconciliation.  The
    workers interleave at every database transaction and at every critical
    section of the processor.  The metadata that matched ledger transactions
    receive in the background and the search index are left out, as are failures
    of the database itself. *)
From stdpp Require Import base option list strings gmap sorting relations.
From Stdlib Require Import ZArith Lia SpecFloat.
From S2P Require Import Prelude GoFloat Model GoTime Policy PolicyStore Store Engine Inflight Filter Reconcile Grouping.
Close Scope Q_scope.
Open Scope Z_scope.

(** ** Configuration ([contracts.go]) *)

Record Config := { cf_MaxWorkers : Z; cf_BatchSize : Z; cf_ProgressInterval : Z }.
Definition config (c : Config) : Config := {|
  cf_MaxWorkers := if cf_MaxWorkers c <=? 0 then 10 else cf_MaxWorkers c;
  cf_BatchSize := if cf_BatchSize c <=? 0 then 1000 else cf_BatchSize c;
  cf_ProgressInterval := if cf_ProgressInterval c <=? 0 then 100 else cf_ProgressInterval c |}.

(** A transaction in the hands of a worker: to be reconciled, its matches and
    unmatched reports to be recorded, its progress to be counted, done. *)
Inductive job_pc :=
| J_reconcile | J_matches (ms : list Match) (us : list string) | J_unmatched (us : list string) | J_progress
| J_done (r : result unit).
(** [j_out] is what the reconciler answered. *)
Record job := { j_txn : Transaction; j_pc : job_pc; j_out : list Match * list string }.

(** [transactionProcessor] and the tables. *)
Record processor := {
  tp_db : recon_db; tp_matches : Z; tp_unmatched : Z; tp_progress : ReconciliationProgress; tp_jobs : list job }.

Section Reconciler.
Variable DistanceForStrings : string -> string -> Z.
Variable int_overflow : float64 -> Z.
Variables (numeric_float : string -> float64) (numeric_le : string -> string -> bool).
Variable numeric_12_2 : float64 -> option float64.
Variables (numeric_text : float64 -> string) (timestamp_text : Z -> string).
Variable cfg : Config.
Variable now : Z.
(** The journal, which a reconciliation does not change. *)
Variable ledger : ledger_db.

(** ** Strategies *)

(** [oneToOneReconciliation]: every transaction is compared with the candidates
    within its bounds, in an order left to the workers, and the answers arrive in
    any order. *)
Definition candidates (t : Transaction) (rules : list MatchingRule) : list Transaction :=
  read_row numeric_float <$> criteria_rows numeric_le ledger (calculateMatchingBounds int_overflow t rules).
Definition answers_one (rules : list MatchingRule) (t : Transaction) (out : list Match * list string) : Prop :=
  exists schedule, schedule ≡ₚ candidates t rules /\
    out = findMatchingInternalTransaction DistanceForStrings int_overflow t rules schedule.
Definition oneToOneReconciliation (rules : list MatchingRule) (txns : list Transaction) (out : list Match * list string) : Prop :=
  exists outs, Forall2 (answers_one rules) txns outs /\ out.1 ≡ₚ (outs ≫= fst) /\ out.2 ≡ₚ (outs ≫= snd).

(** [oneToManyReconciliation] and [manyToOneReconciliation]. *)
Definition matches_rules (rules : list MatchingRule) (t : Transaction) (g : list Transaction) : bool :=
  matchesGroup DistanceForStrings int_overflow t g rules.
Definition workers : nat := Z.to_nat (cf_MaxWorkers (config cfg)).
Definition page_offset (n : nat) : Z := Z.of_nat n * cf_BatchSize (config cfg).
Definition groupInternalTransactions (db : recon_db) (groupCriteria : string) (n : nat) : result (gmap string (list Transaction)) :=
  snd (GroupTransactions timestamp_text numeric_float ledger db groupCriteria (cf_BatchSize (config cfg)) (page_offset n)).
Definition groupExternalTransactions (db : recon_db) (uploadID groupCriteria : string) (n : nat) : result (gmap string (list Transaction)) :=
  snd (FetchAndGroupExternalTransactions numeric_text timestamp_text db uploadID groupCriteria (cf_BatchSize (config cfg)) (page_offset n)).
Definition oneToManyReconciliation (db : recon_db) (groupCriteria : string) (rules : list MatchingRule) (txns : list Transaction)
    (out : list Match * list string) : Prop :=
  reconciles (matches_rules rules) txns (groupInternalTransactions db groupCriteria) false workers out.
Definition manyToOneReconciliation (db : recon_db) (uploadID groupCriteria : string) (rules : list MatchingRule) (txns : list Transaction)
    (out : list Match * list string) : Prop :=
  reconciles (matches_rules rules) txns (groupExternalTransactions db uploadID groupCriteria) true workers out.

(** [createReconciler]. *)
Definition createReconciler (db : recon_db) (strategy uploadID groupCriteria : string) (rules : list MatchingRule)
    (txns : list Transaction) (out : list Match * list string) : Prop :=
  if String.eqb strategy "one_to_one" then oneToOneReconciliation rules txns out
  else if String.eqb strategy "one_to_many" then oneToManyReconciliation db groupCriteria rules txns out
  else if String.eqb strategy "many_to_one" then manyToOneReconciliation db uploadID groupCriteria rules txns out
  else out = ([], []).

(** ** The processor *)

Section Run.
Variable reconciliation : Reconciliation.
(** What the reconciler may answer, from the tables the transactions were
    fetched from: the steps below change none that it reads. *)
Variable reconciler : list Transaction -> list Match * list string -> Prop.

Definition rec_id : string := rc_ReconciliationID reconciliation.
Definition with_pc (j : job) (pc : job_pc) : job := {| j with j_pc := pc |}.

(** [process], cut at its critical sections and database transactions. *)
Inductive job_step : processor -> job -> processor -> job -> Prop :=
| Job_reconcile p j out : j_pc j = J_reconcile -> reconciler [j_txn j] out ->
    job_step p j
      {| p with tp_matches := tp_matches p + Z.of_nat (length out.1); tp_unmatched := tp_unmatched p + Z.of_nat (length out.2) |}
      {| j with j_out := out; j_pc := if rc_IsDryRun reconciliation then J_progress else J_matches out.1 out.2 |}
| Job_matches p j ms us : j_pc j = J_matches ms us ->
    job_step p j
      (match RecordMatches numeric_12_2 (tp_db p) rec_id ms with Ok db => {| p with tp_db := db |} | Err _ => p end)
      (with_pc j (match RecordMatches numeric_12_2 (tp_db p) rec_id ms with Ok _ => J_unmatched us | Err e => J_done (Err e) end))
| Job_unmatched p j us : j_pc j = J_unmatched us ->
    job_step p j {| p with tp_db := RecordUnmatched (tp_db p) rec_id us |} (with_pc j J_progress)
| Job_progress p j : j_pc j = J_progress ->
    let progress := {| rp_LastProcessedExternalTxnID := t_TransactionID (j_txn j);
                       rp_ProcessedCount := rp_ProcessedCount (tp_progress p) + 1 |} in
    job_step p j
      {| p with tp_progress := progress;
                tp_db := if Z.rem (rp_ProcessedCount progress) (cf_ProgressInterval (config cfg)) =? 0
                         then SaveReconciliationProgress (tp_db p) rec_id progress else tp_db p |}
      (with_pc j (J_done (Ok tt))).

Inductive processor_step : processor -> processor -> Prop :=
| P_job p l1 j l2 p' j' : tp_jobs p = l1 ++ j :: l2 -> job_step p j p' j' ->
    processor_step p {| p' with tp_jobs := l1 ++ j' :: l2 |}.

(** [createTransactionProcessor] on the transactions to process. *)
Definition createTransactionProcessor (db : recon_db) (txns : list Transaction) : processor := {|
  tp_db := db; tp_matches := 0; tp_unmatched := 0; tp_progress := LoadReconciliationProgress db rec_id;
  tp_jobs := (fun t => {| j_txn := t; j_pc := J_reconcile; j_out := ([], []) |}) <$> txns |}.
Definition done_jobs (p : processor) : Prop := Forall (fun j => exists r, j_pc j = J_done r) (tp_jobs p).
Definition job_errors (p : processor) : list go_error :=
  omap (fun j => match j_pc j with J_done (Err e) => Some e | _ => None end) (tp_jobs p).
End Run.

(** The error of [ProcessTransactionInBatches]: the only one as it is, several
    joined. *)
Definition combined_error (errs : list go_error) : go_error :=
  match errs with
  | [e] => e
  | _ => GoError (String.concat (String (Ascii.ascii_of_nat 10) "") (err_msg <$> errs)) (errs ≫= err_is)
  end.

(** [getExternalTransactionsPaginated] and [getInternalTransactionsPaginated] in
    [fetchTransactions]: page after page until one is empty, at the batch size of
    the configuration as it stands. *)
Definition paged {A} (read : recon_db -> Z -> recon_db * list A) : nat -> recon_db -> Z -> recon_db * option (list A) :=
  fix paged fuel db offset :=
    match fuel with
    | O => (db, None)
    | S fuel =>
        match read db offset with
        | (db, []) => (db, Some [])
        | (db, page) => let '(db, rest) := paged fuel db (offset + Z.of_nat (length page)) in (db, app page <$> rest)
        end
    end.
Definition getExternalTransactionsPaginated (uploadID : string) (db : recon_db) (offset : Z) : recon_db * list Transaction :=
  let '(db, page) := GetExternalTransactionsPaginated db uploadID (cf_BatchSize cfg) offset in (db, ToInternalTransaction <$> page).
Definition getInternalTransactionsPaginated (db : recon_db) (offset : Z) : recon_db * list Transaction :=
  GetTransactionsPaginated numeric_float ledger db (cf_BatchSize cfg) offset.
Definition fetch_all (fuel : nat) (db : recon_db) (strategy uploadID : string) : recon_db * option (list Transaction) :=
  if String.eqb strategy "many_to_one" then paged getInternalTransactionsPaginated fuel db 0
  else paged (getExternalTransactionsPaginated uploadID) fuel db 0.

(** [processReconciliation]. *)
Inductive processReconciliation (db : recon_db) (rec : Reconciliation) (strategy groupCriteria : string) (ruleIDs : list string)
    : recon_db -> result unit -> Prop :=
| PR_missing e : UpdateReconciliationStatus now db (rec_id rec) StatusInProgress 0 0 = Err e ->
    processReconciliation db rec strategy groupCriteria ruleIDs db (Err (wrap "failed to update reconciliation status: " e))
| PR_rules db1 e : UpdateReconciliationStatus now db (rec_id rec) StatusInProgress 0 0 = Ok db1 -> getMatchingRules db1 ruleIDs = Err e ->
    processReconciliation db rec strategy groupCriteria ruleIDs db1 (Err (wrap "failed to get matching rules: " e))
| PR_failed db1 rules fuel db2 txns p :
    UpdateReconciliationStatus now db (rec_id rec) StatusInProgress 0 0 = Ok db1 -> getMatchingRules db1 ruleIDs = Ok rules ->
    fetch_all fuel db1 strategy (rc_UploadID rec) = (db2, Some txns) ->
    rtc (processor_step rec (createReconciler db2 strategy (rc_UploadID rec) groupCriteria rules))
      (createTransactionProcessor rec db2 txns) p ->
    done_jobs p -> job_errors p <> [] ->
    processReconciliation db rec strategy groupCriteria ruleIDs (tp_db p) (Err (wrap "failed to process transactions: " (combined_error (job_errors p))))
| PR_finished db1 rules fuel db2 txns p :
    UpdateReconciliationStatus now db (rec_id rec) StatusInProgress 0 0 = Ok db1 -> getMatchingRules db1 ruleIDs = Ok rules ->
    fetch_all fuel db1 strategy (rc_UploadID rec) = (db2, Some txns) ->
    rtc (processor_step rec (createReconciler db2 strategy (rc_UploadID rec) groupCriteria rules))
      (createTransactionProcessor rec db2 txns) p ->
    done_jobs p -> job_errors p = [] ->
    let r := UpdateReconciliationStatus now (tp_db p) (rec_id rec) StatusCompleted (tp_matches p) (tp_unmatched p) in
    processReconciliation db rec strategy groupCriteria ruleIDs
      (match r with Ok db3 => db3 | Err _ => tp_db p end) (match r with Ok _ => Ok tt | Err e => Err e end).

(** The goroutine of [StartReconciliation] and [StartInstantReconciliation]. *)
Definition run_reconciliation (db : recon_db) (rec : Reconciliation) (strategy groupCriteria : string) (ruleIDs : list string)
    (db' : recon_db) : Prop :=
  exists db1 r, processReconciliation db rec strategy groupCriteria ruleIDs db1 r /\
    db' = match r with
          | Ok _ => db1
          | Err _ => match UpdateReconciliationStatus now db1 (rec_id rec) StatusFailed 0 0 with Ok db2 => db2 | Err _ => db1 end
          end.
End Reconciler.
