(* ===== verification/ReconcilerFacts.v ===== *)
(** * Reconciliation: what a run reports

    Every row a run leaves in the tables is an answer of its reconciler, the
    counts that close it are those of the rows, and a run ends completed or
    failed; one-to-one answers; the rules in the store; concrete runs that go
    wrong. *)
From stdpp Require Import base option list strings gmap sorting relations.
From Stdlib Require Import ZArith Lia SpecFloat.
From S2P Require Import Prelude GoFloat Model GoTime Policy PolicyStore Store Lifecycle Engine Inflight Filter Reconcile Grouping Reconciler.
Close Scope Q_scope.
Open Scope Z_scope.

(** ** Recording *)

Section Recording.
Variable numeric_12_2 : float64 -> option float64.

(** A match as the table keeps it. *)
Definition kept (id : string) (m : Match) : Match :=
  {| m with mt_ReconciliationID := id; mt_Amount := default (mt_Amount m) (numeric_12_2 (mt_Amount m)) |}.

Lemma RecordMatches_ok db id ms db' : RecordMatches numeric_12_2 db id ms = Ok db' ->
  db' = {| db with rd_matches := rd_matches db ++ (kept id <$> ms) |}.
Proof.
  unfold RecordMatches. revert db. induction ms as [|m ms IH]; intros db H.
  { apply Ok_inj in H as <-. rewrite app_nil_r. by destruct db. }
  cbn in H. apply res_bind_Ok in H as (db1 & H1 & H). apply IH in H as ->. unfold recordMatchInTransaction, insert_match in H1. cbn in H1.
  destruct (numeric_12_2 (mt_Amount m)) as [a|] eqn:E; [|done]. apply Ok_inj in H1 as <-. cbn. unfold kept at 2. rewrite E. cbn.
  by rewrite <- app_assoc.
Qed.

Variable rec : Reconciliation.
Variable interval : Config.
Variable reconciler : list Transaction -> list Match * list string -> Prop.
Let id := rec_id rec.
Let dry := rc_IsDryRun rec.

(** What a job has put into the tables so far. *)
Definition recorded_matches (j : job) : list Match :=
  if rc_IsDryRun rec then [] else match j_pc j with J_unmatched _ | J_progress | J_done (Ok _) => (j_out j).1 | _ => [] end.
Definition recorded_unmatched (j : job) : list string :=
  if rc_IsDryRun rec then [] else match j_pc j with J_progress | J_done (Ok _) => (j_out j).2 | _ => [] end.
Definition job_ok (j : job) : Prop :=
  match j_pc j with
  | J_reconcile => j_out j = ([], [])
  | J_matches ms us => rc_IsDryRun rec = false /\ j_out j = (ms, us)
  | J_unmatched us => rc_IsDryRun rec = false /\ (j_out j).2 = us
  | _ => True
  end /\ (j_pc j <> J_reconcile -> reconciler [j_txn j] (j_out j)).

Definition count {A} (f : job -> list A) (l : list job) : Z := Z.of_nat (length (l ≫= f)).

Record run_inv (db : recon_db) (txns : list Transaction) (p : processor) : Prop := {
  ri_txns : j_txn <$> tp_jobs p = txns;
  ri_jobs : Forall job_ok (tp_jobs p);
  ri_matches : tp_matches p = count (fun j => (j_out j).1) (tp_jobs p);
  ri_unmatched : tp_unmatched p = count (fun j => (j_out j).2) (tp_jobs p);
  ri_match_rows : rd_matches (tp_db p) ≡ₚ rd_matches db ++ (kept id <$> (tp_jobs p ≫= recorded_matches));
  ri_unmatched_rows : rd_unmatched (tp_db p) ≡ₚ rd_unmatched db ++ ((fun x => (x, id)) <$> (tp_jobs p ≫= recorded_unmatched));
  ri_rest : rd_reconciliations (tp_db p) = rd_reconciliations db }.

Lemma bind_job {B} (f : job -> list B) l1 j l2 : (l1 ++ j :: l2) ≫= f ≡ₚ f j ++ ((l1 ++ l2) ≫= f).
Proof. rewrite !bind_app, bind_cons. solve_Permutation. Qed.
Lemma count_job {B} (f : job -> list B) l1 j l2 : count f (l1 ++ j :: l2) = Z.of_nat (length (f j)) + count f (l1 ++ l2).
Proof. unfold count. rewrite bind_job, length_app. lia. Qed.

(** A step of one job, on the tables and on the job. *)
Record job_moves (p : processor) (j : job) (p' : processor) (j' : job) : Prop := {
  jm_txn : j_txn j' = j_txn j;
  jm_ok : job_ok j';
  jm_matches : tp_matches p' = tp_matches p + Z.of_nat (length (j_out j').1) - Z.of_nat (length (j_out j).1);
  jm_unmatched : tp_unmatched p' = tp_unmatched p + Z.of_nat (length (j_out j').2) - Z.of_nat (length (j_out j).2);
  jm_match_rows : exists ms, recorded_matches j' = recorded_matches j ++ ms /\ rd_matches (tp_db p') = rd_matches (tp_db p) ++ (kept id <$> ms);
  jm_unmatched_rows : exists us, recorded_unmatched j' = recorded_unmatched j ++ us /\
    rd_unmatched (tp_db p') = rd_unmatched (tp_db p) ++ ((fun x => (x, id)) <$> us);
  jm_rest : rd_reconciliations (tp_db p') = rd_reconciliations (tp_db p);
  jm_jobs : tp_jobs p' = tp_jobs p }.

Lemma job_step_moves p j p' j' : job_ok j -> job_step numeric_12_2 interval rec reconciler p j p' j' -> job_moves p j p' j'.
Proof.
  intros [Hpc Hrec] H. destruct H as [p j out E Ho|p j ms us E|p j us E|p j E progress]; unfold with_pc; rewrite E in Hpc.
  - split; cbn; rewrite ?Hpc; cbn; try done; try lia.
    + unfold job_ok. cbn. destruct (rc_IsDryRun rec) eqn:Ed; cbn; [done|]. split; [split; [done|by destruct out]|done].
    + exists []. unfold recorded_matches. rewrite E. cbn. destruct (rc_IsDryRun rec); cbn; by rewrite ?app_nil_r.
    + exists []. unfold recorded_unmatched. rewrite E. cbn. destruct (rc_IsDryRun rec); cbn; by rewrite ?app_nil_r.
  - destruct Hpc as [Hd Hout]. destruct (RecordMatches numeric_12_2 (tp_db p) (rec_id rec) ms) as [db|e] eqn:Er.
    + apply RecordMatches_ok in Er as ->. split; cbn; try done; try lia.
      * split; [cbn; by rewrite Hout|]. intros _. apply Hrec. by rewrite E.
      * exists ms. unfold recorded_matches. cbn. by rewrite E, Hd, Hout.
      * exists []. unfold recorded_unmatched. cbn. rewrite E, Hd. by rewrite !app_nil_r.
    + split; cbn; try done; try lia.
      * split; [done|]. intros _. apply Hrec. by rewrite E.
      * exists []. unfold recorded_matches. cbn. rewrite E, Hd. by rewrite !app_nil_r.
      * exists []. unfold recorded_unmatched. cbn. rewrite E, Hd. by rewrite !app_nil_r.
  - destruct Hpc as [Hd Hout]. split; cbn; try done; try lia.
    + split; [done|]. intros _. apply Hrec. by rewrite E.
    + exists []. unfold recorded_matches. cbn. rewrite E, Hd. by rewrite !app_nil_r.
    + exists us. unfold recorded_unmatched. cbn. by rewrite E, Hd, Hout.
  - split; cbn; try done; try lia.
    + split; [done|]. intros _. apply Hrec. by rewrite E.
    + exists []. unfold recorded_matches. cbn. rewrite E, !app_nil_r. split; [done|]. by destruct (Z.rem _ _ =? 0).
    + exists []. unfold recorded_unmatched. cbn. rewrite E, !app_nil_r. split; [done|]. by destruct (Z.rem _ _ =? 0).
    + by destruct (Z.rem _ _ =? 0).
Qed.

Lemma run_inv_step db txns p p' : run_inv db txns p -> processor_step numeric_12_2 interval rec reconciler p p' -> run_inv db txns p'.
Proof.
  intros [It Ij Im Iu Imr Iur Ir] H. destruct H as [p l1 j l2 p' j' Ej Hs]. rewrite Ej in *.
  apply Forall_app in Ij as [F1 F2]. apply Forall_cons in F2 as [Hj F2].
  destruct (job_step_moves p j p' j' Hj Hs) as [Mt Mo Mm Mu (ms & E1 & E2) (us & E3 & E4) Mr _].
  split; cbn [tp_db tp_matches tp_unmatched tp_progress tp_jobs].
  - rewrite <- It, !fmap_app. cbn. by rewrite Mt.
  - apply Forall_app. split; [done|]. by apply Forall_cons.
  - rewrite count_job in Im |- *. lia.
  - rewrite count_job in Iu |- *. lia.
  - rewrite bind_job, fmap_app in Imr |- *. rewrite E1, E2, Imr, ?bind_app, !fmap_app. solve_Permutation.
  - rewrite bind_job, fmap_app in Iur |- *. rewrite E3, E4, Iur, ?bind_app, !fmap_app. solve_Permutation.
  - congruence.
Qed.

Lemma run_inv_reachable db txns p :
  rtc (processor_step numeric_12_2 interval rec reconciler) (createTransactionProcessor rec db txns) p -> run_inv db txns p.
Proof.
  intros H. assert (run_inv db txns (createTransactionProcessor rec db txns)) as H0.
  { assert (forall B (f : job -> list B), (forall t, f {| j_txn := t; j_pc := J_reconcile; j_out := ([], []) |} = []) ->
      (tp_jobs (createTransactionProcessor rec db txns) ≫= f) = []) as Hnil.
    { clear H. intros B f Hf. cbn. induction txns as [|t l IH]; [done|]. cbn. rewrite Hf. exact IH. }
    split; cbn -[mbind]; try done.
    - rewrite <- list_fmap_compose. apply list_fmap_id.
    - apply Forall_fmap, Forall_true. intros t. by split.
    - unfold count. by rewrite Hnil.
    - unfold count. by rewrite Hnil.
    - rewrite Hnil; [by rewrite app_nil_r|]. intros t. unfold recorded_matches. by destruct (rc_IsDryRun rec).
    - rewrite Hnil; [by rewrite app_nil_r|]. intros t. unfold recorded_unmatched. by destruct (rc_IsDryRun rec). }
  remember (createTransactionProcessor rec db txns) as p0. clear Heqp0. induction H as [|a b c Hs _ IH]; [done|]. apply IH. by eapply run_inv_step.
Qed.
End Recording.

(** ** Status and fetching *)

Lemma set_status_twice now id s1 m1 u1 s2 m2 u2 r :
  set_status now id s2 m2 u2 (set_status now id s1 m1 u1 r) = set_status now id s2 m2 u2 r.
Proof.
  unfold set_status at 2. destruct (String.eqb (rc_ReconciliationID r) id) eqn:E; [|done]. unfold set_status. cbn. by rewrite E.
Qed.
Definition has_row (db : recon_db) (id : string) : bool :=
  existsb (fun r => String.eqb (rc_ReconciliationID r) id) (rd_reconciliations db).
Lemma has_row_set id now s m u l :
  existsb (fun r => String.eqb (rc_ReconciliationID r) id) (set_status now id s m u <$> l) =
  existsb (fun r => String.eqb (rc_ReconciliationID r) id) l.
Proof.
  induction l as [|r l IH]; [done|]. cbn. rewrite IH. f_equal. unfold set_status.
  by destruct (String.eqb (rc_ReconciliationID r) id) eqn:E; cbn; rewrite E.
Qed.
Lemma status_updated now db id s m u : has_row db id = true ->
  UpdateReconciliationStatus now db id s m u =
  Ok {| db with rd_reconciliations := set_status now id s m u <$> rd_reconciliations db |}.
Proof. unfold UpdateReconciliationStatus, has_row. by intros ->. Qed.

(** Fetching touches the caches only. *)
Definition same_tables (db db' : recon_db) : Prop :=
  rd_reconciliations db' = rd_reconciliations db /\ rd_matches db' = rd_matches db /\ rd_unmatched db' = rd_unmatched db.

Lemma paged_tables {A} (read : recon_db -> Z -> recon_db * list A) fuel db offset :
  (forall db o, same_tables db (fst (read db o))) -> same_tables db (fst (paged read fuel db offset)).
Proof.
  intros Hr. revert db offset. induction fuel as [|fuel IH]; intros db offset; [done|]. cbn. specialize (Hr db offset).
  destruct (read db offset) as [db1 [|x page]]; [done|]. specialize (IH db1 (offset + Z.of_nat (length (x :: page)))).
  cbn in Hr. destruct (paged read fuel db1 _) as [db2 rest]. cbn in *. unfold same_tables in *. naive_solver congruence.
Qed.

Lemma fetch_all_tables numeric_float cfg ledger fuel db strategy uploadID :
  same_tables db (fst (fetch_all numeric_float cfg ledger fuel db strategy uploadID)).
Proof.
  unfold fetch_all. destruct (String.eqb strategy "many_to_one"); apply paged_tables; intros db' o.
  - unfold getInternalTransactionsPaginated, GetTransactionsPaginated. cbv zeta. repeat case_match; try done; cbn; by case_match.
  - unfold getExternalTransactionsPaginated, GetExternalTransactionsPaginated. cbv zeta. repeat case_match; simplify_eq; try done; cbn; by case_match.
Qed.

Section Runs.
Variable DistanceForStrings : string -> string -> Z.
Variable int_overflow : float64 -> Z.
Variables (numeric_float : string -> float64) (numeric_le : string -> string -> bool).
Variable numeric_12_2 : float64 -> option float64.
Variables (numeric_text : float64 -> string) (timestamp_text : Z -> string).
Variable cfg : Config.
Variable now : Z.
Variable ledger : ledger_db.
Notation answers db strategy uploadID groupCriteria rules :=
  (createReconciler DistanceForStrings int_overflow numeric_float numeric_le numeric_text timestamp_text cfg ledger db strategy uploadID groupCriteria rules).

(** The jobs of a run that ended without an error, in the order of the
    transactions, with all they had to record. *)
Lemma finished_jobs rec reconciler db txns p : run_inv numeric_12_2 rec reconciler db txns p -> done_jobs p -> job_errors p = [] ->
  exists outs, Forall2 (fun t out => reconciler [t] out) txns outs /\
    tp_matches p = Z.of_nat (length (outs ≫= fst)) /\ tp_unmatched p = Z.of_nat (length (outs ≫= snd)) /\
    rd_matches (tp_db p) ≡ₚ rd_matches db ++ (if rc_IsDryRun rec then [] else kept numeric_12_2 (rec_id rec) <$> (outs ≫= fst)) /\
    rd_unmatched (tp_db p) ≡ₚ rd_unmatched db ++ (if rc_IsDryRun rec then [] else (fun x => (x, rec_id rec)) <$> (outs ≫= snd)).
Proof.
  intros [It Ij Im Iu Imr Iur Ir] Hd He. exists (j_out <$> tp_jobs p).
  assert (Forall (fun j => j_pc j = J_done (Ok tt)) (tp_jobs p)) as Hok.
  { unfold done_jobs, job_errors in *. clear -Hd He. induction (tp_jobs p) as [|j l IH]; [done|]. apply Forall_cons in Hd as [[r Hr] Hd]. cbn in He.
    rewrite Hr in He. destruct r as [[]|e]; [|done]. apply Forall_cons. split; [done|]. by apply IH. }
  assert (forall B (f : job -> list B) (g : list Match * list string -> list B), (forall j, j_pc j = J_done (Ok tt) -> f j = g (j_out j)) ->
    (tp_jobs p ≫= f) = ((j_out <$> tp_jobs p) ≫= g)) as Hbind.
  { intros B f g Hf. clear -Hok Hf. induction Hok as [|j l Hj _ IH]; [done|]. cbn. by rewrite (Hf j Hj), IH. }
  split_and!.
  - rewrite <- It. clear -Ij Hok. induction Hok as [|j l Hj _ IH]; [done|]. apply Forall_cons in Ij as [[_ Hr] Ij]. cbn. constructor; [|by apply IH]. apply Hr. by rewrite Hj.
  - rewrite Im. unfold count. by rewrite (Hbind _ _ fst).
  - rewrite Iu. unfold count. by rewrite (Hbind _ _ snd).
  - rewrite Imr. destruct (rc_IsDryRun rec) eqn:Ed.
    + rewrite (Hbind _ _ (fun _ => [])) by (intros j _; unfold recorded_matches; by rewrite Ed). clear. by induction (tp_jobs p).
    + by rewrite (Hbind _ _ fst) by (intros j Hj; unfold recorded_matches; by rewrite Ed, Hj).
  - rewrite Iur. destruct (rc_IsDryRun rec) eqn:Ed.
    + rewrite (Hbind _ _ (fun _ => [])) by (intros j _; unfold recorded_unmatched; by rewrite Ed). clear. by induction (tp_jobs p).
    + by rewrite (Hbind _ _ snd) by (intros j Hj; unfold recorded_unmatched; by rewrite Ed, Hj).
Qed.


End Runs.

(** ** Fetching *)

Lemma itoa_inj a b : 0 <= a -> 0 <= b -> itoa a = itoa b -> a = b.
Proof.
  intros Ha Hb. unfold itoa. destruct (Z.ltb_spec a 0); [lia|]. destruct (Z.ltb_spec b 0); [lia|]. intros E.
  destruct (utoa_spec a Ha) as (_ & <- & _). destruct (utoa_spec b Hb) as (_ & <- & _). by rewrite E.
Qed.
Lemma page_key_inj n a b : 0 <= a -> 0 <= b -> page_key n a = page_key n b -> a = b.
Proof. unfold page_key. intros Ha Hb E. do 3 apply (inj (String.app _)) in E. by apply itoa_inj. Qed.

Section Fetching.
Variables (numeric_float : string -> float64) (cfg : Config) (ledger : ledger_db).

(** A page that is not cached: the rows at the offset, which are then cached. *)
Lemma cold_page db uploadID offset : 0 < cf_BatchSize cfg -> rd_pages db !! page_key (cf_BatchSize cfg) offset = None ->
  exists db', getExternalTransactionsPaginated cfg uploadID db offset =
    (db', ToInternalTransaction <$> take (Z.to_nat (cf_BatchSize cfg)) (drop (Z.to_nat offset) (external_rows db uploadID))) /\
    rd_external db' = rd_external db /\
    forall key, key <> page_key (cf_BatchSize cfg) offset -> rd_pages db' !! key = rd_pages db !! key.
Proof.
  intros Hb Hc. unfold getExternalTransactionsPaginated, GetExternalTransactionsPaginated. cbv zeta. rewrite Hc. cbn.
  eexists. split; [reflexivity|]. case_match; cbn; (split; [done|]); intros key Hk; [by rewrite lookup_insert_ne|done].
Qed.

Lemma paged_external fuel db uploadID offset : 0 < cf_BatchSize cfg -> 0 <= offset <= Z.of_nat (length (external_rows db uploadID)) ->
  (forall o, offset <= o -> rd_pages db !! page_key (cf_BatchSize cfg) o = None) ->
  (length (external_rows db uploadID) < fuel + Z.to_nat offset)%nat ->
  snd (paged (getExternalTransactionsPaginated cfg uploadID) fuel db offset) =
  Some (ToInternalTransaction <$> drop (Z.to_nat offset) (external_rows db uploadID)).
Proof.
  intros Hb. revert db offset. induction fuel as [|fuel IH]; intros db offset Ho Hcold Hf; [lia|].
  destruct (cold_page db uploadID offset Hb (Hcold offset ltac:(lia))) as (db' & E & Hext & Hkeys). cbn [paged]. rewrite E.
  set (page := take _ _). assert (external_rows db' uploadID = external_rows db uploadID) as Er by (unfold external_rows; by rewrite Hext).
  destruct (ToInternalTransaction <$> page) as [|x l] eqn:Ep.
  - apply fmap_nil_inv in Ep. cbn. f_equal. assert (drop (Z.to_nat offset) (external_rows db uploadID) = []) as ->; [|done].
    apply nil_length_inv. apply (f_equal length) in Ep. subst page. rewrite length_take in Ep. cbn in Ep. lia.
  - rewrite <- Ep, length_fmap. assert (length page = Nat.min (Z.to_nat (cf_BatchSize cfg)) (length (external_rows db uploadID) - Z.to_nat offset))%nat as Hlen
      by (subst page; by rewrite length_take, length_drop).
    assert (0 < length page)%nat as Hpos by (rewrite <- (length_fmap ToInternalTransaction), Ep; cbn; lia).
    specialize (IH db' (offset + Z.of_nat (length page))). rewrite Er in IH. destruct (paged _ fuel db' _) as [db2 rest]. cbn [snd] in *. rewrite IH; [|lia|..|lia].
    + cbn. f_equal. rewrite <- fmap_app. f_equal. subst page. rewrite Z2Nat.inj_add, Nat2Z.id, <- drop_drop by lia.
      rewrite length_take. destruct (Nat.le_ge_cases (Z.to_nat (cf_BatchSize cfg)) (length (drop (Z.to_nat offset) (external_rows db uploadID)))) as [Hle|Hge].
      * rewrite Nat.min_l by done. apply take_drop.
      * rewrite Nat.min_r, take_ge, drop_all by lia. by rewrite app_nil_r.
    + intros o Hoo. rewrite Hkeys; [apply Hcold; lia|]. intros Hk. apply page_key_inj in Hk; lia.
Qed.

(** Fetching an upload ends and misses nothing - when no page is cached.
    With a positive batch size and none of the pages in the cache, the loop ends
    within as many pages as there are transactions, and yields every transaction
    of the upload exactly once, the latest first. *)
Theorem cold_fetch_is_complete (db : recon_db) (uploadID : string) (fuel : nat) : 0 < cf_BatchSize cfg ->
  (forall o, 0 <= o -> rd_pages db !! page_key (cf_BatchSize cfg) o = None) -> (length (external_rows db uploadID) < fuel)%nat ->
  exists txns, snd (fetch_all numeric_float cfg ledger fuel db "one_to_one" uploadID) = Some txns /\
    txns ≡ₚ ToInternalTransaction <$> (snd <$> filter (fun r => r.1 = uploadID) (rd_external db)).
Proof.
  intros Hb Hcold Hf. eexists. split; [apply paged_external; [done|lia|exact Hcold|cbn; lia]|]. cbn. unfold external_rows.
  by rewrite merge_sort_Permutation.
Qed.
End Fetching.

(** The pages of [GetTransactionsByCriteria] that [findMatchingInternalTransaction]
    reads add up to its candidates. *)
Lemma pages_are_the_candidates numeric_float numeric_le db b batchSize fuel : 0 < batchSize -> (length (criteria_rows numeric_le db b) < fuel)%nat ->
  fetchTransactions fuel (GetTransactionsByCriteria numeric_float numeric_le db b) batchSize = Some (read_row numeric_float <$> criteria_rows numeric_le db b).
Proof.
  intros Hb Hf. unfold fetchTransactions, GetTransactionsByCriteria. set (rows := criteria_rows numeric_le db b) in *. clearbody rows.
  assert (forall offset, 0 <= offset <= Z.of_nat (length rows) -> (length rows < fuel + Z.to_nat offset)%nat ->
    fetch_pages fuel (fun o => read_row numeric_float <$> take (Z.to_nat batchSize) (drop (Z.to_nat o) rows)) offset
      = Some (read_row numeric_float <$> drop (Z.to_nat offset) rows)) as H; [|rewrite H; [done|lia|cbn; lia]].
  clear Hf. induction fuel as [|fuel IH]; intros offset Ho Hl; [lia|]. cbn [fetch_pages].
  destruct (read_row numeric_float <$> take _ _) as [|x l] eqn:E.
  - apply fmap_nil_inv, (f_equal length) in E. rewrite length_take, length_drop in E. cbn in E. rewrite drop_ge by lia. done.
  - rewrite <- E, length_fmap. assert (0 < length (take (Z.to_nat batchSize) (drop (Z.to_nat offset) rows)))%nat as Hpos
      by (rewrite <- (length_fmap (read_row numeric_float)), E; cbn; lia). rewrite length_take, length_drop in Hpos |- *.
    rewrite IH by lia. cbn. f_equal. rewrite <- fmap_app. f_equal. rewrite Z2Nat.inj_add, Nat2Z.id, <- drop_drop by lia.
    destruct (Nat.le_ge_cases (Z.to_nat batchSize) (length rows - Z.to_nat offset)).
    + rewrite Nat.min_l by lia. apply take_drop.
    + rewrite Nat.min_r, take_ge by (rewrite ?length_drop; lia). rewrite (drop_ge (drop _ _)) by (rewrite length_drop; lia). by rewrite app_nil_r.
Qed.

(** ** Rules in the store *)

Section Rules.
Variable GenerateUUIDWithSuffix : string -> nat -> string.

(** What the requests on rules may do. *)
Inductive rule_step : recon_db -> recon_db -> Prop :=
| R_create now db rule db' r : CreateMatchingRule GenerateUUIDWithSuffix now db rule = Ok (db', r) -> rule_step db db'
| R_update now db rule db' r : UpdateMatchingRule now db rule = Ok (db', r) -> rule_step db db'
| R_delete db id db' : DeleteMatchingRule db id = Ok db' -> rule_step db db'.

(** A criterion the matcher understands: known field and operator, and a drift
    in the range its field has. *)
Definition criterion_ok (c : MatchingCriteria) : Prop :=
  mc_Field c ∈ ["amount"; "date"; "description"; "reference"; "currency"]%string /\
  mc_Operator c ∈ ["equals"; "greater_than"; "less_than"; "contains"]%string /\
  is_finite (mc_AllowableDrift c) = true /\
  (mc_Operator c = "equals"%string -> mc_Field c = "amount"%string ->
     flt (mc_AllowableDrift c) fzero = false /\ flt (f_of_Z 1) (mc_AllowableDrift c) = false) /\
  (mc_Operator c = "equals"%string -> mc_Field c = "date"%string -> flt (mc_AllowableDrift c) fzero = false).
Definition rule_ok (r : MatchingRule) : Prop :=
  mr_Name r <> ""%string /\ (String.length (mr_Name r) <= 255)%nat /\ mr_Criteria r <> [] /\ Forall criterion_ok (mr_Criteria r).

Lemma contains_elem l x : contains l x = true -> x ∈ l.
Proof. unfold contains. intros (y & Hy & ->%String.eqb_eq)%existsb_exists. by apply list_elem_of_In. Qed.

Lemma validateCriteria_ok c : validateCriteria c = Ok tt -> is_finite (mc_AllowableDrift c) = true -> criterion_ok c.
Proof.
  unfold validateCriteria. intros H Hfin. destruct (_ || _)%bool; [done|]. apply res_bind_Ok in H as ([] & H1 & H). apply res_bind_Ok in H as ([] & H2 & H).
  unfold validateOperator, validateField, guard_err in H1, H2. destruct (contains _ (mc_Operator c)) eqn:E1; [|done]. destruct (contains _ (mc_Field c)) eqn:E2; [|done].
  split_and!; [by apply contains_elem|by apply contains_elem|done| |]; intros Eo Ef; unfold validateDrift in H; rewrite Eo, Ef in H; cbn [String.eqb Ascii.eqb Bool.eqb] in H; unfold guard_err in H.
  - by destruct (flt (mc_AllowableDrift c) fzero), (flt (f_of_Z 1) (mc_AllowableDrift c)).
  - by destruct (flt (mc_AllowableDrift c) fzero).
Qed.

Lemma validateRule_ok r : validateRule r = Ok tt -> marshals r = true -> too_long 255 (mr_Name r) = false -> rule_ok r.
Proof.
  unfold validateRule. intros H Hm Hl. apply res_bind_Ok in H as ([] & Hb & H). unfold validateRuleBasics in Hb. unfold too_long in Hl.
  destruct (String.eqb (mr_Name r) "") eqn:E1; [done|]. destruct (length (mr_Criteria r) =? 0)%nat eqn:E2; [done|]. zbool.
  split_and!; [done|by apply Nat.ltb_ge|by intros Ec; rewrite Ec in E2|].
  unfold marshals in Hm. clear -H Hm. induction (mr_Criteria r) as [|c l IH]; [done|]. cbn in H, Hm. apply res_bind_Ok in H as ([] & Hc & H). zbool.
  apply Forall_cons. split; [by apply validateCriteria_ok|by apply IH].
Qed.

End Rules.

(** ** Concrete runs *)

Module ReconcilerWitness.
Definition no_distance (a b : string) : Z := 100.
Definition overflow (f : float64) : Z := - 2 ^ 63.
Definition two_digits (f : float64) : option float64 := if flt f (f_of_Z 10000000000) then Some f else None.
(** The texts of whole amounts. *)
Definition whole (s : string) : float64 := f_of_Z (digits_val s).
Definition whole_le (a b : string) : bool := digits_val a <=? digits_val b.
Definition as_text (f : float64) : string := FormatFloat f.
Definition when (t : Z) : string := itoa t.
Definition gen (suffix : string) (n : nat) : string := suffix +:+ "_" +:+ itoa (Z.of_nat n).
Definition cfg : Config := {| cf_MaxWorkers := 2; cf_BatchSize := 10; cf_ProgressInterval := 1 |}.

Definition criterion (field operator : string) (drift : float64) : MatchingCriteria :=
  {| mc_Field := field; mc_Operator := operator; mc_Value := ""; mc_Pattern := ""; mc_AllowableDrift := drift |}.
Definition rule (id : string) (cs : list MatchingCriteria) : MatchingRule := {|
  mr_RuleID := id; mr_CreatedAt := 1; mr_UpdatedAt := 1; mr_Name := "a rule"; mr_Description := ""; mr_Criteria := cs |}.
Definition tenth : float64 := S754_finite false 7205759403792794 (-56).
Definition by_amount : MatchingRule := rule "rule_0" [criterion "amount" "equals" tenth].

Definition external (id : string) (amount : Z) : ExternalTransaction := {|
  et_ID := id; et_Amount := f_of_Z amount; et_Reference := "r"; et_Currency := "USD"; et_Description := "d"; et_Date := 5; et_Source := "bank" |}.
Definition empty_db : recon_db := {|
  rd_reconciliations := []; rd_matches := []; rd_unmatched := []; rd_external := []; rd_progress := ∅; rd_rules := [by_amount];
  rd_pages := ∅; rd_txn_pages := ∅; rd_groups := ∅; rd_ids := 1 |}.
Definition uploads : recon_db := {| empty_db with rd_external := [("A", external "a1" 100); ("A", external "a2" 100); ("B", external "b1" 7)]%string |}.

Definition row (id amount : string) : txn_row := {|
  x_id := id; x_parent := ""; x_source := "s"; x_reference := id; x_amount := amount; x_precise := 0; x_precision := f_of_Z 1; x_currency := "USD";
  x_destination := "d"; x_description := "d"; x_status := "APPLIED"; x_created_at := 5; x_meta := None; x_scheduled_for := 0; x_hash := "";
  x_effective_date := None; x_rate := fzero; x_overdraft_limit := fzero; x_queue_action := ""; x_controls := execution_controls zero_transaction |}.
Definition journal (rows : list txn_row) : ledger_db := {|
  ld_txns := rows; ld_claims := ∅; ld_balances := ∅; ld_outbox := []; ld_policy := LifecycleWitness.no_policies; ld_mappings := []; ld_identities := ∅; ld_ids := 0 |}.

(** A run of upload A against one ledger transaction of 100, up to a tenth: each
    of the two transactions of the upload is matched with it. *)
Definition ledger : ledger_db := journal [row "t1" "100"].
Definition begun : recon_db * Reconciliation := StartReconciliation gen 9 uploads "A" false.
Definition run (db' : recon_db) : Prop :=
  run_reconciliation no_distance overflow whole whole_le two_digits as_text when cfg 9 ledger begun.1 begun.2 "one_to_one" "" ["rule_0"%string] db'.

Definition report (db : recon_db) : list (string * Z * Z) :=
  (fun r => (rc_Status r, rc_MatchedTransactions r, rc_UnmatchedTransactions r)) <$> rd_reconciliations db.

(** The processor of the run, its two jobs done one after the other. *)
Definition after (db : recon_db) : recon_db * option (list Transaction) := fetch_all whole cfg ledger 5 db "one_to_one" "A".
Definition answer (t : Transaction) : list Match * list string :=
  findMatchingInternalTransaction no_distance overflow t [by_amount] (candidates overflow whole whole_le ledger t [by_amount]).
Definition do_job (p : processor) (i : nat) : processor :=
  match tp_jobs p !! i with
  | Some j =>
      let out := answer (j_txn j) in
      let db := match RecordMatches two_digits (tp_db p) (rec_id begun.2) out.1 with Ok db => db | Err _ => tp_db p end in
      let db := RecordUnmatched db (rec_id begun.2) out.2 in
      let progress := {| rp_LastProcessedExternalTxnID := t_TransactionID (j_txn j); rp_ProcessedCount := rp_ProcessedCount (tp_progress p) + 1 |} in
      {| tp_db := SaveReconciliationProgress db (rec_id begun.2) progress; tp_matches := tp_matches p + Z.of_nat (length out.1);
         tp_unmatched := tp_unmatched p + Z.of_nat (length out.2); tp_progress := progress;
         tp_jobs := take i (tp_jobs p) ++ {| j_txn := j_txn j; j_pc := J_done (Ok tt); j_out := out |} :: drop (S i) (tp_jobs p) |}
  | None => p
  end.

Lemma do_job_run reconciler p i j :
  tp_jobs p !! i = Some j -> j_pc j = J_reconcile -> reconciler [j_txn j] (answer (j_txn j)) ->
  is_ok (RecordMatches two_digits (tp_db p) (rec_id begun.2) (answer (j_txn j)).1) = true ->
  rtc (processor_step two_digits cfg begun.2 reconciler) p (do_job p i).
Proof.
  intros Hj Hpc Hr Hok. unfold do_job. rewrite Hj. destruct (RecordMatches _ _ _ _) as [db|] eqn:Er; [|done]. destruct j as [t pc out0]. cbn in *. subst pc.
  pose proof (take_drop_middle _ _ _ Hj) as Ej.
  eapply rtc_l; [eapply P_job; [symmetry; exact Ej|by eapply (Job_reconcile _ _ _ _ _ _ (answer t))]|].
  eapply rtc_l; [eapply P_job; [reflexivity|by eapply (Job_matches _ _ _ _ _ _ (answer t).1 (answer t).2)]|]. cbn. rewrite Er.
  eapply rtc_l; [eapply P_job; [reflexivity|by eapply (Job_unmatched _ _ _ _ _ _ (answer t).2)]|].
  eapply rtc_l; [eapply P_job; [reflexivity|by eapply Job_progress]|]. cbn. rewrite Z.rem_1_r. cbn. apply rtc_refl.
Qed.

Definition in_progress : recon_db :=
  match UpdateReconciliationStatus 9 begun.1 (rec_id begun.2) StatusInProgress 0 0 with Ok db => db | Err _ => begun.1 end.
Definition txns : list Transaction := default [] (after in_progress).2.
Definition start : processor := createTransactionProcessor begun.2 (after in_progress).1 txns.
Definition finish : processor := do_job (do_job start 0) 1.
Definition closed : recon_db :=
  match UpdateReconciliationStatus 9 (tp_db finish) (rec_id begun.2) StatusCompleted (tp_matches finish) (tp_unmatched finish) with
  | Ok db => db | Err _ => tp_db finish end.

Lemma answers_alone t : createReconciler no_distance overflow whole whole_le as_text when cfg ledger (after in_progress).1 "one_to_one" "A" "" [by_amount] [t] (answer t).
Proof.
  unfold createReconciler. cbn -[answer]. exists [answer t]. cbn -[answer]. rewrite !app_nil_r. split; [|done].
  constructor; [|constructor]. by exists (candidates overflow whole whole_le ledger t [by_amount]).
Qed.

Lemma the_run : run closed.
Proof.
  exists closed, (Ok tt). split; [|done].
  assert (processReconciliation no_distance overflow whole whole_le two_digits as_text when cfg 9 ledger begun.1 begun.2 "one_to_one" "" ["rule_0"%string]
    (match UpdateReconciliationStatus 9 (tp_db finish) (rec_id begun.2) StatusCompleted (tp_matches finish) (tp_unmatched finish) with
     | Ok db => db | Err _ => tp_db finish end)
    (match UpdateReconciliationStatus 9 (tp_db finish) (rec_id begun.2) StatusCompleted (tp_matches finish) (tp_unmatched finish) with
     | Ok _ => Ok tt | Err e => Err e end)) as H.
  { eapply (PR_finished _ _ _ _ _ _ _ _ _ _ _ _ _ _ _ in_progress [by_amount] 5 (after in_progress).1 txns finish); [by vm_compute..| | |by vm_compute].
    - etrans; [eapply (do_job_run _ start 0); [by vm_compute|by vm_compute|apply answers_alone|by vm_compute]|].
      eapply do_job_run; [by vm_compute|by vm_compute|apply answers_alone|by vm_compute].
    - unfold done_jobs. assert (forall l, (j_pc <$> l) = [J_done (Ok tt); J_done (Ok tt)] -> Forall (fun j => exists r, j_pc j = J_done r) l) as Hl;
        [|apply Hl; by vm_compute]. intros l Hl. apply (Forall_fmap j_pc (fun pc => exists r, pc = J_done r)). rewrite Hl. repeat constructor; by eexists. }
  by replace (Ok tt) with (match UpdateReconciliationStatus 9 (tp_db finish) (rec_id begun.2) StatusCompleted (tp_matches finish) (tp_unmatched finish) with
     | Ok _ => Ok tt | Err e => Err e end) by (by vm_compute).
Qed.



Lemma cold_fetch_is_complete_witness :
  exists l, snd (fetch_all whole cfg ledger 5 uploads "one_to_one" "A") = Some l /\
    l ≡ₚ [ToInternalTransaction (external "a1" 100); ToInternalTransaction (external "a2" 100)].
Proof.
  apply (cold_fetch_is_complete whole cfg ledger uploads "A" 5); [done|done|]. apply Nat.ltb_lt. by vm_compute.
Defined.


Definition page_of (db : recon_db) (uploadID : string) : recon_db * list Transaction := getExternalTransactionsPaginated cfg uploadID db 0.
Definition near : ledger_db := journal [row "t1" "111"].
Definition one_hundred : Transaction := ToInternalTransaction (external "a1" 100).

End ReconcilerWitness.

(** ** Uploads *)

(** The count of an upload of JSON is the number of rows it stored, also when it
    stops at an error. *)
Lemma ProcessJSON_count numeric_12_2 uploadID source elements total db :
  let '(db', total', _) := ProcessJSON numeric_12_2 uploadID source elements total db in
  Z.of_nat (length (rd_external db')) - Z.of_nat (length (rd_external db)) = total' - total.
Proof.
  revert total db. induction elements as [|[txn|e] rest IH]; intros total db; cbn -[RecordExternalTransaction]; [lia| |lia].
  destruct (RecordExternalTransaction _ _ _ _) as [db1|e] eqn:E; [|lia]. specialize (IH (total + 1) db1).
  destruct (ProcessJSON _ _ _ rest _ db1) as [[db' total'] r]. unfold RecordExternalTransaction in E. cbv zeta in E. res_inv E. cbn in IH. rewrite length_app in IH. cbn in IH. lia.
Qed.
