(* ===== verification/Outbox.v ===== *)
(** * The lineage worker

    The outbox of [database/lineage.go] and its worker
    [internal/core/lineage_worker.go].  The work on an entry changes the ledger
    only by steps of a run, and leaves the entries of the outbox alone; the
    worker then marks the entry.  So every entry ends completed or failed,
    after as many rounds as it has attempts. *)
From stdpp Require Import base option list strings gmap sorting.
From Stdlib Require Import ZArith Lia.
From S2P Require Import Prelude GoFloat Model Sha256 Decimal DecimalInstance Amount Balance Distribution Policy PolicyStore Store Lifecycle Engine Inflight Queue Lineage Effect Journal Refine FrontDoor.
Close Scope Q_scope.
Open Scope Z_scope.

Section Outbox.
Context {Dops : DecimalOps} {Dlaws : DecimalLaws}.
Variable gen : string -> nat -> string.
Variable numeric_float : string -> float64.
Variable pre_hooks : Transaction -> result unit.
Variable acquire : list string -> result unit.
Variable EnableQueuedChecks : bool.
Variable GetTransactionFromQueue : string -> result (option Transaction).
Variable enqueue : Transaction -> result unit.

#[local] Notation wp := (wp gen).
#[local] Notation safe m := (forall trace, wp m any trace).

(** ** The work on an entry *)

Section Work.
Variable now : Z.
Variable queue : Transaction -> M Transaction.
Hypothesis queue_safe : forall t, submitted t -> safe (queue t).

Lemma submitted_shadow t source destination amount currency reference description md overdraft :
  submitted (shadow_txn t source destination amount currency reference description md overdraft).
Proof. split; [by left|done]. Qed.
#[local] Hint Resolve submitted_shadow queue_safe : front.

Lemma safe_indicated i c trace : wp (getOrCreateBalanceByIndicator gen EnableQueuedChecks now i c) any trace.
Proof. eapply safe_of, wp_getOrCreate. Qed.
#[local] Hint Resolve safe_indicated : front.

Lemma safe_lineage_balances a b c identity provider currency trace :
  wp (lineage_balances gen EnableQueuedChecks now a b c identity provider currency) any trace.
Proof. unfold lineage_balances. walk. Qed.
#[local] Hint Resolve safe_lineage_balances : front.

Lemma safe_upsert m trace : wp (upsert now m) any trace.
Proof.
  apply wp_outbox. unfold UpsertLineageMapping. intros db db' H. cbv zeta in H. destruct (_ && _); [|done].
  by apply Ok_inj in H as <-.
Qed.
#[local] Hint Resolve safe_upsert : front.

Lemma safe_metadata id md trace : wp (fun db => (UpdateTransactionMetadata id md db, Ok tt)) any trace.
Proof.
  apply wp_step. intros db past -> Hr. split; [|done]. right. split; [|done]. cbn. apply step_quiet. split.
  - exists (fun r => if String.eqb (x_id r) id || String.eqb (x_parent r) id
                     then Some (md ∪ default ∅ (x_meta r)) else x_meta r).
    cbn. apply list_fmap_ext. intros i r _. unfold with_meta. destruct (_ || _); [done|by destruct r].
  - intros i. cbn. destruct (ld_balances db !! i); by constructor.
Qed.
#[local] Hint Resolve safe_metadata : front.

Lemma safe_credit t dest provider trace : wp (processLineageCredit gen acquire EnableQueuedChecks now queue t dest provider) any trace.
Proof.
  unfold processLineageCredit, getOrCreateLineageBalances, acquireLineageLocks, queueShadowCreditTransaction.
  destruct (String.eqb _ _); [walk|]. apply safe_then; [intros; walk|]. intros sa tr.
  apply safe_then; [intros; walk|]. intros _ tr1. apply safe_then; [|intros; walk]. intros tr2. cbv zeta.
  apply safe_then; [|intros; walk]. intros. apply wp_with_context, queue_safe. split; [by left|done].
Qed.

Lemma safe_released t mappings trace : wp (released numeric_float t mappings) any trace.
Proof. revert trace. induction mappings as [|m l IH]; intros; cbn [released]; cbv zeta; walk. Qed.

Lemma safe_prepare mappings dest trace :
  wp (prepareDestinationLineageBalances gen EnableQueuedChecks now mappings dest) any trace.
Proof.
  revert trace. induction mappings as [|m l IH]; intros; cbn [prepareDestinationLineageBalances]; [walk|].
  unfold getOrCreateDestinationLineageBalances. walk.
Qed.
#[local] Hint Resolve safe_released safe_prepare : front.

Lemma safe_allocations t mappings source destination agg prepared allocs trace :
  wp (processAllocations now queue t mappings source destination agg prepared allocs) any trace.
Proof.
  revert trace. induction allocs as [|a l IH]; intros trace; cbn [processAllocations]; [walk|].
  apply safe_then; [intros tr|intros; apply IH].
  destruct (if al_Amount a =? 0 then None else _) as [m|]; [|walk]. apply safe_then; [intros; walk|]. intros [] tr1; [walk|].
  unfold queueReleaseTransaction, processDestinationLineage, queueReceiveTransaction. walk.
Qed.
#[local] Hint Resolve safe_allocations : front.

Lemma safe_debit t source destination trace :
  wp (processLineageDebit numeric_float gen acquire EnableQueuedChecks now queue t source destination) any trace.
Proof.
  unfold processLineageDebit, acquireLineageLocks, remainingDebitAmount, getSourceAggregateBalance.
  apply safe_then; [intros; walk|]. intros [|m0 l] tr; [walk|]. apply safe_then; [intros; walk|]. intros prepared tr1.
  cbv zeta. apply safe_then; [intros; walk|]. intros _ tr2. apply safe_then; [intros; walk|]. intros sources tr3.
  apply safe_then; [intros; walk|]. intros remaining tr4. destruct (remaining <=? 0); [walk|].
  apply safe_then; [intros; walk|]. intros agg tr5. apply safe_then; [intros; walk|]. intros _ tr6.
  unfold updateFundAllocationMetadata. destruct (buildFundAllocationList _ _); walk.
Qed.
#[local] Hint Resolve safe_credit safe_debit : front.

Lemma safe_shadows verb act parent trace : (forall s n, safe (act s n)) -> wp (process_shadows verb act parent) any trace.
Proof.
  intros Hact. unfold process_shadows. apply safe_then; [intros; walk|]. intros shadows tr.
  apply safe_then; [|intros [] tr1; walk]. generalize (@nil string) as failed.
  induction shadows as [|s rest IH]; intros failed tr1; cbn [run_shadows]; [walk|]. unfold run_shadow.
  apply safe_then; [intros tr2|intros ? ?; apply IH]. apply safe_then; [intros tr3; apply safe_try, Hact|intros ? ?; walk].
Qed.

Lemma safe_entry entry trace :
  wp (ProcessLineageFromOutbox numeric_float gen pre_hooks acquire EnableQueuedChecks now GetTransactionFromQueue
        enqueue queue entry) any trace.
Proof.
  unfold ProcessLineageFromOutbox. cbv zeta. destruct (String.eqb _ _).
  { destruct (lo_Payload entry); [walk|]. destruct (String.eqb _ _); [walk|]. apply wp_with_context, safe_shadows.
    intros. apply wp_commit. }
  destruct (String.eqb _ _).
  { destruct (lo_Payload entry); [walk|]. destruct (String.eqb _ _); [walk|]. apply wp_with_context, safe_shadows.
    intros. apply wp_void. }
  apply safe_then; [intros; walk|]. intros t tr. apply safe_then; [intros; walk|]. intros source tr1.
  apply safe_then; [intros; walk|]. intros destination tr2. unfold processLineage, validateLineageProvider. walk.
Qed.
End Work.

(** ** Claims and marks *)

Lemma numbered_unique l i j e e' : numbered l -> l !! i = Some e -> l !! j = Some e' -> lo_ID e = lo_ID e' -> i = j.
Proof. intros Hn Hi Hj E. apply Hn in Hi, Hj. lia. Qed.

Lemma claim_first_spec now until l : forall n,
  let r := claim_first now until n l in
  length r.1 = length l /\ lo_ID <$> r.1 = lo_ID <$> l /\ (lo_ID <$> r.2) `sublist_of` (lo_ID <$> l) /\
  forall i e, l !! i = Some e -> NoDup (lo_ID <$> l) ->
    (r.1 !! i = Some (claim until e) /\ lo_ID e ∈ lo_ID <$> r.2 /\ claimable now e = true) \/
    (r.1 !! i = Some e /\ lo_ID e ∉ lo_ID <$> r.2 /\ (claimable now e = true -> (n <= i)%nat)).
Proof.
  induction l as [|e l IH]; intros n; [by split_and!; [..|intros ? ? ?]|].
  destruct n as [|n]; cbn [claim_first].
  { split_and!; [done|done|apply sublist_nil_l|]. intros i e' Hi _. right. split_and!; [done|apply not_elem_of_nil|lia]. }
  destruct (claimable now e) eqn:Ec; cbn [fst snd].
  - destruct (IH n) as (H1 & H2 & H3 & H4). split_and!; [cbn; by rewrite H1|cbn; by rewrite H2|cbn; by constructor|].
    intros [|i] e' Hi Hnd; cbn in Hi; inversion_clear Hnd as [|? ? Hx Hnd'].
    + injection Hi as <-. left. split_and!; [done|cbn; by left|done].
    + destruct (H4 i e' Hi Hnd') as [(G1 & G2 & G3)|(G1 & G2 & G3)]; [left|right]; cbn; split_and!; try done.
      * by right.
      * apply not_elem_of_cons. split; [|done]. intros E. apply Hx. rewrite <- E.
        apply (list_elem_of_fmap_2 lo_ID l). by eapply list_elem_of_lookup_2.
      * intros H. apply G3 in H. lia.
  - destruct (IH (S n)) as (H1 & H2 & H3 & H4). split_and!; [cbn; by rewrite H1|cbn; by rewrite H2|cbn; by constructor|].
    intros [|i] e' Hi Hnd; cbn in Hi; inversion_clear Hnd as [|? ? Hx Hnd'].
    + injection Hi as <-. right. split_and!; [done| |congruence]. intros Hin. apply Hx. by eapply elem_of_sublist.
    + destruct (H4 i e' Hi Hnd') as [(G1 & G2 & G3)|(G1 & G2 & G3)]; [left|right]; cbn; split_and!; try done.
      intros H. apply G3 in H. lia.
Qed.

Lemma numbered_NoDup l : numbered l -> NoDup (lo_ID <$> l).
Proof.
  intros Hn. apply NoDup_alt. intros i j x Hi Hj. rewrite list_lookup_fmap in Hi, Hj.
  destruct (l !! i) as [e|] eqn:E1; [|done]. destruct (l !! j) as [e'|] eqn:E2; [|done]. cbn in Hi, Hj.
  eapply numbered_unique; eauto. congruence.
Qed.

Lemma numbered_ids l l' : lo_ID <$> l' = lo_ID <$> l -> numbered l -> numbered l'.
Proof.
  intros E Hn i e Hi. assert ((lo_ID <$> l') !! i = Some (lo_ID e)) as H by (by rewrite list_lookup_fmap, Hi).
  rewrite E, list_lookup_fmap in H. destruct (l !! i) as [e'|] eqn:E'; [|done]. cbn in H. injection H as <-. by apply Hn.
Qed.

(** Marking one entry. *)
Definition mark (r : result unit) : LineageOutbox -> LineageOutbox :=
  match r with Ok _ => completed | Err e => failed (err_msg e) end.
Lemma mark_id r e : lo_ID (mark r e) = lo_ID e.
Proof. by destruct r. Qed.

Lemma update_entry_numbered id f db : (forall e, lo_ID (f e) = lo_ID e) -> numbered (ld_outbox db) ->
  numbered (ld_outbox (update_entry id f db)).
Proof.
  intros Hf. apply numbered_ids. cbn. rewrite <- list_fmap_compose. apply list_fmap_ext. intros i e _. cbn.
  by destruct (lo_ID e =? id).
Qed.

(** ** A round of the worker *)

Section Round.
Variable queue : Z -> Transaction -> M Transaction.
Hypothesis queue_safe : forall now t, submitted t -> safe (queue now t).

#[local] Notation work now := (ProcessLineageFromOutbox numeric_float gen pre_hooks acquire EnableQueuedChecks now
  GetTransactionFromQueue enqueue (queue now)).
#[local] Notation entries now := (process_entries numeric_float gen pre_hooks acquire EnableQueuedChecks now
  GetTransactionFromQueue enqueue (queue now)).
#[local] Notation round now := (processBatch numeric_float gen pre_hooks acquire EnableQueuedChecks now
  GetTransactionFromQueue enqueue (queue now)).

(** What a round leaves of an entry it has claimed. *)
Definition handled (e e' : LineageOutbox) : Prop := exists r, e' = mark r e.

Lemma process_entries_cons now e es db :
  entries now (e :: es) db = entries now es (update_entry (lo_ID e) (mark (snd (work now e db))) (fst (work now e db))).
Proof. cbn [process_entries]. by destruct (snd (work now e db)). Qed.

Lemma process_entries_spec now es : forall db past,
  run gen (db :: past) -> numbered (ld_outbox db) -> NoDup (lo_ID <$> es) ->
  let db' := entries now es db in
  (exists past', run gen (db' :: past') /\ db :: past `suffix_of` db' :: past') /\ numbered (ld_outbox db') /\
  forall i e, ld_outbox db !! i = Some e ->
    exists e', ld_outbox db' !! i = Some e' /\ if decide (lo_ID e ∈ lo_ID <$> es) then handled e e' else e' = e.
Proof.
  induction es as [|x es IH]; intros db past Hr Hn Hnd.
  { split; [by exists past|]. split; [done|]. intros i e Hi. exists e. split; [done|]. by case_decide as H; [apply not_elem_of_nil in H|]. }
  rewrite fmap_cons in Hnd. inversion_clear Hnd as [|? ? Hx Hnd']. cbv zeta. rewrite process_entries_cons.
  assert (wp (work now x) any (db :: past)) as Hw by (apply safe_entry, queue_safe).
  destruct (Hw db past eq_refl Hr) as (past1 & R1 & S1 & [Hp Hg] & _).
  set (db1 := fst (work now x db)) in *. set (f := mark (snd (work now x db))).
  set (db2 := update_entry (lo_ID x) f db1).
  assert (run gen (db2 :: db1 :: past1)) as R2 by (apply run_step; [done|]; by apply step_quiet, quiet_refl).
  destruct (IH db2 (db1 :: past1) R2) as ((past3 & R3 & S3) & Hn3 & H3).
  { apply update_entry_numbered; [apply mark_id|by apply Hg]. }
  { done. }
  split; [|split; [done|]].
  { exists past3. split; [done|]. transitivity (db1 :: past1); [done|]. transitivity (db2 :: db1 :: past1); [by exists [db2]|done]. }
  intros i e Hi. apply (prefix_lookup_Some _ (ld_outbox db1)) in Hi; [|done].
  destruct (H3 i (if lo_ID e =? lo_ID x then f e else e)) as (e' & He' & Hh).
  { cbn. by rewrite list_lookup_fmap, Hi. }
  exists e'. split; [done|]. revert Hh. destruct (Z.eqb_spec (lo_ID e) (lo_ID x)) as [E|E].
  - rewrite decide_False by (unfold f; by rewrite mark_id, E). intros ->.
    rewrite decide_True by (rewrite fmap_cons, E; by left). by eexists.
  - intros Hh. destruct (decide (lo_ID e ∈ lo_ID <$> es)) as [H|H].
    + by rewrite decide_True by (rewrite fmap_cons; by right).
    + rewrite decide_False; [done|]. rewrite fmap_cons. by apply not_elem_of_cons.
Qed.

Lemma round_spec now batchSize lockDuration db past :
  run gen (db :: past) -> numbered (ld_outbox db) ->
  let db' := round now batchSize lockDuration db in
  (exists past', run gen (db' :: past') /\ db :: past `suffix_of` db' :: past') /\ numbered (ld_outbox db') /\
  forall i e, ld_outbox db !! i = Some e ->
    exists e', ld_outbox db' !! i = Some e' /\
      ((claimable now e = true /\ handled (claim (now + lockDuration) e) e') \/
       (e' = e /\ (claimable now e = true -> (batchSize <= i)%nat))).
Proof.
  intros Hr Hn. unfold processBatch, ClaimPendingOutboxEntries. cbn [fst snd].
  destruct (claim_first_spec now (now + lockDuration) (ld_outbox db) batchSize) as (H1 & H2 & H3 & H4).
  set (r := claim_first now (now + lockDuration) batchSize (ld_outbox db)) in *.
  set (db1 := {| db with ld_outbox := r.1 |}).
  assert (run gen (db1 :: db :: past)) as R1 by (apply run_step; [done|]; by apply step_quiet, quiet_refl).
  assert (numbered (ld_outbox db1)) as Hn1 by (by eapply numbered_ids).
  pose proof (numbered_NoDup _ Hn) as Hnd.
  destruct (process_entries_spec now r.2 db1 (db :: past) R1 Hn1) as ((past' & R2 & S2) & Hn2 & Hs).
  { by eapply sublist_NoDup. }
  split; [|split; [done|]].
  { exists past'. split; [done|]. transitivity (db1 :: db :: past); [by exists [db1]|done]. }
  intros i e Hi. destruct (H4 i e Hi Hnd) as [(G1 & G2 & G3)|(G1 & G2 & G3)].
  - destruct (Hs i _ G1) as (e' & He' & Hh). exists e'. split; [done|]. left. split; [done|].
    revert Hh. change (lo_ID (claim _ e)) with (lo_ID e). by rewrite decide_True.
  - destruct (Hs i _ G1) as (e' & He' & Hh). exists e'. split; [done|]. right. rewrite decide_False in Hh by done. done.
Qed.

(** ** Rounds *)

Fixpoint rounds (batchSize : nat) (lockDuration : Z) (times : list Z) (db : ledger_db) : ledger_db :=
  match times with
  | [] => db
  | now :: rest => rounds batchSize lockDuration rest (round now batchSize lockDuration db)
  end.

(** An entry that is done, and one that waits for the worker with attempts
    left. *)
Definition settled (e : LineageOutbox) : Prop := lo_Status e = "completed"%string \/ lo_Status e = "failed"%string.
Definition due (e : LineageOutbox) : Prop :=
  (lo_Status e = "pending"%string \/ lo_Status e = "processing"%string) /\ lo_Attempts e < lo_MaxAttempts e /\
  lo_LockedUntil e = None.
(** The columns an entry never changes. *)
Definition same_work (e e' : LineageOutbox) : Prop :=
  e' = {| e with lo_Status := lo_Status e'; lo_Attempts := lo_Attempts e'; lo_LastError := lo_LastError e';
          lo_LockedUntil := lo_LockedUntil e' |}.

Lemma due_claimable now e : due e -> claimable now e = true.
Proof.
  intros (Hs & Ha & Hl). unfold claimable. rewrite Hl. destruct Hs as [-> | ->]; cbn; by apply Z.ltb_lt.
Qed.
Lemma settled_not_claimable now e : settled e -> claimable now e = false.
Proof. by intros [E|E]; unfold claimable; rewrite E. Qed.

(** A claimed entry is done, or has used one of its attempts. *)
Lemma handled_progress until e e' : due e -> handled (claim until e) e' ->
  same_work e e' /\ (settled e' \/ (due e' /\ lo_MaxAttempts e' - lo_Attempts e' = lo_MaxAttempts e - lo_Attempts e - 1)).
Proof.
  intros (_ & Ha & _) [[u|err] ->]; cbn; [split; [done|]; left; by left|]. split; [done|]. unfold settled, due. cbn.
  destruct (Z.leb_spec (lo_MaxAttempts e) (lo_Attempts e + 1)); [left; by right|]. right.
  split; [split; [by left|split; [lia|done]]|lia].
Qed.

Lemma same_work_trans a b c : same_work a b -> same_work b c -> same_work a c.
Proof. unfold same_work. intros -> ->. done. Qed.

Lemma rounds_spec batchSize lockDuration times : forall db past N,
  run gen (db :: past) -> numbered (ld_outbox db) -> (N <= length (ld_outbox db))%nat -> (N <= batchSize)%nat ->
  (forall i e, (i < N)%nat -> ld_outbox db !! i = Some e ->
     settled e \/ (due e /\ lo_MaxAttempts e - lo_Attempts e <= Z.of_nat (length times))) ->
  let db' := rounds batchSize lockDuration times db in
  (exists past', run gen (db' :: past') /\ db :: past `suffix_of` db' :: past') /\
  forall i e, (i < N)%nat -> ld_outbox db !! i = Some e ->
    exists e', ld_outbox db' !! i = Some e' /\ same_work e e' /\ settled e'.
Proof.
  induction times as [|now times IH]; intros db past N Hr Hn HN Hb Hd.
  - split; [by exists past|]. intros i e Hi He. exists e. split; [done|]. split; [by destruct e|].
    destruct (Hd i e Hi He) as [|[(_ & Ha & _) Hle]]; [done|]. cbn in Hle. lia.
  - cbn [rounds]. destruct (round_spec now batchSize lockDuration db past Hr Hn) as ((past1 & R1 & S1) & Hn1 & H1).
    set (db1 := round now batchSize lockDuration db) in *.
    assert (forall i e, (i < N)%nat -> ld_outbox db !! i = Some e -> exists e1, ld_outbox db1 !! i = Some e1 /\
      same_work e e1 /\ (settled e1 \/ (due e1 /\ lo_MaxAttempts e1 - lo_Attempts e1 <= Z.of_nat (length times)))) as Hstep.
    { intros i e Hi He. destruct (H1 i e He) as (e1 & He1 & Hh). exists e1. split; [done|].
      destruct (Hd i e Hi He) as [Hs|[Hdue Hle]].
      - destruct Hh as [[Hc _]|[-> _]]; [by rewrite settled_not_claimable in Hc|]. split; [by destruct e|by left].
      - destruct Hh as [[_ Hh]|[_ Hh]]; [|apply due_claimable with (now := now) in Hdue; apply Hh in Hdue; lia].
        destruct (handled_progress _ _ _ Hdue Hh) as [Hw [Hs|[Hdue1 E]]]; split; auto. right. split; [done|].
        cbn [length] in Hle. lia. }
    assert (N <= length (ld_outbox db1))%nat as HN1.
    { destruct N as [|N]; [lia|]. destruct (lookup_lt_is_Some_2 (ld_outbox db) N) as [e He]; [lia|].
      destruct (Hstep N e) as (e1 & He1 & _); [lia|done|]. apply lookup_lt_Some in He1. lia. }
    destruct (IH db1 past1 N R1 Hn1 HN1 Hb) as ((past2 & R2 & S2) & H2).
    { intros i e1 Hi He1. destruct (lookup_lt_is_Some_2 (ld_outbox db) i) as [e He]; [lia|].
      destruct (Hstep i e Hi He) as (e1' & He1' & _ & Hs). congruence. }
    split; [exists past2; split; [done|by transitivity (db1 :: past1)]|].
    intros i e Hi He. destruct (Hstep i e Hi He) as (e1 & He1 & Hw & _).
    destruct (H2 i e1 Hi He1) as (e2 & He2 & Hw2 & Hs). exists e2. split; [done|].
    split; [by eapply same_work_trans|done].
Qed.
End Round.

Variables (queue_expiry queue_commit : Transaction -> result unit).
Variable json_legs : list PolicyLeg -> string.
Variable json_refs : list string -> string.
Variable resolve_lane : option (string -> string -> string -> string).
Variable BatchSize : Z.

(** The worker has no principal. *)
Definition worker_context : context :=
  {| cx_principal := {| pr_APIKeyID := ""; pr_Master := false; pr_Scopes := [] |}; cx_internal := false; cx_refund := None |}.
Definition worker_queue (now : Z) (t : Transaction) : M Transaction :=
  QueueTransaction numeric_float gen pre_hooks acquire EnableQueuedChecks now GetTransactionFromQueue enqueue queue_expiry
    queue_commit json_legs json_refs resolve_lane BatchSize 1 worker_context t.

End Outbox.

(** ** A credit from a provider *)
Module OutboxWitness.
Import LifecycleWitness RefineWitness.
#[local] Existing Instance DecimalInstance.dnum_ops.

Definition anna : Identity :=
  {| id_IdentityID := "idt_anna_0001"; id_FirstName := "Anna"; id_LastName := "Bell"; id_OrganizationName := "" |}.
Definition with_anna : ledger_db := {| empty_db with ld_identities := {["idt_anna_0001"%string := anna]} |}.
Definition wallet : Balance :=
  {| zero_balance with b_LedgerID := "general_ledger_id"; b_Currency := "USD"; b_IdentityID := "idt_anna_0001";
     b_TrackFundLineage := true |}.
Definition opened : ledger_db := fst (CreateBalance gen with_anna 1 wallet).
(** 100 from a grant to the tracked wallet. *)
Definition grant : Transaction :=
  {| zero_transaction with t_TransactionID := "txn_g"; t_Reference := "grant_1"; t_Source := "@world";
     t_Destination := "bln_0"; t_Currency := "USD"; t_Status := "QUEUED"; t_AllowOverdraft := true;
     t_PreciseAmount := Some 100; t_Precision := f_of_Z 100; t_AmountString := "1"; t_Rate := f_of_Z 1;
     t_MetaData := Some {["LEDGERFORGE_LINEAGE_PROVIDER"%string := JStr "stateaid"]} |}.
Definition granted : ledger_db := fst (recordTransactionSingle gen ok_hooks ok_locks true 7 grant false opened).
Definition legs_text (l : list PolicyLeg) : string := "".
Definition refs_text (l : list string) : string := "".
Definition drain (times : list Z) (db : ledger_db) : ledger_db :=
  rounds gen to_float ok_hooks ok_locks true no_queue ok_hooks
    (worker_queue gen to_float ok_hooks ok_locks true no_queue ok_hooks ok_hooks ok_hooks legs_text refs_text None 100)
    10 30 times db.
Definition times : list Z := [20; 21; 22; 23; 24].
Definition drained : ledger_db := drain times granted.

Lemma granted_run : (exists past, run gen (granted :: past)) /\ numbered (ld_outbox granted).
Proof.
  assert (run gen [with_anna]) as R0 by (by apply run_start).
  assert (run gen [opened; with_anna]) as R1.
  { apply run_step; [exact R0|]. by apply (step_create gen _ _ _ 1 wallet). }
  assert (well_formed grant) as Hw by (split_and!; intros; discriminate).
  assert (wp gen (fun db => recordTransactionSingle gen ok_hooks ok_locks true 7 grant false db) any [opened; with_anna]) as H1
    by apply (wp_record gen ok_hooks ok_locks true 7 grant false _ Hw).
  destruct (H1 _ _ eq_refl R1) as (past & R2 & _ & [_ Hn] & _). split; [exists past; exact R2|].
  apply Hn. intros i e Hi. exfalso. revert Hi. replace (ld_outbox opened) with (@nil LineageOutbox) by (vm_compute; reflexivity).
  by rewrite lookup_nil.
Qed.
Lemma granted_due : Forall (fun e => due e /\ lo_MaxAttempts e - lo_Attempts e <= 5) (ld_outbox granted).
Proof. vm_compute. repeat constructor; discriminate. Qed.

End OutboxWitness.
