(* ===== verification/Recovery.v ===== *)
(** * Queue recovery

    [internal/core/queue_recovery.go] and [database/transaction_recovery.go]:
    transactions that were queued and never executed are found by their age and
    the absence of a child, executed as the worker would, or rejected when they
    are empty or were tried too often. *)
From stdpp Require Import base option list strings gmap sorting.
From Stdlib Require Import ZArith Lia.
From S2P Require Import Prelude GoFloat Model Sha256 GoTime Decimal DecimalInstance Amount Balance Distribution Policy PolicyStore Store Lifecycle Engine Inflight Coalesce Queue Split Lineage Actions Effect Batch Journal Refine FrontDoor Worker DryRun DryRunFacts Reconcile Outbox.
Close Scope Q_scope.
Open Scope Z_scope.
Open Scope engine_scope.

Definition minute : Z := 60 * second.
(** The defaults of [NewQueuedTransactionRecoveryProcessor]. *)
Definition recovery_batchSize : Z := 100.
Definition recovery_stuckThreshold : Z := 120 * minute.
Definition maxRecoveryAttempts : Z := 3.

Definition recoveryStatusRecovered : string := "recovered".
Definition recoveryStatusFailed : string := "failed".
Definition recoveryStatusAlreadyProcessed : string := "already_processed".

(** [t.UTC().Format(time.RFC3339)]: seconds, without a fraction. *)
Definition FormatRFC3339 (t : Z) : string := FormatRFC3339Nano (t - t mod second).

Section Recovery.
Context {Dops : DecimalOps}.
Variable numeric_float : string -> float64.
Variable gen : string -> nat -> string.
Variable pre_hooks : Transaction -> result unit.
Variable acquire : list string -> result unit.
Variables (EnableQueuedChecks : bool) (now : Z) (list_hooks : result unit).
Variables (EnableCoalescing DisableBatchReferenceCheck : bool) (BatchSize : Z).
(** The conversion to [int] of a float out of its range. *)
Variable int_overflow : float64 -> Z.
(** The cached answers of [GetTransactionsByParent], empty where there is none. *)
Variable cached : string -> Z -> Z -> list Transaction.
(** [rollbackBatchTransactions], run by [handleAsyncBulkTransactionFailure] when
    an atomic transaction is rejected; its error is only logged. *)
Variable rollback : string -> bool -> M unit.

#[local] Notation processQueuedTransaction := (processQueuedTransaction numeric_float gen pre_hooks acquire EnableQueuedChecks now
  list_hooks EnableCoalescing DisableBatchReferenceCheck BatchSize).

(** *** [database/transaction_recovery.go] *)

(** Queued before the cutoff, and without a child. *)
Definition stuck_row (db : ledger_db) (cutoff : Z) (r : txn_row) : bool :=
  is_status "QUEUED" r && (x_created_at r <? cutoff)
  && negb (existsb (fun child => String.eqb (x_parent child) (x_id r)) (ld_txns db)).

(** [GetStuckQueuedTransactions]; a row is scanned as for coalescing. *)
Definition GetStuckQueuedTransactions (db : ledger_db) (threshold batchSize : Z) : list Transaction :=
  scan_queued numeric_float <$> take (Z.to_nat batchSize)
    (merge_sort older (filter (fun r => stuck_row db (now - threshold) r) (ld_txns db))).

(** [GetTransactionsByParent]. *)
Definition GetTransactionsByParent (db : ledger_db) (parentID : string) (limit offset : Z) : list Transaction :=
  match cached parentID limit offset with
  | [] => leg_of numeric_float <$> page (filter (fun r => x_parent r = parentID) (ld_txns db)) limit offset
  | l => l
  end.

(** *** [internal/core/queue_recovery.go] *)

(** [RejectTransaction] with the failure handling of an atomic batch. *)
Definition reject_and_rollback (t : Transaction) (reason : string) : M Transaction :=
  let! r := RejectTransaction t reason in
  let! _ := match r.2 with Some parent => rollback parent (t_Inflight r.1) | None => ret tt end in
  ret r.1.

(** [rejectStuckTransaction]. *)
Definition rejectStuckTransaction (t : Transaction) (reason : string) : M unit :=
  let! copy := createQueueCopy gen t (t_Reference t) in
  let! r := try (reject_and_rollback copy reason) in
  match r with
  | Ok _ => ret tt
  | Err e => if IsDuplicateReferenceError e then ret tt else fail e
  end.

(** [updateRecoveryMetadata]; a failed update is only logged. *)
Definition updateRecoveryMetadata (id : string) (md : metadata) (attempts : Z) (status : string) : M unit :=
  let md := <["recovery_attempts"%string := JNum (f_of_Z attempts)]> (<["recovery_status"%string := JStr status]>
              (<["recovery_last_attempt"%string := JStr (FormatRFC3339 now)]> (default ∅ md))) in
  fun db => (UpdateTransactionMetadata id md db, Ok tt).

(** The attempts so far and this one. *)
Definition attempts_of (t : Transaction) : Z :=
  wrap64 (match md_get (t_MetaData t) "recovery_attempts" with Some (JNum f) => to_int64 int_overflow f | _ => 0 end + 1).

(** The guard of an atomic group. *)
Definition rejected_sibling (db : ledger_db) (t : Transaction) : bool :=
  t_Atomic t && negb (String.eqb (t_QueuedParent t) "")
  && existsb (fun s => String.eqb (t_Status s) StatusRejected) (GetTransactionsByParent db (t_QueuedParent t) 100 0).

(** [processStuckTransaction].  The copy that is executed shares its metadata map
    with the transaction, so what a successful execution noted there is written
    back with the attempts. *)
Definition processStuckTransaction (t : Transaction) : M unit :=
  let attempts := attempts_of t in
  if isZeroPreciseAmount t then rejectStuckTransaction t "zero amount"
  else if maxRecoveryAttempts <? attempts then rejectStuckTransaction t "exceeded max queued recovery attempts"
  else
    let! skip := reads (fun db => Ok (rejected_sibling db t)) in
    if skip then ret tt
    else
      let! copy := createQueueCopy gen t (t_Reference t) in
      let! r := try (processQueuedTransaction copy (String.eqb (t_QueueLane copy) LaneHot)) in
      match r with
      | Ok x => updateRecoveryMetadata (t_TransactionID t) (t_MetaData x.2) attempts recoveryStatusRecovered
      | Err e =>
          if IsDuplicateReferenceError e
          then updateRecoveryMetadata (t_TransactionID t) (t_MetaData t) attempts recoveryStatusAlreadyProcessed
          else let! _ := updateRecoveryMetadata (t_TransactionID t) (t_MetaData t) attempts recoveryStatusFailed in fail e
      end.

(** The loop of [recoverWithThreshold]: the recovered and the failures. *)
Fixpoint recover_each (ts : list Transaction) (recovered : Z) (failures : list go_error) : M (Z * list go_error) :=
  match ts with
  | [] => ret (recovered, failures)
  | t :: rest =>
      let! r := try (processStuckTransaction t) in
      match r with
      | Ok _ => recover_each rest (recovered + 1) failures
      | Err e => recover_each rest recovered (failures ++ [wrap (t_TransactionID t +:+ ": ") e])
      end
  end.

(** [recoverWithThreshold]: the count, and the error if any. *)
Definition recoverWithThreshold (threshold : Z) : M (Z * option go_error) :=
  let! stuck := reads (fun db => Ok (GetStuckQueuedTransactions db threshold recovery_batchSize)) in
  match stuck with
  | [] => ret (0, None)
  | _ =>
      let! r := recover_each stuck 0 [] in
      ret (r.1, match r.2 with
                | [] => None
                | fs => Some (wrap ("recovery failed for " +:+ itoa (Z.of_nat (length fs)) +:+ " of "
                          +:+ itoa (Z.of_nat (length stuck)) +:+ " stuck transactions: ") (errors_Join fs))
                end)
  end.

(** [RecoverQueuedTransactions]: a threshold of at least two minutes. *)
Definition RecoverQueuedTransactions (threshold : Z) : M (Z * option go_error) :=
  recoverWithThreshold (if threshold <? 2 * minute then 2 * minute else threshold).
(** [processBatch]: the pass of the background processor. *)
Definition processBatch : M (Z * option go_error) := recoverWithThreshold recovery_stuckThreshold.
End Recovery.

(** ** Rows of a run have distinct ids *)

Lemma inserted_ids db new db' row : inserted db new db' row -> NoDup (x_id <$> ld_txns db) -> NoDup (x_id <$> ld_txns db').
Proof.
  intros Hi Hn. rewrite (ins_txns _ _ _ _ Hi), fmap_app. apply NoDup_app. split_and!; [done| |apply NoDup_singleton].
  intros i (r & -> & Hr)%list_elem_of_fmap Hx%list_elem_of_singleton. revert Hx. destruct (ins_row _ _ _ _ Hi) as [m ->]. by apply (ins_fresh_id _ _ _ _ Hi).
Qed.

Lemma insert_all_ids rows db db' : fold_res insert_transaction rows db = Ok db' ->
  NoDup (x_id <$> ld_txns db) -> NoDup (x_id <$> ld_txns db').
Proof.
  revert db. induction rows as [|r rows IH]; intros db H Hn; cbn [fold_res] in H; [by apply Ok_inj in H as <-|].
  apply res_bind_Ok in H as (db1 & H1 & H). apply insert_inserted in H1 as [row Hi]. eapply IH; [done|by eapply inserted_ids].
Qed.

Section RecoveryFacts.
Context {Dops : DecimalOps} {Dlaws : DecimalLaws}.
Variable gen : string -> nat -> string.

Lemma step_ids trace db db' : ledger_step gen trace db db' -> NoDup (x_id <$> ld_txns db) -> NoDup (x_id <$> ld_txns db').
Proof.
  intros [t s d t1 s1 d1 w t2 Hw Hs Hd Ha Hb Hr|t t2 Hk Hr|ids h h' ts ps r _ _ _ _ _ _ _ H|now b Hz ->|[[f Hq] _]] Hn.
  - apply posting_inv in Hr as (db1 & db2 & ? & ? & ? & ? & ? & row & db3 & U1 & U2 & _ & Hins & _ & Ht & _).
    rewrite Ht. eapply inserted_ids; [done|]. by rewrite (up_txns _ _ _ _ _ U2), (up_txns _ _ _ _ _ U1).
  - unfold RecordTransaction, recordTransactionInTx in Hr. apply res_bind_Ok in Hr as (db1 & H & E).
    apply Ok_inj in E as [= <- _]. destruct (persistNumericColumns t); [|done].
    destruct (insert_transaction _ _) as [db2|] eqn:Ei; [|done]. apply Ok_inj in H as <-.
    apply insert_inserted in Ei as [row Ei]. by eapply inserted_ids.
  - unfold RecordTransactionsWithBalanceSetAndOutboxes in H. apply res_bind_Ok in H as (db1 & H1 & H).
    apply res_bind_Ok in H as (db2 & H2 & H). destruct (insertLineageOutboxesInTx db2 (omap snd ps)) as [db3|] eqn:H3; [|done].
    apply Ok_inj in H as [= -> _]. apply record_all_rows in H2 as [_ H2]. apply outboxes_grow in H3 as (G & _). rewrite G.
    eapply insert_all_ids; [done|]. by rewrite (update_set_rows _ _ _ H1).
  - unfold CreateBalance. cbv zeta. by repeat case_match.
  - rewrite Hq, <- list_fmap_compose. exact Hn.
Qed.

Lemma run_ids db past : run gen (db :: past) -> NoDup (x_id <$> ld_txns db).
Proof.
  remember (db :: past) as tr eqn:E. intros H. revert db past E.
  induction H as [db0 H1 H2|db0 past0 db1 H IH Hs]; intros db past [= <- <-].
  - rewrite H1. constructor.
  - eapply step_ids; [done|by eapply IH].
Qed.

(** *** Recovery is made of steps of a run *)

Variable numeric_float : string -> float64.
Variable pre_hooks : Transaction -> result unit.
Variable acquire : list string -> result unit.
Variables (EnableQueuedChecks : bool) (now : Z) (list_hooks : result unit).
Variables (EnableCoalescing DisableBatchReferenceCheck : bool) (BatchSize : Z).
Variable int_overflow : float64 -> Z.
Variable cached : string -> Z -> Z -> list Transaction.
Variable rollback : string -> bool -> M unit.
#[local] Notation wp := (wp gen).
Hypothesis safe_rollback : forall id inflight trace, wp (rollback id inflight) any trace.

#[local] Notation stuck_transactions := (GetStuckQueuedTransactions numeric_float now).
#[local] Notation process_stuck := (processStuckTransaction numeric_float gen pre_hooks acquire EnableQueuedChecks now list_hooks
  EnableCoalescing DisableBatchReferenceCheck BatchSize int_overflow cached rollback).
#[local] Notation recover_all := (recoverWithThreshold numeric_float gen pre_hooks acquire EnableQueuedChecks now list_hooks
  EnableCoalescing DisableBatchReferenceCheck BatchSize int_overflow cached rollback).

(** [t] was read from a queued row of [db]. *)
Definition read_queued (db : ledger_db) (t : Transaction) : Prop :=
  exists r, r ∈ ld_txns db /\ x_status r = "QUEUED"%string /\ t = scan_queued numeric_float r.

Lemma scan_queued_fields r : t_Status (scan_queued numeric_float r) = x_status r /\
  t_QueueAction (scan_queued numeric_float r) = x_queue_action r /\ t_TransactionID (scan_queued numeric_float r) = x_id r.
Proof.
  unfold scan_queued. cbv zeta. match goal with |- context [ApplyPrecision ?t] => pose proof (ApplyPrecision_same t) as H end.
  unfold same_but_amount in H. rewrite H. done.
Qed.

Lemma stuck_read db threshold size t : t ∈ stuck_transactions db threshold size -> read_queued db t.
Proof.
  unfold GetStuckQueuedTransactions. intros (r & -> & Hr)%list_elem_of_fmap. exists r.
  apply elem_of_take in Hr as (i & Hr & _). apply list_elem_of_lookup_2 in Hr. rewrite merge_sort_Permutation in Hr.
  apply list_elem_of_filter in Hr as [Hs Hr]. unfold stuck_row in Hs. rewrite !andb_True in Hs. destruct Hs as [[Hs _] _].
  apply Is_true_true in Hs. unfold is_status in Hs. apply String.eqb_eq in Hs. done.
Qed.

(** The copy made of it is a job of the queue, then and later. *)
Lemma stuck_copy_is_job db t db' : read_queued db t -> rows_grow db db' -> NoDup (x_id <$> ld_txns db') ->
  forall q, (waiting q \/ settles q) -> t_ParentTransaction q = t_TransactionID t ->
  (t_QueueAction t = StatusCommit <-> t_Status q = StatusCommit) -> queue_job numeric_float db' q.
Proof.
  intros (r & Hr & _ & ->) (f & rows & E) Hn q Hq Hp Hc. destruct (scan_queued_fields r) as (_ & E2 & E3). rewrite E3 in Hp. rewrite E2 in Hc.
  split; [done|]. intros intent Hi _. rewrite <- Hc. unfold GetTransaction in Hi.
  assert (with_meta f r ∈ ld_txns db') as Hin by (rewrite E; apply elem_of_app; left; by apply list_elem_of_fmap_2).
  pose proof (find_txn_unique db' _ Hn Hin) as Hf. change (x_id (with_meta f r)) with (x_id r) in Hf.
  rewrite Hp, Hf in Hi. by apply Ok_inj in Hi as <-.
Qed.

Lemma stuck_copy t db : read_queued db t -> waiting t \/ (t_Status t = StatusQueued /\ t_QueueAction t = StatusCommit).
Proof.
  intros (r & _ & Hs & ->). destruct (scan_queued_fields r) as (E1 & E2 & _). unfold waiting. rewrite E1, E2, Hs.
  destruct (decide (x_queue_action r = StatusCommit)); [by right|left; split; [by left|done]].
Qed.

Lemma safe_update id md attempts status trace : wp (updateRecoveryMetadata now id md attempts status) any trace.
Proof. apply safe_metadata. Qed.
Lemma safe_copy t ref trace : wp (createQueueCopy gen t ref) any trace.
Proof. unfold createQueueCopy. apply safe_then; [intros; apply wp_new_id|]. intros id tr. apply safe_ret. Qed.

Lemma safe_reject_stuck t reason trace : wp (rejectStuckTransaction gen rollback t reason) any trace.
Proof using safe_rollback.
  unfold rejectStuckTransaction, reject_and_rollback. apply safe_then; [apply safe_copy|]. intros q tr.
  apply safe_then.
  - intros tr1. apply safe_try. apply safe_then; [intros; apply wp_reject|]. intros [u [parent|]] tr2; cbn [fst snd].
    + apply safe_then; [apply safe_rollback|intros; apply safe_ret].
    + apply safe_then; [apply safe_ret|intros; apply safe_ret].
  - intros [u|e] tr1; [apply safe_ret|]. destruct (IsDuplicateReferenceError e); [apply safe_ret|apply wp_fail].
Qed.

Lemma wp_process_stuck t trace db : db ∈ trace -> read_queued db t -> wp (process_stuck t) any trace.
Proof using safe_rollback Dlaws.
  intros Hin Hq. unfold processStuckTransaction. cbv zeta.
  destruct (isZeroPreciseAmount t); [apply safe_reject_stuck|]. destruct (_ <? _); [apply safe_reject_stuck|].
  eapply wp_seq; [by apply (wp_reads _ _ any)|]. intros tr skip S1 _. destruct skip; [apply safe_ret|].
  eapply wp_seq; [by apply queue_copy_is_job, (stuck_copy t db)|]. intros tr1 q S2 (J1 & J2 & J3).
  eapply wp_seq.
  - apply safe_try. intros db2 past2 -> Hr.
    assert (db ∈ db2 :: past2) as Hin2.
    { assert (trace `suffix_of` db2 :: past2) as [k ->] by (etrans; eassumption). apply elem_of_app. by right. }
    refine (wp_processQueued numeric_float gen pre_hooks acquire EnableQueuedChecks now list_hooks EnableCoalescing
      DisableBatchReferenceCheck BatchSize db2 past2 q _ _ db2 past2 eq_refl Hr).
    eapply stuck_copy_is_job; [done|by eapply run_rows|by eapply run_ids|done..].
  - intros tr2 [x|e] _ _; [apply safe_update|]. destruct (IsDuplicateReferenceError e); [apply safe_update|].
    apply safe_then; [intros; apply safe_update|intros; apply wp_fail].
Qed.

Lemma wp_recover_each ts recovered failures trace db : db ∈ trace -> Forall (read_queued db) ts ->
  wp (recover_each numeric_float gen pre_hooks acquire EnableQueuedChecks now list_hooks EnableCoalescing
        DisableBatchReferenceCheck BatchSize int_overflow cached rollback ts recovered failures) any trace.
Proof using safe_rollback Dlaws.
  intros Hin Hts. revert recovered failures trace Hin. induction Hts as [|t ts Ht _ IH]; intros n fs trace Hin; cbn [recover_each]; [apply safe_ret|].
  eapply wp_seq; [apply safe_try; by eapply wp_process_stuck|]. intros tr r [k ->] _.
  assert (db ∈ k ++ trace) by (apply elem_of_app; by right). destruct r; by apply IH.
Qed.

Lemma wp_recover threshold trace : wp (recover_all threshold) any trace.
Proof using safe_rollback Dlaws.
  unfold recoverWithThreshold. eapply wp_seq with (P := fun tr ts => exists db, db ∈ tr /\ Forall (read_queued db) ts).
  - apply wp_reads. intros db past ts -> _ E. apply Ok_inj in E as <-. exists db. split; [left|].
    apply Forall_forall. intros t. apply stuck_read.
  - intros tr [|t ts] _ (db & Hin & Hts); [apply safe_ret|]. eapply wp_seq; [by eapply wp_recover_each|]. intros. apply safe_ret.
Qed.

(** *** Nothing is executed twice *)

Lemma copy_reference t ref db : exists q, createQueueCopy gen t ref db = ({| db with ld_ids := S (ld_ids db) |}, Ok q) /\
  t_Reference q = (ref +:+ "_q")%string.
Proof.
  unfold createQueueCopy, bind, new_id, ret. cbv zeta. eexists. split; [reflexivity|]. by destruct (String.eqb _ _).
Qed.

Lemma reject_stuck_taken t reason db : TransactionExistsByRef db (t_Reference t +:+ "_q") = true ->
  ld_txns (fst (rejectStuckTransaction gen rollback t reason db)) = ld_txns db.
Proof.
  intros Href. unfold rejectStuckTransaction. unfold bind at 1. destruct (copy_reference t (t_Reference t) db) as (q & -> & Eq).
  unfold bind, try, reject_and_rollback. destruct (reject_taken q reason {| db with ld_ids := S (ld_ids db) |}) as [e He].
  { by rewrite Eq, (exists_ref_rows db). }
  unfold bind. rewrite He. by destruct (IsDuplicateReferenceError e).
Qed.

(** Recovery executes nothing twice.  When the reference of a stuck
    transaction's copy is already in the journal - the worker or another pass
    executed or rejected it meanwhile - processing it inserts no transaction,
    whatever the branch and the answers of locks, hooks and policies: only
    metadata of stored rows changes. *)
Theorem recovery_repeats_nothing (db : ledger_db) (t : Transaction) :
  TransactionExistsByRef db (t_Reference t +:+ "_q") = true ->
  exists f, ld_txns (fst (process_stuck t db)) = with_meta f <$> ld_txns db.
Proof.
  intros Href. unfold processStuckTransaction. cbv zeta.
  destruct (isZeroPreciseAmount t); [exists x_meta; by rewrite with_meta_id, reject_stuck_taken|].
  destruct (_ <? _); [exists x_meta; by rewrite with_meta_id, reject_stuck_taken|].
  unfold bind at 1, reads. destruct (rejected_sibling _ _ db t); [exists x_meta; by rewrite with_meta_id|].
  unfold bind at 1. destruct (copy_reference t (t_Reference t) db) as (q & -> & Eq). unfold bind at 1, try.
  destruct (queued_taken numeric_float gen pre_hooks acquire EnableQueuedChecks now list_hooks EnableCoalescing
    DisableBatchReferenceCheck BatchSize q (String.eqb (t_QueueLane q) LaneHot) {| db with ld_ids := S (ld_ids db) |}) as (db2 & e & He & Hrows).
  { by rewrite Eq, (exists_ref_rows db). }
  rewrite He. cbn [ld_txns] in Hrows.
  assert (forall md n st, exists f, ld_txns (fst (updateRecoveryMetadata now (t_TransactionID t) md n st db2)) = with_meta f <$> ld_txns db) as Hu.
  { intros md n st. unfold updateRecoveryMetadata. cbv zeta. set (m := <[_ := _]> _).
    exists (fun r => if String.eqb (x_id r) (t_TransactionID t) || String.eqb (x_parent r) (t_TransactionID t)
                     then Some (m ∪ default ∅ (x_meta r)) else x_meta r).
    cbn. rewrite Hrows. apply list_fmap_ext. intros i r _. unfold with_meta. destruct (_ || _); [done|by destruct r]. }
  destruct (IsDuplicateReferenceError e); [apply Hu|]. unfold bind, fail. cbn [fst]. apply Hu.
Qed.
End RecoveryFacts.

(** ** Recovery refines the runs *)

Section RecoveryRefines.
Context {Dops : DecimalOps} {Dlaws : DecimalLaws}.
Variable numeric_float : string -> float64.
Variable gen : string -> nat -> string.
Variable pre_hooks : Transaction -> result unit.
Variable acquire : list string -> result unit.
Variables (EnableQueuedChecks : bool) (now : Z) (list_hooks : result unit).
Variables (EnableCoalescing DisableBatchReferenceCheck : bool) (BatchSize : Z).
Variable int_overflow : float64 -> Z.
Variable cached : string -> Z -> Z -> list Transaction.
Variable GetTransactionFromQueue : string -> result (option Transaction).
Variable enqueue queue_expiry queue_commit : Transaction -> result unit.
Variable json_legs : list PolicyLeg -> string.
Variable json_refs : list string -> string.
Variable resolve_lane : option (string -> string -> string -> string).
Variable cx : context.

(** [handleAsyncBulkTransactionFailure] on an atomic batch. *)
Definition handleAsyncBulkTransactionFailure (batchID : string) (inflight : bool) : M unit :=
  let! _ := try (rollback_with numeric_float gen pre_hooks acquire EnableQueuedChecks now GetTransactionFromQueue json_legs json_refs
    BatchSize (QueueTransaction numeric_float gen pre_hooks acquire EnableQueuedChecks now
      GetTransactionFromQueue enqueue queue_expiry queue_commit json_legs json_refs resolve_lane BatchSize 1) cx batchID inflight) in
  ret tt.

#[local] Notation RecoverQueuedTransactions := (Recovery.RecoverQueuedTransactions numeric_float gen pre_hooks acquire EnableQueuedChecks now list_hooks
  EnableCoalescing DisableBatchReferenceCheck BatchSize int_overflow cached handleAsyncBulkTransactionFailure).

(** C6: recovery refines the runs.  A pass of the queue recovery - up to a
    hundred stuck transactions, each executed alone or as the leader of a
    coalesced batch, rejected with the rollback of its atomic batch, skipped or
    failed, and its attempts noted - changes the store only by steps of a run:
    from any state of a run, the state it leaves is the head of a longer run, so
    the balances still equal the journal.  This holds for every threshold and
    every content of the cache. *)
Theorem recovery_refines_runs (db : ledger_db) (past : list ledger_db) (threshold : Z) :
  run gen (db :: past) ->
  exists past', run gen (fst (RecoverQueuedTransactions threshold db) :: past') /\
    db :: past `suffix_of` fst (RecoverQueuedTransactions threshold db) :: past'.
Proof.
  intros Hr. unfold Recovery.RecoverQueuedTransactions.
  assert (forall id inflight trace, wp gen (handleAsyncBulkTransactionFailure id inflight) any trace) as Hs.
  { intros id inflight trace. unfold handleAsyncBulkTransactionFailure. apply safe_then; [|intros; apply safe_ret].
    intros tr. apply safe_try, safe_rollback. intros. by apply safe_queue. }
  destruct (wp_recover gen numeric_float pre_hooks acquire EnableQueuedChecks now list_hooks EnableCoalescing DisableBatchReferenceCheck
    BatchSize int_overflow cached _ Hs (if threshold <? 2 * minute then 2 * minute else threshold) (db :: past) db past eq_refl Hr)
    as (past' & H1 & H2 & _). by exists past'.
Qed.
End RecoveryRefines.

(** ** On concrete inputs *)

Module RecoveryWitness.
Import LifecycleWitness RefineWitness FrontDoorWitness WorkerWitness.
#[local] Existing Instance DecimalInstance.dnum_ops.
#[local] Existing Instance DecimalInstance.dnum_laws.

Definition no_overflow (f : float64) : Z := 0.
Definition cold_cache (parent : string) (limit offset : Z) : list Transaction := [].
Definition undo (now : Z) : string -> bool -> M unit :=
  handleAsyncBulkTransactionFailure to_float gen ok_hooks ok_locks true now 100 no_queue ok_hooks ok_hooks ok_hooks legs_text
    refs_text None master.
(** A pass of the recovery at [now], with the smallest threshold. *)
Definition recover (now : Z) (db : ledger_db) : ledger_db * result (Z * option go_error) :=
  RecoverQueuedTransactions to_float gen ok_hooks ok_locks true now (Ok tt) false false 100 no_overflow cold_cache (undo now) 0 db.
Definition rows_of (db : ledger_db) : list (string * string * string) := (fun r => (x_reference r, x_parent r, x_status r)) <$> ld_txns db.

(** Two orders whose jobs were lost are executed, and are not stuck any more. *)
Lemma recovery_refines_runs_witness :
  snd (recover (3 * minute) (fst queued2)) = Ok (2, None) /\
  rows_of (fst (recover (3 * minute) (fst queued2))) =
    [("ref_1", "", "QUEUED"); ("ref_2", "", "QUEUED"); ("ref_1_q", "txn_0", "APPLIED"); ("ref_2_q", "txn_4", "APPLIED")]%string /\
  exists past', run gen (fst (recover (3 * minute) (fst queued2)) :: past').
Proof.
  split; [vm_compute; reflexivity|]. split; [vm_compute; reflexivity|]. destruct queued2_run as [past Hr].
  destruct (recovery_refines_runs to_float gen ok_hooks ok_locks true (3 * minute) (Ok tt) false false 100 no_overflow cold_cache
    no_queue ok_hooks ok_hooks ok_hooks legs_text refs_text None master (fst queued2) past 0 Hr) as (past' & H & _).
  exists past'. exact H.
Defined.

(** The first order again, after it was executed. *)
Definition again : Transaction :=
  match find_txn (fst queued2) "txn_0" with Some r => scan_queued to_float r | None => zero_transaction end.

Lemma recovery_repeats_nothing_witness :
  TransactionExistsByRef (fst worked2) (t_Reference again +:+ "_q") = true /\
  exists f, ld_txns (fst (processStuckTransaction to_float gen ok_hooks ok_locks true (3 * minute) (Ok tt) false false 100
    no_overflow cold_cache (undo 8) again (fst worked2))) = with_meta f <$> ld_txns (fst worked2).
Proof.
  split; [vm_compute; reflexivity|].
  apply (recovery_repeats_nothing gen to_float ok_hooks ok_locks true (3 * minute) (Ok tt) false false 100 no_overflow cold_cache (undo 8)
    (fst worked2) again). vm_compute. reflexivity.
Defined.

(** An atomic order of two legs. *)
Definition part (who share : string) : Distribution :=
  {| d_Identifier := who; d_Distribution := share; d_PreciseDistribution := ""; d_TransactionID := "" |}.
Definition atomic_order : Transaction :=
  {| order with t_Destination := ""; t_Atomic := true; t_Destinations := [part "@a" "50%"; part "@b" "left"] |}.
Definition split_queued : ledger_db := fst (enqueue_order empty_db atomic_order).
(** The job of its first leg, whose locks are held each time it is tried. *)
Definition leg_job : ledger_db * result Transaction :=
  match find_txn split_queued "txn_1" with
  | Some r => createQueueCopy gen (scan_queued to_float r) (x_reference r) split_queued
  | None => (split_queued, Err (errors_New ""))
  end.
Definition first_leg : Transaction := match snd leg_job with Ok t => t | Err _ => zero_transaction end.
Definition held_locks (keys : list string) : result unit := Err (sentinel "redlock.ErrLockHeld" "lock already held").
Definition given_up : ledger_db * result outcome :=
  processTransaction to_float gen ok_hooks held_locks true 8 (Ok tt) false false 100 false true false 5 first_leg false 5 (fst leg_job).
Definition leg_rejected : ledger_db * result Transaction :=
  reject_and_rollback (undo 8) first_leg "failed to acquire lock: lock already held" (fst given_up).

End RecoveryWitness.
